(* ===== verification/_CoqProject ===== *)
-Q . S2P
Prelude.v
Rel.v
Types.v
Device.v
Rm.v
Msg.v
RmPool.v
MsgTable.v
Tcam.v
TcamRules.v
Fixtures.v
TcamInv.v
TcamLife.v
TcamEntry.v
TcamGuard.v
TcamSafe.v
TcamCapacity.v
TcamSpec.v
TcamRefine.v
TcamRecover.v
TcamProg.v
TcamConc.v
TcamConcAlloc.v
TcamConcRefine.v
