(* ===== verification/Prelude.v ===== *)
(** * TruFlow TCAM manager (drivers/net/bnxt/tf_core/tf_tcam.c): a verification library

    ** The program

    [tf_tcam.c] is the TCAM module of the Broadcom bnxt TruFlow core.  It
    keeps two file-scope statics, the per-direction database handles
    [tcam_db[TF_DIR_MAX]] and the flag [init], and exports seven entry
    points: [tf_tcam_bind], [tf_tcam_unbind], [tf_tcam_alloc],
    [tf_tcam_free], [tf_tcam_alloc_search], [tf_tcam_set], [tf_tcam_get].
    It owns no allocation state of its own.  Every index lives in a
    database of the resource manager ([tf_rm_create_db], [tf_rm_free_db],
    [tf_rm_allocate], [tf_rm_free], [tf_rm_is_allocated]); the number of
    slices per row comes from the device operation table reached through
    the session ([tf_session_get_session], [tf_session_get_device],
    [dev->ops->tf_dev_get_tcam_slice_info]); entries are written to and
    removed from the device by firmware messages
    ([tf_msg_tcam_entry_set], [tf_msg_tcam_entry_free]).  The index a
    caller sees is the logical index of the resource manager times the
    slice count; [tf_tcam_free] and [tf_tcam_set] divide it back.

    ** The model, file by file (in dependency order)

    - [Prelude] (this file): the C conventions every component shares.
      Unsigned machine integers are [N] with the wrap-around [wrap w n];
      return codes are [Z] (0 for success, [- errno] otherwise); a C
      function over the module's state is a computation [M S A], a state
      transformer that may fault (undefined behaviour, here a division by
      zero); the idiom "for each element, call, return the first non-zero
      code" is [for_each_rc].  The preconditions [wpx E m Q s] (with
      [wp] for total and [wlp] for partial correctness), the triple
      [hoare], their rules, the tactics [wp_core] and [hoare_step] and the
      hint database [tcam] carry the proofs of the other files.
    - [Rel]: runs of a computation from two related states ([mrel]), and
      computations that change only what a relation forgets ([quiet]).
    - [Types]: the enumerations and parameter structures the file
      exchanges with its callers and collaborators ([tf_dir],
      [tf_tcam_cfg_parms], [tf_tcam_alloc_parms], [tf_tcam_free_parms],
      [tf_tcam_set_parms], the [tf_rm_*_parms]), the width of the index
      field as a parameter ([TcamAbi], [idx_bits]), the width of
      [num_slice_per_row] ([SLICE_BITS], 16), and the log as a trace of
      events ([tcam_log], one constructor per [TFP_DRV_LOG] or [printf]
      site of the file).
    - [Device]: the handle [struct tf], its session and device, and the
      operation table with its optional slice query ([tf_dev_ops]); the
      capability contract [slices_ok] (at least one slice, in 16 bits).
    - [Rm]: the resource manager as an interface.  [RmOps] gives the five
      operations over a heap of databases, [RmLaws] their contract on an
      abstract view (a finite map from live handles to databases, a
      database a finite map from table types to pools, a pool a capacity
      and a set of allocated indices), [RmReliable] the further promise
      that a live database is destroyed on request.
    - [Msg]: the two firmware messages as an interface ([MsgOps]) with no
      law, since the code discards their codes.
    - [RmPool], [MsgTable]: reference implementations (bitmaps with first
      fit, a firmware budget and a flag for a firmware that answers; a
      table of entries).  [RmPool] discharges [RmLaws] and, in the heaps
      in which the firmware answers, [RmReliable].
    - [Tcam]: the state [tcam_world] (the statics [tcam_db] and [init],
      the heap of the resource manager, the state of the firmware, the
      log) and one computation per function of [tf_tcam.c], under the
      name of the function, with its guards and early returns in the
      order of the code; [tcam_bind_dir] and [tcam_unbind_dir] are the
      bodies of the two loops, [tcam_slice_info] the lookup of the slice
      count that [tf_tcam_alloc], [tf_tcam_free] and [tf_tcam_set] repeat.
      [tcam_call], [tcam_call_run], [tcam_step] and [tcam_reachable] make
      the module a state machine whose transitions are the calls.
    - [TcamRules]: the weakest-precondition rules of the steps, and the
      tactics ([wp_go], [wp_call], [wp_slice], [rc_case], [rm_spec]).
    - [Fixtures]: concrete devices, handles, configurations and states.
    - [TcamProg]: each function of [tf_tcam.c] a second time, as a
      program: a tree of the steps ([act]) at which the function reads or
      writes [init] or [tcam_db], logs, or calls the resource manager or
      the firmware, under the name of the function with the suffix
      [_prog].  [run] executes a program step after step.
    - [TcamConc]: pools of calls in progress over one state, whose steps
      interleave ([conc_step], [sched_run]).
    - [TcamInv], [TcamLife], [TcamEntry], [TcamGuard], [TcamSafe],
      [TcamCapacity], [TcamSpec], [TcamRefine], [TcamRecover],
      [TcamConcRefine], [TcamConcAlloc], and again [TcamProg] and
      [TcamConc]: the theorems, below.

    ** What the theorems show

    - [TcamInv]: the invariant of the handles, [tcam_wf] ([TF_DIR_MAX]
      slots, each NULL or the handle of a live database, no database in
      two slots), is kept by every call ([tcam_step_wf]) and holds in
      every reachable state ([tcam_reachable_wf]).
    - [TcamLife]: [tf_tcam_bind] and [tf_tcam_unbind] on every path: the
      successes ([tf_tcam_bind_creates], [tf_tcam_unbind_clears]), the
      refusals, the partial failures ([tf_tcam_bind_partial],
      [tf_tcam_unbind_partial]) and what follows them: a retried bind
      leaks a database ([tf_tcam_bind_leaks]), and a bound module with a
      NULL slot can neither be unbound nor bound again
      ([tcam_stuck_no_exit], [tcam_stuck_forever]); and the round trip
      [tf_tcam_bind_unbind].
    - [TcamEntry]: [tf_tcam_alloc], [tf_tcam_free] and [tf_tcam_set] on
      every path, in terms of the pool they work on: what is reserved or
      released, what the caller gets back, when the firmware is called
      and what is logged ([tf_tcam_alloc_reserves],
      [tf_tcam_free_releases], [tf_tcam_set_writes], the error paths);
      the hardware index is exact and divides back when capacity times
      slice count fits the field ([tf_tcam_alloc_fresh]); the round trips
      [tf_tcam_alloc_free] and [tf_tcam_alloc_set]; and, with nothing
      assumed of the slice counts or the width, the entry that the
      release of an index just allocated works on, which is another one
      when the slice count of key size 0 differs or the product wrapped
      ([tf_tcam_alloc_free_other]).  Three examples run such cases
      ([tf_tcam_free_key_size], [tf_tcam_zero_slices],
      [tf_tcam_alloc_wraps]).
    - [TcamGuard]: the checks at the head of the entry points, for all
      of them at once.  [call_guard] and [slice_error] compute from the
      call and the state whether a check fails and what is logged; a call
      that fails one returns its code, writes no parameter, calls no
      collaborator and changes nothing but the log
      ([tcam_call_guarded], [tcam_call_slice_error]).
    - [TcamSafe]: a call fails to return exactly when it divides by a
      slice count of zero, which [call_faults] computes from the call and
      the state ([tcam_call_faults]), and returns through every device
      that keeps the capability contract ([tcam_call_total]); no answer
      of the firmware reaches the caller or the resource manager
      ([tcam_call_fw_independent], a [Proper] instance for the
      equivalence [world_equiv]); the code a call returns is 0 or
      negative when those of the resource manager and of the slice query
      are, and the structure [tf_tcam_alloc] hands back has no field but
      [idx] written ([tcam_call_codes]).
    - [TcamCapacity]: from a pool with room for [c] indices exactly the
      first [c] allocations succeed ([tf_tcam_alloc_capacity]), and after
      a bind [c] is the configured capacity ([tf_tcam_bind_capacity]); no
      index is handed out twice ([tf_tcam_alloc_distinct]); an example
      runs a whole session on the reference implementations
      ([tcam_scenario]).
    - [TcamSpec], [TcamRefine]: the abstract machine [abs_step] on states
      without handles, heap, firmware or log; the code implements it call
      by call ([tcam_refines], a forward simulation through the
      abstraction function [abs_of]) and run by run ([tcam_run_refines]);
      an invariant of the abstract machine holds of the code
      ([tcam_tx_iff_bound]).  The machine has the data model of the
      specification and the behaviour of the code: where the code departs
      from what the specification requires (a release of a free entry
      and a set of one return 0, the stubs return 0, bind and unbind stop
      half way) the machine allows what the code does.  What the
      refinement fixes is the successes.
    - [TcamRecover]: with a resource manager that keeps [RmReliable], one
      [tf_tcam_unbind] brings every reachable state back to the unbound
      one ([tcam_recoverable]).
    - [TcamProg]: run with nothing in between its steps, the program of
      an entry point is the state transformer of [Tcam] (the lemma
      [call_prog_run], which ties the two transcriptions of the code
      together).
    - [TcamConc]: calls of [tf_tcam_alloc], [tf_tcam_free] and
      [tf_tcam_set] in progress together, their steps in any order, leave
      the slots, the flag and the set of live databases alone and never
      pass to the resource manager the handle of a database that is gone
      ([conc_entry_safe]).  A [tf_tcam_unbind] among them breaks this
      in every state from which it succeeds: some order of the steps
      leaves a [tf_tcam_alloc] about to pass the handle of a database
      that is gone ([conc_unbind_dangling]).  A [tf_tcam_free] between
      the steps of a [tf_tcam_set] of the same entry has the firmware
      receive the release and then the write, which neither order of the
      two calls one after the other gives ([conc_set_free_stale]).  A
      pool of one call goes through the states of its run and no other
      ([run_conc], [conc_single]).  Examples run these on the reference
      implementations ([conc_unbind_race], [conc_set_free_race]), and
      two calls of [tf_tcam_bind] that both succeed ([conc_bind_race]).
    - [TcamConcRefine]: the calls of a pool of entry operations take
      effect one at a time, each at one step: the [tf_rm_allocate] or
      [tf_rm_free] that returns 0, or, for a call that changes no
      database, the [tf_rm_is_allocated] that returns 0.  Each effect is
      a step of the abstract machine with code 0, so the state a pool
      reaches is reached by its calls that return 0, made one after the
      other ([conc_entry_serial]).  The invariant [serial_inv] keeps the
      list of the calls that have taken effect, in the order of their
      effects.
    - [TcamConcAlloc]: calls of [tf_tcam_alloc] for one pool in progress
      together.  The invariant [alloc_inv] is a map from the calls to the
      logical indices they hold; a call holds an index exactly when it
      has returned 0, no two hold the same, and the pool holds what it
      held and the indices of the map; everything else is as it was
      ([conc_alloc_distinct], [conc_alloc_no_duplicate]).

    Each theorem that has hypotheses is applied to a state of [Fixtures]
    in a lemma named after it.

    ** Conventions, bounds and assumptions

    A pointer argument that the code checks against NULL is an [option];
    a pointer the callee writes through is a value passed in and
    returned; a handle is a number and [NULL] is 0.  Log lines are events
    of a trace, so that the branch a call took is observable.

    No definition needs fuel: the two loops of the file run over the two
    directions and are structural recursions over [tf_dirs]; every other
    function is straight-line code.  The width of the index field is the
    parameter [idx_bits] (16 in [Fixtures], as [uint16_t idx]); the slice
    count is kept in 16 bits; the theorems that need an index to survive
    the multiplication state the bound they need ([fits]).

    The theorems on the entry points are proved against the contract
    [RmLaws], for every resource manager that keeps it, and for every
    firmware; [tcam_recoverable] assumes [RmReliable] as well, and
    [tcam_call_codes] that the codes of the resource manager are 0 or
    negative.  [RmLaws] is an assumption about [tf_rm_new.c], which is
    not among the sources: a creation that succeeds writes a fresh handle
    through [rm_db] and one that fails leaves the slot as it was;
    [tf_rm_free_db] of NULL fails; [tf_rm_allocate] returns a free index
    below the capacity, and does so exactly when the pool has room.  The
    theorems on capacities and on the stuck state rest on it.  The
    session and the device are modelled from their contract: a lookup
    that fails returns [-EINVAL].

    A field that holds an index ([idx] of the three parameter
    structures) is a natural number; the values a C caller can store in
    the field are among them.  The calls of the collaborators are total
    functions of the collaborator's own state: that they may block is
    not modelled.

    ** Not modelled

    - The text of the log messages and the helpers that format it
      ([tf_dir_2_str], [tf_tcam_tbl_2_str], [strerror]); the line that
      [TF_CHECK_PARMS1] and [TF_CHECK_PARMS2] may log.
    - The shadow databases, which the source has commented out.
    - The code of the resource manager, of the session, of the device
      tables and of the firmware messages: it is in other files, and
      stands here as interfaces with reference implementations.
    - Memory orders and data races.  The module has no synchronisation
      and expects one caller at a time; the interleavings of [TcamConc]
      are a model of callers that do not keep to that, not code of the
      file.  Each read, write and call of a collaborator is one atomic
      step, seen by all at once; what a C compiler or a processor may do
      to unsynchronised accesses to [init] and [tcam_db] beyond that, and
      calls of the resource manager that overlap, are not modelled.  The
      theorems of [TcamConc], [TcamConcRefine] and [TcamConcAlloc] hold
      relative to this.
    - Out-of-range enumerators.  The C enumerations are finite types or
      [N], so a direction outside the array (an out-of-bounds read of
      [tcam_db]) is not representable.
    - The width of the arithmetic on a field narrower than [int].  The
      product in [parms->idx *= num_slice_per_row] is modelled as the
      wrap-around at the width of the field, which is what the store back
      into the field leaves when the product is defined; with a 16-bit
      field C computes it in [int], where it overflows, undefined, above
      2^31 - 1.  What the store through the [uint32_t] pointer to [parms->idx]
      writes past a field narrower than 32 bits is not modelled either.
    - The line that [TF_CHECK_PARMS1] and [TF_CHECK_PARMS2] may log: the
      macros are in [tf_common.h], and a NULL argument is modelled as a
      silent [-EINVAL]. *)

From Stdlib Require Export ZArith NArith Lia.
From stdpp Require Export base tactics option list numbers.

Declare Scope m_scope.
Delimit Scope m_scope with M.

(** ** Error numbers, as <errno.h> of Linux numbers them *)

Definition EINVAL : Z := 22.
Definition EOPNOTSUPP : Z := 95.
Definition ENOMEM : Z := 12.

(** ** Unsigned integers of a given width *)

(** The value a [w]-bit unsigned object holds after [n] is stored in it. *)
Definition wrap (w n : N) : N := (n mod 2 ^ w)%N.

(** [n] is representable in [w] bits. *)
Definition fits (w n : N) : Prop := (n < 2 ^ w)%N.

#[export] Instance fits_dec w n : Decision (fits w n).
Proof. unfold fits. apply _. Defined.

(** ** Computations over a state, with faults *)

(** [m s = None] is a fault (the C program has no defined behaviour);
    [m s = Some (a, s')] is a return of [a] in state [s']. *)
Definition M (S A : Type) : Type := S -> option (A * S).

Definition ret {S A} (a : A) : M S A := fun s => Some (a, s).

Definition bind {S A B} (m : M S A) (k : A -> M S B) : M S B :=
  fun s => match m s with
           | Some (a, s') => k a s'
           | None => None
           end.

Definition gets {S A} (f : S -> A) : M S A := fun s => Some (f s, s).

Definition modify {S} (f : S -> S) : M S unit := fun s => Some (tt, f s).

Definition fault {S A} : M S A := fun _ => None.

Notation "'let*' x ':=' m 'in' k" := (bind m (fun x => k))
  (at level 10, x pattern, m at level 100, k at level 200) : m_scope.

Notation "'do*' m 'in' k" := (bind m (fun _ => k))
  (at level 10, m at level 100, k at level 200) : m_scope.

Open Scope m_scope.

(** The loop [for (x in l) { rc = body(x); if (rc) return rc; }]: the
    value is the first non-zero code, or 0 when every call returned 0. *)
Fixpoint for_each_rc {S A} (body : A -> M S Z) (l : list A) : M S Z :=
  match l with
  | [] => ret 0%Z
  | x :: l' =>
      let* rc := body x in
      if (rc =? 0)%Z then for_each_rc body l' else ret rc
  end.

(** The precondition of [m] for [Q]: run from [s], [m] returns in a
    result and a state of [Q], or faults and [E] holds.  With [E] false it
    is the weakest precondition of total correctness, [wp]: [m] does not
    fault.  With [E] true it is the liberal one, [wlp]: [Q] holds if [m]
    returns. *)
Definition wpx {S A} (E : Prop) (m : M S A) (Q : A -> S -> Prop) (s : S) : Prop :=
  match m s with
  | Some (a, s') => Q a s'
  | None => E
  end.

Abbreviation wp := (wpx False).
Abbreviation wlp := (wpx True).

(** Total correctness: from every state of [P], [m] returns in [Q]. *)
Definition hoare {S A} (P : S -> Prop) (m : M S A) (Q : A -> S -> Prop) : Prop :=
  forall s, P s -> wp m Q s.

(** The state a computation leaves, or the state it started from when it
    faults. *)
Definition exec {S A} (m : M S A) (s : S) : S :=
  match m s with
  | Some (_, s') => s'
  | None => s
  end.

(** [m] never faults. *)
Definition total {S A} (m : M S A) : Prop := forall s, is_Some (m s).

(** ** Automation *)

Create HintDb tcam discriminated.
Create Rewrite HintDb tcam_rw.

(** Unfold the monad's operations in the goal and the hypotheses. *)
Ltac m_simpl :=
  repeat (progress (unfold bind, ret, gets, modify, fault in *; cbn beta iota in *)).

(** Case analysis on the first [match] or [if] of the goal, keeping the
    equation. *)
Ltac m_case :=
  match goal with
  | |- context [match ?x with _ => _ end] =>
      let E := fresh "E" in destruct x eqn:E; simplify_eq/=
  end.

(** ** Unsigned integers: lemmas *)

Section Wrap.
Implicit Types w n m : N.
Local Open Scope N_scope.

Lemma pow2_nonzero w : 2 ^ w <> 0.
Proof. apply N.pow_nonzero. discriminate. Qed.

Lemma wrap_fits w n : fits w (wrap w n).
Proof. apply N.mod_lt, pow2_nonzero. Qed.

Lemma wrap_small w n : fits w n -> wrap w n = n.
Proof. apply N.mod_small. Qed.

Lemma wrap_idem w n : wrap w (wrap w n) = wrap w n.
Proof. apply wrap_small, wrap_fits. Qed.

Lemma wrap_le w n : wrap w n <= n.
Proof. apply N.Div0.mod_le. Qed.

Lemma wrap_eq_iff w n : wrap w n = n <-> fits w n.
Proof. apply N.mod_small_iff, pow2_nonzero. Qed.

Lemma fits_mono w n m : m <= n -> fits w n -> fits w m.
Proof. unfold fits. lia. Qed.

Lemma fits_le_width w w' n : w <= w' -> fits w n -> fits w' n.
Proof.
  unfold fits. intros Hw Hn.
  eapply N.lt_le_trans; [exact Hn|]. apply N.pow_le_mono_r; lia.
Qed.

(** A product that fits is recovered by the division: the scaling of an
    index by a slice count and its inverse. *)
Lemma wrap_mul_div w n m :
  m <> 0 -> fits w (n * m) -> wrap w (n * m) / m = n.
Proof. intros Hm Hf. rewrite wrap_small by done. by apply N.div_mul. Qed.

Lemma div_fits w n m : fits w n -> fits w (n / m).
Proof.
  unfold fits. intros Hn. eapply N.le_lt_trans; [|exact Hn].
  destruct (decide (m = 0)) as [->|Hm].
  - by destruct n.
  - apply N.Div0.div_le_upper_bound. nia.
Qed.
End Wrap.

#[export] Hint Resolve wrap_fits wrap_le div_fits pow2_nonzero : tcam.
#[export] Hint Rewrite wrap_idem : tcam_rw.

(** ** Lists *)

Lemma list_filter_id {A} (P : A -> Prop) `{!forall x, Decision (P x)} (l : list A) :
  Forall P l -> filter P l = l.
Proof. induction 1; [done|]. rewrite filter_cons_True by done. by f_equal. Qed.

(** ** Computations: equations *)

Section Monad.
Context {S : Type}.
Implicit Types s : S.

Lemma bind_ret_l {A B} (a : A) (k : A -> M S B) s : bind (ret a) k s = k a s.
Proof. done. Qed.

Lemma bind_Some {A B} (m : M S A) (k : A -> M S B) s r :
  bind m k s = Some r <-> exists a s', m s = Some (a, s') /\ k a s' = Some r.
Proof.
  unfold bind. split.
  - destruct (m s) as [[a s']|]; [eauto|done].
  - by intros (a & s' & -> & ?).
Qed.

(** A run of [m] whose result is passed through [f]. *)
Lemma bind_ret_Some {A B} (m : M S A) (f : A -> B) s b s' :
  (let* a := m in ret (f a)) s = Some (b, s') ->
  exists a, m s = Some (a, s') /\ b = f a.
Proof.
  unfold bind, ret. destruct (m s) as [[a s1]|]; [|done].
  intros [= <- <-]. eauto.
Qed.

Lemma bind_None {A B} (m : M S A) (k : A -> M S B) s :
  bind m k s = None <->
  m s = None \/ exists a s', m s = Some (a, s') /\ k a s' = None.
Proof.
  unfold bind. destruct (m s) as [[a s']|].
  - split; [eauto|]. by intros [?|(? & ? & [= <- <-] & ?)].
  - split; [by left|done].
Qed.

Lemma for_each_rc_nil {A} (body : A -> M S Z) s :
  for_each_rc body [] s = Some (0%Z, s).
Proof. done. Qed.

Lemma for_each_rc_cons {A} (body : A -> M S Z) x l s :
  for_each_rc body (x :: l) s =
  match body x s with
  | Some (rc, s') =>
      if (rc =? 0)%Z then for_each_rc body l s' else Some (rc, s')
  | None => None
  end.
Proof.
  cbn [for_each_rc]. unfold bind.
  destruct (body x s) as [[rc s']|]; [|done]. by destruct (rc =? 0)%Z.
Qed.
End Monad.

(** ** Weakest preconditions and triples: rules *)

Section Wp.
Context {S : Type}.
Implicit Types (P : S -> Prop) (s : S) (E : Prop).

Lemma wp_ret {A} E (a : A) (Q : A -> S -> Prop) s : wpx E (ret a) Q s <-> Q a s.
Proof. done. Qed.

Lemma wp_bind {A B} E (m : M S A) (k : A -> M S B) Q s :
  wpx E (bind m k) Q s <-> wpx E m (fun a s' => wpx E (k a) Q s') s.
Proof. unfold wpx, bind. by destruct (m s) as [[a s']|]. Qed.

Lemma wp_gets {A} E (f : S -> A) (Q : A -> S -> Prop) s :
  wpx E (gets f) Q s <-> Q (f s) s.
Proof. done. Qed.

Lemma wp_modify E (f : S -> S) (Q : unit -> S -> Prop) s :
  wpx E (modify f) Q s <-> Q tt (f s).
Proof. done. Qed.

Lemma wp_fault {A} E (Q : A -> S -> Prop) s : wpx E fault Q s <-> E.
Proof. done. Qed.

Lemma wp_mono {A} E (m : M S A) (Q Q' : A -> S -> Prop) s :
  wpx E m Q s -> (forall a s', Q a s' -> Q' a s') -> wpx E m Q' s.
Proof. unfold wpx. destruct (m s) as [[a s']|]; auto. Qed.

Lemma wp_conj {A} E (m : M S A) (Q1 Q2 : A -> S -> Prop) s :
  wpx E m Q1 s -> wpx E m Q2 s -> wpx E m (fun a s' => Q1 a s' /\ Q2 a s') s.
Proof. unfold wpx. by destruct (m s) as [[a s']|]. Qed.

(** Total correctness is partial correctness and the absence of
    faults. *)
Lemma wp_wlp {A} (m : M S A) (Q : A -> S -> Prop) s :
  wp m Q s <-> wlp m Q s /\ is_Some (m s).
Proof.
  unfold wpx. destruct (m s) as [[a s']|]; [naive_solver|].
  split; [done|]. by intros [_ [? ?]].
Qed.

(** A run determines the weakest precondition, and conversely. *)
Lemma wp_run {A} (m : M S A) (Q : A -> S -> Prop) s :
  wp m Q s <-> exists a s', m s = Some (a, s') /\ Q a s'.
Proof.
  unfold wpx. destruct (m s) as [[a s']|]; [|naive_solver].
  split; [eauto|]. by intros (? & ? & [= <- <-] & ?).
Qed.

Lemma wlp_run {A} (m : M S A) (Q : A -> S -> Prop) s :
  wlp m Q s <-> forall a s', m s = Some (a, s') -> Q a s'.
Proof.
  unfold wpx. destruct (m s) as [[a s']|]; [|done].
  split; [by intros ? ? ? [= <- <-]|auto].
Qed.

(** What holds of every result holds of the one at hand. *)
Lemma wp_run_inv {A} E (m : M S A) (Q : A -> S -> Prop) s a s' :
  wpx E m Q s -> m s = Some (a, s') -> Q a s'.
Proof. unfold wpx. intros H Hm. by rewrite Hm in H. Qed.

(** What every result satisfies, and the start satisfies too, holds of
    the state a run leaves. *)
Lemma wlp_exec {A} (m : M S A) (Q : S -> Prop) s :
  wlp m (fun _ => Q) s -> Q s -> Q (exec m s).
Proof. unfold wpx, exec. by destruct (m s) as [[a s']|]. Qed.

(** A run with a given result, as a weakest precondition. *)
Lemma wp_is_eq {A} (m : M S A) s a s' :
  wp m (fun b t => b = a /\ t = s') s <-> m s = Some (a, s').
Proof.
  rewrite wp_run. split; [by intros (? & ? & -> & -> & ->)|eauto].
Qed.

(** A run that returns [a], with the state it leaves. *)
Lemma wp_returns {A} (m : M S A) (Q : S -> Prop) s a :
  wp m (fun b s' => b = a /\ Q s') s -> exists s', m s = Some (a, s') /\ Q s'.
Proof. intros (b & s' & Hm & -> & HQ)%wp_run. eauto. Qed.

(** A run that faults, as a precondition: no result is possible. *)
Lemma wp_is_fault {A} (m : M S A) s :
  wlp m (fun _ _ => False) s <-> m s = None.
Proof. unfold wpx. by destruct (m s) as [[a s']|]. Qed.

(** What a run that faults has to satisfy. *)
Lemma wp_fault_inv {A} E (m : M S A) (Q : A -> S -> Prop) s :
  wpx E m Q s -> m s = None -> E.
Proof. unfold wpx. intros H Hm. by rewrite Hm in H. Qed.

Lemma wp_eq {A} (m : M S A) (Q : A -> S -> Prop) s a s' :
  m s = Some (a, s') -> Q a s' -> wp m Q s.
Proof. intros Hm HQ. apply wp_run. eauto. Qed.

Lemma hoare_ret {A} P (a : A) (Q : A -> S -> Prop) :
  (forall s, P s -> Q a s) -> hoare P (ret a) Q.
Proof. intros H s Hs. by apply H. Qed.

Lemma hoare_bind {A B} P (m : M S A) (k : A -> M S B) R Q :
  hoare P m R -> (forall a, hoare (R a) (k a) Q) -> hoare P (bind m k) Q.
Proof.
  intros Hm Hk s Hs. apply wp_bind. eapply wp_mono; [by apply Hm|].
  intros a s'. apply Hk.
Qed.

Lemma hoare_conseq {A} P P' (m : M S A) (Q Q' : A -> S -> Prop) :
  hoare P' m Q' -> (forall s, P s -> P' s) ->
  (forall a s, Q' a s -> Q a s) -> hoare P m Q.
Proof. intros Hm HP HQ s Hs. eapply wp_mono; eauto. Qed.

Lemma hoare_if {A} P (b : bool) (m1 m2 : M S A) Q :
  (b = true -> hoare P m1 Q) -> (b = false -> hoare P m2 Q) ->
  hoare P (if b then m1 else m2) Q.
Proof. destruct b; auto. Qed.

Lemma hoare_conj {A} P (m : M S A) (Q1 Q2 : A -> S -> Prop) :
  hoare P m Q1 -> hoare P m Q2 -> hoare P m (fun a s => Q1 a s /\ Q2 a s).
Proof. intros H1 H2 s Hs. apply wp_conj; auto. Qed.

Lemma hoare_total {A} (m : M S A) :
  hoare (fun _ => True) m (fun _ _ => True) -> total m.
Proof.
  intros H s. specialize (H s I). apply wp_run in H as (a & s' & -> & _).
  eauto.
Qed.

Lemma hoare_run {A} P (m : M S A) Q s :
  hoare P m Q -> P s -> exists a s', m s = Some (a, s') /\ Q a s'.
Proof. intros H Hs. by apply wp_run, H. Qed.

(** The loop rule: an invariant that each call of the body keeps is kept
    by the loop, whatever code it stops on. *)
Lemma hoare_for_each_rc {A} (I : S -> Prop) (body : A -> M S Z) l :
  (forall x, x ∈ l -> hoare I (body x) (fun _ => I)) ->
  hoare I (for_each_rc body l) (fun _ => I).
Proof.
  induction l as [|x l IH]; intros Hbody.
  - by apply hoare_ret.
  - cbn [for_each_rc]. eapply hoare_bind.
    + apply Hbody. by left.
    + intros rc. apply hoare_if; intros _.
      * apply IH. intros y Hy. apply Hbody. by right.
      * by apply hoare_ret.
Qed.

(** The loop returns 0 exactly when every call of the body did; a
    postcondition [I] of the calls that returned 0 then holds of all. *)
Lemma wp_for_each_rc_cons {A} E (body : A -> M S Z) x l Q s :
  wpx E (for_each_rc body (x :: l)) Q s <->
  wpx E (body x)
      (fun rc s' =>
         if (rc =? 0)%Z then wpx E (for_each_rc body l) Q s' else Q rc s')
      s.
Proof.
  cbn [for_each_rc]. rewrite wp_bind. unfold wpx.
  destruct (body x s) as [[rc s']|]; [|done]. by destruct (rc =? 0)%Z.
Qed.

Lemma wp_for_each_rc_nil {A} E (body : A -> M S Z) Q s :
  wpx E (for_each_rc body []) Q s <-> Q 0%Z s.
Proof. done. Qed.

(** The loop rule, for an invariant of the states: each call of the body
    keeps it, so the loop does, whatever code it stops on. *)
Lemma wp_for_each_rc_inv {A} E (I : S -> Prop) (body : A -> M S Z) l s :
  (forall x s', x ∈ l -> I s' -> wpx E (body x) (fun _ => I) s') ->
  I s -> wpx E (for_each_rc body l) (fun _ => I) s.
Proof.
  revert s. induction l as [|x l IH]; intros s Hbody Hs; [done|].
  apply wp_for_each_rc_cons. eapply wp_mono; [apply Hbody; [by left|done]|].
  intros rc s' Hs'. cbn beta. destruct (rc =? 0)%Z; [|done].
  apply IH; [|done]. intros y s'' Hy. apply Hbody. by right.
Qed.

(** The loop rule, for a property of the codes that holds of 0: the loop
    returns 0 or the code of a call of the body. *)
Lemma wp_for_each_rc_code {A} E (P : Z -> Prop) (body : A -> M S Z) l s :
  P 0%Z -> (forall x s', wpx E (body x) (fun rc _ => P rc) s') ->
  wpx E (for_each_rc body l) (fun rc _ => P rc) s.
Proof.
  intros H0 Hbody. revert s. induction l as [|x l IH]; intros s; [done|].
  apply wp_for_each_rc_cons. eapply wp_mono; [apply Hbody|].
  intros rc s' Hrc. cbn beta. by destruct (rc =? 0)%Z.
Qed.
End Wp.

(** The rule of the operation at the head of a weakest precondition. *)
Ltac wp_core :=
  lazymatch goal with
  | |- wpx _ (bind _ _) _ _ => apply (proj2 (wp_bind _ _ _ _ _))
  | |- wpx _ (ret _) _ _ => apply (proj2 (wp_ret _ _ _ _))
  | |- wpx _ (gets _) _ _ => apply (proj2 (wp_gets _ _ _ _))
  | |- wpx _ (modify _) _ _ => apply (proj2 (wp_modify _ _ _ _))
  | |- wpx _ fault _ _ => apply (proj2 (wp_fault _ _ _))
  | |- wpx _ (for_each_rc _ (_ :: _)) _ _ =>
      apply (proj2 (wp_for_each_rc_cons _ _ _ _ _ _))
  | |- wpx _ (for_each_rc _ []) _ _ =>
      apply (proj2 (wp_for_each_rc_nil _ _ _ _))
  end.

(** One step of a proof of a triple: the rule of the head operation. *)
Ltac hoare_step :=
  lazymatch goal with
  | |- hoare _ (bind _ _) _ => eapply hoare_bind
  | |- hoare _ (ret _) _ => apply hoare_ret
  | |- hoare _ (if _ then _ else _) _ => apply hoare_if; intros ?
  | |- hoare _ (for_each_rc _ _) _ => apply hoare_for_each_rc
  end.
