(* ===== verification/Rel.v ===== *)
(** * Rel: runs of a computation from related states

    [mrel RS RA m1 m2] says that [m1] and [m2], started in states related
    by [RS], both fault or both return, with results related by [RA] in
    states related by [RS].  With [RS] an equivalence that forgets part of
    the state, [mrel RS eq m m], which is [Proper (RS ==> ...) m], says
    that what [m] returns and what it leaves of the rest of the state do
    not depend on the forgotten part.  [quiet RS m] says that [m] returns
    and changes only what [RS] forgets. *)

From S2P Require Import Prelude.

Definition mrel {S A} (RS : relation S) (RA : relation A) (m1 m2 : M S A) : Prop :=
  (RS ==> option_Forall2 (prod_relation RA RS))%signature m1 m2.

Definition quiet {S A} (RS : relation S) (m : M S A) : Prop :=
  forall s, exists a s', m s = Some (a, s') /\ RS s s'.

(** The relation on results that forgets them. *)
Definition any {A} : relation A := fun _ _ => True.

Section Rel.
Context {S : Type} (RS : relation S).

Lemma mrel_ret {A} (RA : relation A) a1 a2 :
  RA a1 a2 -> mrel RS RA (ret a1) (ret a2).
Proof. intros Ha s1 s2 Hs. by constructor. Qed.

Lemma mrel_bind {A B} (RA : relation A) (RB : relation B)
    (m1 m2 : M S A) (k1 k2 : A -> M S B) :
  mrel RS RA m1 m2 ->
  (forall a1 a2, RA a1 a2 -> mrel RS RB (k1 a1) (k2 a2)) ->
  mrel RS RB (bind m1 k1) (bind m2 k2).
Proof.
  intros Hm Hk s1 s2 Hs. unfold bind.
  destruct (Hm s1 s2 Hs) as [[a1 s1'] [a2 s2'] [Ha Hs']|]; [|constructor].
  by apply Hk.
Qed.

Lemma mrel_gets {A} (RA : relation A) (f : S -> A) :
  (RS ==> RA)%signature f f -> mrel RS RA (gets f) (gets f).
Proof. intros Hf s1 s2 Hs. constructor. split; [by apply Hf|done]. Qed.

Lemma mrel_modify (f : S -> S) :
  (RS ==> RS)%signature f f -> mrel RS eq (modify f) (modify f).
Proof. intros Hf s1 s2 Hs. constructor. split; [done|by apply Hf]. Qed.

Lemma mrel_fault {A} (RA : relation A) : mrel RS RA fault fault.
Proof. intros s1 s2 Hs. constructor. Qed.

Lemma mrel_for_each_rc {A} (body : A -> M S Z) l :
  (forall x, mrel RS eq (body x) (body x)) ->
  mrel RS eq (for_each_rc body l) (for_each_rc body l).
Proof.
  intros Hb. induction l as [|x l IH]; [by apply mrel_ret|].
  cbn [for_each_rc]. eapply mrel_bind; [apply Hb|].
  intros rc ? <-. destruct (rc =? 0)%Z; [done|by apply mrel_ret].
Qed.

(** Computations that only change what [RS] forgets are related, whatever
    they return. *)
Lemma mrel_quiet `{!Equivalence RS} {A} (m1 m2 : M S A) :
  quiet RS m1 -> quiet RS m2 -> mrel RS any m1 m2.
Proof.
  intros H1 H2 s1 s2 Hs.
  destruct (H1 s1) as (a1 & s1' & -> & Hs1), (H2 s2) as (a2 & s2' & -> & Hs2).
  constructor. split; [done|]. cbn. by rewrite <- Hs1, <- Hs2.
Qed.

Lemma quiet_ret `{!Reflexive RS} {A} (a : A) : quiet RS (ret a).
Proof. intros s. by exists a, s. Qed.

Lemma quiet_bind `{!Transitive RS} {A B} (m : M S A) (k : A -> M S B) :
  quiet RS m -> (forall a, quiet RS (k a)) -> quiet RS (bind m k).
Proof.
  intros Hm Hk s. destruct (Hm s) as (a & s' & Hrun & Hs).
  destruct (Hk a s') as (b & s'' & Hrun' & Hs').
  exists b, s''. unfold bind. rewrite Hrun. split; [done|by etrans].
Qed.

Lemma quiet_modify (f : S -> S) :
  (forall s, RS s (f s)) -> quiet RS (modify f).
Proof. intros Hf s. by exists tt, (f s). Qed.

Lemma quiet_if {A} (b : bool) (m1 m2 : M S A) :
  quiet RS m1 -> quiet RS m2 -> quiet RS (if b then m1 else m2).
Proof. by destruct b. Qed.

(** A run from related states, read off [mrel]. *)
Lemma mrel_run {A} (RA : relation A) (m1 m2 : M S A) s1 s2 a1 s1' :
  mrel RS RA m1 m2 -> RS s1 s2 -> m1 s1 = Some (a1, s1') ->
  exists a2 s2', m2 s2 = Some (a2, s2') /\ RA a1 a2 /\ RS s1' s2'.
Proof.
  intros Hm Hs Hrun. specialize (Hm s1 s2 Hs). rewrite Hrun in Hm.
  inversion Hm as [? [a2 s2'] [Ha Hs'] |]; simplify_eq. by exists a2, s2'.
Qed.
End Rel.
