(* ===== verification/Types.v ===== *)
(** * Types: the data [tf_tcam.c] exchanges with its callers and collaborators

    The enumerations and parameter structures come from headers
    ([tf_core.h], [tf_tcam.h], [tf_rm_new.h]) that the module includes; a
    structure is modelled with the fields [tf_tcam.c] reads or writes, each
    under the C name prefixed by the structure's initials (Rocq has one
    name space for the fields of all records).  A field that holds an
    index is a natural number: the values that fit the C field are among
    them, and a theorem that needs a bound states it.  [tcam_log] is the
    trace of the module's log lines: one constructor per message that a
    [TFP_DRV_LOG] or [printf] call of the file writes. *)

From S2P Require Import Prelude.

(** ** Directions *)

(** [enum tf_dir]: receive (ingress) and transmit (egress). *)
Inductive tf_dir := TF_DIR_RX | TF_DIR_TX.

#[export] Instance tf_dir_eq_dec : EqDecision tf_dir.
Proof. solve_decision. Defined.

(** The number of directions: the size of [tcam_db]. *)
Definition TF_DIR_MAX : nat := 2.

(** The integer value of a direction, the index of its slot in [tcam_db]. *)
Definition dir_index (d : tf_dir) : nat :=
  match d with
  | TF_DIR_RX => 0
  | TF_DIR_TX => 1
  end.

(** The values [i] takes in [for (i = 0; i < TF_DIR_MAX; i++)]. *)
Definition tf_dirs : list tf_dir := [TF_DIR_RX; TF_DIR_TX].

(** ** Pointers *)

(** A [void *] database handle: an address, [NULL] being 0. *)
Definition NULL : N := 0%N.

(** ** Widths *)

(** The width in bits of the field [idx] of [struct tf_tcam_alloc_parms],
    which [tf_tcam.c] passes to the resource manager through a cast to
    [uint32_t *] and multiplies in place.  The header that declares it is
    not part of the sources at hand, so the development is parametric in
    it. *)
Class TcamAbi := MkTcamAbi { idx_bits : N }.

(** The width of [uint16_t num_slice_per_row]. *)
Definition SLICE_BITS : N := 16%N.

(** ** Parameters of the entry points *)

(** [struct tf_tcam_cfg_parms], as [tf_tcam_bind] reads it: the number of
    table types, the element configuration it hands on to the resource
    manager, and [resources->tcam_cnt[dir].cnt], the capacity of each
    table type in each direction. *)
Record tf_tcam_cfg_parms := {
  cfg_num_elements : N;
  cfg_cfg : list N;
  cfg_tcam_cnt : tf_dir -> list N;
}.

(** [struct tf_tcam_alloc_parms]; [alloc_idx] is the out-parameter. *)
Record tf_tcam_alloc_parms := {
  alloc_dir : tf_dir;
  alloc_type : N;
  alloc_key_size : N;
  alloc_idx : N;
}.

(** [struct tf_tcam_free_parms]. *)
Record tf_tcam_free_parms := {
  free_dir : tf_dir;
  free_type : N;
  free_idx : N;
}.

(** [struct tf_tcam_set_parms]: the entry's position and its content. *)
Record tf_tcam_set_parms := {
  set_dir : tf_dir;
  set_type : N;
  set_idx : N;
  set_key_size : N;
  set_key : list N;
  set_mask : list N;
  set_result : list N;
}.

(** ** Parameters of the resource manager's operations *)

(** [struct tf_rm_create_db_parms]; [cdb_rm_db] is what [*rm_db] holds. *)
Record tf_rm_create_db_parms := {
  cdb_dir : tf_dir;
  cdb_num_elements : N;
  cdb_cfg : list N;
  cdb_alloc_cnt : list N;
  cdb_rm_db : N;
}.

(** [struct tf_rm_free_db_parms]. *)
Record tf_rm_free_db_parms := {
  fdb_dir : tf_dir;
  fdb_rm_db : N;
}.

(** [struct tf_rm_allocate_parms]; [al_index] is what [*index] holds. *)
Record tf_rm_allocate_parms := {
  al_rm_db : N;
  al_db_index : N;
  al_index : N;
}.

(** [struct tf_rm_is_allocated_parms]; [ia_allocated] is what
    [*allocated] holds. *)
Record tf_rm_is_allocated_parms := {
  ia_rm_db : N;
  ia_db_index : N;
  ia_index : N;
  ia_allocated : Z;
}.

(** [struct tf_rm_free_parms]. *)
Record tf_rm_free_parms := {
  fr_rm_db : N;
  fr_db_index : N;
  fr_index : N;
}.

(** ** The log *)

(** The lines the module writes, in the order of the source. *)
Inductive tcam_log :=
  | LogAlreadyInitialized
  | LogDbCreationFailed (d : tf_dir)
  | LogInitialized
  | LogNoDbs (d : tf_dir)
  | LogNotSupported (d : tf_dir) (rc : Z)
  | LogAllocFailed (d : tf_dir) (type : N)
  | LogAlreadyFree (d : tf_dir) (type idx : N)
  | LogFreeFailed (d : tf_dir) (type idx : N)
  | LogMsgFreeFailed (d : tf_dir) (type idx : N) (rc : Z)
  | LogNotAllocated (d : tf_dir) (type idx : N)
  | LogMsgSetFailed (d : tf_dir) (type idx : N) (rc : Z).

#[export] Instance tcam_log_eq_dec : EqDecision tcam_log.
Proof. solve_decision. Defined.

(** ** Lemmas *)

Lemma dir_index_lt d : dir_index d < TF_DIR_MAX.
Proof. destruct d; unfold TF_DIR_MAX; cbn; lia. Qed.

Lemma dir_index_inj d1 d2 : dir_index d1 = dir_index d2 -> d1 = d2.
Proof. by destruct d1, d2. Qed.

Lemma tf_dirs_complete d : d ∈ tf_dirs.
Proof. destruct d; unfold tf_dirs; [left|right; left]. Qed.

Lemma tf_dirs_NoDup : NoDup tf_dirs.
Proof. apply (bool_decide_unpack _). by compute. Qed.

Lemma tf_dirs_index : dir_index <$> tf_dirs = seq 0 TF_DIR_MAX.
Proof. done. Qed.

#[export] Hint Resolve dir_index_lt tf_dirs_complete tf_dirs_NoDup : tcam.
