(* ===== verification/Device.v ===== *)
(** * Device: the session and the device capability table

    What [tf_tcam.c] reaches through its first argument [struct tf *tfp]:
    the session ([tf_session_get_session]), the session's device
    ([tf_session_get_device]) and, in the device's operation table
    [dev->ops], the function pointer [tf_dev_get_tcam_slice_info], which
    may be NULL.  These are modelled from their contract (their code is in
    [tf_session.c] and [tf_device.c]): a lookup that fails returns
    [-EINVAL]; the slice query returns a code and the value it leaves in
    [*num_slices_per_row]. *)

From S2P Require Import Prelude Types.

(** [struct tf_dev_ops], reduced to the operation the TCAM module calls;
    [None] is the NULL function pointer.  The function receives the table
    type and the key size. *)
Record tf_dev_ops := {
  tf_dev_get_tcam_slice_info : option (N -> N -> Z * N);
}.

(** [struct tf_dev_info]. *)
Record tf_dev_info := { dev_ops : tf_dev_ops }.

(** [struct tf_session]; the session may have no device bound. *)
Record tf_session := { session_dev : option tf_dev_info }.

(** [struct tf]; the handle may have no session open. *)
Record tf := { tf_session_ptr : option tf_session }.

(** [tf_session_get_session(tfp, &tfs)]: the code on failure, the session
    otherwise. *)
Definition tf_session_get_session (tfp : tf) : Z + tf_session :=
  match tf_session_ptr tfp with
  | None => inl (- EINVAL)%Z
  | Some tfs => inr tfs
  end.

(** [tf_session_get_device(tfs, &dev)]. *)
Definition tf_session_get_device (tfs : tf_session) : Z + tf_dev_info :=
  match session_dev tfs with
  | None => inl (- EINVAL)%Z
  | Some dev => inr dev
  end.

(** The slice query a handle resolves to, when every lookup succeeds. *)
Definition tf_slice_query (tfp : tf) : option (N -> N -> Z * N) :=
  match tf_session_get_session tfp with
  | inl _ => None
  | inr tfs =>
      match tf_session_get_device tfs with
      | inl _ => None
      | inr dev => tf_dev_get_tcam_slice_info (dev_ops dev)
      end
  end.

(** The capability contract: a query that succeeds reports at least one
    slice per row, in 16 bits. *)
Definition slices_ok (q : N -> N -> Z * N) : Prop :=
  forall type key_size n,
    q type key_size = (0%Z, n) -> n <> 0%N /\ fits SLICE_BITS n.

(** The slice count depends on the table type alone: what [tf_tcam_free],
    which queries with key size 0, relies on. *)
Definition slices_by_type (q : N -> N -> Z * N) : Prop :=
  forall type k1 k2, q type k1 = q type k2.

(** A handle with a session, a device and a slice query [q]. *)
Definition tf_of_query (q : N -> N -> Z * N) : tf :=
  {| tf_session_ptr := Some
       {| session_dev := Some
            {| dev_ops := {| tf_dev_get_tcam_slice_info := Some q |} |} |} |}.

(** ** Lemmas *)

Lemma tf_session_get_session_err tfp rc :
  tf_session_get_session tfp = inl rc -> rc = (- EINVAL)%Z.
Proof. unfold tf_session_get_session. by case_match; intros [= <-]. Qed.

Lemma tf_session_get_device_err tfs rc :
  tf_session_get_device tfs = inl rc -> rc = (- EINVAL)%Z.
Proof. unfold tf_session_get_device. by case_match; intros [= <-]. Qed.

Lemma tf_slice_query_of_query q : tf_slice_query (tf_of_query q) = Some q.
Proof. done. Qed.
