(* ===== verification/Rm.v ===== *)
(** * Rm: the resource manager's index databases, as an interface

    [tf_tcam.c] calls five operations of the resource manager
    ([tf_rm_new.c]): [tf_rm_create_db], [tf_rm_free_db], [tf_rm_allocate],
    [tf_rm_free] and [tf_rm_is_allocated].  Their code is not part of the
    sources at hand, so they are an interface: [RmOps] gives their
    signatures over a heap of databases, and [RmLaws] their contract in
    terms of an abstract view of that heap, a finite map from live handles
    to databases, a database being a finite map from table types to pools,
    a pool being a capacity and the set of allocated indices.  The theorems
    on the TCAM module are proved against [RmLaws]; [RmPool] implements it.
    A parameter the C operation writes through a pointer is returned next
    to the code. *)

From stdpp Require Export gmap.
From S2P Require Import Prelude Types Device.

(** ** The abstract view *)

(** A pool of indices: its capacity and the indices in use. *)
Record rm_pool := { pool_size : N; pool_used : gset N }.

Abbreviation rm_db := (gmap N rm_pool).
Abbreviation rm_view_t := (gmap N (gmap N rm_pool)).

Definition pool_new (cnt : N) : rm_pool :=
  {| pool_size := cnt; pool_used := ∅ |}.

Definition pool_alloc (i : N) (pl : rm_pool) : rm_pool :=
  {| pool_size := pool_size pl; pool_used := {[i]} ∪ pool_used pl |}.

Definition pool_free (i : N) (pl : rm_pool) : rm_pool :=
  {| pool_size := pool_size pl; pool_used := pool_used pl ∖ {[i]} |}.

(** The number of indices a pool can still hand out. *)
Definition pool_room (pl : rm_pool) : N :=
  (pool_size pl - N.of_nat (size (pool_used pl)))%N.

(** The database [tf_rm_create_db] builds: a pool for each of the first
    [num_elements] entries of [alloc_cnt], empty, of that capacity. *)
Definition db_new (num_elements : N) (alloc_cnt : list N) : rm_db :=
  list_to_map
    (imap (fun i cnt => (N.of_nat i, pool_new cnt))
          (take (N.to_nat num_elements) alloc_cnt)).

(** The pool of table type [t] in the database of handle [h]. *)
Definition view_pool (v : rm_view_t) (h t : N) : option rm_pool :=
  v !! h ≫= fun db => db !! t.

Definition view_set_pool (v : rm_view_t) (h t : N) (pl : rm_pool) : rm_view_t :=
  alter (fun db => <[t := pl]> db) h v.

(** Index [i] of type [t] is allocated in the database of handle [h]. *)
Definition view_allocated (v : rm_view_t) (h t i : N) : Prop :=
  exists pl, view_pool v h t = Some pl /\ i ∈ pool_used pl.

(** ** The operations *)

Class RmOps := {
  rm_heap : Type;
  rm_view : rm_heap -> rm_view_t;
  (** the code and the new content of [*parms->rm_db] *)
  tf_rm_create_db : tf -> tf_rm_create_db_parms -> rm_heap -> Z * N * rm_heap;
  tf_rm_free_db : tf -> tf_rm_free_db_parms -> rm_heap -> Z * rm_heap;
  (** the code and the new content of [*parms->index] *)
  tf_rm_allocate : tf_rm_allocate_parms -> rm_heap -> Z * N * rm_heap;
  tf_rm_free : tf_rm_free_parms -> rm_heap -> Z * rm_heap;
  (** the code and the new content of [*parms->allocated]; no effect *)
  tf_rm_is_allocated : tf_rm_is_allocated_parms -> rm_heap -> Z * Z;
}.

(** ** The contract *)

Class RmLaws (R : RmOps) : Prop := {
  (** NULL is the handle of no database. *)
  rm_null_dead hp : rm_view hp !! NULL = None;
  (** Creation yields a fresh handle on a new database, or fails and
      leaves the handle and the heap as they were. *)
  rm_create_db_spec tfp p hp rc h hp' :
    tf_rm_create_db tfp p hp = (rc, h, hp') ->
    if decide (rc = 0%Z)
    then rm_view hp !! h = None /\
         rm_view hp' =
           <[h := db_new (cdb_num_elements p) (cdb_alloc_cnt p)]> (rm_view hp)
    else (h = cdb_rm_db p /\ rm_view hp' = rm_view hp);
  (** Destruction removes a live database, or fails with no effect. *)
  rm_free_db_spec tfp p hp rc hp' :
    tf_rm_free_db tfp p hp = (rc, hp') ->
    if decide (rc = 0%Z)
    then is_Some (rm_view hp !! fdb_rm_db p) /\
         rm_view hp' = delete (fdb_rm_db p) (rm_view hp)
    else rm_view hp' = rm_view hp;
  (** Allocation marks an index below the capacity that was free, in a
      pool that had room, or fails with no effect. *)
  rm_allocate_spec p hp rc i hp' :
    tf_rm_allocate p hp = (rc, i, hp') ->
    if decide (rc = 0%Z)
    then exists pl,
           view_pool (rm_view hp) (al_rm_db p) (al_db_index p) = Some pl /\
           (i < pool_size pl)%N /\ (i ∉ pool_used pl) /\
           pool_room pl <> 0%N /\
           rm_view hp' =
             view_set_pool (rm_view hp) (al_rm_db p) (al_db_index p)
                           (pool_alloc i pl)
    else (i = al_index p /\ rm_view hp' = rm_view hp);
  (** Allocation succeeds in a pool that has room. *)
  rm_allocate_room p hp pl :
    view_pool (rm_view hp) (al_rm_db p) (al_db_index p) = Some pl ->
    pool_room pl <> 0%N ->
    (tf_rm_allocate p hp).1.1 = 0%Z;
  (** Release unmarks an allocated index, or fails with no effect. *)
  rm_free_spec p hp rc hp' :
    tf_rm_free p hp = (rc, hp') ->
    if decide (rc = 0%Z)
    then exists pl,
           view_pool (rm_view hp) (fr_rm_db p) (fr_db_index p) = Some pl /\
           fr_index p ∈ pool_used pl /\
           rm_view hp' =
             view_set_pool (rm_view hp) (fr_rm_db p) (fr_db_index p)
                           (pool_free (fr_index p) pl)
    else rm_view hp' = rm_view hp;
  (** Release of an allocated index succeeds. *)
  rm_free_allocated p hp :
    view_allocated (rm_view hp) (fr_rm_db p) (fr_db_index p) (fr_index p) ->
    (tf_rm_free p hp).1 = 0%Z;
  (** The query succeeds exactly on an existing pool, and then reports
      whether the index is in use, as 1 or 0. *)
  rm_is_allocated_spec p hp rc a :
    tf_rm_is_allocated p hp = (rc, a) ->
    match view_pool (rm_view hp) (ia_rm_db p) (ia_db_index p) with
    | Some pl =>
        rc = 0%Z /\ a = if decide (ia_index p ∈ pool_used pl) then 1%Z else 0%Z
    | None => rc <> 0%Z /\ a = ia_allocated p
    end;
}.

(** ** A resource manager that destroys what it is asked to *)

(** The contract lets the destruction of a live database fail, as it does
    when the entries still allocated cannot be flushed through the
    firmware.  [rm_reliable] holds of the heaps in which it does not: no
    operation leaves them, and there a live database is destroyed on
    request. *)
Class RmReliable (R : RmOps) := {
  rm_reliable : rm_heap -> Prop;
  rm_reliable_create_db tfp p hp rc h hp' :
    tf_rm_create_db tfp p hp = (rc, h, hp') -> rm_reliable hp -> rm_reliable hp';
  rm_reliable_free_db tfp p hp rc hp' :
    tf_rm_free_db tfp p hp = (rc, hp') -> rm_reliable hp -> rm_reliable hp';
  rm_reliable_allocate p hp rc i hp' :
    tf_rm_allocate p hp = (rc, i, hp') -> rm_reliable hp -> rm_reliable hp';
  rm_reliable_free p hp rc hp' :
    tf_rm_free p hp = (rc, hp') -> rm_reliable hp -> rm_reliable hp';
  rm_free_db_live tfp p hp :
    rm_reliable hp -> is_Some (rm_view hp !! fdb_rm_db p) ->
    (tf_rm_free_db tfp p hp).1 = 0%Z;
}.

(** ** Lemmas on the view *)

Section View.
Implicit Types (v : rm_view_t) (h t i : N) (pl : rm_pool).

Lemma view_pool_Some v h t pl :
  view_pool v h t = Some pl <-> exists db, v !! h = Some db /\ db !! t = Some pl.
Proof.
  unfold view_pool. destruct (v !! h) as [db|]; cbn; naive_solver.
Qed.

Lemma view_pool_dead v h t : v !! h = None -> view_pool v h t = None.
Proof. unfold view_pool. by intros ->. Qed.

Lemma view_pool_set_eq v h t pl :
  is_Some (v !! h) -> view_pool (view_set_pool v h t pl) h t = Some pl.
Proof.
  intros [db Hdb]. unfold view_pool, view_set_pool.
  rewrite lookup_alter_eq, Hdb. cbn. by rewrite lookup_insert_eq.
Qed.

Lemma view_pool_set_ne v h t h' t' pl :
  (h, t) <> (h', t') ->
  view_pool (view_set_pool v h t pl) h' t' = view_pool v h' t'.
Proof.
  intros Hne. unfold view_pool, view_set_pool.
  destruct (decide (h = h')) as [<-|Hh].
  - rewrite lookup_alter_eq. destruct (v !! h) as [db|]; cbn; [|done].
    rewrite lookup_insert_ne; [done|congruence].
  - by rewrite lookup_alter_ne.
Qed.

Lemma view_set_pool_dom v h t pl : dom (view_set_pool v h t pl) = dom v.
Proof. unfold view_set_pool. apply dom_alter_L. Qed.

Lemma view_pool_insert_eq v h (db : rm_db) t :
  view_pool (<[h := db]> v) h t = db !! t.
Proof. unfold view_pool. by rewrite lookup_insert_eq. Qed.

Lemma view_pool_insert_ne v h h' (db : rm_db) t :
  h <> h' -> view_pool (<[h := db]> v) h' t = view_pool v h' t.
Proof. intros. unfold view_pool. by rewrite lookup_insert_ne. Qed.

Lemma view_pool_delete_ne v h h' t :
  h <> h' -> view_pool (delete h v) h' t = view_pool v h' t.
Proof. intros. unfold view_pool. by rewrite lookup_delete_ne. Qed.

(** Releasing the index an allocation marked restores the pool. *)
Lemma pool_free_alloc i pl :
  i ∉ pool_used pl -> pool_free i (pool_alloc i pl) = pl.
Proof.
  intros Hi. destruct pl as [n u]. unfold pool_free, pool_alloc; cbn in *.
  f_equal. set_solver.
Qed.

Lemma view_set_pool_twice v h t pl pl' :
  view_set_pool (view_set_pool v h t pl) h t pl' = view_set_pool v h t pl'.
Proof.
  unfold view_set_pool. rewrite alter_alter_eq. apply alter_ext.
  intros db _. cbn. apply insert_insert_eq.
Qed.

Lemma view_set_pool_id v h t pl :
  view_pool v h t = Some pl -> view_set_pool v h t pl = v.
Proof.
  intros (db & Hdb & Ht)%view_pool_Some. unfold view_set_pool.
  apply map_eq. intros h'. destruct (decide (h = h')) as [<-|].
  - rewrite lookup_alter_eq, Hdb. cbn. by rewrite insert_id.
  - by rewrite lookup_alter_ne.
Qed.

Lemma pool_room_alloc i pl :
  i ∉ pool_used pl -> pool_room pl <> 0%N ->
  pool_room (pool_alloc i pl) = (pool_room pl - 1)%N.
Proof.
  intros Hi Hr. unfold pool_room, pool_alloc in *; cbn.
  rewrite size_union by set_solver. rewrite size_singleton. lia.
Qed.

Lemma pool_room_free i pl :
  i ∈ pool_used pl ->
  (N.of_nat (size (pool_used pl)) <= pool_size pl)%N ->
  pool_room (pool_free i pl) = (pool_room pl + 1)%N.
Proof.
  intros Hi Hle. unfold pool_room, pool_free in *; cbn.
  rewrite size_difference by set_solver. rewrite size_singleton.
  assert (size (pool_used pl) <> 0) by (apply size_non_empty_iff; set_solver).
  lia.
Qed.

(** A table built from a list, keyed by position. *)
Lemma lookup_imap_from {X} (f : X -> rm_pool) (l : list X) (k : nat) t :
  (list_to_map (imap (fun (ix : nat) x => (N.of_nat (k + ix), f x)) l)
     : rm_db) !! t =
  if decide (N.of_nat k <= t)%N then f <$> l !! (N.to_nat t - k) else None.
Proof.
  revert k; induction l as [|c l IH]; intros k; cbn.
  - rewrite lookup_empty. by case_decide.
  - destruct (decide (N.of_nat (k + 0) = t)) as [<-|Hne].
    + rewrite lookup_insert_eq. rewrite decide_True by lia.
      by replace (N.to_nat (N.of_nat (k + 0)) - k) with 0 by lia.
    + rewrite lookup_insert_ne by done.
      rewrite (imap_ext _ (fun (ix : nat) x => (N.of_nat (S k + ix), f x))).
      2:{ intros; cbn. do 2 f_equal. lia. }
      rewrite IH. repeat case_decide; try lia; [|done].
      by replace (N.to_nat t - k) with (S (N.to_nat t - S k)) by lia.
Qed.

Lemma lookup_imap {X} (f : X -> rm_pool) (l : list X) t :
  (list_to_map (imap (fun (ix : nat) x => (N.of_nat ix, f x)) l) : rm_db) !! t
  = f <$> l !! N.to_nat t.
Proof.
  etrans; [apply (lookup_imap_from f l 0 t)|].
  rewrite decide_True by lia. by rewrite Nat.sub_0_r.
Qed.

(** The new database has a pool for each type below [n] that the
    capacity table covers, empty and of the table's capacity. *)
Lemma db_new_lookup n cnts t :
  db_new n cnts !! t =
  if decide (t < n)%N then pool_new <$> cnts !! N.to_nat t else None.
Proof.
  unfold db_new. rewrite lookup_imap. case_decide.
  - by rewrite lookup_take_lt by lia.
  - by rewrite lookup_take_ge by lia.
Qed.
End View.

#[export] Hint Rewrite view_pool_insert_eq view_set_pool_dom : tcam_rw.
#[export] Hint Resolve view_pool_dead : tcam.
