(* ===== verification/Msg.v ===== *)
(** * Msg: the firmware messages for TCAM entries, as an interface

    [tf_tcam.c] calls two functions of the firmware message layer
    ([tf_msg.c]): [tf_msg_tcam_entry_set], which writes an entry, and
    [tf_msg_tcam_entry_free], which removes one.  Each receives the
    caller's parameter structure unchanged and returns a code.  [MsgOps]
    gives their signatures over the state of the firmware; the TCAM module
    relies on no law of theirs, since it discards their code. *)

From S2P Require Import Prelude Types Device.

Class MsgOps := {
  fw_state : Type;
  tf_msg_tcam_entry_set : tf -> tf_tcam_set_parms -> fw_state -> Z * fw_state;
  tf_msg_tcam_entry_free : tf -> tf_tcam_free_parms -> fw_state -> Z * fw_state;
}.
