(* ===== verification/RmPool.v ===== *)
(** * RmPool: a reference implementation of the resource manager interface

    A database is a bitmap per table type, bit [i] set when index [i] is
    allocated; the heap maps handles to databases and records how many
    entries the firmware can still reserve and whether it answers.
    Allocation is first fit, as a bit allocator does it.  Creation fails
    with [-ENOMEM] when the request exceeds what the firmware has left;
    destruction of a database that still holds allocated entries has to
    flush them through the firmware and fails with [-EIO] when it does not
    answer.  The implementation discharges [RmLaws]; it is what the
    theorems of the development are evaluated on. *)

From S2P Require Import Prelude Types Device Rm.

(** ** Bitmaps *)

(** The first clear bit. *)
Fixpoint first_free (bits : list bool) : option nat :=
  match bits with
  | [] => None
  | b :: bits' => if b then S <$> first_free bits' else Some 0
  end.

(** The indices of the set bits. *)
Definition used_set (bits : list bool) : gset N :=
  list_to_set
    (N.of_nat <$> filter (fun i => bits !! i = Some true) (seq 0 (length bits))).

Definition pool_view (bits : list bool) : rm_pool :=
  {| pool_size := N.of_nat (length bits); pool_used := used_set bits |}.

Definition db_view (db : list (list bool)) : gmap N rm_pool :=
  list_to_map (imap (fun i bits => (N.of_nat i, pool_view bits)) db).

(** ** The heap *)

Record pool_heap := {
  hp_dbs : gmap N (list (list bool));
  hp_budget : N;
  hp_fw_up : bool;
}.

Definition pool_heap_view (hp : pool_heap) : gmap N (gmap N rm_pool) :=
  delete NULL (db_view <$> hp_dbs hp).

(** A handle no database has: one more than the largest in use. *)
Definition fresh_handle (dbs : gmap N (list (list bool))) : N :=
  N.succ (map_fold (fun h _ acc => N.max h acc) 0%N dbs).

Definition EIO : Z := 5.

(** The entries a database holds in all, and whether any is allocated. *)
Definition db_entries (db : list (list bool)) : N :=
  foldr (fun bits acc => (N.of_nat (length bits) + acc)%N) 0%N db.

Definition db_residual (db : list (list bool)) : bool :=
  bool_decide (Exists (fun bits => true ∈ bits) db).

(** ** The operations *)

Definition pool_create_db (tfp : tf) (p : tf_rm_create_db_parms) (hp : pool_heap)
  : Z * N * pool_heap :=
  let cnts := take (N.to_nat (cdb_num_elements p)) (cdb_alloc_cnt p) in
  let db := (fun cnt => replicate (N.to_nat cnt) false) <$> cnts in
  if decide (db_entries db <= hp_budget hp)%N then
    let h := fresh_handle (hp_dbs hp) in
    (0%Z, h,
     {| hp_dbs := <[h := db]> (hp_dbs hp);
        hp_budget := (hp_budget hp - db_entries db)%N;
        hp_fw_up := hp_fw_up hp |})
  else ((- ENOMEM)%Z, cdb_rm_db p, hp).

Definition pool_free_db (tfp : tf) (p : tf_rm_free_db_parms) (hp : pool_heap)
  : Z * pool_heap :=
  if decide (fdb_rm_db p = NULL) then ((- EINVAL)%Z, hp)
  else
    match hp_dbs hp !! fdb_rm_db p with
    | None => ((- EINVAL)%Z, hp)
    | Some db =>
        if db_residual db && negb (hp_fw_up hp) then ((- EIO)%Z, hp)
        else
          (0%Z,
           {| hp_dbs := delete (fdb_rm_db p) (hp_dbs hp);
              hp_budget := (hp_budget hp + db_entries db)%N;
              hp_fw_up := hp_fw_up hp |})
    end.

(** The bitmap of type [t] in the database of handle [h]. *)
Definition pool_lookup (hp : pool_heap) (h t : N) : option (list bool) :=
  if decide (h = NULL) then None
  else hp_dbs hp !! h ≫= fun db => db !! N.to_nat t.

Definition pool_update (hp : pool_heap) (h t : N) (bits : list bool) : pool_heap :=
  {| hp_dbs := alter (fun db => <[N.to_nat t := bits]> db) h (hp_dbs hp);
     hp_budget := hp_budget hp;
     hp_fw_up := hp_fw_up hp |}.

Definition pool_allocate (p : tf_rm_allocate_parms) (hp : pool_heap)
  : Z * N * pool_heap :=
  match pool_lookup hp (al_rm_db p) (al_db_index p) with
  | None => ((- EINVAL)%Z, al_index p, hp)
  | Some bits =>
      match first_free bits with
      | None => ((- ENOMEM)%Z, al_index p, hp)
      | Some i =>
          (0%Z, N.of_nat i,
           pool_update hp (al_rm_db p) (al_db_index p) (<[i := true]> bits))
      end
  end.

Definition pool_free_index (p : tf_rm_free_parms) (hp : pool_heap)
  : Z * pool_heap :=
  match pool_lookup hp (fr_rm_db p) (fr_db_index p) with
  | None => ((- EINVAL)%Z, hp)
  | Some bits =>
      if decide (bits !! N.to_nat (fr_index p) = Some true) then
        (0%Z,
         pool_update hp (fr_rm_db p) (fr_db_index p)
                     (<[N.to_nat (fr_index p) := false]> bits))
      else ((- EINVAL)%Z, hp)
  end.

Definition pool_is_allocated (p : tf_rm_is_allocated_parms) (hp : pool_heap)
  : Z * Z :=
  match pool_lookup hp (ia_rm_db p) (ia_db_index p) with
  | None => ((- EINVAL)%Z, ia_allocated p)
  | Some bits =>
      (0%Z, if decide (bits !! N.to_nat (ia_index p) = Some true) then 1%Z else 0%Z)
  end.

#[export] Instance pool_rm : RmOps := {|
  rm_heap := pool_heap;
  rm_view := pool_heap_view;
  tf_rm_create_db := pool_create_db;
  tf_rm_free_db := pool_free_db;
  tf_rm_allocate := pool_allocate;
  tf_rm_free := pool_free_index;
  tf_rm_is_allocated := pool_is_allocated;
|}.

(** A heap with no database. *)
Definition pool_heap_empty (budget : N) : pool_heap :=
  {| hp_dbs := ∅; hp_budget := budget; hp_fw_up := true |}.
(** ** Bitmaps and views: lemmas *)

Section Bitmaps.
Implicit Types (bits : list bool) (k : nat) (i : N).

Lemma elem_of_used_set bits i :
  i ∈ used_set bits <-> bits !! N.to_nat i = Some true.
Proof.
  unfold used_set. rewrite elem_of_list_to_set, list_elem_of_fmap. split.
  - intros (k & -> & Hk). apply list_elem_of_filter in Hk as [Hk _].
    by rewrite Nat2N.id.
  - intros Hi. exists (N.to_nat i). split; [by rewrite N2Nat.id|].
    apply list_elem_of_filter. split; [done|].
    apply elem_of_seq. apply lookup_lt_Some in Hi. lia.
Qed.

Lemma used_set_insert_true bits k :
  k < length bits ->
  used_set (<[k := true]> bits) = {[N.of_nat k]} ∪ used_set bits.
Proof.
  intros Hk. apply set_eq. intros i.
  rewrite elem_of_union, elem_of_singleton, !elem_of_used_set.
  destruct (decide (N.to_nat i = k)) as [<-|Hne].
  - rewrite list_lookup_insert_eq by done. rewrite N2Nat.id. naive_solver.
  - rewrite list_lookup_insert_ne by done. split; [auto|].
    intros [->|?]; [|done]. by rewrite Nat2N.id in Hne.
Qed.

Lemma used_set_insert_false bits k :
  used_set (<[k := false]> bits) = used_set bits ∖ {[N.of_nat k]}.
Proof.
  apply set_eq. intros i.
  rewrite elem_of_difference, elem_of_singleton, !elem_of_used_set.
  destruct (decide (N.to_nat i = k)) as [<-|Hne].
  - rewrite N2Nat.id. split; [|naive_solver].
    intros Hi. pose proof (lookup_lt_Some _ _ _ Hi) as Hlt.
    rewrite length_insert in Hlt.
    by rewrite list_lookup_insert_eq in Hi.
  - rewrite list_lookup_insert_ne by done. split; [|naive_solver].
    intros Hi. split; [done|]. intros ->. by rewrite Nat2N.id in Hne.
Qed.

Lemma used_set_replicate_false n : used_set (replicate n false) = ∅.
Proof.
  apply set_eq. intros i. rewrite elem_of_used_set. split; [|set_solver].
  intros Hi. by apply lookup_replicate in Hi as [? _].
Qed.

Lemma first_free_Some bits k :
  first_free bits = Some k -> bits !! k = Some false.
Proof.
  revert k. induction bits as [|[] bits IH]; intros k; cbn; [done| |].
  - destruct (first_free bits) as [k'|]; cbn; [|done].
    intros [= <-]. by apply IH.
  - by intros [= <-].
Qed.

Lemma first_free_None bits k :
  first_free bits = None -> k < length bits -> bits !! k = Some true.
Proof.
  revert k. induction bits as [|[] bits IH]; intros k; cbn; [lia| |done].
  destruct (first_free bits) as [k'|] eqn:E; cbn; [done|].
  intros _ Hk. destruct k as [|k]; [done|]. cbn. apply IH; [done|lia].
Qed.

Lemma used_set_size bits :
  size (used_set bits) =
  length (filter (fun k => bits !! k = Some true) (seq 0 (length bits))).
Proof.
  unfold used_set. rewrite size_list_to_set, length_fmap; [done|].
  apply NoDup_fmap_2; [apply _|]. apply NoDup_filter, NoDup_seq.
Qed.

Lemma used_set_size_le bits : size (used_set bits) <= length bits.
Proof.
  rewrite used_set_size. etrans; [apply length_filter|]. by rewrite length_seq.
Qed.

Lemma used_set_size_lt bits k :
  bits !! k = Some false -> size (used_set bits) < length bits.
Proof.
  intros Hk. rewrite used_set_size.
  apply Nat.lt_le_trans with (length (seq 0 (length bits)));
    [|by rewrite length_seq].
  apply (length_filter_lt _ _ k).
  - apply elem_of_seq. apply lookup_lt_Some in Hk. lia.
  - by rewrite Hk.
Qed.

Lemma used_set_size_full bits :
  first_free bits = None -> size (used_set bits) = length bits.
Proof.
  intros Hf. rewrite used_set_size.
  rewrite list_filter_id; [by rewrite length_seq|]. apply Forall_forall. intros k Hk%elem_of_seq.
  apply first_free_None; [done|lia].
Qed.
End Bitmaps.

Section Views.
Implicit Types (db : list (list bool)) (hp : pool_heap) (h t : N).

Lemma db_view_lookup db t : db_view db !! t = pool_view <$> db !! N.to_nat t.
Proof. apply lookup_imap. Qed.

Lemma db_view_insert db t bits :
  N.to_nat t < length db ->
  db_view (<[N.to_nat t := bits]> db) = <[t := pool_view bits]> (db_view db).
Proof.
  intros Ht. apply map_eq. intros t'. rewrite db_view_lookup.
  destruct (decide (t = t')) as [<-|Hne].
  - by rewrite lookup_insert_eq, list_lookup_insert_eq.
  - rewrite lookup_insert_ne by done. rewrite list_lookup_insert_ne by lia.
    by rewrite db_view_lookup.
Qed.

Lemma pool_view_replicate (cnt : N) :
  pool_view (replicate (N.to_nat cnt) false) = pool_new cnt.
Proof.
  unfold pool_view, pool_new.
  by rewrite length_replicate, N2Nat.id, used_set_replicate_false.
Qed.

Lemma db_view_new n cnts :
  db_view ((fun cnt => replicate (N.to_nat cnt) false)
             <$> take (N.to_nat n) cnts) = db_new n cnts.
Proof.
  apply map_eq. intros t. rewrite db_view_lookup, db_new_lookup.
  rewrite list_lookup_fmap. case_decide.
  - rewrite lookup_take_lt by lia.
    destruct (cnts !! N.to_nat t); cbn; [|done]. by rewrite pool_view_replicate.
  - by rewrite lookup_take_ge by lia.
Qed.

Lemma fresh_handle_gt (dbs : gmap N (list (list bool))) h :
  is_Some (dbs !! h) -> (h < fresh_handle dbs)%N.
Proof.
  unfold fresh_handle. revert h.
  apply (map_fold_weak_ind
    (fun r (m : gmap N (list (list bool))) =>
       forall h, is_Some (m !! h) -> (h < N.succ r)%N)).
  - intros h [? Hh]. by rewrite lookup_empty in Hh.
  - intros k x m r Hk IH h. rewrite lookup_insert_is_Some.
    intros [<-|[_ Hh]]; [lia|]. specialize (IH h Hh). lia.
Qed.

Lemma fresh_handle_fresh (dbs : gmap N (list (list bool))) :
  dbs !! fresh_handle dbs = None.
Proof.
  apply eq_None_not_Some. intros Hs%fresh_handle_gt. lia.
Qed.

Lemma fresh_handle_not_null (dbs : gmap N (list (list bool))) :
  fresh_handle dbs <> NULL.
Proof. unfold fresh_handle, NULL. lia. Qed.

Lemma pool_lookup_view hp h t :
  view_pool (rm_view hp) h t = pool_view <$> pool_lookup hp h t.
Proof.
  cbn. unfold view_pool, pool_heap_view, pool_lookup. case_decide as Hh.
  - subst. by rewrite lookup_delete_eq.
  - rewrite lookup_delete_ne by done. rewrite lookup_fmap.
    destruct (hp_dbs hp !! h) as [db|]; cbn; [|done]. apply db_view_lookup.
Qed.

Lemma pool_update_view hp h t bits bits' :
  pool_lookup hp h t = Some bits ->
  rm_view (pool_update hp h t bits') =
  view_set_pool (rm_view hp) h t (pool_view bits').
Proof.
  unfold pool_lookup. case_decide as Hh; [done|]. intros Hl.
  cbn. unfold pool_heap_view, view_set_pool, pool_update; cbn.
  apply map_eq. intros h'. destruct (decide (h' = NULL)) as [->|Hn].
  { rewrite lookup_delete_eq. rewrite lookup_alter_ne by done.
    by rewrite lookup_delete_eq. }
  rewrite lookup_delete_ne by done. rewrite lookup_fmap.
  destruct (decide (h = h')) as [<-|Hne].
  - rewrite !lookup_alter_eq. rewrite lookup_delete_ne by done.
    rewrite lookup_fmap.
    destruct (hp_dbs hp !! h) as [db|]; cbn in *; [|done].
    f_equal. apply db_view_insert. by apply lookup_lt_Some in Hl.
  - rewrite !lookup_alter_ne by done. rewrite lookup_delete_ne by done.
    by rewrite lookup_fmap.
Qed.
End Views.


(** ** The contract holds *)

Section Laws.
Implicit Types (hp : pool_heap) (bits : list bool).

Lemma pool_view_alloc bits k :
  k < length bits ->
  pool_view (<[k := true]> bits) = pool_alloc (N.of_nat k) (pool_view bits).
Proof.
  intros Hk. unfold pool_view, pool_alloc; cbn.
  by rewrite length_insert, used_set_insert_true.
Qed.

Lemma pool_view_free bits k :
  pool_view (<[k := false]> bits) = pool_free (N.of_nat k) (pool_view bits).
Proof.
  unfold pool_view, pool_free; cbn.
  by rewrite length_insert, used_set_insert_false.
Qed.

Lemma pool_room_view bits :
  pool_room (pool_view bits) <> 0%N <-> exists k, first_free bits = Some k.
Proof.
  unfold pool_room; cbn. pose proof (used_set_size_le bits). split.
  - intros Hr. destruct (first_free bits) as [k|] eqn:E; [eauto|].
    apply used_set_size_full in E. lia.
  - intros [k Hk%first_free_Some%used_set_size_lt]. lia.
Qed.

Lemma pool_create_db_spec tfp p hp rc h hp' :
  pool_create_db tfp p hp = (rc, h, hp') ->
  if decide (rc = 0%Z)
  then rm_view hp !! h = None /\
       rm_view hp' =
         <[h := db_new (cdb_num_elements p) (cdb_alloc_cnt p)]> (rm_view hp)
  else (h = cdb_rm_db p /\ rm_view hp' = rm_view hp).
Proof.
  unfold pool_create_db. case_decide; intros [= <- <- <-]; [|done].
  cbn. unfold pool_heap_view; cbn.
  pose proof (fresh_handle_not_null (hp_dbs hp)).
  rewrite lookup_delete_ne, lookup_fmap, fresh_handle_fresh by done.
  split; [done|].
  by rewrite fmap_insert, delete_insert_ne, db_view_new.
Qed.

Lemma pool_free_db_spec tfp p hp rc hp' :
  pool_free_db tfp p hp = (rc, hp') ->
  if decide (rc = 0%Z)
  then is_Some (rm_view hp !! fdb_rm_db p) /\
       rm_view hp' = delete (fdb_rm_db p) (rm_view hp)
  else rm_view hp' = rm_view hp.
Proof.
  unfold pool_free_db. case_decide as Hn; [by intros [= <- <-]|].
  destruct (hp_dbs hp !! fdb_rm_db p) as [db|] eqn:Hdb; [|by intros [= <- <-]].
  destruct (_ && _); intros [= <- <-]; [done|].
  cbn. unfold pool_heap_view; cbn.
  rewrite lookup_delete_ne, lookup_fmap, Hdb by done. split; [by eexists|].
  by rewrite fmap_delete, delete_delete.
Qed.

Lemma pool_allocate_spec p hp rc i hp' :
  pool_allocate p hp = (rc, i, hp') ->
  if decide (rc = 0%Z)
  then exists pl,
         view_pool (rm_view hp) (al_rm_db p) (al_db_index p) = Some pl /\
         (i < pool_size pl)%N /\ (i ∉ pool_used pl) /\ pool_room pl <> 0%N /\
         rm_view hp' =
           view_set_pool (rm_view hp) (al_rm_db p) (al_db_index p)
                         (pool_alloc i pl)
  else (i = al_index p /\ rm_view hp' = rm_view hp).
Proof.
  unfold pool_allocate.
  destruct (pool_lookup _ _ _) as [bits|] eqn:Hl; [|by intros [= <- <- <-]].
  destruct (first_free bits) as [k|] eqn:Hk; intros [= <- <- <-]; [|done].
  cbn [decide_rel]. rewrite decide_True by done.
  exists (pool_view bits). rewrite pool_lookup_view, Hl.
  pose proof (first_free_Some _ _ Hk) as Hb.
  split_and!; [done| | | |].
  - cbn. apply lookup_lt_Some in Hb. lia.
  - cbn. rewrite elem_of_used_set, Nat2N.id, Hb. done.
  - apply pool_room_view. eauto.
  - erewrite pool_update_view by done. f_equal.
    apply pool_view_alloc. by apply lookup_lt_Some in Hb.
Qed.

Lemma pool_allocate_room p hp pl :
  view_pool (rm_view hp) (al_rm_db p) (al_db_index p) = Some pl ->
  pool_room pl <> 0%N ->
  (pool_allocate p hp).1.1 = 0%Z.
Proof.
  rewrite pool_lookup_view. unfold pool_allocate.
  destruct (pool_lookup _ _ _) as [bits|]; [|done].
  intros [= <-]. intros [k ->]%pool_room_view. done.
Qed.

Lemma pool_free_index_spec p hp rc hp' :
  pool_free_index p hp = (rc, hp') ->
  if decide (rc = 0%Z)
  then exists pl,
         view_pool (rm_view hp) (fr_rm_db p) (fr_db_index p) = Some pl /\
         fr_index p ∈ pool_used pl /\
         rm_view hp' =
           view_set_pool (rm_view hp) (fr_rm_db p) (fr_db_index p)
                         (pool_free (fr_index p) pl)
  else rm_view hp' = rm_view hp.
Proof.
  unfold pool_free_index.
  destruct (pool_lookup _ _ _) as [bits|] eqn:Hl; [|by intros [= <- <-]].
  case_decide as Hb; intros [= <- <-]; [|done].
  rewrite decide_True by done.
  exists (pool_view bits). rewrite pool_lookup_view, Hl.
  split_and!; [done|by apply elem_of_used_set|].
  erewrite pool_update_view by done.
  by rewrite pool_view_free, N2Nat.id.
Qed.

Lemma pool_free_allocated p hp :
  view_allocated (rm_view hp) (fr_rm_db p) (fr_db_index p) (fr_index p) ->
  (pool_free_index p hp).1 = 0%Z.
Proof.
  intros (pl & Hpl & Hi). rewrite pool_lookup_view in Hpl.
  unfold pool_free_index.
  destruct (pool_lookup _ _ _) as [bits|]; [|done].
  injection Hpl as <-. apply elem_of_used_set in Hi.
  by rewrite decide_True.
Qed.

Lemma pool_is_allocated_spec p hp rc a :
  pool_is_allocated p hp = (rc, a) ->
  match view_pool (rm_view hp) (ia_rm_db p) (ia_db_index p) with
  | Some pl =>
      rc = 0%Z /\ a = if decide (ia_index p ∈ pool_used pl) then 1%Z else 0%Z
  | None => rc <> 0%Z /\ a = ia_allocated p
  end.
Proof.
  rewrite pool_lookup_view. unfold pool_is_allocated.
  destruct (pool_lookup _ _ _) as [bits|]; intros [= <- <-]; cbn; [|done].
  split; [done|]. apply decide_ext. symmetry. apply elem_of_used_set.
Qed.

#[export] Instance pool_rm_laws : RmLaws pool_rm.
Proof.
  split.
  - intros hp. apply lookup_delete_eq.
  - apply pool_create_db_spec.
  - apply pool_free_db_spec.
  - apply pool_allocate_spec.
  - apply pool_allocate_room.
  - apply pool_free_index_spec.
  - apply pool_free_allocated.
  - apply pool_is_allocated_spec.
Qed.

(** ** The heaps in which the firmware answers *)

(** No operation changes the flag. *)
Lemma pool_create_db_fw_up tfp p hp rc h hp' :
  pool_create_db tfp p hp = (rc, h, hp') -> hp_fw_up hp = true -> hp_fw_up hp' = true.
Proof. unfold pool_create_db. by case_decide; intros [= <- <- <-]. Qed.

Lemma pool_free_db_fw_up tfp p hp rc hp' :
  pool_free_db tfp p hp = (rc, hp') -> hp_fw_up hp = true -> hp_fw_up hp' = true.
Proof. unfold pool_free_db. by repeat case_match; intros [= <- <-]. Qed.

Lemma pool_allocate_fw_up p hp rc i hp' :
  pool_allocate p hp = (rc, i, hp') -> hp_fw_up hp = true -> hp_fw_up hp' = true.
Proof. unfold pool_allocate. by repeat case_match; intros [= <- <- <-]. Qed.

Lemma pool_free_index_fw_up p hp rc hp' :
  pool_free_index p hp = (rc, hp') -> hp_fw_up hp = true -> hp_fw_up hp' = true.
Proof. unfold pool_free_index. by repeat case_match; intros [= <- <-]. Qed.

(** With the flag set, the destruction of a live database succeeds. *)
Lemma pool_free_db_live tfp p hp :
  hp_fw_up hp = true -> is_Some (pool_heap_view hp !! fdb_rm_db p) ->
  (pool_free_db tfp p hp).1 = 0%Z.
Proof.
  intros Hup [db Hdb]. unfold pool_free_db, pool_heap_view in *.
  case_decide as Hn; [by rewrite Hn, lookup_delete_eq in Hdb|].
  rewrite lookup_delete_ne, lookup_fmap in Hdb by done.
  destruct (hp_dbs hp !! fdb_rm_db p); [|done].
  by rewrite Hup, andb_false_r.
Qed.

#[export] Instance pool_rm_reliable : RmReliable pool_rm :=
  Build_RmReliable pool_rm (fun hp : pool_heap => hp_fw_up hp = true)
    pool_create_db_fw_up pool_free_db_fw_up pool_allocate_fw_up
    pool_free_index_fw_up pool_free_db_live.
End Laws.
