(* ===== verification/MsgTable.v ===== *)
(** * MsgTable: a reference implementation of the firmware message interface

    The firmware keeps the entries written to it, by direction, table type
    and index.  Writing an entry whose key and mask differ in length is
    refused with [-EINVAL]; removing an entry that was never written is
    refused with [-ENOENT].  The index is the one the caller's structure
    carries: the TCAM module passes its parameters on unchanged. *)

From S2P Require Import Prelude Types Device Rm Msg.

Definition ENOENT : Z := 2.

(** An entry: key, mask and result. *)
Definition fw_entry : Type := list N * list N * list N.

(** The position of an entry: direction, table type, index. *)
Definition fw_key (d : tf_dir) (type idx : N) : N * N * N :=
  (N.of_nat (dir_index d), type, idx).

Definition table_entry_set (tfp : tf) (p : tf_tcam_set_parms)
    (st : gmap (N * N * N) fw_entry) : Z * gmap (N * N * N) fw_entry :=
  if decide (length (set_key p) = length (set_mask p)) then
    (0%Z,
     <[fw_key (set_dir p) (set_type p) (set_idx p) :=
         (set_key p, set_mask p, set_result p)]> st)
  else ((- EINVAL)%Z, st).

Definition table_entry_free (tfp : tf) (p : tf_tcam_free_parms)
    (st : gmap (N * N * N) fw_entry) : Z * gmap (N * N * N) fw_entry :=
  match st !! fw_key (free_dir p) (free_type p) (free_idx p) with
  | Some _ => (0%Z, delete (fw_key (free_dir p) (free_type p) (free_idx p)) st)
  | None => ((- ENOENT)%Z, st)
  end.

#[export] Instance table_msg : MsgOps := {|
  fw_state := gmap (N * N * N) fw_entry;
  tf_msg_tcam_entry_set := table_entry_set;
  tf_msg_tcam_entry_free := table_entry_free;
|}.

(** ** Lemmas *)

Lemma fw_key_inj d1 t1 i1 d2 t2 i2 :
  fw_key d1 t1 i1 = fw_key d2 t2 i2 -> d1 = d2 /\ t1 = t2 /\ i1 = i2.
Proof.
  unfold fw_key. intros [= Hd -> ->]. split; [|done].
  apply dir_index_inj. lia.
Qed.

(** An entry that was written is there, and removing it succeeds. *)
Lemma table_set_then_free tfp (p : tf_tcam_set_parms) st st' :
  table_entry_set tfp p st = (0%Z, st') ->
  (table_entry_free tfp
     {| free_dir := set_dir p; free_type := set_type p; free_idx := set_idx p |}
     st').1 = 0%Z.
Proof.
  unfold table_entry_set, table_entry_free. case_decide; [|done].
  intros [= <-]. cbn. by rewrite lookup_insert_eq.
Qed.
