(* ===== verification/Tcam.v ===== *)
(** * Tcam: the state and the entry points of [tf_tcam.c]

    [tcam_world] is the state a call can read or change: the module's two
    statics ([tcam_db], [init]), the heap of the resource manager, the
    state of the firmware, and the log.  Each entry point of the file is a
    computation over it, with the guards and early returns of the C
    function in their order; the two [for] loops are [for_each_rc] over
    [tf_dirs] with the loop's body as a function of the direction.  The
    lookup of the slice count, which the C file repeats in [tf_tcam_alloc],
    [tf_tcam_free] and [tf_tcam_set], is the one computation
    [tcam_slice_info]. *)

From S2P Require Import Prelude Types Device Rm Msg.

Section Tcam.
Context {R : RmOps} {F : MsgOps} {A : TcamAbi}.

(** ** State *)

Record tcam_world := {
  tcam_db : list N;
  init : N;
  rm : rm_heap;
  fw : fw_state;
  tlog : list tcam_log;
}.

Definition set_tcam_db (i : nat) (h : N) (w : tcam_world) : tcam_world :=
  {| tcam_db := <[i := h]> (tcam_db w); init := init w; rm := rm w;
     fw := fw w; tlog := tlog w |}.

Definition set_init (v : N) (w : tcam_world) : tcam_world :=
  {| tcam_db := tcam_db w; init := v; rm := rm w; fw := fw w;
     tlog := tlog w |}.

Definition set_rm (hp : rm_heap) (w : tcam_world) : tcam_world :=
  {| tcam_db := tcam_db w; init := init w; rm := hp; fw := fw w;
     tlog := tlog w |}.

Definition set_fw (f : fw_state) (w : tcam_world) : tcam_world :=
  {| tcam_db := tcam_db w; init := init w; rm := rm w; fw := f;
     tlog := tlog w |}.

Definition add_log (e : tcam_log) (w : tcam_world) : tcam_world :=
  {| tcam_db := tcam_db w; init := init w; rm := rm w; fw := fw w;
     tlog := tlog w ++ [e] |}.

(** The state before the first call: both slots NULL, [init] clear. *)
Definition tcam_world_init (hp : rm_heap) (f : fw_state) : tcam_world :=
  {| tcam_db := replicate TF_DIR_MAX NULL; init := 0; rm := hp; fw := f;
     tlog := [] |}.

(** ** Primitive steps *)

(** [TFP_DRV_LOG(...)]. *)
Definition log (e : tcam_log) : M tcam_world unit := modify (add_log e).

(** [tcam_db[d]]: the handle in the slot of direction [d]. *)
Definition db_of (w : tcam_world) (d : tf_dir) : N :=
  tcam_db w !!! dir_index d.

Definition get_db (d : tf_dir) : M tcam_world N := gets (fun w => db_of w d).

(** A call of the resource manager that may change its heap. *)
Definition rm_call {T} (f : rm_heap -> T * rm_heap) : M tcam_world T :=
  fun w => let '(r, hp) := f (rm w) in Some (r, set_rm hp w).

(** A call of the firmware message layer. *)
Definition fw_call {T} (f : fw_state -> T * fw_state) : M tcam_world T :=
  fun w => let '(r, s) := f (fw w) in Some (r, set_fw s w).

(** [parms->idx = v], for each of the three structures. *)
Definition set_alloc_idx (v : N) (p : tf_tcam_alloc_parms) : tf_tcam_alloc_parms :=
  {| alloc_dir := alloc_dir p; alloc_type := alloc_type p;
     alloc_key_size := alloc_key_size p; alloc_idx := v |}.

(** ** Bind and unbind *)

(** The body of the loop of [tf_tcam_bind] for direction [d]. *)
Definition tcam_bind_dir (tfp : tf) (parms : tf_tcam_cfg_parms) (d : tf_dir)
  : M tcam_world Z :=
  let* h := get_db d in
  let db_cfg :=
    {| cdb_dir := d;
       cdb_num_elements := cfg_num_elements parms;
       cdb_cfg := cfg_cfg parms;
       cdb_alloc_cnt := cfg_tcam_cnt parms d;
       cdb_rm_db := h |} in
  let* (rc, h') := rm_call (tf_rm_create_db tfp db_cfg) in
  do* modify (set_tcam_db (dir_index d) h') in
  if (rc =? 0)%Z then ret rc
  else do* log (LogDbCreationFailed d) in ret rc.

Definition tf_tcam_bind (tfp : option tf) (parms : option tf_tcam_cfg_parms)
  : M tcam_world Z :=
  match tfp, parms with
  | Some tfp, Some parms =>
      let* i := gets init in
      if negb (i =? 0)%N then
        do* log LogAlreadyInitialized in ret (- EINVAL)%Z
      else
        let* rc := for_each_rc (tcam_bind_dir tfp parms) tf_dirs in
        if negb (rc =? 0)%Z then ret rc
        else
          do* modify (set_init 1) in
          do* log LogInitialized in
          ret 0%Z
  | _, _ => ret (- EINVAL)%Z
  end.

(** The body of the loop of [tf_tcam_unbind] for direction [d]. *)
Definition tcam_unbind_dir (tfp : tf) (d : tf_dir) : M tcam_world Z :=
  let* h := get_db d in
  let fparms := {| fdb_dir := d; fdb_rm_db := h |} in
  let* rc := rm_call (tf_rm_free_db tfp fparms) in
  if negb (rc =? 0)%Z then ret rc
  else do* modify (set_tcam_db (dir_index d) NULL) in ret rc.

Definition tf_tcam_unbind (tfp : option tf) : M tcam_world Z :=
  match tfp with
  | Some tfp =>
      let* i := gets init in
      if (i =? 0)%N then ret (- EINVAL)%Z
      else
        let* rc := for_each_rc (tcam_unbind_dir tfp) tf_dirs in
        if negb (rc =? 0)%Z then ret rc
        else do* modify (set_init 0) in ret 0%Z
  | None => ret (- EINVAL)%Z
  end.

(** ** The slice count *)

(** Session, device, operation table, query: the code and the value of
    [num_slice_per_row], which starts at 1. *)
Definition tcam_slice_info (tfp : tf) (d : tf_dir) (type key_size : N)
  : M tcam_world (Z * N) :=
  match tf_session_get_session tfp with
  | inl rc => ret (rc, 1%N)
  | inr tfs =>
      match tf_session_get_device tfs with
      | inl rc => ret (rc, 1%N)
      | inr dev =>
          match tf_dev_get_tcam_slice_info (dev_ops dev) with
          | None =>
              let rc := (- EOPNOTSUPP)%Z in
              do* log (LogNotSupported d rc) in ret (rc, 1%N)
          | Some query =>
              let '(rc, n) := query type key_size in
              ret (rc, wrap SLICE_BITS n)
          end
      end
  end.

(** ** Allocate *)

Definition tf_tcam_alloc (tfp : option tf) (parms : option tf_tcam_alloc_parms)
  : M tcam_world (Z * option tf_tcam_alloc_parms) :=
  match tfp, parms with
  | Some tfp, Some p =>
      let* i := gets init in
      if (i =? 0)%N then
        do* log (LogNoDbs (alloc_dir p)) in ret ((- EINVAL)%Z, Some p)
      else
        let* (rc, num_slice_per_row) :=
          tcam_slice_info tfp (alloc_dir p) (alloc_type p) (alloc_key_size p) in
        if negb (rc =? 0)%Z then ret (rc, Some p)
        else
          let* h := get_db (alloc_dir p) in
          let aparms :=
            {| al_rm_db := h; al_db_index := alloc_type p;
               al_index := alloc_idx p |} in
          let* (rc, index) := rm_call (tf_rm_allocate aparms) in
          let p := set_alloc_idx (wrap idx_bits index) p in
          if negb (rc =? 0)%Z then
            do* log (LogAllocFailed (alloc_dir p) (alloc_type p)) in
            ret (rc, Some p)
          else
            ret (0%Z,
                 Some (set_alloc_idx
                         (wrap idx_bits (alloc_idx p * num_slice_per_row)) p))
  | _, _ => ret ((- EINVAL)%Z, parms)
  end.

(** ** Free *)

Definition tf_tcam_free (tfp : option tf) (parms : option tf_tcam_free_parms)
  : M tcam_world Z :=
  match tfp, parms with
  | Some tfp, Some p =>
      let* i := gets init in
      if (i =? 0)%N then
        do* log (LogNoDbs (free_dir p)) in ret (- EINVAL)%Z
      else
        let* (rc, num_slice_per_row) :=
          tcam_slice_info tfp (free_dir p) (free_type p) 0 in
        if negb (rc =? 0)%Z then ret rc
        else if (num_slice_per_row =? 0)%N then fault
        else
          let* h := get_db (free_dir p) in
          let aparms :=
            {| ia_rm_db := h; ia_db_index := free_type p;
               ia_index := (free_idx p / num_slice_per_row)%N;
               ia_allocated := 0 |} in
          let* (rc, allocated) :=
            gets (fun w => tf_rm_is_allocated aparms (rm w)) in
          if negb (rc =? 0)%Z then ret rc
          else if (allocated =? 0)%Z then
            do* log (LogAlreadyFree (free_dir p) (free_type p) (free_idx p)) in
            ret rc
          else
            let* h := get_db (free_dir p) in
            let fparms :=
              {| fr_rm_db := h; fr_db_index := free_type p;
                 fr_index := (free_idx p / num_slice_per_row)%N |} in
            let* rc := rm_call (tf_rm_free fparms) in
            if negb (rc =? 0)%Z then
              do* log (LogFreeFailed (free_dir p) (free_type p) (free_idx p)) in
              ret rc
            else
              let* rc := fw_call (tf_msg_tcam_entry_free tfp p) in
              do* (if negb (rc =? 0)%Z
                   then log (LogMsgFreeFailed (free_dir p) (free_type p)
                                              (free_idx p) rc)
                   else ret tt) in
              ret 0%Z
  | _, _ => ret (- EINVAL)%Z
  end.

(** ** Set *)

Definition tf_tcam_set (tfp : option tf) (parms : option tf_tcam_set_parms)
  : M tcam_world Z :=
  match tfp, parms with
  | Some tfp, Some p =>
      let* i := gets init in
      if (i =? 0)%N then
        do* log (LogNoDbs (set_dir p)) in ret (- EINVAL)%Z
      else
        let* (rc, num_slice_per_row) :=
          tcam_slice_info tfp (set_dir p) (set_type p) (set_key_size p) in
        if negb (rc =? 0)%Z then ret rc
        else if (num_slice_per_row =? 0)%N then fault
        else
          let* h := get_db (set_dir p) in
          let aparms :=
            {| ia_rm_db := h; ia_db_index := set_type p;
               ia_index := (set_idx p / num_slice_per_row)%N;
               ia_allocated := 0 |} in
          let* (rc, allocated) :=
            gets (fun w => tf_rm_is_allocated aparms (rm w)) in
          if negb (rc =? 0)%Z then ret rc
          else if (allocated =? 0)%Z then
            do* log (LogNotAllocated (set_dir p) (set_type p) (set_idx p)) in
            ret rc
          else
            let* rc := fw_call (tf_msg_tcam_entry_set tfp p) in
            do* (if negb (rc =? 0)%Z
                 then log (LogMsgSetFailed (set_dir p) (set_type p)
                                           (set_idx p) rc)
                 else ret tt) in
            ret 0%Z
  | _, _ => ret (- EINVAL)%Z
  end.

(** ** The two entry points with an empty body *)

Definition tf_tcam_alloc_search {T P : Type} (tfp : T) (parms : P)
  : M tcam_world Z := ret 0%Z.

Definition tf_tcam_get {T P : Type} (tfp : T) (parms : P)
  : M tcam_world Z := ret 0%Z.

(** ** The module as a state machine *)

(** A call of an entry point, with its arguments. *)
Inductive tcam_call :=
  | CallBind (tfp : option tf) (parms : option tf_tcam_cfg_parms)
  | CallUnbind (tfp : option tf)
  | CallAlloc (tfp : option tf) (parms : option tf_tcam_alloc_parms)
  | CallFree (tfp : option tf) (parms : option tf_tcam_free_parms)
  | CallAllocSearch (tfp : option tf)
  | CallSet (tfp : option tf) (parms : option tf_tcam_set_parms)
  | CallGet (tfp : option tf).

(** What a call returns: the code and, for [tf_tcam_alloc], the
    parameter structure it wrote to. *)
Definition tcam_call_run (c : tcam_call)
  : M tcam_world (Z * option tf_tcam_alloc_parms) :=
  match c with
  | CallBind tfp parms => let* rc := tf_tcam_bind tfp parms in ret (rc, None)
  | CallUnbind tfp => let* rc := tf_tcam_unbind tfp in ret (rc, None)
  | CallAlloc tfp parms => tf_tcam_alloc tfp parms
  | CallFree tfp parms => let* rc := tf_tcam_free tfp parms in ret (rc, None)
  | CallAllocSearch tfp =>
      let* rc := tf_tcam_alloc_search tfp tt in ret (rc, None)
  | CallSet tfp parms => let* rc := tf_tcam_set tfp parms in ret (rc, None)
  | CallGet tfp => let* rc := tf_tcam_get tfp tt in ret (rc, None)
  end.

(** One call that returns takes the module from a state to a state. *)
Inductive tcam_step : tcam_world -> tcam_call -> Z -> tcam_world -> Prop :=
  | tcam_step_call c w rc p w' :
      tcam_call_run c w = Some ((rc, p), w') -> tcam_step w c rc w'.

(** The states a sequence of calls leads to from [w0]. *)
Inductive tcam_reachable (w0 : tcam_world) : tcam_world -> Prop :=
  | tcam_reach_start : tcam_reachable w0 w0
  | tcam_reach_step w c rc w' :
      tcam_reachable w0 w -> tcam_step w c rc w' -> tcam_reachable w0 w'.
End Tcam.

Arguments tcam_world : clear implicits.
Arguments tcam_world {R F}.
Arguments tcam_call : clear implicits.
