(* ===== verification/TcamRules.v ===== *)
(** * TcamRules: weakest preconditions of the steps of [tf_tcam.c]

    The rules the proofs on the entry points are built from: what a log
    line, a read of [tcam_db], a call of the resource manager or of the
    firmware, and the lookup of the slice count do to a state and a
    postcondition; and the tactics that apply them. *)

From S2P Require Import Prelude Types Device Rm Msg Tcam.

(** Reduce the projections of an updated state. *)
Ltac w_simpl :=
  cbn [tcam_db init rm fw tlog set_tcam_db set_init set_rm set_fw add_log
       set_alloc_idx alloc_dir alloc_type alloc_key_size alloc_idx
       cdb_dir cdb_num_elements cdb_cfg cdb_alloc_cnt cdb_rm_db
       fdb_dir fdb_rm_db al_rm_db al_db_index al_index
       ia_rm_db ia_db_index ia_index ia_allocated
       fr_rm_db fr_db_index fr_index
       tcam_world_init fst snd] in *.

Section Rules.
Context {R : RmOps} {F : MsgOps} {A : TcamAbi}.
Implicit Types (w : tcam_world) (d : tf_dir).

(** ** The slots *)

Lemma db_of_set_rm w d hp : db_of (set_rm hp w) d = db_of w d.
Proof. done. Qed.

Lemma db_of_set_fw w d f : db_of (set_fw f w) d = db_of w d.
Proof. done. Qed.

Lemma db_of_set_init w d v : db_of (set_init v w) d = db_of w d.
Proof. done. Qed.

Lemma db_of_add_log w d e : db_of (add_log e w) d = db_of w d.
Proof. done. Qed.

Lemma db_of_frame w w' d : tcam_db w' = tcam_db w -> db_of w' d = db_of w d.
Proof. unfold db_of. by intros ->. Qed.

Lemma db_of_set_eq w d h :
  length (tcam_db w) = TF_DIR_MAX ->
  db_of (set_tcam_db (dir_index d) h w) d = h.
Proof.
  intros Hl. unfold db_of; cbn. apply list_lookup_total_insert_eq.
  rewrite Hl. apply dir_index_lt.
Qed.

Lemma db_of_set_ne w d d' h :
  d <> d' -> db_of (set_tcam_db (dir_index d) h w) d' = db_of w d'.
Proof.
  intros Hd. unfold db_of; cbn. apply list_lookup_total_insert_ne.
  by intros ?%dir_index_inj.
Qed.

(** Storing in a slot the handle it holds changes nothing. *)
Lemma insert_db_of w d :
  length (tcam_db w) = TF_DIR_MAX ->
  <[dir_index d := db_of w d]> (tcam_db w) = tcam_db w.
Proof.
  intros Hl. apply list_insert_id, list_lookup_lookup_total_lt.
  rewrite Hl. apply dir_index_lt.
Qed.

(** The second store to [parms->idx] overwrites the first. *)
Lemma set_alloc_idx_twice v v' (p : tf_tcam_alloc_parms) :
  set_alloc_idx v (set_alloc_idx v' p) = set_alloc_idx v p.
Proof. done. Qed.

(** ** Weakest preconditions of the steps *)

Lemma wp_log E (e : tcam_log) (Q : unit -> tcam_world -> Prop) w :
  wpx E (log e) Q w <-> Q tt (add_log e w).
Proof. done. Qed.

Lemma wp_get_db E d (Q : N -> tcam_world -> Prop) w :
  wpx E (get_db d) Q w <-> Q (db_of w d) w.
Proof. done. Qed.

Lemma wp_rm_call {T} E (f : rm_heap -> T * rm_heap) (Q : T -> tcam_world -> Prop) w :
  wpx E (rm_call f) Q w <-> Q (f (rm w)).1 (set_rm (f (rm w)).2 w).
Proof. unfold wpx, rm_call. by destruct (f (rm w)). Qed.

Lemma wp_fw_call {T} E (f : fw_state -> T * fw_state) (Q : T -> tcam_world -> Prop) w :
  wpx E (fw_call f) Q w <-> Q (f (fw w)).1 (set_fw (f (fw w)).2 w).
Proof. unfold wpx, fw_call. by destruct (f (fw w)). Qed.

(** The lookup of the slice count through a handle whose session, device
    and query all resolve: the query's code and its count, in 16 bits. *)
Lemma wp_slice_info_query E tfp q d type key_size Q w :
  tf_slice_query tfp = Some q ->
  wpx E (tcam_slice_info tfp d type key_size) Q w <->
  Q ((q type key_size).1, wrap SLICE_BITS (q type key_size).2) w.
Proof.
  unfold tf_slice_query, tcam_slice_info.
  destruct (tf_session_get_session tfp) as [|tfs]; [done|].
  destruct (tf_session_get_device tfs) as [|dev]; [done|].
  intros ->. by destruct (q type key_size).
Qed.

(** The lookup through a handle that does not resolve fails with
    [-EINVAL] (no session, no device) or, logged, [-EOPNOTSUPP] (no
    query in the device's table). *)
Lemma wp_slice_info_none E tfp d type key_size Q w :
  tf_slice_query tfp = None ->
  wpx E (tcam_slice_info tfp d type key_size) Q w <->
  match tf_session_get_session tfp with
  | inl rc => Q (rc, 1%N) w
  | inr tfs =>
      match tf_session_get_device tfs with
      | inl rc => Q (rc, 1%N) w
      | inr _ =>
          Q ((- EOPNOTSUPP)%Z, 1%N)
            (add_log (LogNotSupported d (- EOPNOTSUPP)) w)
      end
  end.
Proof.
  unfold tf_slice_query, tcam_slice_info.
  destruct (tf_session_get_session tfp) as [|tfs]; [done|].
  destruct (tf_session_get_device tfs) as [|dev]; [done|].
  by intros ->.
Qed.

(** Whatever the handle, the lookup changes nothing but the log, and a
    code of 0 comes from a query. *)
Lemma wp_slice_info_frame E tfp d type key_size w :
  wpx E (tcam_slice_info tfp d type key_size)
     (fun '(rc, n) w' =>
        tcam_db w' = tcam_db w /\ init w' = init w /\ rm w' = rm w /\
        fw w' = fw w /\
        if decide (rc = 0%Z)
        then w' = w /\ exists q n0, tf_slice_query tfp = Some q /\
               q type key_size = (0%Z, n0) /\ n = wrap SLICE_BITS n0
        else True)
     w.
Proof.
  destruct (tf_slice_query tfp) as [q|] eqn:Hq.
  - apply (wp_slice_info_query _ _ _ _ _ _ _ _ Hq).
    destruct (q type key_size) as [rc n0] eqn:Hr; cbn.
    case_decide; naive_solver.
  - apply (wp_slice_info_none _ _ _ _ _ _ _ Hq).
    pose proof (tf_session_get_session_err tfp).
    destruct (tf_session_get_session tfp) as [rc|tfs].
    { rewrite (H rc) by done. by rewrite decide_False. }
    pose proof (tf_session_get_device_err tfs).
    destruct (tf_session_get_device tfs) as [rc|dev].
    { rewrite (H0 rc) by done. by rewrite decide_False. }
    by rewrite decide_False.
Qed.
End Rules.

#[export] Hint Rewrite @db_of_set_rm @db_of_set_fw @db_of_set_init
  @db_of_add_log : tcam_rw.

(** Compute the weakest precondition through the steps at the head of the
    goal, up to the next branch or call of a collaborator. *)
Ltac wp_step :=
  first
    [ wp_core
    | lazymatch goal with
      | |- wpx _ (log _) _ _ => apply (proj2 (wp_log _ _ _ _))
      | |- wpx _ (get_db _) _ _ => apply (proj2 (wp_get_db _ _ _ _))
      | |- wpx _ (rm_call _) _ _ => apply (proj2 (wp_rm_call _ _ _ _))
      | |- wpx _ (fw_call _) _ _ => apply (proj2 (wp_fw_call _ _ _ _))
      end ];
  cbn beta iota.

(** Read a slot of an updated state. *)
Ltac db_simpl :=
  repeat first
    [ rewrite db_of_add_log
    | rewrite db_of_set_init
    | rewrite db_of_set_fw
    | rewrite db_of_set_rm
    | rewrite db_of_set_eq by done
    | rewrite db_of_set_ne by congruence ].

Ltac wp_go :=
  repeat first
    [ wp_step
    | progress (rewrite Z.eqb_refl; cbn [negb]; cbn beta iota) ];
  w_simpl; db_simpl.

(** Run the lookup of the slice count: the state it leaves differs from
    the one it started in by the log at most, and not at all when it
    returns 0. *)
Ltac wp_slice :=
  eapply wp_mono; [apply wp_slice_info_frame|];
  let rc := fresh "rc" in
  let n := fresh "n" in
  let w' := fresh "w'" in
  let Hdb := fresh "Hdb" in
  let Hinit := fresh "Hinit" in
  let Hrm := fresh "Hrm" in
  let Hfw := fresh "Hfw" in
  let Hq := fresh "Hq" in
  intros [rc n] w' (Hdb & Hinit & Hrm & Hfw & Hq); cbn beta iota.

(** Name the result of the next call of a collaborator, with its
    equation. *)
Ltac wp_call :=
  match goal with
  | |- context [tf_rm_create_db ?t ?p ?h] =>
      let E := fresh "Ecreate" in
      destruct (tf_rm_create_db t p h) as [[? ?] ?] eqn:E
  | |- context [tf_rm_free_db ?t ?p ?h] =>
      let E := fresh "Efreedb" in
      destruct (tf_rm_free_db t p h) as [? ?] eqn:E
  | |- context [tf_rm_allocate ?p ?h] =>
      let E := fresh "Ealloc" in
      destruct (tf_rm_allocate p h) as [[? ?] ?] eqn:E
  | |- context [tf_rm_is_allocated ?p ?h] =>
      let E := fresh "Eisalloc" in
      destruct (tf_rm_is_allocated p h) as [? ?] eqn:E
  | |- context [tf_rm_free ?p ?h] =>
      let E := fresh "Efree" in
      destruct (tf_rm_free p h) as [? ?] eqn:E
  | |- context [tf_msg_tcam_entry_set ?t ?p ?s] =>
      let E := fresh "Emsg" in
      destruct (tf_msg_tcam_entry_set t p s) as [? ?] eqn:E
  | |- context [tf_msg_tcam_entry_free ?t ?p ?s] =>
      let E := fresh "Emsg" in
      destruct (tf_msg_tcam_entry_free t p s) as [? ?] eqn:E
  end; w_simpl; wp_go.

(** Split on the test of a return code, with the fact it decides. *)
Ltac rc_case :=
  match goal with
  | |- context [(?rc =? 0)%Z] =>
      let H := fresh "Hrc" in
      destruct (Z.eqb_spec rc 0) as [H|H]; [try subst rc|]; cbn [negb];
      wp_go
  | |- context [(?n =? 0)%N] =>
      let H := fresh "Hn" in
      destruct (N.eqb_spec n 0) as [H|H]; cbn [negb]; wp_go
  end.

(** Turn the equation [H] of a call of the resource manager into what the
    contract says of it, for the code the context gives. *)
Ltac rm_spec H :=
  first
    [ apply rm_create_db_spec in H
    | apply rm_free_db_spec in H
    | apply rm_allocate_spec in H
    | apply rm_free_spec in H
    | apply rm_is_allocated_spec in H ];
  w_simpl;
  try first [ rewrite decide_True in H by done
            | rewrite decide_False in H by done ].
