(* ===== verification/Fixtures.v ===== *)
(** * Fixtures: concrete devices, handles and states

    The inputs the theorems of the development are evaluated on: an ABI
    with a 16-bit index field, slice queries of several kinds, handles that
    do and do not resolve, a capacity table, and states of the reference
    resource manager ([RmPool]) and firmware ([MsgTable]). *)

From S2P Require Import Prelude Types Device Rm Msg RmPool MsgTable Tcam.

(** [uint16_t idx]. *)
#[export] Instance abi16 : TcamAbi := {| idx_bits := 16 |}.

(** ** Slice queries *)

(** Table type 2 spans two slices per row, the others one; the key size
    plays no part. *)
Definition q_by_type (type key_size : N) : Z * N :=
  (0%Z, if decide (type = 2%N) then 2%N else 1%N).

(** One slice for keys of at most 20 bytes, two for larger ones. *)
Definition q_by_key (type key_size : N) : Z * N :=
  (0%Z, if decide (key_size <= 20)%N then 1%N else 2%N).

(** A query that reports no slice. *)
Definition q_zero (type key_size : N) : Z * N := (0%Z, 0%N).

(** A query that fails. *)
Definition q_fail (type key_size : N) : Z * N := ((- EINVAL)%Z, 0%N).

(** Rows of 32768 slices: a count that fits 16 bits and takes the
    third row past a 16-bit index. *)
Definition q_wide (type key_size : N) : Z * N := (0%Z, 32768%N).

(** ** Handles *)

Definition tf_by_type : tf := tf_of_query q_by_type.
Definition tf_by_key : tf := tf_of_query q_by_key.
Definition tf_zero : tf := tf_of_query q_zero.
Definition tf_fail : tf := tf_of_query q_fail.
Definition tf_wide : tf := tf_of_query q_wide.

(** No session; a session with no device; a device with no slice query. *)
Definition tf_no_session : tf := {| tf_session_ptr := None |}.
Definition tf_no_device : tf :=
  {| tf_session_ptr := Some {| session_dev := None |} |}.
Definition tf_no_query : tf :=
  {| tf_session_ptr := Some
       {| session_dev := Some
            {| dev_ops := {| tf_dev_get_tcam_slice_info := None |} |} |} |}.

(** ** Configurations *)

(** Three table types of four entries each, in both directions. *)
Definition cfg4 : tf_tcam_cfg_parms :=
  {| cfg_num_elements := 3; cfg_cfg := [];
     cfg_tcam_cnt := fun _ => [4; 4; 4]%N |}.

(** One table type of four entries, in both directions. *)
Definition cfg1 : tf_tcam_cfg_parms :=
  {| cfg_num_elements := 1; cfg_cfg := [];
     cfg_tcam_cnt := fun _ => [4]%N |}.

(** ** States *)

(** Before the first call; the firmware can reserve 100 entries. *)
Definition w_start : tcam_world := tcam_world_init (pool_heap_empty 100) ∅.

(** Before the first call; the firmware can reserve 20 entries, enough
    for one direction of [cfg4] and not for two. *)
Definition w_start_small : tcam_world := tcam_world_init (pool_heap_empty 20) ∅.

(** After [tf_tcam_bind] of [cfg4]. *)
Definition w_bound : tcam_world :=
  exec (tf_tcam_bind (Some tf_by_type) (Some cfg4)) w_start.

(** Parameters of an allocation of type [t] in direction [d]. *)
Definition alloc_of (d : tf_dir) (t key_size : N) : tf_tcam_alloc_parms :=
  {| alloc_dir := d; alloc_type := t; alloc_key_size := key_size;
     alloc_idx := 0 |}.

Definition free_of (d : tf_dir) (t idx : N) : tf_tcam_free_parms :=
  {| free_dir := d; free_type := t; free_idx := idx |}.

Definition set_of (d : tf_dir) (t idx key_size : N) : tf_tcam_set_parms :=
  {| set_dir := d; set_type := t; set_idx := idx; set_key_size := key_size;
     set_key := [1; 2]%N; set_mask := [255; 255]%N; set_result := [7]%N |}.

(** After one allocation of type 2 on the receive side. *)
Definition w_alloc1 : tcam_world :=
  exec (tf_tcam_alloc (Some tf_by_type) (Some (alloc_of TF_DIR_RX 2 16))) w_bound.

(** After a [tf_tcam_bind] of [cfg4] that the firmware's budget cuts
    short on the transmit side. *)
Definition w_half : tcam_world :=
  exec (tf_tcam_bind (Some tf_by_type) (Some cfg4)) w_start_small.

(** Before the first call, with a firmware that does not answer. *)
Definition w_start_down : tcam_world :=
  tcam_world_init {| hp_dbs := ∅; hp_budget := 100; hp_fw_up := false |} ∅.

(** Bound, with one entry allocated on the transmit side. *)
Definition w_down_alloc : tcam_world :=
  exec (tf_tcam_alloc (Some tf_by_type) (Some (alloc_of TF_DIR_TX 0 16)))
    (exec (tf_tcam_bind (Some tf_by_type) (Some cfg4)) w_start_down).

(** After the [tf_tcam_unbind] that fails on the transmit side. *)
Definition w_stuck : tcam_world :=
  exec (tf_tcam_unbind (Some tf_by_type)) w_down_alloc.

(** Bound through a device whose slice count depends on the key size,
    then three entries of type 0 with 32-byte keys on the receive side:
    logical indices 0, 1, 2, hardware indices 0, 2, 4. *)
Definition w_key0 : tcam_world :=
  exec (tf_tcam_bind (Some tf_by_key) (Some cfg4)) w_start.

Definition w_key3 : tcam_world :=
  let alloc := tf_tcam_alloc (Some tf_by_key) (Some (alloc_of TF_DIR_RX 0 32)) in
  exec alloc (exec alloc (exec alloc w_key0)).

(** Two entries of type 1 on the receive side through [tf_wide]:
    logical indices 0 and 1, hardware indices 0 and 32768. *)
Definition w_wide2 : tcam_world :=
  let alloc := tf_tcam_alloc (Some tf_wide) (Some (alloc_of TF_DIR_RX 1 16)) in
  exec alloc (exec alloc w_bound).

(** ** Evaluation *)

(** A run on a concrete state and its result are convertible; the
    equation is checked by unfolding on demand. *)
Ltac run_eq := reflexivity.
