(* ===== verification/TcamInv.v ===== *)
(** * TcamInv: the invariant of the module's handles

    [tcam_wf] says what the rest of the code relies on when it
    dereferences [tcam_db[dir]]: there are [TF_DIR_MAX] slots, a slot holds
    NULL or the handle of a live database, and no two slots hold the same
    database.  Every entry point keeps it, whatever it returns; so it holds
    in every state the module can reach.  [tcam_frame] is what the three
    entry points that work on entries leave alone: the slots, the flag and
    the set of live databases. *)

From S2P Require Import Prelude Types Device Rm Msg Tcam TcamRules.
From S2P Require RmPool MsgTable Fixtures.

Section Defs.
Context {R : RmOps} {F : MsgOps}.

Record tcam_wf (w : tcam_world) : Prop := {
  wf_slots : length (tcam_db w) = TF_DIR_MAX;
  wf_live d : db_of w d <> NULL -> is_Some (rm_view (rm w) !! db_of w d);
  wf_distinct d1 d2 : db_of w d1 <> NULL -> db_of w d1 = db_of w d2 -> d1 = d2;
}.

(** What [tf_tcam_alloc], [tf_tcam_free] and [tf_tcam_set] leave alone:
    the slots, the flag and the set of live databases. *)
Definition tcam_frame (w w' : tcam_world) : Prop :=
  tcam_db w' = tcam_db w /\ init w' = init w /\
  dom (rm_view (rm w')) = dom (rm_view (rm w)).
End Defs.

(** The handle resolves to a slice query that keeps the capability
    contract. *)
Definition tf_ok (tfp : tf) : Prop :=
  forall q, tf_slice_query tfp = Some q -> slices_ok q.

(** The handle resolves to a slice query that reports, for some type and
    key size, success and a count that is 0 in 16 bits. *)
Definition zero_slices (tfp : option tf) : Prop :=
  exists t q type key_size n,
    tfp = Some t /\ tf_slice_query t = Some q /\
    q type key_size = (0%Z, n) /\ wrap SLICE_BITS n = 0%N.

(** Close a goal [tcam_frame w w'] from the equations at hand. *)
Ltac frame_tac :=
  unfold tcam_frame; w_simpl;
  repeat match goal with
         | H : rm _ = rm _ |- _ => progress rewrite H
         | H : rm_view _ = _ |- _ => progress rewrite H
         end;
  rewrite ?view_set_pool_dom; by split_and?.

Section Inv.
Context {R : RmOps} {L : RmLaws R} {F : MsgOps} {A : TcamAbi}.
Implicit Types (w : tcam_world) (d : tf_dir).

(** A live handle is not NULL. *)
Lemma live_not_null hp h : is_Some (rm_view hp !! h) -> h <> NULL.
Proof. intros [db Hdb] ->. by rewrite rm_null_dead in Hdb. Qed.

Lemma set_tcam_db_id w d :
  length (tcam_db w) = TF_DIR_MAX ->
  set_tcam_db (dir_index d) (db_of w d) w = w.
Proof.
  intros Hl. destruct w as [dbs i hp f lg]. unfold set_tcam_db, db_of; cbn in *.
  f_equal. apply list_insert_id. apply list_lookup_lookup_total_lt.
  rewrite Hl. apply dir_index_lt.
Qed.

(** Well-formedness reads the slots and the set of live handles. *)
Lemma tcam_wf_frame w w' :
  tcam_db w' = tcam_db w ->
  dom (rm_view (rm w')) = dom (rm_view (rm w)) ->
  tcam_wf w -> tcam_wf w'.
Proof.
  intros Hdb Hdom [Hl Hlive Hdis]. unfold db_of in *.
  split; unfold db_of; rewrite ?Hdb; [done| |done].
  intros d Hd. apply elem_of_dom. rewrite Hdom. apply elem_of_dom. auto.
Qed.

Lemma tcam_wf_init hp f : tcam_wf (tcam_world_init hp f).
Proof.
  split; [done| |]; intros d; unfold db_of; cbn; by destruct d.
Qed.

(** A state that differs from a well-formed one by one log line. *)
Lemma tcam_wf_log e w : tcam_wf w -> tcam_wf (add_log e w).
Proof. apply tcam_wf_frame; [done|done]. Qed.

(** A fresh database in slot [d]. *)
Lemma tcam_wf_create w d h hp db :
  tcam_wf w -> rm_view (rm w) !! h = None ->
  rm_view hp = <[h := db]> (rm_view (rm w)) ->
  tcam_wf (set_tcam_db (dir_index d) h (set_rm hp w)).
Proof.
  intros [Hl Hlive Hdis] Hfresh Hview.
  assert (forall d', db_of w d' <> NULL -> db_of w d' <> h) as Hne.
  { intros d' Hd' <-. apply Hlive in Hd' as [? Hd']. congruence. }
  split; [by rewrite <- Hl; apply length_insert| |].
  - intros d'. w_simpl. rewrite ?db_of_set_rm. destruct (decide (d = d')) as [<-|Hd].
    + rewrite db_of_set_eq by done. rewrite Hview, lookup_insert_eq. eauto.
    + rewrite db_of_set_ne, db_of_set_rm by done. intros Hn.
      rewrite Hview, lookup_insert_ne; [auto|]. intros ->. by apply (Hne d').
  - intros d1 d2.
    destruct (decide (d = d1)) as [<-|H1], (decide (d = d2)) as [<-|H2];
      rewrite ?db_of_set_eq, ?db_of_set_ne, ?db_of_set_rm by done; try done.
    + intros _ ->. destruct (decide (db_of w d2 = NULL)) as [Hn|Hn].
      * pose proof (rm_null_dead hp) as Hd. rewrite Hview, <- Hn in Hd.
        by rewrite lookup_insert_eq in Hd.
      * by destruct (Hne d2 Hn).
    + intros Hn Hh. by destruct (Hne d1 Hn).
    + apply Hdis.
Qed.

(** Slot [d] cleared, its database destroyed. *)
Lemma tcam_wf_destroy w d hp :
  tcam_wf w -> rm_view hp = delete (db_of w d) (rm_view (rm w)) ->
  tcam_wf (set_tcam_db (dir_index d) NULL (set_rm hp w)).
Proof.
  intros [Hl Hlive Hdis] Hview.
  split; [by rewrite <- Hl; apply length_insert| |].
  - intros d'. w_simpl. rewrite ?db_of_set_rm. destruct (decide (d = d')) as [<-|Hd].
    + by rewrite db_of_set_eq.
    + rewrite db_of_set_ne, db_of_set_rm by done. intros Hn. rewrite Hview.
      rewrite lookup_delete_ne; [auto|]. intros Heq. symmetry in Heq.
      by apply Hdis in Heq.
  - intros d1 d2.
    destruct (decide (d = d1)) as [<-|H1]; [by rewrite db_of_set_eq|].
    destruct (decide (d = d2)) as [<-|H2].
    + rewrite db_of_set_eq, db_of_set_ne by done. congruence.
    + rewrite !db_of_set_ne, !db_of_set_rm by done. apply Hdis.
Qed.

Lemma tcam_bind_dir_wf E tfp parms d w :
  tcam_wf w -> wpx E (tcam_bind_dir tfp parms d) (fun _ => tcam_wf) w.
Proof.
  intros Hwf. unfold tcam_bind_dir. wp_go. wp_call. rc_case; rm_spec Ecreate.
  - destruct Ecreate as [Hf Hv]. eapply tcam_wf_create; eauto.
  - destruct Ecreate as [-> Hv].
    apply (tcam_wf_frame w); cbn; [apply insert_db_of, Hwf|by rewrite Hv|done].
Qed.

Lemma tcam_unbind_dir_wf E tfp d w :
  tcam_wf w -> wpx E (tcam_unbind_dir tfp d) (fun _ => tcam_wf) w.
Proof.
  intros Hwf. unfold tcam_unbind_dir. wp_go. wp_call.
  rc_case; rm_spec Efreedb.
  - destruct Efreedb as [_ Hv]. by apply tcam_wf_destroy.
  - apply (tcam_wf_frame w); cbn; [done|by rewrite Efreedb|done].
Qed.

Lemma tcam_wf_set_init v w : tcam_wf w -> tcam_wf (set_init v w).
Proof. by apply tcam_wf_frame. Qed.

Lemma tf_tcam_bind_wf E tfp parms w :
  tcam_wf w -> wpx E (tf_tcam_bind tfp parms) (fun _ => tcam_wf) w.
Proof.
  intros Hwf. unfold tf_tcam_bind.
  destruct tfp as [tfp|], parms as [parms|]; try by wp_go.
  wp_go. rc_case; [|by apply tcam_wf_log].
  eapply wp_mono.
  { apply wp_for_each_rc_inv; [|done]. intros d w' _. apply tcam_bind_dir_wf. }
  intros rc w' Hw'. cbn beta. rc_case; [|done].
  by apply tcam_wf_log, tcam_wf_set_init.
Qed.

Lemma tf_tcam_unbind_wf E tfp w :
  tcam_wf w -> wpx E (tf_tcam_unbind tfp) (fun _ => tcam_wf) w.
Proof.
  intros Hwf. unfold tf_tcam_unbind. destruct tfp as [tfp|]; [|by wp_go].
  wp_go. rc_case; [done|].
  eapply wp_mono.
  { apply wp_for_each_rc_inv; [|done]. intros d w' _. apply tcam_unbind_dir_wf. }
  intros rc w' Hw'. cbn beta. rc_case; [|done]. by apply tcam_wf_set_init.
Qed.

Lemma tf_ok_slices tfp q type key_size n :
  tf_ok tfp -> tf_slice_query tfp = Some q -> q type key_size = (0%Z, n) ->
  wrap SLICE_BITS n = n /\ n <> 0%N.
Proof.
  intros Hok Hq Hn. destruct (Hok q Hq type key_size n Hn) as [? ?].
  split; [by apply wrap_small|done].
Qed.

Lemma tcam_frame_refl w : tcam_frame w w.
Proof. done. Qed.

Lemma tcam_frame_wf w w' : tcam_frame w w' -> tcam_wf w -> tcam_wf w'.
Proof. intros (? & ? & ?). by apply tcam_wf_frame. Qed.

Lemma tf_tcam_alloc_frame E tfp parms w :
  wpx E (tf_tcam_alloc tfp parms) (fun _ w' => tcam_frame w w') w.
Proof.
  unfold tf_tcam_alloc. destruct tfp as [tfp|], parms as [p|]; try by wp_go.
  wp_go. rc_case; [frame_tac|]. wp_slice. rc_case; [|frame_tac].
  rewrite decide_True in Hq by done. destruct Hq as [-> _].
  wp_call. rc_case; rm_spec Ealloc.
  - destruct Ealloc as (pl & _ & _ & _ & _ & Hv). frame_tac.
  - destruct Ealloc as [_ Hv]. frame_tac.
Qed.

(** The capability contract excludes a count of zero. *)
Lemma tf_ok_no_zero tfp :
  (forall t, tfp = Some t -> tf_ok t) -> ~ zero_slices tfp.
Proof.
  intros Hok (t & q & type & ks & n & -> & Hq & Hn & Hz).
  destruct (tf_ok_slices _ _ _ _ _ (Hok _ eq_refl) Hq Hn) as [Hs Hnz].
  congruence.
Qed.

(** [tf_tcam_free] and [tf_tcam_set] fault on a count of zero only. *)
Lemma tf_tcam_free_frame E tfp parms w :
  (zero_slices tfp -> E) ->
  wpx E (tf_tcam_free tfp parms) (fun _ w' => tcam_frame w w') w.
Proof.
  intros Hok.
  unfold tf_tcam_free. destruct tfp as [tfp|], parms as [p|]; try by wp_go.
  wp_go. rc_case; [frame_tac|]. wp_slice. rc_case; [|frame_tac].
  rewrite decide_True in Hq by done.
  destruct Hq as [-> (q & n0 & Hq & Hn0 & ->)].
  rc_case. { apply Hok. eexists tfp, q, _, _, n0. by split_and!. }
  wp_call. rc_case; [|frame_tac]. rc_case; [frame_tac|].
  wp_call. rc_case; rm_spec Efree.
  - destruct Efree as (pl & _ & _ & Hv). wp_call. rc_case; frame_tac.
  - frame_tac.
Qed.

Lemma tf_tcam_set_frame E tfp parms w :
  (zero_slices tfp -> E) ->
  wpx E (tf_tcam_set tfp parms) (fun _ w' => tcam_frame w w' /\ rm w' = rm w) w.
Proof.
  intros Hok.
  unfold tf_tcam_set. destruct tfp as [tfp|], parms as [p|]; try by wp_go.
  wp_go. rc_case; [by split; [frame_tac|]|]. wp_slice.
  rc_case; [|split; [frame_tac|done]].
  rewrite decide_True in Hq by done.
  destruct Hq as [-> (q & n0 & Hq & Hn0 & ->)].
  rc_case. { apply Hok. eexists tfp, q, _, _, n0. by split_and!. }
  wp_call. rc_case; [|by split; [frame_tac|]].
  rc_case; [by split; [frame_tac|]|].
  wp_call. rc_case; by split; [frame_tac|].
Qed.

(** ** Every call keeps the invariant *)

Lemma tcam_call_run_wf c w :
  tcam_wf w -> wlp (tcam_call_run c) (fun _ => tcam_wf) w.
Proof.
  intros Hwf. destruct c; cbn [tcam_call_run]; try wp_step.
  - eapply wp_mono; [by apply tf_tcam_bind_wf|done].
  - eapply wp_mono; [by apply tf_tcam_unbind_wf|done].
  - eapply wp_mono; [apply tf_tcam_alloc_frame|].
    intros ? w' Hf. by apply (tcam_frame_wf w).
  - eapply wp_mono; [by apply tf_tcam_free_frame|].
    intros ? w' Hf. by apply (tcam_frame_wf w).
  - by wp_go.
  - eapply wp_mono; [by apply tf_tcam_set_frame|].
    intros ? w' [Hf _]. by apply (tcam_frame_wf w).
  - by wp_go.
Qed.

Lemma tcam_wf_exec c w : tcam_wf w -> tcam_wf (exec (tcam_call_run c) w).
Proof. intros Hwf. by apply wlp_exec; [apply tcam_call_run_wf|]. Qed.

(** C1: a call of any entry point, with any arguments and whatever it
    returns, takes a state in which every slot of [tcam_db] is NULL or
    the handle of a live database of its own to such a state. *)
Theorem tcam_step_wf w c rc w' :
  tcam_wf w -> tcam_step w c rc w' -> tcam_wf w'.
Proof.
  intros Hwf Hstep. destruct Hstep as [c w rc p w' Hrun].
  by apply (proj1 (wlp_run _ _ _) (tcam_call_run_wf c w Hwf) _ _ Hrun).
Qed.

(** The invariant holds in every state that a sequence of calls reaches
    from a state in which it holds, such as the initial one. *)
Lemma tcam_reachable_wf w0 w :
  tcam_wf w0 -> tcam_reachable w0 w -> tcam_wf w.
Proof.
  intros Hwf0 Hreach. induction Hreach as [|w c rc w' _ IH Hstep]; [done|].
  destruct Hstep as [c w rc p w' Hrun].
  by apply (proj1 (wlp_run _ _ _) (tcam_call_run_wf c w IH) _ _ Hrun).
Qed.
End Inv.

Import RmPool MsgTable Fixtures.

(** The states of [Fixtures] are reached by calls from the initial one. *)
Lemma w_bound_wf : tcam_wf w_bound.
Proof.
  apply (tcam_wf_exec (CallBind (Some tf_by_type) (Some cfg4)) w_start).
  apply tcam_wf_init.
Qed.

Lemma w_alloc1_wf : tcam_wf w_alloc1.
Proof.
  apply (tcam_wf_exec
           (CallAlloc (Some tf_by_type) (Some (alloc_of TF_DIR_RX 2 16))) w_bound).
  apply w_bound_wf.
Qed.

Lemma tcam_step_wf_witness : tcam_wf w_bound.
Proof.
  apply (tcam_step_wf w_start (CallBind (Some tf_by_type) (Some cfg4)) 0 w_bound).
  - apply tcam_wf_init.
  - by apply (tcam_step_call _ _ _ None).
Defined.

Lemma tcam_reachable_wf_witness : tcam_wf w_alloc1.
Proof.
  apply (tcam_reachable_wf w_start w_alloc1); [apply tcam_wf_init|].
  eapply tcam_reach_step with (w := w_bound)
    (c := CallAlloc (Some tf_by_type) (Some (alloc_of TF_DIR_RX 2 16))).
  - eapply tcam_reach_step with (c := CallBind (Some tf_by_type) (Some cfg4));
      [apply tcam_reach_start|].
    by apply (tcam_step_call _ _ 0%Z None).
  - apply (tcam_step_call _ _ 0%Z
             (Some (set_alloc_idx 0 (alloc_of TF_DIR_RX 2 16)))). run_eq.
Defined.
