(* ===== verification/TcamLife.v ===== *)
(** * TcamLife: bind and unbind

    What [tf_tcam_bind] and [tf_tcam_unbind] do to the slots, the flag and
    the databases of the resource manager, on every path: the refusals
    (bound twice, unbound when not bound), the successes, and the two
    partial failures, after which a database is live that the flag does not
    account for (bind) or the flag is set over a NULL slot (unbind).  The
    second state has no exit: [tcam_stuck] holds of it and of every state
    reached from it.  All of it is proved against the contract of the
    resource manager ([RmLaws]) and evaluated on [RmPool]. *)

From S2P Require Import Prelude Types Device Rm Msg Tcam TcamRules TcamInv.
From S2P Require RmPool MsgTable Fixtures.

Section Life.
Context {R : RmOps} {L : RmLaws R} {F : MsgOps} {A : TcamAbi}.
Implicit Types (w : tcam_world) (d : tf_dir).

(** The array of slots has its [TF_DIR_MAX] elements. *)
Definition tcam_slots (w : tcam_world) : Prop :=
  length (tcam_db w) = TF_DIR_MAX.

(** The database [tf_tcam_bind] asks for in direction [d]. *)
Definition bind_db (parms : tf_tcam_cfg_parms) (d : tf_dir) : rm_db :=
  db_new (cfg_num_elements parms) (cfg_tcam_cnt parms d).

(** One turn of the loop of [tf_tcam_bind]: either a fresh database in
    slot [d], or a log line and nothing else. *)
Lemma tcam_bind_dir_spec E tfp parms d w :
  length (tcam_db w) = TF_DIR_MAX ->
  wpx E (tcam_bind_dir tfp parms d)
    (fun rc w' =>
       init w' = init w /\ fw w' = fw w /\
       length (tcam_db w') = TF_DIR_MAX /\
       (forall d', d' <> d -> db_of w' d' = db_of w d') /\
       if decide (rc = 0%Z)
       then rm_view (rm w) !! db_of w' d = None /\
            rm_view (rm w') = <[db_of w' d := bind_db parms d]> (rm_view (rm w)) /\
            tlog w' = tlog w
       else db_of w' d = db_of w d /\ rm_view (rm w') = rm_view (rm w) /\
            tlog w' = tlog w ++ [LogDbCreationFailed d])
    w.
Proof.
  intros Hl. unfold tcam_bind_dir. wp_go. wp_call. rc_case; rm_spec Ecreate.
  - destruct Ecreate as [Hf Hv]. rewrite length_insert.
    split_and!; try done. intros d' Hd. by db_simpl.
  - destruct Ecreate as [-> Hv]. rewrite decide_False by done.
    rewrite length_insert. split_and!; try done. intros d' Hd. by db_simpl.
Qed.

(** [tf_tcam_bind] from an unbound state: both databases created and the
    flag set, or the first failure logged and returned, with the database
    of the receive side left in place when the transmit side failed. *)
Lemma tf_tcam_bind_spec E tfp parms w :
  length (tcam_db w) = TF_DIR_MAX -> init w = 0%N ->
  wpx E (tf_tcam_bind (Some tfp) (Some parms))
    (fun rc w' =>
       fw w' = fw w /\ length (tcam_db w') = TF_DIR_MAX /\
       if decide (rc = 0%Z)
       then init w' = 1%N /\ tlog w' = tlog w ++ [LogInitialized] /\
            rm_view (rm w) !! db_of w' TF_DIR_RX = None /\
            rm_view (rm w) !! db_of w' TF_DIR_TX = None /\
            db_of w' TF_DIR_RX <> db_of w' TF_DIR_TX /\
            rm_view (rm w') =
              <[db_of w' TF_DIR_TX := bind_db parms TF_DIR_TX]>
                (<[db_of w' TF_DIR_RX := bind_db parms TF_DIR_RX]> (rm_view (rm w)))
       else init w' = 0%N /\
            ((tlog w' = tlog w ++ [LogDbCreationFailed TF_DIR_RX] /\
              rm_view (rm w') = rm_view (rm w) /\
              forall d, db_of w' d = db_of w d) \/
             (tlog w' = tlog w ++ [LogDbCreationFailed TF_DIR_TX] /\
              rm_view (rm w) !! db_of w' TF_DIR_RX = None /\
              rm_view (rm w') =
                <[db_of w' TF_DIR_RX := bind_db parms TF_DIR_RX]> (rm_view (rm w)) /\
              db_of w' TF_DIR_TX = db_of w TF_DIR_TX)))
    w.
Proof.
  intros Hl Hi. unfold tf_tcam_bind, tf_dirs. wp_go. rewrite Hi. cbn [N.eqb negb].
  wp_go. eapply wp_mono; [by apply tcam_bind_dir_spec|].
  intros rc1 w1 (Hi1 & Hfw1 & Hl1 & Hd1 & H1). cbn beta.
  rc_case.
  - rewrite decide_True in H1 by done. destruct H1 as (Hf1 & Hv1 & Hlog1).
    eapply wp_mono; [by apply tcam_bind_dir_spec|].
    intros rc2 w2 (Hi2 & Hfw2 & Hl2 & Hd2 & H2). cbn beta.
    rc_case; rewrite ?(Hd2 TF_DIR_RX) by done.
    + rewrite decide_True in H2 by done. destruct H2 as (Hf2 & Hv2 & Hlog2).
      rewrite Hv1 in Hf2. apply lookup_insert_None in Hf2 as [Hf2 Hne].
      rewrite decide_True by done. split_and!; congruence.
    + rewrite decide_False in H2 by done. destruct H2 as (Hdb2 & Hv2 & Hlog2).
      rewrite decide_False by done. rewrite (Hd1 TF_DIR_TX) in Hdb2 by done.
      split_and!; try congruence. right. split_and!; congruence.
  - rewrite decide_False in H1 by done. destruct H1 as (Hdb1 & Hv1 & Hlog1).
    rewrite decide_False by done. split_and!; try congruence.
    left. split_and!; try done. intros [|]; [done|]. by apply Hd1.
Qed.

(** One turn of the loop of [tf_tcam_unbind]: the database of slot [d]
    destroyed and the slot cleared, or nothing. *)
Lemma tcam_unbind_dir_spec E tfp d w :
  length (tcam_db w) = TF_DIR_MAX ->
  wpx E (tcam_unbind_dir tfp d)
    (fun rc w' =>
       init w' = init w /\ fw w' = fw w /\ tlog w' = tlog w /\
       length (tcam_db w') = TF_DIR_MAX /\
       (forall d', d' <> d -> db_of w' d' = db_of w d') /\
       if decide (rc = 0%Z)
       then is_Some (rm_view (rm w) !! db_of w d) /\ db_of w' d = NULL /\
            rm_view (rm w') = delete (db_of w d) (rm_view (rm w))
       else db_of w' d = db_of w d /\ rm_view (rm w') = rm_view (rm w))
    w.
Proof.
  intros Hl. unfold tcam_unbind_dir. wp_go. wp_call. rc_case; rm_spec Efreedb.
  - destruct Efreedb as [Hlive Hv]. rewrite length_insert.
    split_and!; try done. intros d' Hd. by db_simpl.
  - rewrite decide_False by done. done.
Qed.

(** [tf_tcam_unbind] from a bound state: both databases destroyed, the
    slots and the flag cleared; or the first failure returned, with the
    flag still set and the receive side already gone when the transmit
    side failed. *)
Lemma tf_tcam_unbind_spec E tfp w :
  length (tcam_db w) = TF_DIR_MAX -> init w <> 0%N ->
  wpx E (tf_tcam_unbind (Some tfp))
    (fun rc w' =>
       fw w' = fw w /\ tlog w' = tlog w /\ length (tcam_db w') = TF_DIR_MAX /\
       if decide (rc = 0%Z)
       then init w' = 0%N /\ (forall d, db_of w' d = NULL) /\
            is_Some (rm_view (rm w) !! db_of w TF_DIR_RX) /\
            is_Some (rm_view (rm w) !! db_of w TF_DIR_TX) /\
            rm_view (rm w') =
              delete (db_of w TF_DIR_TX) (delete (db_of w TF_DIR_RX) (rm_view (rm w)))
       else init w' = init w /\
            ((rm_view (rm w') = rm_view (rm w) /\ forall d, db_of w' d = db_of w d) \/
             (is_Some (rm_view (rm w) !! db_of w TF_DIR_RX) /\
              rm_view (rm w') = delete (db_of w TF_DIR_RX) (rm_view (rm w)) /\
              db_of w' TF_DIR_RX = NULL /\ db_of w' TF_DIR_TX = db_of w TF_DIR_TX)))
    w.
Proof.
  intros Hl Hi. unfold tf_tcam_unbind, tf_dirs. wp_go. rc_case; [done|].
  eapply wp_mono; [by apply tcam_unbind_dir_spec|].
  intros rc1 w1 (Hi1 & Hfw1 & Hlog1 & Hl1 & Hd1 & H1). cbn beta.
  rc_case.
  - rewrite decide_True in H1 by done. destruct H1 as (Hlive1 & Hn1 & Hv1).
    eapply wp_mono; [by apply tcam_unbind_dir_spec|].
    intros rc2 w2 (Hi2 & Hfw2 & Hlog2 & Hl2 & Hd2 & H2). cbn beta.
    rc_case.
    + rewrite decide_True in H2 by done. destruct H2 as (Hlive2 & Hn2 & Hv2).
      rewrite decide_True by done. rewrite (Hd1 TF_DIR_TX) in Hlive2, Hv2 by done.
      rewrite Hv1 in Hlive2. apply lookup_delete_is_Some in Hlive2 as [_ Hlive2].
      split_and!; try congruence.
      intros [|]; [|done]. db_simpl. by rewrite (Hd2 TF_DIR_RX).
    + rewrite decide_False in H2 by done. destruct H2 as (Hdb2 & Hv2).
      rewrite decide_False by done. split_and!; try congruence.
      right. rewrite (Hd2 TF_DIR_RX) by done.
      rewrite (Hd1 TF_DIR_TX) in Hdb2 by done. split_and!; congruence.
  - rewrite decide_False in H1 by done. destruct H1 as (Hdb1 & Hv1).
    rewrite decide_False by done. split_and!; try congruence.
    left. split; [done|]. intros [|]; [done|]. by apply Hd1.
Qed.

(** ** Bind *)

(** [tf_tcam_bind] on a module that is already bound returns
    [-EINVAL] and changes nothing but the log: no database is created,
    the slots and the flag stay as they are. *)
Lemma tf_tcam_bind_bound tfp parms w :
  init w <> 0%N ->
  tf_tcam_bind (Some tfp) (Some parms) w =
    Some ((- EINVAL)%Z, add_log LogAlreadyInitialized w).
Proof.
  intros Hi. apply wp_is_eq. unfold tf_tcam_bind. wp_go. by rc_case.
Qed.

(** C4: a [tf_tcam_bind] that returns 0 on an unbound module sets the
    flag and leaves in each slot a handle that was not live before, on a
    database with an empty pool per configured table type, of the
    capacity the table gives for that direction; every other database is
    as it was, and the firmware was not called. *)
Theorem tf_tcam_bind_creates tfp parms w :
  tcam_slots w -> init w = 0%N ->
  wp (tf_tcam_bind (Some tfp) (Some parms))
    (fun rc w' =>
       rc = 0%Z ->
       init w' = 1%N /\ fw w' = fw w /\
       (forall d, db_of w' d <> NULL /\ rm_view (rm w) !! db_of w' d = None /\
                  rm_view (rm w') !! db_of w' d = Some (bind_db parms d)) /\
       (forall h, (forall d, h <> db_of w' d) ->
                  rm_view (rm w') !! h = rm_view (rm w) !! h))
    w.
Proof.
  intros Hl Hi. eapply wp_mono; [by apply tf_tcam_bind_spec|].
  intros rc w' (Hfw & Hl' & H) ->. rewrite decide_True in H by done.
  destruct H as (Hi' & _ & Hrx & Htx & Hne & Hv). split_and!; [done..| |].
  - assert (forall d, rm_view (rm w') !! db_of w' d = Some (bind_db parms d)) as Hs.
    { intros [|]; rewrite Hv; [|by rewrite lookup_insert_eq].
      by rewrite lookup_insert_ne, lookup_insert_eq. }
    intros d. split_and!; [|by destruct d|done].
    apply (live_not_null (rm w')). by rewrite Hs.
  - intros h Hh. rewrite Hv, !lookup_insert_ne; [done|apply not_eq_sym, Hh..].
Qed.

(** C30: a [tf_tcam_bind] that fails leaves the flag clear and the log
    one line longer, and is not atomic: either nothing else changed (the
    receive side failed), or the database of the receive side was created,
    is live and stays in its slot (the transmit side failed). *)
Theorem tf_tcam_bind_partial tfp parms w :
  tcam_slots w -> init w = 0%N ->
  wp (tf_tcam_bind (Some tfp) (Some parms))
    (fun rc w' =>
       rc <> 0%Z ->
       init w' = 0%N /\
       ((tlog w' = tlog w ++ [LogDbCreationFailed TF_DIR_RX] /\
         rm_view (rm w') = rm_view (rm w) /\ forall d, db_of w' d = db_of w d) \/
        (tlog w' = tlog w ++ [LogDbCreationFailed TF_DIR_TX] /\
         rm_view (rm w) !! db_of w' TF_DIR_RX = None /\
         rm_view (rm w') !! db_of w' TF_DIR_RX = Some (bind_db parms TF_DIR_RX) /\
         db_of w' TF_DIR_TX = db_of w TF_DIR_TX)))
    w.
Proof.
  intros Hl Hi. eapply wp_mono; [by apply tf_tcam_bind_spec|].
  intros rc w' (Hfw & Hl' & H) Hrc. rewrite decide_False in H by done.
  destruct H as (Hi' & [H|(Hlog & Hf & Hv & Htx)]); [by split; [|left]|].
  split; [done|right]. split_and!; try done. by rewrite Hv, lookup_insert_eq.
Qed.

(** C34: a [tf_tcam_bind] that succeeds on a module whose slot still
    holds the database a failed attempt left there takes fresh handles
    for both slots: the old database stays live and no slot refers to it
    any more. *)
Theorem tf_tcam_bind_leaks tfp parms w d0 :
  tcam_slots w -> init w = 0%N ->
  is_Some (rm_view (rm w) !! db_of w d0) ->
  wp (tf_tcam_bind (Some tfp) (Some parms))
    (fun rc w' =>
       rc = 0%Z ->
       is_Some (rm_view (rm w') !! db_of w d0) /\
       forall d, db_of w' d <> db_of w d0)
    w.
Proof.
  intros Hl Hi Hlive. eapply wp_mono; [by apply tf_tcam_bind_spec|].
  intros rc w' (Hfw & Hl' & H) ->. rewrite decide_True in H by done.
  destruct H as (_ & _ & Hrx & Htx & _ & Hv).
  assert (forall d, db_of w' d <> db_of w d0) as Hne.
  { intros [|] Heq; rewrite Heq in *; by destruct Hlive; simplify_eq. }
  split; [|done]. by rewrite Hv, !lookup_insert_ne.
Qed.

(** What a [tf_tcam_bind] that returned 0 left: the flag set and, behind
    each slot, the database configured for its direction. *)
Lemma tf_tcam_bind_run tfp parms w w1 :
  length (tcam_db w) = TF_DIR_MAX -> init w = 0%N ->
  tf_tcam_bind (Some tfp) (Some parms) w = Some (0%Z, w1) ->
  init w1 = 1%N /\
  forall d, rm_view (rm w1) !! db_of w1 d = Some (bind_db parms d).
Proof.
  intros Hl Hi Hrun.
  apply (wp_run_inv _ _ _ _ _ _ (tf_tcam_bind_spec False tfp parms w Hl Hi)) in Hrun.
  rewrite decide_True in Hrun by done.
  destruct Hrun as (_ & _ & Hi1 & _ & _ & _ & Hne & Hv). split; [done|].
  intros [|]; rewrite Hv; [|by rewrite lookup_insert_eq].
  by rewrite lookup_insert_ne, lookup_insert_eq.
Qed.

(** ** Unbind *)

(** [tf_tcam_unbind] on a module that is not bound returns
    [-EINVAL] and changes nothing, the log included, whatever the handle
    it is given. *)
Lemma tf_tcam_unbind_unbound tfp w :
  init w = 0%N -> tf_tcam_unbind tfp w = Some ((- EINVAL)%Z, w).
Proof.
  intros Hi. apply wp_is_eq. unfold tf_tcam_unbind.
  destruct tfp; wp_go; [|done]. by rc_case.
Qed.

(** C6: a [tf_tcam_unbind] that returns 0 destroyed the two databases
    the slots referred to and nothing else, and left both slots NULL and
    the flag clear, so that the module can be bound again. *)
Theorem tf_tcam_unbind_clears tfp w :
  tcam_slots w -> init w <> 0%N ->
  wp (tf_tcam_unbind (Some tfp))
    (fun rc w' =>
       rc = 0%Z ->
       init w' = 0%N /\ fw w' = fw w /\ tlog w' = tlog w /\
       (forall d, db_of w' d = NULL /\ rm_view (rm w') !! db_of w d = None) /\
       (forall h, (forall d, h <> db_of w d) ->
                  rm_view (rm w') !! h = rm_view (rm w) !! h))
    w.
Proof.
  intros Hl Hi. eapply wp_mono; [by apply tf_tcam_unbind_spec|].
  intros rc w' (Hfw & Hlog & Hl' & H) ->. rewrite decide_True in H by done.
  destruct H as (Hi' & Hn & _ & _ & Hv). split_and!; [done..| |].
  - intros d. split; [done|]. rewrite Hv.
    destruct d; [|by rewrite lookup_delete_eq].
    destruct (decide (db_of w TF_DIR_TX = db_of w TF_DIR_RX)) as [->|Hne].
    + by rewrite lookup_delete_eq.
    + by rewrite lookup_delete_ne, lookup_delete_eq.
  - intros h Hh. rewrite Hv, !lookup_delete_ne; [done|apply not_eq_sym, Hh..].
Qed.

(** C31: a [tf_tcam_unbind] that fails leaves the flag set, and either
    nothing changed (the receive side failed) or the database of the
    receive side is destroyed and its slot NULL while the transmit side
    keeps its database and its handle. *)
Theorem tf_tcam_unbind_partial tfp w :
  tcam_slots w -> init w <> 0%N ->
  wp (tf_tcam_unbind (Some tfp))
    (fun rc w' =>
       rc <> 0%Z ->
       init w' = init w /\
       ((rm_view (rm w') = rm_view (rm w) /\ forall d, db_of w' d = db_of w d) \/
        (rm_view (rm w') = delete (db_of w TF_DIR_RX) (rm_view (rm w)) /\
         db_of w' TF_DIR_RX = NULL /\ db_of w' TF_DIR_TX = db_of w TF_DIR_TX)))
    w.
Proof.
  intros Hl Hi. eapply wp_mono; [by apply tf_tcam_unbind_spec|].
  intros rc w' (Hfw & Hlog & Hl' & H) Hrc. rewrite decide_False in H by done.
  destruct H as (Hi' & [H|(_ & Hv & Hrx & Htx)]); [by split; [|left]|].
  split; [done|by right].
Qed.

(** ** A bound module with a cleared slot *)

(** The state a [tf_tcam_unbind] that failed on the transmit side
    leaves: the flag set, a slot NULL. *)
Definition tcam_stuck (w : tcam_world) : Prop :=
  init w <> 0%N /\ exists d, db_of w d = NULL.

(** No later [tf_tcam_unbind] succeeds: it fails at the NULL slot, or
    before it. *)
Lemma tf_tcam_unbind_stuck_wp E tfp w :
  length (tcam_db w) = TF_DIR_MAX -> tcam_stuck w ->
  wpx E (tf_tcam_unbind tfp) (fun rc w' => rc <> 0%Z /\ tcam_stuck w') w.
Proof.
  intros Hl Hs. destruct tfp as [tfp|]; [|by unfold tf_tcam_unbind; wp_go].
  destruct Hs as [Hi [d Hd]].
  eapply wp_mono; [by apply tf_tcam_unbind_spec|].
  intros rc w' (Hfw & Hlog & Hl' & H). destruct (decide (rc = 0%Z)) as [->|Hrc].
  - destruct H as (_ & _ & Hrx & Htx & _).
    destruct d; rewrite Hd in *; [by apply live_not_null in Hrx|by apply live_not_null in Htx].
  - destruct H as (Hi' & H). split; [done|]. split; [congruence|].
    destruct H as [[_ Hs]|(_ & _ & Hrx & _)]; [|by exists TF_DIR_RX].
    exists d. by rewrite Hs.
Qed.

Lemma tcam_stuck_frame w w' :
  tcam_db w' = tcam_db w -> init w' = init w -> tcam_stuck w -> tcam_stuck w'.
Proof.
  intros Hdb Hi [Hi' [d Hd]]. split; [congruence|].
  exists d. by rewrite (db_of_frame w).
Qed.

Lemma tf_tcam_bind_stuck_wp E tfp parms w :
  tcam_stuck w ->
  wpx E (tf_tcam_bind tfp parms) (fun rc w' => rc <> 0%Z /\ tcam_stuck w') w.
Proof.
  intros Hs. unfold tf_tcam_bind.
  destruct tfp as [tfp|], parms as [parms|]; try by wp_go.
  wp_go. destruct Hs as [Hi Hd]. rc_case; [done|]. split; [done|].
  by apply (tcam_stuck_frame w).
Qed.

Lemma tcam_call_run_stuck c w :
  tcam_wf w -> tcam_stuck w -> wlp (tcam_call_run c) (fun _ => tcam_stuck) w.
Proof.
  intros Hwf Hs. destruct c; cbn [tcam_call_run]; try wp_step.
  - eapply wp_mono; [by apply tf_tcam_bind_stuck_wp|]. by intros ? ? [_ ?].
  - eapply wp_mono; [apply tf_tcam_unbind_stuck_wp; [apply Hwf|done]|].
    by intros ? ? [_ ?].
  - eapply wp_mono; [apply tf_tcam_alloc_frame|].
    intros ? w' (? & ? & _). by apply (tcam_stuck_frame w).
  - eapply wp_mono; [by apply tf_tcam_free_frame|].
    intros ? w' (? & ? & _). by apply (tcam_stuck_frame w).
  - by wp_go.
  - eapply wp_mono; [by apply tf_tcam_set_frame|].
    intros ? w' [(? & ? & _) _]. by apply (tcam_stuck_frame w).
  - by wp_go.
Qed.

(** C33: in a bound module with a NULL slot, [tf_tcam_unbind] and
    [tf_tcam_bind] both return, with an error: the first fails at the
    NULL slot or before it, the second is refused because the flag is
    set. *)
Theorem tcam_stuck_no_exit tfp parms w :
  tcam_slots w -> tcam_stuck w ->
  wp (tf_tcam_unbind tfp) (fun rc _ => rc <> 0%Z) w /\
  wp (tf_tcam_bind tfp parms) (fun rc _ => rc <> 0%Z) w.
Proof.
  intros Hl Hs. split.
  - eapply wp_mono; [by apply tf_tcam_unbind_stuck_wp|]. by intros ? ? [? _].
  - eapply wp_mono; [by apply tf_tcam_bind_stuck_wp|]. by intros ? ? [? _].
Qed.

(** C32: a bound module with a NULL slot stays bound, with a NULL slot,
    whatever entry points are called afterwards. *)
Theorem tcam_stuck_forever w0 w :
  tcam_wf w0 -> tcam_stuck w0 -> tcam_reachable w0 w -> tcam_stuck w.
Proof.
  intros Hwf Hs Hreach. cut (tcam_wf w /\ tcam_stuck w); [by intros []|].
  induction Hreach as [|w c rc w' _ [IHwf IHs] Hstep]; [done|].
  destruct Hstep as [c w rc p w' Hrun]. split.
  - by apply (wp_run_inv _ _ _ _ _ _ (tcam_call_run_wf c w IHwf) Hrun).
  - by apply (wp_run_inv _ _ _ _ _ _ (tcam_call_run_stuck c w IHwf IHs) Hrun).
Qed.

(** ** Bind, then unbind *)

(** C36: a [tf_tcam_bind] and a [tf_tcam_unbind] that both return 0
    leave the resource manager with the databases it had before the
    bind, both slots NULL and the flag clear. *)
Theorem tf_tcam_bind_unbind tfp tfp' parms w w1 w2 :
  tcam_slots w -> init w = 0%N ->
  tf_tcam_bind (Some tfp) (Some parms) w = Some (0%Z, w1) ->
  tf_tcam_unbind (Some tfp') w1 = Some (0%Z, w2) ->
  rm_view (rm w2) = rm_view (rm w) /\ init w2 = 0%N /\
  forall d, db_of w2 d = NULL.
Proof.
  intros Hl Hi Hb Hu.
  apply (wp_run_inv _ _ _ _ _ _ (tf_tcam_bind_spec False tfp parms w Hl Hi)) in Hb.
  rewrite decide_True in Hb by done.
  destruct Hb as (_ & Hl1 & Hi1 & _ & Hrx & Htx & Hne & Hv1).
  assert (init w1 <> 0%N) as Hi1' by (by rewrite Hi1).
  apply (wp_run_inv _ _ _ _ _ _ (tf_tcam_unbind_spec False tfp' w1 Hl1 Hi1')) in Hu.
  rewrite decide_True in Hu by done.
  destruct Hu as (_ & _ & _ & Hi2 & Hn & _ & _ & Hv2). split_and!; [|done..].
  rewrite Hv2, Hv1. rewrite (delete_insert_ne _ _ _ _ Hne).
  by rewrite (delete_insert_id _ _ _ Hrx), (delete_insert_id _ _ _ Htx).
Qed.
End Life.

Import RmPool MsgTable Fixtures.

Lemma tf_tcam_bind_bound_witness :
  tf_tcam_bind (Some tf_by_type) (Some cfg4) w_bound =
    Some ((- EINVAL)%Z, add_log LogAlreadyInitialized w_bound).
Proof.
  apply (tf_tcam_bind_bound tf_by_type cfg4 w_bound). discriminate.
Defined.

Lemma tf_tcam_bind_creates_witness :
  init w_bound = 1%N /\
  rm_view (rm w_bound) !! db_of w_bound TF_DIR_TX = Some (bind_db cfg4 TF_DIR_TX).
Proof.
  assert (tf_tcam_bind (Some tf_by_type) (Some cfg4) w_start = Some (0%Z, w_bound))
    as Hrun by run_eq.
  destruct (wp_run_inv _ _ _ _ _ _
              (tf_tcam_bind_creates tf_by_type cfg4 w_start eq_refl eq_refl)
              Hrun eq_refl) as (Hi & _ & Hd & _).
  split; [exact Hi|apply Hd].
Defined.

Lemma tf_tcam_bind_partial_witness :
  init w_half = 0%N /\
  rm_view (rm w_half) !! db_of w_half TF_DIR_RX = Some (bind_db cfg4 TF_DIR_RX).
Proof.
  assert (tf_tcam_bind (Some tf_by_type) (Some cfg4) w_start_small =
            Some ((- ENOMEM)%Z, w_half)) as Hrun by run_eq.
  destruct (wp_run_inv _ _ _ _ _ _
              (tf_tcam_bind_partial tf_by_type cfg4 w_start_small eq_refl eq_refl)
              Hrun) as (Hi & [(Hlog & _)|(_ & _ & Hv & _)]);
    [discriminate|discriminate Hlog|].
  split; [exact Hi|exact Hv].
Defined.

Lemma tf_tcam_bind_leaks_witness :
  let w' := exec (tf_tcam_bind (Some tf_by_type) (Some cfg1)) w_half in
  is_Some (rm_view (rm w') !! db_of w_half TF_DIR_RX) /\
  forall d, db_of w' d <> db_of w_half TF_DIR_RX.
Proof.
  intros w'.
  assert (tf_tcam_bind (Some tf_by_type) (Some cfg1) w_half = Some (0%Z, w'))
    as Hrun by run_eq.
  assert (is_Some (rm_view (rm w_half) !! db_of w_half TF_DIR_RX)) as Hlive
    by (eexists; run_eq).
  exact (wp_run_inv _ _ _ _ _ _
           (tf_tcam_bind_leaks tf_by_type cfg1 w_half TF_DIR_RX
              eq_refl eq_refl Hlive) Hrun eq_refl).
Defined.

Lemma tf_tcam_unbind_unbound_witness :
  tf_tcam_unbind (Some tf_by_type) w_start = Some ((- EINVAL)%Z, w_start).
Proof. exact (tf_tcam_unbind_unbound (Some tf_by_type) w_start eq_refl). Defined.

Lemma tf_tcam_unbind_clears_witness :
  let w' := exec (tf_tcam_unbind (Some tf_by_type)) w_alloc1 in
  init w' = 0%N /\ db_of w' TF_DIR_RX = NULL /\ db_of w' TF_DIR_TX = NULL.
Proof.
  intros w'.
  assert (tf_tcam_unbind (Some tf_by_type) w_alloc1 = Some (0%Z, w'))
    as Hrun by run_eq.
  assert (init w_alloc1 <> 0%N) as Hi by discriminate.
  destruct (wp_run_inv _ _ _ _ _ _
              (tf_tcam_unbind_clears tf_by_type w_alloc1 eq_refl Hi)
              Hrun eq_refl) as (Hi' & _ & _ & Hn & _).
  split_and!; [exact Hi'|apply Hn..].
Defined.

Lemma tf_tcam_unbind_partial_witness :
  init w_stuck = init w_down_alloc /\ db_of w_stuck TF_DIR_RX = NULL.
Proof.
  assert (tf_tcam_unbind (Some tf_by_type) w_down_alloc = Some ((- EIO)%Z, w_stuck))
    as Hrun by run_eq.
  assert (init w_down_alloc <> 0%N) as Hi by discriminate.
  destruct (wp_run_inv _ _ _ _ _ _
              (tf_tcam_unbind_partial tf_by_type w_down_alloc eq_refl Hi)
              Hrun) as (Hi' & [(_ & Hs)|(_ & Hrx & _)]); [discriminate| |].
  - specialize (Hs TF_DIR_RX). discriminate Hs.
  - split; [exact Hi'|exact Hrx].
Defined.

Lemma w_stuck_stuck : tcam_stuck w_stuck.
Proof.
  split; [discriminate|]. exists TF_DIR_RX. run_eq.
Qed.

Lemma w_stuck_wf : tcam_wf w_stuck.
Proof.
  apply (tcam_wf_exec (CallUnbind (Some tf_by_type)) w_down_alloc).
  apply (tcam_wf_exec (CallAlloc (Some tf_by_type) (Some (alloc_of TF_DIR_TX 0 16)))).
  apply (tcam_wf_exec (CallBind (Some tf_by_type) (Some cfg4)) w_start_down).
  apply tcam_wf_init.
Qed.

Lemma tcam_stuck_no_exit_witness :
  wp (tf_tcam_unbind (Some tf_by_type)) (fun rc _ => rc <> 0%Z) w_stuck /\
  wp (tf_tcam_bind (Some tf_by_type) (Some cfg4)) (fun rc _ => rc <> 0%Z) w_stuck.
Proof.
  exact (tcam_stuck_no_exit (Some tf_by_type) (Some cfg4) w_stuck eq_refl
           w_stuck_stuck).
Defined.

Lemma tcam_stuck_forever_witness :
  tcam_stuck (exec (tf_tcam_unbind (Some tf_by_type)) w_stuck).
Proof.
  apply (tcam_stuck_forever w_stuck); [apply w_stuck_wf|apply w_stuck_stuck|].
  eapply tcam_reach_step with (c := CallUnbind (Some tf_by_type)) (rc := (- EINVAL)%Z);
    [apply tcam_reach_start|].
  apply (tcam_step_call _ _ _ None). run_eq.
Defined.

Lemma tf_tcam_bind_unbind_witness :
  let w2 := exec (tf_tcam_unbind (Some tf_by_type)) w_bound in
  rm_view (rm w2) = rm_view (rm w_start) /\ init w2 = 0%N.
Proof.
  intros w2.
  assert (tf_tcam_bind (Some tf_by_type) (Some cfg4) w_start = Some (0%Z, w_bound))
    as Hb by run_eq.
  assert (tf_tcam_unbind (Some tf_by_type) w_bound = Some (0%Z, w2))
    as Hu by run_eq.
  destruct (tf_tcam_bind_unbind tf_by_type tf_by_type cfg4 w_start w_bound w2
              eq_refl eq_refl Hb Hu) as (Hv & Hi & _).
  split; [exact Hv|exact Hi].
Defined.
