(* ===== verification/TcamEntry.v ===== *)
(** * TcamEntry: allocate, free and set

    What [tf_tcam_alloc], [tf_tcam_free] and [tf_tcam_set] do on a bound
    module, in terms of the pool of the direction and type they are called
    for ([tcam_pool]): which index is reserved or released, what the caller
    gets back, when the firmware is called and with what, what is logged,
    and which code is returned, on every path.  The hardware index is the
    logical index times the slice count in the width of the index field
    ([hw_index]); it is exact, and the division undoes it, when the
    capacity of the pool times the slice count fits the field.  With
    nothing assumed of the slice counts and of the width,
    [tf_tcam_alloc_free_other] says which entry a release of the index
    just allocated works on.  The examples at the end run the entry
    points through devices that break what the code assumes of the slice
    count. *)

From S2P Require Import Prelude Types Device Rm Msg Tcam TcamRules TcamInv.
From S2P Require RmPool MsgTable Fixtures.

Section Entry.
Context {R : RmOps} {L : RmLaws R} {F : MsgOps} {A : TcamAbi}.
Implicit Types (w : tcam_world) (d : tf_dir) (q : N -> N -> Z * N).

(** The module is bound and the handle resolves to the slice query [q]. *)
Definition tcam_ready (tfp : tf) q w : Prop :=
  init w <> 0%N /\ tf_slice_query tfp = Some q.

(** The hardware index [tf_tcam_alloc] stores for logical index [i] and a
    slice count of [n]: the index in the width of the field, times the
    count in 16 bits, in the width of the field. *)
Definition hw_index (i n : N) : N :=
  wrap idx_bits (wrap idx_bits i * wrap SLICE_BITS n).

(** The pool an entry operation works on. *)
Definition tcam_pool w d (type : N) : option rm_pool :=
  view_pool (rm_view (rm w)) (db_of w d) type.

(** The pools after the pool of [(d, type)] is replaced: that one is the
    new pool, and every other one, of either direction, is as before.
    The directions do not share a database, so the other direction is not
    touched. *)
Lemma tcam_pool_set w w' d type pl pl' :
  tcam_wf w -> tcam_db w' = tcam_db w ->
  tcam_pool w d type = Some pl ->
  rm_view (rm w') = view_set_pool (rm_view (rm w)) (db_of w d) type pl' ->
  tcam_pool w' d type = Some pl' /\
  forall d' type', (d', type') <> (d, type) ->
    tcam_pool w' d' type' = tcam_pool w d' type'.
Proof.
  intros Hwf Hdb Hpl Hv. unfold tcam_pool in *.
  assert (forall d0, db_of w' d0 = db_of w d0) as Hd by (intros; by apply db_of_frame).
  apply view_pool_Some in Hpl as (db & Hlive & _). rewrite !Hd, Hv. split.
  - apply view_pool_set_eq. eauto.
  - intros d' type' Hne. rewrite Hd. apply view_pool_set_ne. intros [= Hh ->].
    apply Hne. f_equal. symmetry. apply (wf_distinct w Hwf); [|done].
    apply (live_not_null (rm w)). eauto.
Qed.

(** ** Allocate *)

Lemma tf_tcam_alloc_spec E tfp q p n w :
  tcam_ready tfp q w -> q (alloc_type p) (alloc_key_size p) = (0%Z, n) ->
  wpx E (tf_tcam_alloc (Some tfp) (Some p))
    (fun '(rc, p') w' =>
       tcam_db w' = tcam_db w /\ init w' = init w /\ fw w' = fw w /\
       if decide (rc = 0%Z)
       then exists pl i,
              tcam_pool w (alloc_dir p) (alloc_type p) = Some pl /\
              (i < pool_size pl)%N /\ (i ∉ pool_used pl) /\ pool_room pl <> 0%N /\
              rm_view (rm w') =
                view_set_pool (rm_view (rm w)) (db_of w (alloc_dir p))
                              (alloc_type p) (pool_alloc i pl) /\
              p' = Some (set_alloc_idx (hw_index i n) p) /\
              tlog w' = tlog w
       else rm_view (rm w') = rm_view (rm w) /\
            p' = Some (set_alloc_idx (wrap idx_bits (alloc_idx p)) p) /\
            tlog w' = tlog w ++ [LogAllocFailed (alloc_dir p) (alloc_type p)])
    w.
Proof.
  intros [Hi Hq] Hn. unfold tf_tcam_alloc. wp_go. rc_case; [done|].
  apply (wp_slice_info_query _ _ _ _ _ _ _ _ Hq). rewrite Hn. cbn [fst snd].
  wp_go. wp_call. rc_case; rm_spec Ealloc.
  - destruct Ealloc as (pl & Hpl & Hlt & Hfree & Hroom & Hv).
    rewrite decide_True by done. split_and!; [done..|]. by exists pl, n0.
  - destruct Ealloc as [-> Hv]. by rewrite decide_False.
Qed.

(** A hardware index that fits the field is the product, and the
    division by the slice count recovers the logical index. *)
Lemma hw_index_exact i n :
  n <> 0%N -> fits SLICE_BITS n -> fits idx_bits (i * n) ->
  hw_index i n = (i * n)%N /\ (hw_index i n / wrap SLICE_BITS n)%N = i.
Proof.
  intros Hn Hs Hf. unfold hw_index. rewrite (wrap_small SLICE_BITS n) by done.
  assert (fits idx_bits i) as Hi by (apply (fits_mono _ (i * n)); [nia|done]).
  rewrite (wrap_small idx_bits i) by done.
  split; [by apply wrap_small|by apply wrap_mul_div].
Qed.

(** C2: a [tf_tcam_alloc] that returns 0 reserved one index of the
    pool of its direction and type, an index below the capacity that was
    free; every other pool, of either direction, is as before, the
    firmware was not called, nothing was logged, and the index written to
    the parameters is the logical one scaled by the slice count, in the
    width of the field. *)
Theorem tf_tcam_alloc_reserves tfp q p n w :
  tcam_wf w -> tcam_ready tfp q w ->
  q (alloc_type p) (alloc_key_size p) = (0%Z, n) ->
  wp (tf_tcam_alloc (Some tfp) (Some p))
    (fun '(rc, p') w' =>
       rc = 0%Z ->
       exists pl i,
         tcam_pool w (alloc_dir p) (alloc_type p) = Some pl /\
         (i < pool_size pl)%N /\ (i ∉ pool_used pl) /\
         tcam_pool w' (alloc_dir p) (alloc_type p) = Some (pool_alloc i pl) /\
         (forall d t, (d, t) <> (alloc_dir p, alloc_type p) ->
                      tcam_pool w' d t = tcam_pool w d t) /\
         p' = Some (set_alloc_idx (hw_index i n) p) /\
         fw w' = fw w /\ tlog w' = tlog w)
    w.
Proof.
  intros Hwf Hr Hn. eapply wp_mono; [by eapply tf_tcam_alloc_spec|].
  intros [rc p'] w' (Hdb & Hi & Hfw & H) ->. rewrite decide_True in H by done.
  destruct H as (pl & i & Hpl & Hlt & Hfree & _ & Hv & -> & Hlog).
  destruct (tcam_pool_set w w' _ _ pl (pool_alloc i pl) Hwf Hdb Hpl Hv) as [Hp Ho].
  exists pl, i. by split_and!.
Qed.

(** C7: when the capacity of the pool times the slice count fits the
    index field, the hardware index a successful [tf_tcam_alloc] returns
    is the product of a logical index and the slice count, and dividing it
    by the slice count gives back that logical index, which was free
    before the call and is allocated after it. *)
Theorem tf_tcam_alloc_fresh tfp q p n pl w :
  tcam_wf w -> tcam_ready tfp q w -> slices_ok q ->
  q (alloc_type p) (alloc_key_size p) = (0%Z, n) ->
  tcam_pool w (alloc_dir p) (alloc_type p) = Some pl ->
  fits idx_bits (pool_size pl * n) ->
  wp (tf_tcam_alloc (Some tfp) (Some p))
    (fun '(rc, p') w' =>
       rc = 0%Z ->
       exists p1 pl',
         p' = Some p1 /\
         tcam_pool w' (alloc_dir p) (alloc_type p) = Some pl' /\
         let i := (alloc_idx p1 / n)%N in
         alloc_idx p1 = (i * n)%N /\ (i ∉ pool_used pl) /\ i ∈ pool_used pl')
    w.
Proof.
  intros Hwf Hr Hok Hn Hpl Hfit.
  eapply wp_mono; [by eapply tf_tcam_alloc_spec|].
  intros [rc p'] w' (Hdb & _ & _ & H) ->. rewrite decide_True in H by done.
  destruct H as (pl0 & i & Hpl0 & Hlt & Hfree & _ & Hv & -> & _).
  destruct (tcam_pool_set w w' _ _ pl0 (pool_alloc i pl0) Hwf Hdb Hpl0 Hv)
    as [Hp' _].
  destruct (Hok _ _ _ Hn) as [Hnz Hs]. simplify_eq.
  assert (fits idx_bits (i * n)) as Hf by (apply (fits_mono _ (pool_size pl * n)); [nia|done]).
  destruct (hw_index_exact i n Hnz Hs Hf) as [Hx Hd].
  rewrite (wrap_small SLICE_BITS n) in Hd by done.
  eexists _, _. split_and!; [done..|]. w_simpl. rewrite Hd.
  split_and!; [done..|]. cbn. set_solver.
Qed.

(** Allocation from a pool with room succeeds. *)
Lemma tf_tcam_alloc_rc E tfp q p n pl w :
  tcam_ready tfp q w -> q (alloc_type p) (alloc_key_size p) = (0%Z, n) ->
  tcam_pool w (alloc_dir p) (alloc_type p) = Some pl ->
  wpx E (tf_tcam_alloc (Some tfp) (Some p))
    (fun '(rc, _) _ => pool_room pl <> 0%N -> rc = 0%Z) w.
Proof.
  intros [Hi Hq] Hn Hpl. unfold tf_tcam_alloc. wp_go. rc_case; [done|].
  apply (wp_slice_info_query _ _ _ _ _ _ _ _ Hq). rewrite Hn. cbn [fst snd].
  wp_go. wp_call. rc_case; intros Hroom; [done|].
  pose proof (rm_allocate_room
                {| al_rm_db := db_of w (alloc_dir p); al_db_index := alloc_type p;
                   al_index := alloc_idx p |} (rm w) pl Hpl Hroom) as Hok.
  by rewrite Ealloc in Hok.
Qed.

(** C24: with a pool for its direction and type, [tf_tcam_alloc] returns
    0 exactly when the pool has room; when it has none the call changes
    nothing in the resource manager and logs the failure. *)
Theorem tf_tcam_alloc_room tfp q p n pl w :
  tcam_ready tfp q w -> q (alloc_type p) (alloc_key_size p) = (0%Z, n) ->
  tcam_pool w (alloc_dir p) (alloc_type p) = Some pl ->
  wp (tf_tcam_alloc (Some tfp) (Some p))
    (fun '(rc, _) w' =>
       (rc = 0%Z <-> pool_room pl <> 0%N) /\
       (rc <> 0%Z ->
        rm_view (rm w') = rm_view (rm w) /\
        tlog w' = tlog w ++ [LogAllocFailed (alloc_dir p) (alloc_type p)]))
    w.
Proof.
  intros Hr Hn Hpl. pose proof Hr as [Hi Hq].
  eapply wp_mono.
  { apply wp_conj; [by eapply tf_tcam_alloc_spec|].
    apply (tf_tcam_alloc_rc _ tfp q p n pl w Hr Hn Hpl). }
  intros [rc p'] w' [(_ & _ & _ & H) Hroom]. case_decide as Hrc.
  - destruct H as (pl0 & i & Hpl0 & _ & _ & Hroom0 & _). simplify_eq. naive_solver.
  - destruct H as (Hv & _ & Hlog). naive_solver.
Qed.

(** On a bound module, [tf_tcam_alloc] through a handle whose
    session and device resolve but whose device has no slice query logs
    it and returns [-EOPNOTSUPP]; the resource manager is not called and
    the parameters are not written. *)
Lemma tf_tcam_alloc_unsupported tfp tfs dev p w :
  init w <> 0%N ->
  tf_session_get_session tfp = inr tfs -> tf_session_get_device tfs = inr dev ->
  tf_dev_get_tcam_slice_info (dev_ops dev) = None ->
  tf_tcam_alloc (Some tfp) (Some p) w =
    Some (((- EOPNOTSUPP)%Z, Some p),
          add_log (LogNotSupported (alloc_dir p) (- EOPNOTSUPP)) w).
Proof.
  intros Hi Hs Hd Hnone. apply wp_is_eq. unfold tf_tcam_alloc. wp_go.
  rc_case; [done|]. unfold tcam_slice_info. rewrite Hs, Hd, Hnone. by wp_go.
Qed.

(** When the slice query fails, [tf_tcam_alloc] returns its code
    and changes nothing. *)
Lemma tf_tcam_alloc_query_error tfp q p rc n w :
  tcam_ready tfp q w -> q (alloc_type p) (alloc_key_size p) = (rc, n) ->
  rc <> 0%Z ->
  tf_tcam_alloc (Some tfp) (Some p) w = Some ((rc, Some p), w).
Proof.
  intros [Hi Hq] Hn Hrc. apply wp_is_eq. unfold tf_tcam_alloc. wp_go.
  rc_case; [done|].
  apply (wp_slice_info_query _ _ _ _ _ _ _ _ Hq). rewrite Hn. cbn [fst snd].
  by rc_case.
Qed.

(** ** Free *)

(** The log line of a firmware call that failed, or nothing. *)
Definition fw_log (rc : Z) (e : tcam_log) : list tcam_log :=
  if decide (rc = 0%Z) then [] else [e].

Lemma fw_log_ok e : fw_log 0 e = [].
Proof. done. Qed.

Lemma fw_log_failed rc e : rc <> 0%Z -> fw_log rc e = [e].
Proof. intros. unfold fw_log. by rewrite decide_False. Qed.

Lemma tf_tcam_free_spec E tfp q p n w :
  tcam_ready tfp q w -> q (free_type p) 0%N = (0%Z, n) ->
  wrap SLICE_BITS n <> 0%N ->
  wpx E (tf_tcam_free (Some tfp) (Some p))
    (fun rc w' =>
       tcam_db w' = tcam_db w /\ init w' = init w /\
       let i := (free_idx p / wrap SLICE_BITS n)%N in
       match tcam_pool w (free_dir p) (free_type p) with
       | None => rc <> 0%Z /\ w' = w
       | Some pl =>
           if decide (i ∈ pool_used pl)
           then rc = 0%Z /\
                rm_view (rm w') =
                  view_set_pool (rm_view (rm w)) (db_of w (free_dir p))
                                (free_type p) (pool_free i pl) /\
                fw w' = (tf_msg_tcam_entry_free tfp p (fw w)).2 /\
                tlog w' = tlog w ++
                  fw_log (tf_msg_tcam_entry_free tfp p (fw w)).1
                    (LogMsgFreeFailed (free_dir p) (free_type p) (free_idx p)
                       (tf_msg_tcam_entry_free tfp p (fw w)).1)
           else rc = 0%Z /\
                w' = add_log (LogAlreadyFree (free_dir p) (free_type p)
                                             (free_idx p)) w
       end)
    w.
Proof.
  intros [Hi Hq] Hn Hnz. unfold tf_tcam_free, tcam_pool. wp_go. rc_case; [done|].
  apply (wp_slice_info_query _ _ _ _ _ _ _ _ Hq). rewrite Hn. cbn [fst snd].
  wp_go. rc_case; [done|]. wp_call. rm_spec Eisalloc.
  destruct (view_pool _ _ _) as [pl|] eqn:Hpl.
  - destruct Eisalloc as [-> ->]. wp_go. case_decide as Hin; wp_go.
    + change (1 =? 0)%Z with false. cbn iota. wp_go. wp_call.
      pose proof (rm_free_allocated
                    {| fr_rm_db := db_of w (free_dir p); fr_db_index := free_type p;
                       fr_index := (free_idx p / wrap SLICE_BITS n)%N |}
                    (rm w) (ex_intro _ pl (conj Hpl Hin))) as Hok.
      rewrite Efree in Hok. cbn in Hok. subst. wp_go. rm_spec Efree.
      destruct Efree as (pl' & Hpl' & _ & Hv). w_simpl. simplify_eq.
      wp_call. rc_case; [by rewrite fw_log_ok, app_nil_r|].
      by rewrite fw_log_failed.
    + done.
  - destruct Eisalloc as [Hrc ->]. rc_case; [done|]. done.
Qed.

(** C3: [tf_tcam_free] of a hardware index whose logical index, the
    quotient by the slice count for key size 0, is allocated returns 0,
    releases that index and no other, in no other pool, and then calls
    the firmware with the caller's parameters; a failure of the firmware
    is logged and changes neither the code nor the release. *)
Theorem tf_tcam_free_releases tfp q p n pl w :
  tcam_wf w -> tcam_ready tfp q w -> q (free_type p) 0%N = (0%Z, n) ->
  wrap SLICE_BITS n <> 0%N ->
  tcam_pool w (free_dir p) (free_type p) = Some pl ->
  (free_idx p / wrap SLICE_BITS n)%N ∈ pool_used pl ->
  wp (tf_tcam_free (Some tfp) (Some p))
    (fun rc w' =>
       rc = 0%Z /\
       tcam_pool w' (free_dir p) (free_type p) =
         Some (pool_free (free_idx p / wrap SLICE_BITS n) pl) /\
       (forall d t, (d, t) <> (free_dir p, free_type p) ->
                    tcam_pool w' d t = tcam_pool w d t) /\
       fw w' = (tf_msg_tcam_entry_free tfp p (fw w)).2 /\
       tlog w' = tlog w ++
         fw_log (tf_msg_tcam_entry_free tfp p (fw w)).1
           (LogMsgFreeFailed (free_dir p) (free_type p) (free_idx p)
              (tf_msg_tcam_entry_free tfp p (fw w)).1))
    w.
Proof.
  intros Hwf Hr Hn Hnz Hpl Hin. eapply wp_mono; [by eapply tf_tcam_free_spec|].
  intros rc w' (Hdb & Hi & H). cbn zeta in H. rewrite Hpl, decide_True in H by done.
  destruct H as (-> & Hv & Hfw & Hlog).
  destruct (tcam_pool_set w w' _ _ pl _ Hwf Hdb Hpl Hv) as [Hp Ho].
  by split_and!.
Qed.

(** C26: [tf_tcam_free] of a hardware index whose logical index is not
    allocated returns 0, as a release does; it logs that the entry is
    free already, releases nothing and does not call the firmware. *)
Theorem tf_tcam_free_not_allocated tfp q p n pl w :
  tcam_ready tfp q w -> q (free_type p) 0%N = (0%Z, n) ->
  wrap SLICE_BITS n <> 0%N ->
  tcam_pool w (free_dir p) (free_type p) = Some pl ->
  (free_idx p / wrap SLICE_BITS n)%N ∉ pool_used pl ->
  tf_tcam_free (Some tfp) (Some p) w =
    Some (0%Z, add_log (LogAlreadyFree (free_dir p) (free_type p) (free_idx p)) w).
Proof.
  intros Hr Hn Hnz Hpl Hin. apply wp_is_eq.
  eapply wp_mono; [by eapply tf_tcam_free_spec|].
  intros rc w' (Hdb & Hi & H). cbn zeta in H.
  by rewrite Hpl, decide_False in H by done.
Qed.

(** ** Set *)

Lemma tf_tcam_set_spec E tfp q p n w :
  tcam_ready tfp q w -> q (set_type p) (set_key_size p) = (0%Z, n) ->
  wrap SLICE_BITS n <> 0%N ->
  wpx E (tf_tcam_set (Some tfp) (Some p))
    (fun rc w' =>
       tcam_db w' = tcam_db w /\ init w' = init w /\ rm w' = rm w /\
       let i := (set_idx p / wrap SLICE_BITS n)%N in
       match tcam_pool w (set_dir p) (set_type p) with
       | None => rc <> 0%Z /\ w' = w
       | Some pl =>
           if decide (i ∈ pool_used pl)
           then rc = 0%Z /\
                fw w' = (tf_msg_tcam_entry_set tfp p (fw w)).2 /\
                tlog w' = tlog w ++
                  fw_log (tf_msg_tcam_entry_set tfp p (fw w)).1
                    (LogMsgSetFailed (set_dir p) (set_type p) (set_idx p)
                       (tf_msg_tcam_entry_set tfp p (fw w)).1)
           else rc = 0%Z /\
                w' = add_log (LogNotAllocated (set_dir p) (set_type p)
                                              (set_idx p)) w
       end)
    w.
Proof.
  intros [Hi Hq] Hn Hnz. unfold tf_tcam_set, tcam_pool. wp_go. rc_case; [done|].
  apply (wp_slice_info_query _ _ _ _ _ _ _ _ Hq). rewrite Hn. cbn [fst snd].
  wp_go. rc_case; [done|]. wp_call. rm_spec Eisalloc.
  destruct (view_pool _ _ _) as [pl|] eqn:Hpl.
  - destruct Eisalloc as [-> ->]. wp_go. case_decide as Hin; wp_go; [|done].
    change (1 =? 0)%Z with false. cbn iota. wp_go.
    wp_call. rc_case; [by rewrite fw_log_ok, app_nil_r|].
    by rewrite fw_log_failed.
  - destruct Eisalloc as [Hrc ->]. rc_case; [done|]. done.
Qed.

(** C11: [tf_tcam_set] of a hardware index whose logical index, the
    quotient by the slice count for the key size given, is allocated
    calls the firmware with the caller's parameters and returns 0
    whatever the firmware answers; a failure is logged; the resource
    manager is left as it was. *)
Theorem tf_tcam_set_writes tfp q p n pl w :
  tcam_ready tfp q w -> q (set_type p) (set_key_size p) = (0%Z, n) ->
  wrap SLICE_BITS n <> 0%N ->
  tcam_pool w (set_dir p) (set_type p) = Some pl ->
  (set_idx p / wrap SLICE_BITS n)%N ∈ pool_used pl ->
  wp (tf_tcam_set (Some tfp) (Some p))
    (fun rc w' =>
       rc = 0%Z /\ rm w' = rm w /\
       fw w' = (tf_msg_tcam_entry_set tfp p (fw w)).2 /\
       tlog w' = tlog w ++
         fw_log (tf_msg_tcam_entry_set tfp p (fw w)).1
           (LogMsgSetFailed (set_dir p) (set_type p) (set_idx p)
              (tf_msg_tcam_entry_set tfp p (fw w)).1))
    w.
Proof.
  intros Hr Hn Hnz Hpl Hin. eapply wp_mono; [by eapply tf_tcam_set_spec|].
  intros rc w' (Hdb & Hi & Hrm & H). cbn zeta in H.
  rewrite Hpl, decide_True in H by done. by destruct H as (-> & Hfw & Hlog).
Qed.

(** C27: [tf_tcam_set] of a hardware index whose logical index is not
    allocated returns 0; it logs that the entry is not allocated and does
    not call the firmware. *)
Theorem tf_tcam_set_not_allocated tfp q p n pl w :
  tcam_ready tfp q w -> q (set_type p) (set_key_size p) = (0%Z, n) ->
  wrap SLICE_BITS n <> 0%N ->
  tcam_pool w (set_dir p) (set_type p) = Some pl ->
  (set_idx p / wrap SLICE_BITS n)%N ∉ pool_used pl ->
  tf_tcam_set (Some tfp) (Some p) w =
    Some (0%Z, add_log (LogNotAllocated (set_dir p) (set_type p) (set_idx p)) w).
Proof.
  intros Hr Hn Hnz Hpl Hin. apply wp_is_eq.
  eapply wp_mono; [by eapply tf_tcam_set_spec|].
  intros rc w' (Hdb & Hi & Hrm & H). cbn zeta in H.
  by rewrite Hpl, decide_False in H by done.
Qed.

(** ** Allocate, then free or set *)

(** What a [tf_tcam_alloc] that returned 0 did, when the capacity times
    the slice count fits the index field. *)
Lemma tf_tcam_alloc_run tfp q p n pl p1 w w1 :
  tcam_ready tfp q w -> slices_ok q ->
  q (alloc_type p) (alloc_key_size p) = (0%Z, n) ->
  tcam_pool w (alloc_dir p) (alloc_type p) = Some pl ->
  fits idx_bits (pool_size pl * n) ->
  tf_tcam_alloc (Some tfp) (Some p) w = Some ((0%Z, Some p1), w1) ->
  exists i,
    (i ∉ pool_used pl) /\ (alloc_idx p1 / wrap SLICE_BITS n)%N = i /\
    wrap SLICE_BITS n <> 0%N /\ tcam_ready tfp q w1 /\
    tcam_db w1 = tcam_db w /\ init w1 = init w /\ fw w1 = fw w /\
    rm_view (rm w1) =
      view_set_pool (rm_view (rm w)) (db_of w (alloc_dir p)) (alloc_type p)
                    (pool_alloc i pl) /\
    tcam_pool w1 (alloc_dir p) (alloc_type p) = Some (pool_alloc i pl).
Proof.
  intros Hr Hok Hn Hpl Hfit Hrun. pose proof Hr as [Hi Hq].
  apply (wp_run_inv _ _ _ _ _ _ (tf_tcam_alloc_spec False tfp q p n w Hr Hn)) in Hrun.
  destruct Hrun as (Hdb & Hi1 & Hfw & H). rewrite decide_True in H by done.
  destruct H as (pl0 & i & Hpl0 & Hlt & Hfree & _ & Hv & [= ->] & _).
  destruct (Hok _ _ _ Hn) as [Hnz Hs]. simplify_eq.
  assert (fits idx_bits (i * n)) as Hf
    by (apply (fits_mono _ (pool_size pl * n)); [nia|done]).
  destruct (hw_index_exact i n Hnz Hs Hf) as [_ Hd].
  exists i. split_and!; try done.
  - by rewrite wrap_small.
  - split; [congruence|done].
  - unfold tcam_pool in *. rewrite (db_of_frame w w1) by done. rewrite Hv.
    apply view_pool_set_eq. apply view_pool_Some in Hpl as (db & -> & _). eauto.
Qed.

(** C8: a successful [tf_tcam_alloc] followed by [tf_tcam_free] of the
    index it returned, through a device whose slice count for the type
    is the same for key size 0, leaves the resource manager with the
    allocation state it had before the allocation. *)
Theorem tf_tcam_alloc_free tfp q p n pl p1 w w1 :
  tcam_ready tfp q w -> slices_ok q ->
  q (alloc_type p) (alloc_key_size p) = (0%Z, n) ->
  q (alloc_type p) 0%N = (0%Z, n) ->
  tcam_pool w (alloc_dir p) (alloc_type p) = Some pl ->
  fits idx_bits (pool_size pl * n) ->
  tf_tcam_alloc (Some tfp) (Some p) w = Some ((0%Z, Some p1), w1) ->
  wp (tf_tcam_free (Some tfp)
        (Some {| free_dir := alloc_dir p; free_type := alloc_type p;
                 free_idx := alloc_idx p1 |}))
    (fun rc w2 => rc = 0%Z /\ rm_view (rm w2) = rm_view (rm w) /\
                  tcam_db w2 = tcam_db w /\ init w2 = init w)
    w1.
Proof.
  intros Hr Hok Hn Hn0 Hpl Hfit Hrun.
  destruct (tf_tcam_alloc_run _ _ _ _ _ _ _ _ Hr Hok Hn Hpl Hfit Hrun)
    as (i & Hfree & Hd & Hnz & Hr1 & Hdb & Hi1 & _ & Hv & Hp1).
  set (pf := {| free_dir := alloc_dir p; free_type := alloc_type p;
                free_idx := alloc_idx p1 |}).
  eapply wp_mono; [by apply (tf_tcam_free_spec False tfp q pf n w1 Hr1 Hn0)|].
  intros rc w2 (Hdb2 & Hi2 & H). cbn [pf free_dir free_type free_idx] in H.
  cbn zeta in H. rewrite Hp1, Hd in H.
  rewrite decide_True in H by (cbn; set_solver).
  destruct H as (-> & Hv2 & _). split_and!; [done| |congruence..].
  rewrite Hv2, (db_of_frame w w1), Hv, view_set_pool_twice by done.
  rewrite pool_free_alloc by done. by apply view_set_pool_id.
Qed.

(** C37: a successful [tf_tcam_alloc] followed by [tf_tcam_set] of the
    index it returned, with the same key size, resolves to the logical
    index that was allocated: the entry is found allocated and the
    firmware is called. *)
Theorem tf_tcam_alloc_set tfp q p n pl p1 ps w w1 :
  tcam_ready tfp q w -> slices_ok q ->
  q (alloc_type p) (alloc_key_size p) = (0%Z, n) ->
  tcam_pool w (alloc_dir p) (alloc_type p) = Some pl ->
  fits idx_bits (pool_size pl * n) ->
  tf_tcam_alloc (Some tfp) (Some p) w = Some ((0%Z, Some p1), w1) ->
  set_dir ps = alloc_dir p -> set_type ps = alloc_type p ->
  set_key_size ps = alloc_key_size p -> set_idx ps = alloc_idx p1 ->
  wp (tf_tcam_set (Some tfp) (Some ps))
    (fun rc w2 => rc = 0%Z /\ rm w2 = rm w1 /\
                  fw w2 = (tf_msg_tcam_entry_set tfp ps (fw w)).2)
    w1.
Proof.
  intros Hr Hok Hn Hpl Hfit Hrun Hsd Hst Hsk Hsi.
  destruct (tf_tcam_alloc_run _ _ _ _ _ _ _ _ Hr Hok Hn Hpl Hfit Hrun)
    as (i & Hfree & Hd & Hnz & Hr1 & Hdb & _ & Hfw & Hv & Hp1).
  rewrite <- Hst, <- Hsk in Hn. rewrite <- Hsd, <- Hst in Hp1. rewrite <- Hsi in Hd.
  eapply wp_mono; [by eapply (tf_tcam_set_spec False tfp q ps n w1 Hr1 Hn)|].
  intros rc w2 (Hdb2 & Hi2 & Hrm & H). cbn zeta in H. rewrite Hp1, Hd in H.
  rewrite decide_True in H by (cbn; set_solver).
  destruct H as (-> & Hfw2 & _). by rewrite <- Hfw.
Qed.

(** C9: what [tf_tcam_free] releases when it is given the index a
    [tf_tcam_alloc] has just returned, with nothing assumed of the slice
    counts or of the width of the index field.  The allocation reserved
    a logical index [i] and returned [hw_index i n], for the slice count
    [n] of the key size it was given; the release divides by [n0], the
    slice count of key size 0, and works on the quotient [j].  It returns
    0 in every case.  The pool it leaves is the pool of the allocation
    with [j] released: when [j] is not [i], the entry just allocated stays
    allocated, and the entry of another caller at [j], when there is
    one, is released in its place, with the firmware told so; when there
    is none, nothing is released and the firmware is not called. *)
Theorem tf_tcam_alloc_free_other tfp q p n n0 pl p1 w w1 :
  tcam_wf w -> tcam_ready tfp q w ->
  q (alloc_type p) (alloc_key_size p) = (0%Z, n) ->
  q (alloc_type p) 0%N = (0%Z, n0) -> wrap SLICE_BITS n0 <> 0%N ->
  tcam_pool w (alloc_dir p) (alloc_type p) = Some pl ->
  tf_tcam_alloc (Some tfp) (Some p) w = Some ((0%Z, Some p1), w1) ->
  exists i,
    (i ∉ pool_used pl) /\ alloc_idx p1 = hw_index i n /\
    tcam_pool w1 (alloc_dir p) (alloc_type p) = Some (pool_alloc i pl) /\
    let j := (hw_index i n / wrap SLICE_BITS n0)%N in
    let pf := {| free_dir := alloc_dir p; free_type := alloc_type p;
                 free_idx := alloc_idx p1 |} in
    wp (tf_tcam_free (Some tfp) (Some pf))
      (fun rc w2 =>
         rc = 0%Z /\
         tcam_pool w2 (alloc_dir p) (alloc_type p) =
           Some (pool_free j (pool_alloc i pl)) /\
         (forall d t, (d, t) <> (alloc_dir p, alloc_type p) ->
                      tcam_pool w2 d t = tcam_pool w d t) /\
         fw w2 = if decide (j = i \/ j ∈ pool_used pl)
                 then (tf_msg_tcam_entry_free tfp pf (fw w)).2 else fw w)
      w1.
Proof.
  intros Hwf Hr Hn Hn0 Hnz Hpl Hrun. pose proof Hr as [Hi Hq].
  apply (wp_run_inv _ _ _ _ _ _ (tf_tcam_alloc_spec False tfp q p n w Hr Hn)) in Hrun.
  destruct Hrun as (Hdb & Hi1 & Hfw & H). rewrite decide_True in H by done.
  destruct H as (pl0 & i & Hpl0 & Hlt & Hfree & _ & Hv & [= ->] & _). simplify_eq.
  destruct (tcam_pool_set w w1 _ _ pl (pool_alloc i pl) Hwf Hdb Hpl Hv) as [Hp1 Ho1].
  exists i. split_and!; [done..|]. cbn zeta.
  set (pf := {| free_dir := alloc_dir p; free_type := alloc_type p;
                free_idx := _ |}).
  assert (tcam_ready tfp q w1) as Hr1 by (split; [congruence|done]).
  assert (tcam_wf w1) as Hwf1 by (apply (tcam_frame_wf w); [frame_tac|done]).
  eapply wp_mono; [by apply (tf_tcam_free_spec False tfp q pf n0 w1 Hr1 Hn0)|].
  intros rc w2 (Hdb2 & Hi2 & H). cbn [pf free_dir free_type free_idx] in H.
  cbn zeta in H. rewrite Hp1 in H. cbn [alloc_idx set_alloc_idx] in *.
  case_decide as Hin.
  - destruct H as (-> & Hv2 & Hfw2 & _).
    destruct (tcam_pool_set w1 w2 _ _ _ _ Hwf1 Hdb2 Hp1 Hv2) as [Hp2 Ho2].
    split_and!; [done..| |].
    + intros d t Hne. rewrite Ho2, Ho1 by done. done.
    + rewrite decide_True by (cbn in Hin; set_solver). by rewrite Hfw2, Hfw.
  - destruct H as [-> ->]. unfold tcam_pool in *. w_simpl.
    setoid_rewrite db_of_add_log.
    split_and!; [done| |by intros; apply Ho1|].
    + rewrite Hp1. unfold pool_free, pool_alloc in *; cbn in *. do 2 f_equal.
      set_solver.
    + rewrite decide_False by (cbn in Hin; set_solver). done.
Qed.

(** ** Calls on a module that is not bound *)

(** On a module that is not bound, [tf_tcam_alloc], [tf_tcam_free]
    and [tf_tcam_set] log it and return [-EINVAL]; no collaborator is
    called and the parameters are not written. *)
Lemma tf_tcam_entry_unbound tfp pa pf ps w :
  init w = 0%N ->
  tf_tcam_alloc (Some tfp) (Some pa) w =
    Some (((- EINVAL)%Z, Some pa), add_log (LogNoDbs (alloc_dir pa)) w) /\
  tf_tcam_free (Some tfp) (Some pf) w =
    Some ((- EINVAL)%Z, add_log (LogNoDbs (free_dir pf)) w) /\
  tf_tcam_set (Some tfp) (Some ps) w =
    Some ((- EINVAL)%Z, add_log (LogNoDbs (set_dir ps)) w).
Proof.
  intros Hi. split_and!; apply wp_is_eq.
  - unfold tf_tcam_alloc. wp_go. by rc_case.
  - unfold tf_tcam_free. wp_go. by rc_case.
  - unfold tf_tcam_set. wp_go. by rc_case.
Qed.

(** ** The entry points with an empty body, and NULL arguments *)

(** [tf_tcam_alloc_search] and [tf_tcam_get] return 0 and do nothing,
    whatever their arguments and whether or not the module is bound. *)
Lemma tf_tcam_stubs {T P : Type} (tfp : T) (parms : P) w :
  tf_tcam_alloc_search tfp parms w = Some (0%Z, w) /\
  tf_tcam_get tfp parms w = Some (0%Z, w).
Proof. done. Qed.

(** Every entry point that checks its arguments returns [-EINVAL] and
    does nothing when the handle or the parameters are NULL. *)
Lemma tf_tcam_null_args tfp cfg pa pf ps w :
  tf_tcam_bind None cfg w = Some ((- EINVAL)%Z, w) /\
  tf_tcam_bind tfp None w = Some ((- EINVAL)%Z, w) /\
  tf_tcam_unbind None w = Some ((- EINVAL)%Z, w) /\
  tf_tcam_alloc None pa w = Some (((- EINVAL)%Z, pa), w) /\
  tf_tcam_alloc tfp None w = Some (((- EINVAL)%Z, None), w) /\
  tf_tcam_free None pf w = Some ((- EINVAL)%Z, w) /\
  tf_tcam_free tfp None w = Some ((- EINVAL)%Z, w) /\
  tf_tcam_set None ps w = Some ((- EINVAL)%Z, w) /\
  tf_tcam_set tfp None w = Some ((- EINVAL)%Z, w).
Proof. by destruct tfp. Qed.
End Entry.

Import RmPool MsgTable Fixtures.

(** ** The theorems at concrete inputs *)

Lemma ready_by_type w : init w <> 0%N -> tcam_ready tf_by_type q_by_type w.
Proof. by split. Qed.

Lemma q_by_type_ok : slices_ok q_by_type.
Proof.
  intros t k n [= <-]. by case_decide.
Qed.

(** The pool of type 2 on the receive side, with its first index
    allocated. *)
Definition pool_1of4 : rm_pool := {| pool_size := 4; pool_used := {[0%N]} |}.

Lemma w_alloc1_pool : tcam_pool w_alloc1 TF_DIR_RX 2 = Some pool_1of4.
Proof. reflexivity. Qed.

Lemma tf_tcam_entry_unbound_witness :
  tf_tcam_alloc (Some tf_by_type) (Some (alloc_of TF_DIR_RX 0 16)) w_start =
    Some (((- EINVAL)%Z, Some (alloc_of TF_DIR_RX 0 16)),
          add_log (LogNoDbs TF_DIR_RX) w_start) /\
  tf_tcam_free (Some tf_by_type) (Some (free_of TF_DIR_TX 2 0)) w_start =
    Some ((- EINVAL)%Z, add_log (LogNoDbs TF_DIR_TX) w_start) /\
  tf_tcam_set (Some tf_by_type) (Some (set_of TF_DIR_RX 2 0 16)) w_start =
    Some ((- EINVAL)%Z, add_log (LogNoDbs TF_DIR_RX) w_start).
Proof.
  exact (tf_tcam_entry_unbound tf_by_type (alloc_of TF_DIR_RX 0 16)
           (free_of TF_DIR_TX 2 0) (set_of TF_DIR_RX 2 0 16) w_start eq_refl).
Defined.

Lemma tf_tcam_alloc_reserves_witness :
  wp (tf_tcam_alloc (Some tf_by_type) (Some (alloc_of TF_DIR_RX 2 16)))
    (fun '(rc, p') w' =>
       rc = 0%Z ->
       exists pl i,
         tcam_pool w_alloc1 TF_DIR_RX 2 = Some pl /\
         (i < pool_size pl)%N /\ (i ∉ pool_used pl) /\
         tcam_pool w' TF_DIR_RX 2 = Some (pool_alloc i pl) /\
         (forall d t, (d, t) <> (TF_DIR_RX, 2%N) ->
                      tcam_pool w' d t = tcam_pool w_alloc1 d t) /\
         p' = Some (set_alloc_idx (hw_index i 2) (alloc_of TF_DIR_RX 2 16)) /\
         fw w' = fw w_alloc1 /\ tlog w' = tlog w_alloc1)
    w_alloc1.
Proof.
  apply (tf_tcam_alloc_reserves tf_by_type q_by_type (alloc_of TF_DIR_RX 2 16) 2
           w_alloc1 w_alloc1_wf); [by apply ready_by_type|reflexivity].
Defined.

Lemma tf_tcam_alloc_fresh_witness :
  wp (tf_tcam_alloc (Some tf_by_type) (Some (alloc_of TF_DIR_RX 2 16)))
    (fun '(rc, p') w' =>
       rc = 0%Z ->
       exists p1 pl',
         p' = Some p1 /\ tcam_pool w' TF_DIR_RX 2 = Some pl' /\
         let i := (alloc_idx p1 / 2)%N in
         alloc_idx p1 = (i * 2)%N /\ (i ∉ pool_used pool_1of4) /\ i ∈ pool_used pl')
    w_alloc1.
Proof.
  apply (tf_tcam_alloc_fresh tf_by_type q_by_type (alloc_of TF_DIR_RX 2 16) 2
           pool_1of4 w_alloc1 w_alloc1_wf);
    [by apply ready_by_type|apply q_by_type_ok|reflexivity|apply w_alloc1_pool|done].
Defined.

Lemma tf_tcam_alloc_room_witness :
  wp (tf_tcam_alloc (Some tf_by_type) (Some (alloc_of TF_DIR_RX 2 16)))
    (fun '(rc, _) w' =>
       (rc = 0%Z <-> pool_room pool_1of4 <> 0%N) /\
       (rc <> 0%Z ->
        rm_view (rm w') = rm_view (rm w_alloc1) /\
        tlog w' = tlog w_alloc1 ++ [LogAllocFailed TF_DIR_RX 2]))
    w_alloc1.
Proof.
  apply (tf_tcam_alloc_room tf_by_type q_by_type (alloc_of TF_DIR_RX 2 16) 2
           pool_1of4 w_alloc1);
    [by apply ready_by_type|reflexivity|apply w_alloc1_pool].
Defined.

Lemma tf_tcam_alloc_unsupported_witness :
  tf_tcam_alloc (Some tf_no_query) (Some (alloc_of TF_DIR_TX 1 16)) w_bound =
    Some (((- EOPNOTSUPP)%Z, Some (alloc_of TF_DIR_TX 1 16)),
          add_log (LogNotSupported TF_DIR_TX (- EOPNOTSUPP)) w_bound).
Proof.
  by eapply (tf_tcam_alloc_unsupported tf_no_query _ _ (alloc_of TF_DIR_TX 1 16)
               w_bound).
Defined.

Lemma tf_tcam_alloc_query_error_witness :
  tf_tcam_alloc (Some tf_fail) (Some (alloc_of TF_DIR_TX 1 16)) w_bound =
    Some (((- EINVAL)%Z, Some (alloc_of TF_DIR_TX 1 16)), w_bound).
Proof.
  by apply (tf_tcam_alloc_query_error tf_fail q_fail (alloc_of TF_DIR_TX 1 16)
              (- EINVAL) 0 w_bound).
Defined.

Lemma tf_tcam_free_releases_witness :
  wp (tf_tcam_free (Some tf_by_type) (Some (free_of TF_DIR_RX 2 0)))
    (fun rc w' =>
       rc = 0%Z /\
       tcam_pool w' TF_DIR_RX 2 = Some (pool_free 0 pool_1of4) /\
       fw w' = (tf_msg_tcam_entry_free tf_by_type (free_of TF_DIR_RX 2 0)
                  (fw w_alloc1)).2)
    w_alloc1.
Proof.
  eapply wp_mono.
  - apply (tf_tcam_free_releases tf_by_type q_by_type (free_of TF_DIR_RX 2 0) 2
             pool_1of4 w_alloc1 w_alloc1_wf);
      [by apply ready_by_type|reflexivity|done|apply w_alloc1_pool|].
    reflexivity.
  - intros rc w' (? & ? & _ & ? & _). by split_and!.
Defined.

Lemma tf_tcam_free_not_allocated_witness :
  tf_tcam_free (Some tf_by_type) (Some (free_of TF_DIR_RX 2 2)) w_alloc1 =
    Some (0%Z, add_log (LogAlreadyFree TF_DIR_RX 2 2) w_alloc1).
Proof.
  apply (tf_tcam_free_not_allocated tf_by_type q_by_type (free_of TF_DIR_RX 2 2) 2
           pool_1of4 w_alloc1);
    [by apply ready_by_type|reflexivity|done|apply w_alloc1_pool|].
  intros Hin. by vm_compute in Hin.
Defined.

Lemma tf_tcam_set_writes_witness :
  wp (tf_tcam_set (Some tf_by_type) (Some (set_of TF_DIR_RX 2 0 16)))
    (fun rc w' => rc = 0%Z /\ rm w' = rm w_alloc1 /\ fw w' <> fw w_alloc1)
    w_alloc1.
Proof.
  eapply wp_mono.
  - apply (tf_tcam_set_writes tf_by_type q_by_type (set_of TF_DIR_RX 2 0 16) 2
             pool_1of4 w_alloc1);
      [by apply ready_by_type|reflexivity|done|apply w_alloc1_pool|].
    reflexivity.
  - intros rc w' (? & ? & Hfw & _). split_and!; [done..|]. by rewrite Hfw.
Defined.

Lemma tf_tcam_set_not_allocated_witness :
  tf_tcam_set (Some tf_by_type) (Some (set_of TF_DIR_RX 2 2 16)) w_alloc1 =
    Some (0%Z, add_log (LogNotAllocated TF_DIR_RX 2 2) w_alloc1).
Proof.
  apply (tf_tcam_set_not_allocated tf_by_type q_by_type (set_of TF_DIR_RX 2 2 16) 2
           pool_1of4 w_alloc1);
    [by apply ready_by_type|reflexivity|done|apply w_alloc1_pool|].
  intros Hin. by vm_compute in Hin.
Defined.

Lemma w_bound_pool : tcam_pool w_bound TF_DIR_RX 2 = Some (pool_new 4).
Proof. reflexivity. Qed.

Lemma w_alloc1_run :
  tf_tcam_alloc (Some tf_by_type) (Some (alloc_of TF_DIR_RX 2 16)) w_bound =
    Some ((0%Z, Some (set_alloc_idx 0 (alloc_of TF_DIR_RX 2 16))), w_alloc1).
Proof. run_eq. Qed.

Lemma tf_tcam_alloc_free_witness :
  wp (tf_tcam_free (Some tf_by_type)
        (Some {| free_dir := TF_DIR_RX; free_type := 2;
                 free_idx := alloc_idx (set_alloc_idx 0 (alloc_of TF_DIR_RX 2 16)) |}))
    (fun rc w2 => rc = 0%Z /\ rm_view (rm w2) = rm_view (rm w_bound) /\
                  tcam_db w2 = tcam_db w_bound /\ init w2 = init w_bound)
    w_alloc1.
Proof.
  exact (tf_tcam_alloc_free tf_by_type q_by_type (alloc_of TF_DIR_RX 2 16) 2
           (pool_new 4) (set_alloc_idx 0 (alloc_of TF_DIR_RX 2 16)) w_bound w_alloc1
           (ready_by_type w_bound ltac:(discriminate)) q_by_type_ok eq_refl eq_refl
           w_bound_pool ltac:(done) w_alloc1_run).
Defined.

Lemma tf_tcam_alloc_set_witness :
  wp (tf_tcam_set (Some tf_by_type) (Some (set_of TF_DIR_RX 2 0 16)))
    (fun rc w2 =>
       rc = 0%Z /\ rm w2 = rm w_alloc1 /\
       fw w2 = (tf_msg_tcam_entry_set tf_by_type (set_of TF_DIR_RX 2 0 16)
                  (fw w_bound)).2)
    w_alloc1.
Proof.
  exact (tf_tcam_alloc_set tf_by_type q_by_type (alloc_of TF_DIR_RX 2 16) 2
           (pool_new 4) (set_alloc_idx 0 (alloc_of TF_DIR_RX 2 16))
           (set_of TF_DIR_RX 2 0 16) w_bound w_alloc1
           (ready_by_type w_bound ltac:(discriminate)) q_by_type_ok eq_refl
           w_bound_pool ltac:(done) w_alloc1_run eq_refl eq_refl eq_refl eq_refl).
Defined.

(** The device whose slice count depends on the key size, with logical
    indices 0 and 2 of type 0 allocated on the receive side and 1 free
    between them. *)
Definition w_key_gap : tcam_world :=
  exec (tcam_call_run (CallFree (Some tf_by_key) (Some (free_of TF_DIR_RX 0 1))))
    w_key3.

Definition pool_key_gap : rm_pool := {| pool_size := 4; pool_used := {[0; 2]}%N |}.

Lemma w_key_gap_wf : tcam_wf w_key_gap.
Proof.
  pose (alloc := CallAlloc (Some tf_by_key) (Some (alloc_of TF_DIR_RX 0 32))).
  apply tcam_wf_exec, (tcam_wf_exec alloc), (tcam_wf_exec alloc),
    (tcam_wf_exec alloc),
    (tcam_wf_exec (CallBind (Some tf_by_key) (Some cfg4)) w_start), tcam_wf_init.
Qed.

Lemma w_key_gap_pool : tcam_pool w_key_gap TF_DIR_RX 0 = Some pool_key_gap.
Proof. reflexivity. Qed.

Lemma w_key_gap_ready : tcam_ready tf_by_key q_by_key w_key_gap.
Proof. by split. Qed.

(** The state after the allocation of the free index between them. *)
Definition w_key_gap1 : tcam_world :=
  exec (tf_tcam_alloc (Some tf_by_key) (Some (alloc_of TF_DIR_RX 0 32))) w_key_gap.

Lemma w_key_gap1_run :
  tf_tcam_alloc (Some tf_by_key) (Some (alloc_of TF_DIR_RX 0 32)) w_key_gap =
    Some ((0%Z, Some (set_alloc_idx 2 (alloc_of TF_DIR_RX 0 32))), w_key_gap1).
Proof. run_eq. Qed.

(** An allocation with a 32-byte key, two slices per row, takes logical
    index 1 and returns hardware index 2; the release of index 2 divides
    by the one slice of key size 0 and releases logical index 2, the
    entry of another caller: index 1 stays allocated. *)
Lemma tf_tcam_alloc_free_other_witness :
  exists i,
    (i ∉ pool_used pool_key_gap) /\
    alloc_idx (set_alloc_idx 2 (alloc_of TF_DIR_RX 0 32)) = hw_index i 2 /\
    tcam_pool w_key_gap1 TF_DIR_RX 0 = Some (pool_alloc i pool_key_gap) /\
    let j := (hw_index i 2 / wrap SLICE_BITS 1)%N in
    let pf := {| free_dir := TF_DIR_RX; free_type := 0;
                 free_idx := alloc_idx (set_alloc_idx 2 (alloc_of TF_DIR_RX 0 32)) |} in
    wp (tf_tcam_free (Some tf_by_key) (Some pf))
      (fun rc w2 =>
         rc = 0%Z /\
         tcam_pool w2 TF_DIR_RX 0 = Some (pool_free j (pool_alloc i pool_key_gap)) /\
         (forall d t, (d, t) <> (TF_DIR_RX, 0%N) ->
                      tcam_pool w2 d t = tcam_pool w_key_gap d t) /\
         fw w2 = if decide (j = i \/ j ∈ pool_used pool_key_gap)
                 then (tf_msg_tcam_entry_free tf_by_key pf (fw w_key_gap)).2
                 else fw w_key_gap)
      w_key_gap1.
Proof.
  exact (tf_tcam_alloc_free_other tf_by_key q_by_key (alloc_of TF_DIR_RX 0 32) 2 1
           pool_key_gap (set_alloc_idx 2 (alloc_of TF_DIR_RX 0 32)) w_key_gap
           w_key_gap1 w_key_gap_wf w_key_gap_ready eq_refl eq_refl ltac:(done)
           w_key_gap_pool w_key_gap1_run).
Defined.

(** ** What the entry points do when the device breaks the assumptions *)

(** Through a device whose slice count depends on the key size,
    [tf_tcam_free], which asks for the count of key size 0, releases
    another entry than the one named: after three allocations with
    32-byte keys (hardware indices 0, 2 and 4), freeing hardware index 2
    returns 0, leaves the second logical index allocated and releases the
    third, and the next allocation returns hardware index 4 again. *)
Example tf_tcam_free_key_size :
  let w := exec (tf_tcam_free (Some tf_by_key) (Some (free_of TF_DIR_RX 0 2)))
             w_key3 in
  tcam_pool w_key3 TF_DIR_RX 0 =
    Some {| pool_size := 4; pool_used := {[0; 1; 2]}%N |} /\
  fst <$> tf_tcam_free (Some tf_by_key) (Some (free_of TF_DIR_RX 0 2)) w_key3 =
    Some 0%Z /\
  tcam_pool w TF_DIR_RX 0 = Some {| pool_size := 4; pool_used := {[0; 1]}%N |} /\
  fst <$> tf_tcam_alloc (Some tf_by_key) (Some (alloc_of TF_DIR_RX 0 32)) w =
    Some (0%Z, Some (set_alloc_idx 4 (alloc_of TF_DIR_RX 0 32))).
Proof. by split_and!. Qed.

(** Through a device that reports a slice count of 0,
    [tf_tcam_free] and [tf_tcam_set] divide by zero, and
    [tf_tcam_alloc] hands out hardware index 0 for an entry whose logical
    index is 1. *)
Example tf_tcam_zero_slices :
  let alloc := tf_tcam_alloc (Some tf_zero) (Some (alloc_of TF_DIR_RX 2 16)) in
  tf_tcam_free (Some tf_zero) (Some (free_of TF_DIR_RX 2 0)) w_alloc1 = None /\
  tf_tcam_set (Some tf_zero) (Some (set_of TF_DIR_RX 2 0 16)) w_alloc1 = None /\
  fst <$> alloc w_alloc1 =
    Some (0%Z, Some (set_alloc_idx 0 (alloc_of TF_DIR_RX 2 16))) /\
  tcam_pool w_alloc1 TF_DIR_RX 2 = Some {| pool_size := 4; pool_used := {[0]}%N |} /\
  tcam_pool (exec alloc w_alloc1) TF_DIR_RX 2 =
    Some {| pool_size := 4; pool_used := {[0; 1]}%N |}.
Proof. by split_and!. Qed.

(** The hardware index wraps in the index field: with 16 bits and
    rows of 32768 slices, logical indices 0 and 1 get hardware indices 0
    and 32768, and the allocation of logical index 2 returns 0 and hands
    out hardware index 0 a second time; [tf_tcam_free] of index 0 then
    releases logical index 0 and leaves logical index 2 allocated with no
    hardware index of its own. *)
Example tf_tcam_alloc_wraps :
  let w := exec (tf_tcam_alloc (Some tf_wide) (Some (alloc_of TF_DIR_RX 1 16)))
             w_wide2 in
  tcam_pool w_wide2 TF_DIR_RX 1 =
    Some {| pool_size := 4; pool_used := {[0; 1]}%N |} /\
  fst <$> tf_tcam_alloc (Some tf_wide) (Some (alloc_of TF_DIR_RX 1 16)) w_wide2 =
    Some (0%Z, Some (set_alloc_idx (hw_index 2 32768) (alloc_of TF_DIR_RX 1 16))) /\
  hw_index 2 32768 = hw_index 0 32768 /\
  tcam_pool w TF_DIR_RX 1 =
    Some {| pool_size := 4; pool_used := {[0; 1; 2]}%N |} /\
  tcam_pool (exec (tf_tcam_free (Some tf_wide) (Some (free_of TF_DIR_RX 1 0))) w)
            TF_DIR_RX 1 =
    Some {| pool_size := 4; pool_used := {[1; 2]}%N |}.
Proof. by split_and!. Qed.
