(* ===== verification/TcamGuard.v ===== *)
(** * TcamGuard: the calls an entry point turns away

    Before it does its work an entry point checks its arguments and the
    flag [init], and the three entry operations look up the slice count.
    [call_guard] and [slice_error] say, as functions of the call and of
    the state, when one of these checks fails and what is logged then.
    The theorems say that a call that fails a check returns the code of
    that check, hands back its parameters unwritten and changes nothing
    but the log, for every entry point at once. *)

From S2P Require Import Prelude Types Device Rm Msg Tcam TcamRules TcamInv.
From S2P Require Import TcamLife TcamEntry.
From S2P Require RmPool MsgTable Fixtures.

Section Defs.
Context {R : RmOps} {F : MsgOps}.

(** The state after the lines of [l] are logged, in order. *)
Definition add_logs (l : list tcam_log) (w : tcam_world) : tcam_world :=
  foldl (fun w e => add_log e w) w l.

(** The structure a call hands back: its own, for [tf_tcam_alloc]. *)
Definition call_parms (c : tcam_call) : option tf_tcam_alloc_parms :=
  match c with
  | CallAlloc _ parms => parms
  | _ => None
  end.

(** The checks at the head of an entry point: [Some l] when the call is
    turned away, with the lines it logs; [None] when it goes on.  A NULL
    argument is turned away in silence; a bind of a bound module and an
    entry operation on a module that is not bound are logged; an unbind
    of a module that is not bound is not.  The two entry points with an
    empty body check nothing. *)
Definition call_guard (c : tcam_call) (w : tcam_world) : option (list tcam_log) :=
  match c with
  | CallAllocSearch _ | CallGet _ => None
  | CallBind (Some _) (Some _) =>
      if (init w =? 0)%N then None else Some [LogAlreadyInitialized]
  | CallUnbind (Some _) =>
      if (init w =? 0)%N then Some [] else None
  | CallAlloc (Some _) (Some p) =>
      if (init w =? 0)%N then Some [LogNoDbs (alloc_dir p)] else None
  | CallFree (Some _) (Some p) =>
      if (init w =? 0)%N then Some [LogNoDbs (free_dir p)] else None
  | CallSet (Some _) (Some p) =>
      if (init w =? 0)%N then Some [LogNoDbs (set_dir p)] else None
  | _ => Some []
  end.

(** The lookup of the slice count a call makes: the handle, the
    direction, the table type and the key size.  [tf_tcam_free] has no
    key size to give and passes 0. *)
Definition call_slice (c : tcam_call) : option (tf * tf_dir * N * N) :=
  match c with
  | CallAlloc (Some t) (Some p) =>
      Some (t, alloc_dir p, alloc_type p, alloc_key_size p)
  | CallFree (Some t) (Some p) => Some (t, free_dir p, free_type p, 0%N)
  | CallSet (Some t) (Some p) => Some (t, set_dir p, set_type p, set_key_size p)
  | _ => None
  end.
End Defs.

(** The lookup of the slice count fails: the code, and the lines logged.
    No session and no device give the code of the resolution; a device
    with no slice query gives [-EOPNOTSUPP], logged; a query that fails
    gives its code. *)
Definition slice_error (tfp : tf) (d : tf_dir) (type key_size : N)
  : option (Z * list tcam_log) :=
  match tf_session_get_session tfp with
  | inl rc => Some (rc, [])
  | inr tfs =>
      match tf_session_get_device tfs with
      | inl rc => Some (rc, [])
      | inr dev =>
          match tf_dev_get_tcam_slice_info (dev_ops dev) with
          | None => Some ((- EOPNOTSUPP)%Z, [LogNotSupported d (- EOPNOTSUPP)])
          | Some query =>
              if ((query type key_size).1 =? 0)%Z then None
              else Some ((query type key_size).1, [])
          end
      end
  end.

Section Guard.
Context {R : RmOps} {L : RmLaws R} {F : MsgOps} {A : TcamAbi}.
Implicit Types (w : tcam_world) (d : tf_dir) (c : tcam_call).

(** A lookup that fails returns its code, which is not 0, and logs its
    lines. *)
Lemma tcam_slice_info_error tfp d type key_size rc l w :
  slice_error tfp d type key_size = Some (rc, l) ->
  rc <> 0%Z /\
  exists n, tcam_slice_info tfp d type key_size w = Some ((rc, n), add_logs l w).
Proof.
  unfold slice_error, tcam_slice_info.
  pose proof (tf_session_get_session_err tfp) as Hs.
  destruct (tf_session_get_session tfp) as [rc1|tfs].
  { intros [= <- <-]. rewrite (Hs rc1) by done. split; [done|]. by eexists. }
  pose proof (tf_session_get_device_err tfs) as Hd.
  destruct (tf_session_get_device tfs) as [rc1|dev].
  { intros [= <- <-]. rewrite (Hd rc1) by done. split; [done|]. by eexists. }
  destruct (tf_dev_get_tcam_slice_info (dev_ops dev)) as [query|].
  - destruct (query type key_size) as [rc1 n]. cbn [fst].
    destruct (Z.eqb_spec rc1 0); [done|]. intros [= <- <-].
    split; [done|]. by eexists.
  - intros [= <- <-]. split; [done|]. by eexists.
Qed.

(** The checks, entry point by entry point. *)
Lemma tf_tcam_bind_guarded tfp parms l w :
  call_guard (CallBind tfp parms) w = Some l ->
  tf_tcam_bind tfp parms w = Some ((- EINVAL)%Z, add_logs l w).
Proof.
  destruct tfp as [tfp|], parms as [parms|]; cbn [call_guard];
    try by intros [= <-].
  destruct (N.eqb_spec (init w) 0) as [|Hi]; [done|]. intros [= <-].
  by apply tf_tcam_bind_bound.
Qed.

Lemma tf_tcam_unbind_guarded tfp l w :
  call_guard (CallUnbind tfp) w = Some l ->
  tf_tcam_unbind tfp w = Some ((- EINVAL)%Z, add_logs l w).
Proof.
  destruct tfp as [tfp|]; cbn [call_guard]; [|by intros [= <-]].
  destruct (N.eqb_spec (init w) 0) as [Hi|]; [|done]. intros [= <-].
  by apply tf_tcam_unbind_unbound.
Qed.

Lemma tf_tcam_alloc_guarded tfp parms l w :
  call_guard (CallAlloc tfp parms) w = Some l ->
  tf_tcam_alloc tfp parms w = Some (((- EINVAL)%Z, parms), add_logs l w).
Proof.
  destruct tfp as [tfp|], parms as [p|]; cbn [call_guard];
    try by intros [= <-].
  destruct (N.eqb_spec (init w) 0) as [Hi|]; [|done]. intros [= <-].
  apply wp_is_eq. unfold tf_tcam_alloc. wp_go. by rc_case.
Qed.

Lemma tf_tcam_free_guarded tfp parms l w :
  call_guard (CallFree tfp parms) w = Some l ->
  tf_tcam_free tfp parms w = Some ((- EINVAL)%Z, add_logs l w).
Proof.
  destruct tfp as [tfp|], parms as [p|]; cbn [call_guard];
    try by intros [= <-].
  destruct (N.eqb_spec (init w) 0) as [Hi|]; [|done]. intros [= <-].
  apply wp_is_eq. unfold tf_tcam_free. wp_go. by rc_case.
Qed.

Lemma tf_tcam_set_guarded tfp parms l w :
  call_guard (CallSet tfp parms) w = Some l ->
  tf_tcam_set tfp parms w = Some ((- EINVAL)%Z, add_logs l w).
Proof.
  destruct tfp as [tfp|], parms as [p|]; cbn [call_guard];
    try by intros [= <-].
  destruct (N.eqb_spec (init w) 0) as [Hi|]; [|done]. intros [= <-].
  apply wp_is_eq. unfold tf_tcam_set. wp_go. by rc_case.
Qed.

(** C28: a call that fails the checks at the head of its entry point (a
    NULL handle or parameter structure, [tf_tcam_bind] on a bound module,
    any of [tf_tcam_unbind], [tf_tcam_alloc], [tf_tcam_free],
    [tf_tcam_set] on a module that is not bound) returns [-EINVAL], hands
    back the parameters unwritten, calls no collaborator and changes
    nothing but the log, to which it adds the line of the check, if the
    check has one. *)
Theorem tcam_call_guarded c l w :
  call_guard c w = Some l ->
  tcam_call_run c w = Some (((- EINVAL)%Z, call_parms c), add_logs l w).
Proof.
  intros Hg. destruct c; cbn [tcam_call_run call_parms]; unfold bind.
  - by rewrite (tf_tcam_bind_guarded _ _ l).
  - by rewrite (tf_tcam_unbind_guarded _ l).
  - by apply tf_tcam_alloc_guarded.
  - by rewrite (tf_tcam_free_guarded _ _ l).
  - done.
  - by rewrite (tf_tcam_set_guarded _ _ l).
  - done.
Qed.

(** An entry operation on a bound module whose lookup fails returns at
    the test of the lookup's code. *)
Ltac slice_fail Hs :=
  let Hrc := fresh "Hrc" in
  let n := fresh "n" in
  let Hn := fresh "Hn" in
  lazymatch goal with
  | |- _ ?w = Some _ =>
      destruct (tcam_slice_info_error _ _ _ _ _ _ w Hs) as (Hrc & n & Hn);
      apply wp_is_eq; wp_go; rc_case; [done|];
      apply (wp_eq _ _ _ _ _ Hn); by rc_case
  end.

(** The lookup of the slice count, entry operation by entry operation. *)
Lemma tf_tcam_alloc_slice_error tfp p rc l w :
  init w <> 0%N ->
  slice_error tfp (alloc_dir p) (alloc_type p) (alloc_key_size p) = Some (rc, l) ->
  tf_tcam_alloc (Some tfp) (Some p) w = Some ((rc, Some p), add_logs l w).
Proof.
  intros Hi Hs. unfold tf_tcam_alloc. by slice_fail Hs.
Qed.

Lemma tf_tcam_free_slice_error tfp p rc l w :
  init w <> 0%N ->
  slice_error tfp (free_dir p) (free_type p) 0 = Some (rc, l) ->
  tf_tcam_free (Some tfp) (Some p) w = Some (rc, add_logs l w).
Proof.
  intros Hi Hs. unfold tf_tcam_free. by slice_fail Hs.
Qed.

Lemma tf_tcam_set_slice_error tfp p rc l w :
  init w <> 0%N ->
  slice_error tfp (set_dir p) (set_type p) (set_key_size p) = Some (rc, l) ->
  tf_tcam_set (Some tfp) (Some p) w = Some (rc, add_logs l w).
Proof.
  intros Hi Hs. unfold tf_tcam_set. by slice_fail Hs.
Qed.

(** The guards of a call that looks up the slice count pass exactly on
    a bound module. *)
Lemma call_slice_bound c w x :
  call_guard c w = None -> call_slice c = Some x -> init w <> 0%N.
Proof.
  destruct c as [? ?|?|[?|] [?|]|[?|] [?|]|?|[?|] [?|]|?]; cbn; try done;
    by destruct (N.eqb_spec (init w) 0).
Qed.

(** C29: on a bound module, a [tf_tcam_alloc], [tf_tcam_free] or
    [tf_tcam_set] whose lookup of the slice count fails (no session, no
    device, a device with no slice query, a query that returns an error)
    returns the code of the lookup, hands back the parameters unwritten,
    calls neither the resource manager nor the firmware, and changes
    nothing but the log, to which a device with no slice query adds a
    line; the other three failures are silent. *)
Theorem tcam_call_slice_error c tfp d type key_size rc l w :
  call_guard c w = None ->
  call_slice c = Some (tfp, d, type, key_size) ->
  slice_error tfp d type key_size = Some (rc, l) ->
  tcam_call_run c w = Some ((rc, call_parms c), add_logs l w).
Proof.
  intros Hg Hc Hs. pose proof (call_slice_bound _ _ _ Hg Hc) as Hi.
  destruct c as [? ?|?|[?|] [?|]|[?|] [?|]|?|[?|] [?|]|?]; try done;
    injection Hc as [= -> <- <- <-]; cbn [tcam_call_run call_parms]; unfold bind.
  - by apply tf_tcam_alloc_slice_error.
  - by rewrite (tf_tcam_free_slice_error _ _ rc l).
  - by rewrite (tf_tcam_set_slice_error _ _ rc l).
Qed.
End Guard.

Import RmPool MsgTable Fixtures.

Lemma tcam_call_guarded_witness :
  tcam_call_run (CallSet (Some tf_by_type) (Some (set_of TF_DIR_TX 1 0 16))) w_start =
    Some (((- EINVAL)%Z, None), add_logs [LogNoDbs TF_DIR_TX] w_start).
Proof.
  exact (tcam_call_guarded
           (CallSet (Some tf_by_type) (Some (set_of TF_DIR_TX 1 0 16)))
           [LogNoDbs TF_DIR_TX] w_start eq_refl).
Defined.

Lemma tcam_call_slice_error_witness :
  tcam_call_run (CallFree (Some tf_no_query) (Some (free_of TF_DIR_RX 2 0))) w_alloc1 =
    Some (((- EOPNOTSUPP)%Z, None),
          add_logs [LogNotSupported TF_DIR_RX (- EOPNOTSUPP)] w_alloc1).
Proof.
  exact (tcam_call_slice_error
           (CallFree (Some tf_no_query) (Some (free_of TF_DIR_RX 2 0)))
           tf_no_query TF_DIR_RX 2 0 (- EOPNOTSUPP)
           [LogNotSupported TF_DIR_RX (- EOPNOTSUPP)] w_alloc1
           eq_refl eq_refl eq_refl).
Defined.
