(* ===== verification/TcamSafe.v ===== *)
(** * TcamSafe: faults, and what the firmware cannot influence

    Properties of all the entry points at once.  First, the one fault
    of the model, the division by a slice count of zero in [tf_tcam_free]
    and [tf_tcam_set], is the only way a call does not return:
    [call_faults] says of a call and a state when it happens, a call
    faults exactly then, and a device that keeps the capability contract
    excludes it.  Then the codes: a call returns 0 or a negative code when
    the resource manager and the slice query do.  Last, the firmware
    and the log are write-only for the module: [world_equiv] relates the
    states that differ in them only, and every entry point is [Proper] for
    it, so the codes returned, the parameters written and the state of the
    resource manager never depend on an answer of the firmware. *)

From S2P Require Import Prelude Rel Types Device Rm Msg Tcam TcamRules TcamInv.
From S2P Require Import TcamGuard.
From S2P Require RmPool MsgTable Fixtures.

Section Defs.
Context {R : RmOps} {F : MsgOps}.

(** Two states with the same slots, flag and resource manager: they may
    differ in the firmware and in the log. *)
Definition world_equiv (w1 w2 : tcam_world) : Prop :=
  tcam_db w1 = tcam_db w2 /\ init w1 = init w2 /\ rm w1 = rm w2.

(** The handle a call is made through. *)
Definition call_tf (c : tcam_call) : option tf :=
  match c with
  | CallBind tfp _ | CallUnbind tfp | CallAlloc tfp _ | CallFree tfp _
  | CallAllocSearch tfp | CallSet tfp _ | CallGet tfp => tfp
  end.

(** The codes of the resource manager are 0 or negative, as the codes
    of [errno.h], negated, are. *)
Record rm_codes_neg : Prop := {
  create_db_neg tfp p hp : ((tf_rm_create_db tfp p hp).1.1 <= 0)%Z;
  free_db_neg tfp p hp : ((tf_rm_free_db tfp p hp).1 <= 0)%Z;
  allocate_neg p hp : ((tf_rm_allocate p hp).1.1 <= 0)%Z;
  free_neg p hp : ((tf_rm_free p hp).1 <= 0)%Z;
  is_allocated_neg p hp : ((tf_rm_is_allocated p hp).1 <= 0)%Z;
}.

(** So are the codes of the slice query a handle resolves to. *)
Definition tf_codes_neg (tfp : option tf) : Prop :=
  forall t q type key_size,
    tfp = Some t -> tf_slice_query t = Some q -> ((q type key_size).1 <= 0)%Z.

(** The calls that divide the index they are given by the slice count:
    [parms->idx / num_slice_per_row] in [tf_tcam_free] and
    [tf_tcam_set]. *)
Definition call_divides (c : tcam_call) : bool :=
  match c with
  | CallFree _ _ | CallSet _ _ => true
  | _ => false
  end.

(** The call divides by zero: it is one that divides, it gets past the
    checks at its head, and its lookup of the slice count succeeds with a
    count that is 0 in the 16 bits of [num_slice_per_row]. *)
Definition call_faults (c : tcam_call) (w : tcam_world) : Prop :=
  call_divides c = true /\ call_guard c w = None /\
  exists tfp d type key_size q n,
    call_slice c = Some (tfp, d, type, key_size) /\
    tf_slice_query tfp = Some q /\
    q type key_size = (0%Z, n) /\ wrap SLICE_BITS n = 0%N.
End Defs.

Infix "≈w" := world_equiv (at level 70, no associativity).

Section Shape.
Context {A : TcamAbi}.

(** The structure a call of [tf_tcam_alloc] is given holds an index that
    fits its field, as every object of the field's type does. *)
Definition call_typed (c : tcam_call) : Prop :=
  match c with
  | CallAlloc _ (Some p) => fits idx_bits (alloc_idx p)
  | _ => True
  end.

(** What a call hands back: [tf_tcam_alloc] the structure it was given,
    with nothing but [idx] written and a value in it that fits the field;
    every other call no structure. *)
Definition result_typed (c : tcam_call) (po : option tf_tcam_alloc_parms)
  : Prop :=
  match c, po with
  | CallAlloc _ (Some p), Some p' =>
      p' = set_alloc_idx (alloc_idx p') p /\ fits idx_bits (alloc_idx p')
  | CallAlloc _ (Some _), None => False
  | _, None => True
  | _, Some _ => False
  end.
End Shape.

Section Safe.
Context {R : RmOps} {L : RmLaws R} {F : MsgOps} {A : TcamAbi}.
Implicit Types (w : tcam_world) (d : tf_dir).

#[export] Instance world_equiv_equivalence : Equivalence world_equiv.
Proof.
  split.
  - by intros w.
  - intros w1 w2 (? & ? & ?). by split_and!.
  - intros w1 w2 w3 (? & ? & ?) (? & ? & ?). split_and!; congruence.
Qed.

#[export] Instance db_of_proper : Proper (world_equiv ==> eq ==> eq) db_of.
Proof. intros w1 w2 (Hdb & _) d ? <-. unfold db_of. by rewrite Hdb. Qed.

(** ** The steps *)

Lemma quiet_log e : quiet world_equiv (log e).
Proof. by apply quiet_modify. Qed.

Lemma quiet_fw_call {T} (f : fw_state -> T * fw_state) :
  quiet world_equiv (fw_call f).
Proof.
  intros w. unfold fw_call. destruct (f (fw w)) as [r s]. by exists r, (set_fw s w).
Qed.

Lemma mrel_log e : mrel world_equiv eq (log e) (log e).
Proof. apply mrel_modify. by intros w1 w2 (? & ? & ?). Qed.

Lemma mrel_get_db d : mrel world_equiv eq (get_db d) (get_db d).
Proof. apply mrel_gets. intros w1 w2 Hw. by rewrite Hw. Qed.

Lemma mrel_gets_init : mrel world_equiv eq (gets init) (gets init).
Proof. apply mrel_gets. by intros w1 w2 (? & ? & ?). Qed.

Lemma mrel_gets_rm {T} (f : rm_heap -> T) :
  mrel world_equiv eq (gets (fun w => f (rm w))) (gets (fun w => f (rm w))).
Proof. apply mrel_gets. intros w1 w2 (? & ? & Hrm). by rewrite Hrm. Qed.

Lemma mrel_rm_call {T} (f : rm_heap -> T * rm_heap) :
  mrel world_equiv eq (rm_call f) (rm_call f).
Proof.
  intros w1 w2 (Hdb & Hi & Hrm). unfold rm_call. rewrite Hrm.
  destruct (f (rm w2)) as [r hp]. constructor. by split.
Qed.

Lemma mrel_set_tcam_db i h :
  mrel world_equiv eq (modify (set_tcam_db i h)) (modify (set_tcam_db i h)).
Proof.
  apply mrel_modify. intros w1 w2 (Hdb & ? & ?). split_and!; [|done..].
  cbn. by rewrite Hdb.
Qed.

Lemma mrel_set_init v :
  mrel world_equiv eq (modify (set_init v)) (modify (set_init v)).
Proof. apply mrel_modify. by intros w1 w2 (? & ? & ?). Qed.

(** The call of the firmware at the end of [tf_tcam_free] and
    [tf_tcam_set]: its code decides a log line and nothing else. *)
Lemma mrel_fw_tail {T} (f : fw_state -> Z * fw_state) (k : Z -> M tcam_world unit)
    (v : T) :
  (forall rc, quiet world_equiv (k rc)) ->
  mrel world_equiv eq (let* rc := fw_call f in do* k rc in ret v)
                      (let* rc := fw_call f in do* k rc in ret v).
Proof.
  intros Hk. eapply (mrel_bind _ any); [apply (mrel_quiet world_equiv); apply quiet_fw_call|].
  intros rc1 rc2 _. eapply (mrel_bind _ any); [apply (mrel_quiet world_equiv); apply Hk|].
  intros _ _ _. by apply mrel_ret.
Qed.
End Safe.

(** One rule of [Rel] or of the steps above, by the head of the two
    computations. *)
Ltac mrel_step :=
  lazymatch goal with
  | |- mrel _ _ (ret _) (ret _) => by apply mrel_ret
  | |- mrel _ _ fault fault => apply mrel_fault
  | |- mrel _ _ (log _) (log _) => apply mrel_log
  | |- mrel _ _ (get_db _) _ => apply mrel_get_db
  | |- mrel _ _ (gets init) _ => apply mrel_gets_init
  | |- mrel _ _ (gets _) _ => apply mrel_gets_rm
  | |- mrel _ _ (rm_call _) _ => apply mrel_rm_call
  | |- mrel _ _ (modify (set_tcam_db _ _)) _ => apply mrel_set_tcam_db
  | |- mrel _ _ (modify (set_init _)) _ => apply mrel_set_init
  | |- mrel _ _ (for_each_rc _ _) _ => apply mrel_for_each_rc; intros ?
  | |- mrel _ _ (bind (fw_call _) _) _ =>
      apply mrel_fw_tail; intros ?;
      apply quiet_if; [apply quiet_log|by apply quiet_ret]
  | |- mrel _ _ (bind _ _) (bind _ _) =>
      eapply (mrel_bind _ eq); [|intros ? ? <-]
  | |- mrel _ _ (if ?b then _ else _) _ => destruct b
  | |- mrel _ _ (match ?x with _ => _ end) _ => destruct x
  end.

Ltac mrel_go := repeat mrel_step.

Section Ops.
Context {R : RmOps} {L : RmLaws R} {F : MsgOps} {A : TcamAbi}.
Implicit Types (w : tcam_world) (d : tf_dir).

Lemma mrel_tf_tcam_bind tfp parms :
  mrel world_equiv eq (tf_tcam_bind tfp parms) (tf_tcam_bind tfp parms).
Proof. unfold tf_tcam_bind, tcam_bind_dir. mrel_go. Qed.

Lemma mrel_tf_tcam_unbind tfp :
  mrel world_equiv eq (tf_tcam_unbind tfp) (tf_tcam_unbind tfp).
Proof. unfold tf_tcam_unbind, tcam_unbind_dir. mrel_go. Qed.

Lemma mrel_tcam_slice_info tfp d type key_size :
  mrel world_equiv eq (tcam_slice_info tfp d type key_size)
                      (tcam_slice_info tfp d type key_size).
Proof. unfold tcam_slice_info. mrel_go. Qed.

Lemma mrel_tf_tcam_alloc tfp parms :
  mrel world_equiv eq (tf_tcam_alloc tfp parms) (tf_tcam_alloc tfp parms).
Proof.
  unfold tf_tcam_alloc. mrel_go; try apply mrel_tcam_slice_info; mrel_go.
Qed.

Lemma mrel_tf_tcam_free tfp parms :
  mrel world_equiv eq (tf_tcam_free tfp parms) (tf_tcam_free tfp parms).
Proof.
  unfold tf_tcam_free. mrel_go; try apply mrel_tcam_slice_info; mrel_go.
Qed.

Lemma mrel_tf_tcam_set tfp parms :
  mrel world_equiv eq (tf_tcam_set tfp parms) (tf_tcam_set tfp parms).
Proof.
  unfold tf_tcam_set. mrel_go; try apply mrel_tcam_slice_info; mrel_go.
Qed.

(** What a call returns and what it leaves of the slots, the flag and
    the resource manager are the same from states that differ in the
    firmware and the log only. *)
#[export] Instance tcam_call_run_proper c :
  Proper (world_equiv ==> option_Forall2 (prod_relation eq world_equiv))
         (tcam_call_run c).
Proof.
  change (mrel world_equiv eq (tcam_call_run c) (tcam_call_run c)).
  destruct c; cbn [tcam_call_run];
    first [ apply mrel_tf_tcam_alloc
          | eapply (mrel_bind _ eq); [|intros ? ? <-; by apply mrel_ret] ].
  - apply mrel_tf_tcam_bind.
  - apply mrel_tf_tcam_unbind.
  - apply mrel_tf_tcam_free.
  - by apply mrel_ret.
  - apply mrel_tf_tcam_set.
  - by apply mrel_ret.
Qed.

(** C21: what a call returns, the parameters it writes and what it
    leaves of the slots, the flag and the resource manager do not depend
    on the state of the firmware or on the log: from two states that
    differ in those only, a call returns the same code and leaves states
    that differ in those only.  So no answer of the firmware, whether a
    success or a failure, ever reaches the caller or the resource manager. *)
Theorem tcam_call_fw_independent c w1 w2 rc p w1' :
  world_equiv w1 w2 -> tcam_call_run c w1 = Some ((rc, p), w1') ->
  exists w2', tcam_call_run c w2 = Some ((rc, p), w2') /\ world_equiv w1' w2'.
Proof.
  intros Hw Hrun.
  destruct (mrel_run world_equiv eq _ _ _ _ _ _ (tcam_call_run_proper c) Hw Hrun)
    as (r & w2' & Hrun2 & <- & Hw'). by exists w2'.
Qed.

(** ** Faults *)

Lemma tf_tcam_bind_returns E tfp parms w :
  wpx E (tf_tcam_bind tfp parms) (fun _ _ => True) w.
Proof.
  unfold tf_tcam_bind. destruct tfp as [tfp|], parms as [parms|]; try by wp_go.
  wp_go. rc_case; [|done]. eapply wp_mono.
  { apply (wp_for_each_rc_inv _ (fun _ => True)); [|done].
    intros d w' _ _. unfold tcam_bind_dir. wp_go. wp_call. by rc_case. }
  intros rc w' _. cbn beta. by rc_case.
Qed.

Lemma tf_tcam_unbind_returns E tfp w :
  wpx E (tf_tcam_unbind tfp) (fun _ _ => True) w.
Proof.
  unfold tf_tcam_unbind. destruct tfp as [tfp|]; [|by wp_go].
  wp_go. rc_case; [done|]. eapply wp_mono.
  { apply (wp_for_each_rc_inv _ (fun _ => True)); [|done].
    intros d w' _ _. unfold tcam_unbind_dir. wp_go. wp_call. by rc_case. }
  intros rc w' _. cbn beta. by rc_case.
Qed.

(** A call returns, or the slice count it divides by is zero. *)
Lemma tcam_call_run_returns E c w :
  (zero_slices (call_tf c) -> E) ->
  wpx E (tcam_call_run c) (fun _ _ => True) w.
Proof.
  intros Hz. destruct c; cbn [tcam_call_run call_tf] in *; try wp_step.
  - eapply wp_mono; [apply tf_tcam_bind_returns|done].
  - eapply wp_mono; [apply tf_tcam_unbind_returns|done].
  - eapply wp_mono; [apply tf_tcam_alloc_frame|done].
  - eapply wp_mono; [by apply tf_tcam_free_frame|done].
  - by wp_go.
  - eapply wp_mono; [by apply tf_tcam_set_frame|done].
  - by wp_go.
Qed.

(** The only fault of an entry point is the division by a slice
    count of zero: a call that does not return was made through a handle
    whose slice query reports success and, in 16 bits, a count of 0. *)
Lemma tcam_call_fault c w :
  tcam_call_run c w = None -> zero_slices (call_tf c).
Proof.
  intros Hrun.
  pose proof (tcam_call_run_returns (zero_slices (call_tf c)) c w (fun H => H)) as H.
  unfold wpx in H. by rewrite Hrun in H.
Qed.

(** C20: through a handle whose slice query keeps the capability
    contract (at least one slice, in 16 bits), every call of an entry
    point returns, in any state and with any parameters. *)
Theorem tcam_call_total c w :
  (forall t, call_tf c = Some t -> tf_ok t) ->
  exists rc w', tcam_step w c rc w'.
Proof.
  intros Hok.
  pose proof (tcam_call_run_returns False c w (tf_ok_no_zero _ Hok)) as H.
  apply wp_run in H as ([rc p] & w' & Hrun & _).
  exists rc, w'. by apply (tcam_step_call _ _ _ p).
Qed.

(** ** The calls that fault *)

Lemma tf_tcam_free_faults tfp parms w :
  wpx (call_faults (CallFree tfp parms) w) (tf_tcam_free tfp parms)
    (fun _ _ => True) w.
Proof.
  unfold tf_tcam_free. destruct tfp as [tfp|], parms as [p|]; try by wp_go.
  wp_go. rc_case; [done|]. wp_slice. rc_case; [|done].
  rewrite decide_True in Hq by done.
  destruct Hq as [-> (q & n0 & Hq & Hn0 & ->)]. rc_case.
  { split_and!; [done|by cbn; destruct (N.eqb_spec (init w) 0)|].
    by eexists tfp, _, _, _, q, n0. }
  wp_call. rc_case; [|done]. rc_case; [done|]. wp_call. rc_case; [|done].
  wp_call. by rc_case.
Qed.

Lemma tf_tcam_set_faults tfp parms w :
  wpx (call_faults (CallSet tfp parms) w) (tf_tcam_set tfp parms)
    (fun _ _ => True) w.
Proof.
  unfold tf_tcam_set. destruct tfp as [tfp|], parms as [p|]; try by wp_go.
  wp_go. rc_case; [done|]. wp_slice. rc_case; [|done].
  rewrite decide_True in Hq by done.
  destruct Hq as [-> (q & n0 & Hq & Hn0 & ->)]. rc_case.
  { split_and!; [done|by cbn; destruct (N.eqb_spec (init w) 0)|].
    by eexists tfp, _, _, _, q, n0. }
  wp_call. rc_case; [|done]. rc_case; [done|]. wp_call. by rc_case.
Qed.

(** A call returns, or it divides by zero. *)
Lemma tcam_call_run_faults c w :
  wpx (call_faults c w) (tcam_call_run c) (fun _ _ => True) w.
Proof.
  destruct c; cbn [tcam_call_run]; try wp_step.
  - eapply wp_mono; [apply tf_tcam_bind_returns|done].
  - eapply wp_mono; [apply tf_tcam_unbind_returns|done].
  - eapply wp_mono; [apply tf_tcam_alloc_frame|done].
  - eapply wp_mono; [apply tf_tcam_free_faults|done].
  - by wp_go.
  - eapply wp_mono; [apply tf_tcam_set_faults|done].
  - by wp_go.
Qed.

(** A call that divides by zero does not return. *)
Lemma call_faults_run c w : call_faults c w -> tcam_call_run c w = None.
Proof.
  intros (Hd & Hg & tfp & d & type & ks & q & n & Hs & Hq & Hn & Hz).
  apply wp_is_fault.
  destruct c as [? ?|?|? ?|[t|] [p|]|?|[t|] [p|]|?]; try done;
    cbn in Hs, Hg; simplify_eq; destruct (N.eqb_spec (init w) 0) as [|Hi];
    try done; cbn [tcam_call_run]; wp_step.
  - unfold tf_tcam_free. wp_go. rc_case; [done|].
    apply (wp_slice_info_query _ _ _ _ _ _ _ _ Hq). rewrite Hn. cbn [fst snd].
    wp_go. rewrite Hz. by wp_go.
  - unfold tf_tcam_set. wp_go. rc_case; [done|].
    apply (wp_slice_info_query _ _ _ _ _ _ _ _ Hq). rewrite Hn. cbn [fst snd].
    wp_go. rewrite Hz. by wp_go.
Qed.

(** C19: a call of an entry point fails to return in one case and no
    other, the division by a slice count of zero: the call is a
    [tf_tcam_free] or a [tf_tcam_set] with a handle and parameters that
    are not NULL, the module is bound, the session, the device and the
    slice query of the handle resolve, the query returns 0 for the type
    and the key size of the call (key size 0 for [tf_tcam_free]), and the
    count it reports is 0 in the 16 bits of [num_slice_per_row], which a
    count of 65536 is.  [tf_tcam_bind], [tf_tcam_unbind],
    [tf_tcam_alloc] and the two entry points with an empty body always
    return, and nothing in the file checks the count. *)
Theorem tcam_call_faults c w : tcam_call_run c w = None <-> call_faults c w.
Proof.
  split; [|apply call_faults_run].
  apply (wp_fault_inv _ _ _ _ (tcam_call_run_faults c w)).
Qed.

(** ** The codes returned *)

Section Codes.
Context (Hrm : rm_codes_neg).

(** Bring in what [rm_codes_neg] says of the call of the resource manager
    just named. *)
Ltac rm_neg :=
  match goal with
  | E : tf_rm_create_db ?t ?p ?h = _ |- _ =>
      let H := fresh in pose proof (create_db_neg Hrm t p h) as H; rewrite E in H
  | E : tf_rm_free_db ?t ?p ?h = _ |- _ =>
      let H := fresh in pose proof (free_db_neg Hrm t p h) as H; rewrite E in H
  | E : tf_rm_allocate ?p ?h = _ |- _ =>
      let H := fresh in pose proof (allocate_neg Hrm p h) as H; rewrite E in H
  | E : tf_rm_free ?p ?h = _ |- _ =>
      let H := fresh in pose proof (free_neg Hrm p h) as H; rewrite E in H
  | E : tf_rm_is_allocated ?p ?h = _ |- _ =>
      let H := fresh in pose proof (is_allocated_neg Hrm p h) as H; rewrite E in H
  end.

Ltac neg_tac := try rm_neg; unfold EINVAL, EOPNOTSUPP in *; cbn in *; try done; try lia.

Lemma tcam_slice_info_code tfp d type key_size w :
  tf_codes_neg (Some tfp) ->
  wlp (tcam_slice_info tfp d type key_size) (fun r _ => (r.1 <= 0)%Z) w.
Proof.
  intros Hq. destruct (tf_slice_query tfp) as [q|] eqn:E.
  - apply (wp_slice_info_query _ _ _ _ _ _ _ _ E). by apply (Hq tfp q).
  - apply (wp_slice_info_none _ _ _ _ _ _ _ E).
    unfold tf_session_get_session, tf_session_get_device.
    repeat case_match; simplify_eq; neg_tac.
Qed.

Lemma tf_tcam_bind_code tfp parms w :
  wlp (tf_tcam_bind tfp parms) (fun rc _ => (rc <= 0)%Z) w.
Proof.
  unfold tf_tcam_bind. destruct tfp as [tfp|], parms as [parms|]; try by wp_go.
  wp_go. rc_case; [|neg_tac]. eapply wp_mono.
  { apply (wp_for_each_rc_code _ (fun rc => (rc <= 0)%Z)); [done|].
    intros d w'. unfold tcam_bind_dir. wp_go. wp_call. rc_case; neg_tac. }
  intros rc w' Hrc. cbn beta. by rc_case.
Qed.

Lemma tf_tcam_unbind_code tfp w :
  wlp (tf_tcam_unbind tfp) (fun rc _ => (rc <= 0)%Z) w.
Proof.
  unfold tf_tcam_unbind. destruct tfp as [tfp|]; [|by wp_go].
  wp_go. rc_case; [neg_tac|]. eapply wp_mono.
  { apply (wp_for_each_rc_code _ (fun rc => (rc <= 0)%Z)); [done|].
    intros d w'. unfold tcam_unbind_dir. wp_go. wp_call. rc_case; neg_tac. }
  intros rc w' Hrc. cbn beta. by rc_case.
Qed.

Lemma tf_tcam_alloc_code tfp parms w :
  tf_codes_neg tfp ->
  wlp (tf_tcam_alloc tfp parms) (fun r _ => (r.1 <= 0)%Z) w.
Proof.
  intros Hq. unfold tf_tcam_alloc.
  destruct tfp as [tfp|], parms as [p|]; try by wp_go.
  wp_go. rc_case; [neg_tac|].
  eapply wp_mono; [by apply tcam_slice_info_code|]. intros [rc n] w' Hrc.
  cbn beta iota. rc_case; [|done]. wp_call. rc_case; neg_tac.
Qed.

Lemma tf_tcam_free_code tfp parms w :
  tf_codes_neg tfp -> wlp (tf_tcam_free tfp parms) (fun rc _ => (rc <= 0)%Z) w.
Proof.
  intros Hq. unfold tf_tcam_free.
  destruct tfp as [tfp|], parms as [p|]; try by wp_go.
  wp_go. rc_case; [neg_tac|].
  eapply wp_mono; [by apply tcam_slice_info_code|]. intros [rc n] w' Hrc.
  cbn beta iota. rc_case; [|done]. rc_case; [done|].
  wp_call. rc_case; [|neg_tac]. rc_case; [done|]. wp_call. rc_case; [|neg_tac].
  wp_call. by rc_case.
Qed.

Lemma tf_tcam_set_code tfp parms w :
  tf_codes_neg tfp -> wlp (tf_tcam_set tfp parms) (fun rc _ => (rc <= 0)%Z) w.
Proof.
  intros Hq. unfold tf_tcam_set.
  destruct tfp as [tfp|], parms as [p|]; try by wp_go.
  wp_go. rc_case; [neg_tac|].
  eapply wp_mono; [by apply tcam_slice_info_code|]. intros [rc n] w' Hrc.
  cbn beta iota. rc_case; [|done]. rc_case; [done|].
  wp_call. rc_case; [|neg_tac]. rc_case; [done|]. wp_call. by rc_case.
Qed.

Lemma tcam_call_run_code c w :
  tf_codes_neg (call_tf c) ->
  wlp (tcam_call_run c) (fun r _ => (r.1 <= 0)%Z) w.
Proof.
  intros Hq. destruct c; cbn [tcam_call_run call_tf] in *; try wp_step.
  - eapply wp_mono; [apply tf_tcam_bind_code|]. intros; by wp_step.
  - eapply wp_mono; [apply tf_tcam_unbind_code|]. intros; by wp_step.
  - by apply tf_tcam_alloc_code.
  - eapply wp_mono; [by apply tf_tcam_free_code|]. intros; by wp_step.
  - by wp_go.
  - eapply wp_mono; [by apply tf_tcam_set_code|]. intros; by wp_step.
  - by wp_go.
Qed.
End Codes.

(** ** The shape of the results *)

Lemma set_alloc_idx_id (p : tf_tcam_alloc_parms) :
  p = set_alloc_idx (alloc_idx p) p.
Proof. by destruct p. Qed.

Lemma tf_tcam_alloc_typed tfp p w :
  fits idx_bits (alloc_idx p) ->
  wlp (tf_tcam_alloc tfp (Some p))
    (fun '(_, po) _ => result_typed (CallAlloc tfp (Some p)) po) w.
Proof.
  intros Hfits. unfold tf_tcam_alloc.
  pose proof (set_alloc_idx_id p) as Hid.
  destruct tfp as [tfp|]; [|by wp_go].
  wp_go. rc_case; [done|]. wp_slice. rc_case; [|done].
  wp_call. rc_case; [|split; [done|apply wrap_fits]].
  split; [done|apply wrap_fits].
Qed.

(** What a call hands back has the shape its entry point gives it:
    [tf_tcam_alloc], given a structure whose index fits the field,
    returns that structure with no field but [idx] written, and the value
    in [idx] fits the field, on every path. *)
Lemma tcam_call_typed c w rc po w' :
  call_typed c -> tcam_call_run c w = Some ((rc, po), w') -> result_typed c po.
Proof.
  intros Ht Hrun.
  destruct c as [? ?|?|tfp [p|]|? ?|?|? ?|?]; cbn [tcam_call_run] in Hrun;
    try (by apply bind_ret_Some in Hrun as (? & _ & [= _ ->])).
  - by apply (wp_run_inv _ _ _ _ _ _ (tf_tcam_alloc_typed tfp p w Ht) Hrun).
  - by destruct tfp; injection Hrun as [= _ <- _].
Qed.

End Ops.

Import RmPool MsgTable Fixtures.

(** The codes of the reference resource manager are 0, [-EINVAL],
    [-ENOMEM] and [-EIO]. *)
Lemma pool_rm_codes_neg : rm_codes_neg.
Proof.
  split; cbn; intros;
    unfold pool_create_db, pool_free_db, pool_allocate, pool_free_index,
      pool_is_allocated; repeat case_match; by cbn.
Qed.


(** A device that reports 65536 slices, which is 0 in 16 bits. *)
Definition q_65536 (type key_size : N) : Z * N := (0%Z, 65536%N).

Lemma tcam_call_faults_witness :
  tcam_call_run (CallSet (Some (tf_of_query q_65536)) (Some (set_of TF_DIR_RX 2 0 16)))
    w_alloc1 = None.
Proof.
  apply (proj2 (tcam_call_faults _ w_alloc1)).
  split_and!; [done..|]. by eexists _, _, _, _, q_65536, 65536%N.
Defined.

Lemma tf_by_type_ok : tf_ok tf_by_type.
Proof. intros q [= <-] t k n [= <-]. by case_decide. Qed.

Lemma tcam_call_fw_independent_witness :
  exists w2',
    tcam_call_run (CallFree (Some tf_by_type) (Some (free_of TF_DIR_RX 2 0)))
      (add_log LogInitialized w_alloc1) = Some ((0%Z, None), w2') /\
    world_equiv
      (exec (tf_tcam_free (Some tf_by_type) (Some (free_of TF_DIR_RX 2 0))) w_alloc1)
      w2'.
Proof.
  apply (tcam_call_fw_independent
           (CallFree (Some tf_by_type) (Some (free_of TF_DIR_RX 2 0)))
           w_alloc1 (add_log LogInitialized w_alloc1)); [done|run_eq].
Defined.

Lemma tcam_call_fault_witness :
  zero_slices (Some tf_zero).
Proof.
  apply (tcam_call_fault
           (CallFree (Some tf_zero) (Some (free_of TF_DIR_RX 2 0))) w_alloc1).
  reflexivity.
Defined.

Lemma tcam_call_total_witness :
  exists rc w',
    tcam_step w_alloc1 (CallSet (Some tf_by_type) (Some (set_of TF_DIR_RX 2 0 16)))
      rc w'.
Proof.
  apply (tcam_call_total
           (CallSet (Some tf_by_type) (Some (set_of TF_DIR_RX 2 0 16))) w_alloc1).
  intros t [= <-]. apply tf_by_type_ok.
Defined.
