(* ===== verification/TcamCapacity.v ===== *)
(** * TcamCapacity: how many allocations succeed

    [alloc_n] is a run of calls of [tf_tcam_alloc] with the same
    parameters.  From a pool with room for [c] indices exactly the first
    [c] calls return 0; after a bind, [c] is the capacity the
    configuration gives for the direction and type.  The scenario at the
    end runs a whole session (bind, allocations to exhaustion, a free, two
    more allocations, unbind, bind) on the reference resource manager. *)

From S2P Require Import Prelude Types Device Rm Msg Tcam TcamRules TcamInv TcamLife TcamEntry.
From S2P Require RmPool MsgTable Fixtures.

Section Capacity.
Context {R : RmOps} {L : RmLaws R} {F : MsgOps} {A : TcamAbi}.
Implicit Types (w : tcam_world) (d : tf_dir) (q : N -> N -> Z * N).

(** [k] calls of [tf_tcam_alloc] with the same parameters, and the codes
    they return, in order. *)
Fixpoint alloc_n (tfp : tf) (p : tf_tcam_alloc_parms) (k : nat)
  : M tcam_world (list Z) :=
  match k with
  | 0 => ret []
  | S k' =>
      let* (rc, _) := tf_tcam_alloc (Some tfp) (Some p) in
      let* rcs := alloc_n tfp p k' in
      ret (rc :: rcs)
  end.

(** The codes of a sequence of allocations from a pool with room for
    [c]: 0 for the first [c], an error for the others. *)
Definition codes_for (c : N) (rcs : list Z) : Prop :=
  Forall (eq 0%Z) (take (N.to_nat c) rcs) /\
  Forall (fun rc => rc <> 0%Z) (drop (N.to_nat c) rcs).

(** [k] calls of [tf_tcam_alloc] with the same parameters, and the
    indices that the calls that returned 0 left in [parms->idx], in
    order. *)
Fixpoint alloc_idxs (tfp : tf) (p : tf_tcam_alloc_parms) (k : nat)
  : M tcam_world (list N) :=
  match k with
  | 0 => ret []
  | S k' =>
      let* (rc, p') := tf_tcam_alloc (Some tfp) (Some p) in
      let* idxs := alloc_idxs tfp p k' in
      ret (if (rc =? 0)%Z then option_list (alloc_idx <$> p') ++ idxs else idxs)
  end.

Lemma codes_for_ok c rcs :
  c <> 0%N -> codes_for (c - 1) rcs -> codes_for c (0%Z :: rcs).
Proof.
  intros Hc [Ht Hd]. unfold codes_for.
  replace (N.to_nat c) with (S (N.to_nat (c - 1))) by lia. cbn. split; [|done].
  by constructor.
Qed.

Lemma codes_for_failed rc rcs :
  rc <> 0%Z -> codes_for 0 rcs -> codes_for 0 (rc :: rcs).
Proof. intros Hrc [_ Hd]. split; [constructor|]. cbn in *. by constructor. Qed.

(** One allocation: the module stays ready; on a code of 0 one index
    that was free is added to the pool and returned scaled, on an error
    the pool stays as it is. *)
Lemma tf_tcam_alloc_next tfp q p n pl w :
  tcam_ready tfp q w -> q (alloc_type p) (alloc_key_size p) = (0%Z, n) ->
  tcam_pool w (alloc_dir p) (alloc_type p) = Some pl ->
  wp (tf_tcam_alloc (Some tfp) (Some p))
    (fun '(rc, p') w1 =>
       tcam_ready tfp q w1 /\
       if decide (rc = 0%Z)
       then exists i,
              (i < pool_size pl)%N /\ (i ∉ pool_used pl) /\
              pool_room pl <> 0%N /\
              tcam_pool w1 (alloc_dir p) (alloc_type p) = Some (pool_alloc i pl) /\
              p' = Some (set_alloc_idx (hw_index i n) p)
       else tcam_pool w1 (alloc_dir p) (alloc_type p) = Some pl)
    w.
Proof.
  intros Hr Hn Hpl. pose proof Hr as [Hi Hq].
  eapply wp_mono; [by eapply tf_tcam_alloc_spec|].
  intros [rc p'] w1 (Hdb & Hi1 & _ & H).
  split; [split; [congruence|done]|]. unfold tcam_pool in *.
  rewrite (db_of_frame w w1) by done. case_decide as Hrc.
  - destruct H as (pl0 & i & Hpl0 & Hlt & Hfree & Hroom & Hv & -> & _).
    simplify_eq. exists i. rewrite Hv. split_and!; [done..| |done].
    apply view_pool_set_eq. apply view_pool_Some in Hpl as (db & -> & _). eauto.
  - destruct H as (Hv & _). by rewrite Hv.
Qed.

(** The room of the pool after one allocation: one unit less if it had
    any, on a code of 0; the same, on an error. *)
Lemma tf_tcam_alloc_step tfp q p n pl w :
  tcam_ready tfp q w -> q (alloc_type p) (alloc_key_size p) = (0%Z, n) ->
  tcam_pool w (alloc_dir p) (alloc_type p) = Some pl ->
  wp (tf_tcam_alloc (Some tfp) (Some p))
    (fun '(rc, _) w1 =>
       tcam_ready tfp q w1 /\
       exists pl1,
         tcam_pool w1 (alloc_dir p) (alloc_type p) = Some pl1 /\
         if decide (pool_room pl = 0%N)
         then rc <> 0%Z /\ pl1 = pl
         else rc = 0%Z /\ pool_room pl1 = (pool_room pl - 1)%N)
    w.
Proof.
  intros Hr Hn Hpl. eapply wp_mono.
  { apply wp_conj; [by eapply tf_tcam_alloc_next|].
    apply (tf_tcam_alloc_rc _ tfp q p n pl w Hr Hn Hpl). }
  intros [rc p'] w1 [[Hr1 H] Hroom]. split; [done|]. case_decide as Hrc.
  - destruct H as (i & Hlt & Hfree & Hnz & Hpl1 & _). exists (pool_alloc i pl).
    split; [done|]. rewrite decide_False by done.
    by split; [|apply pool_room_alloc].
  - exists pl. split; [done|]. case_decide; [done|]. by destruct Hrc; apply Hroom.
Qed.

Lemma alloc_n_spec tfp q p n k : forall pl w,
  tcam_ready tfp q w -> q (alloc_type p) (alloc_key_size p) = (0%Z, n) ->
  tcam_pool w (alloc_dir p) (alloc_type p) = Some pl ->
  wp (alloc_n tfp p k)
    (fun rcs w' => length rcs = k /\ codes_for (pool_room pl) rcs) w.
Proof.
  induction k as [|k IH]; intros pl w Hr Hn Hpl; cbn [alloc_n].
  { wp_go. split; [done|]. split; [by rewrite take_nil|by rewrite drop_nil]. }
  wp_go. eapply wp_mono; [by eapply tf_tcam_alloc_step|].
  intros [rc p'] w1 (Hr1 & pl1 & Hpl1 & H). wp_go.
  eapply wp_mono; [by apply (IH pl1 w1)|]. intros rcs w2 [Hlen Hc]. wp_go.
  split; [by rewrite <- Hlen|]. case_decide as Hroom.
  - destruct H as [Hrc ->]. rewrite Hroom in *. by apply codes_for_failed.
  - destruct H as [-> Hroom1]. rewrite Hroom1 in Hc. by apply codes_for_ok.
Qed.

(** The codes, one by one: allocation [j] succeeds exactly when [j] is
    below the room. *)
Lemma codes_for_lookup c rcs j rc :
  codes_for c rcs -> rcs !! j = Some rc -> (rc = 0%Z <-> (N.of_nat j < c)%N).
Proof.
  intros [Ht Hd] Hj. destruct (decide (N.of_nat j < c)%N) as [Hlt|Hge].
  - split; [done|intros _]. symmetry.
    apply (proj1 (Forall_lookup _ _) Ht j). by rewrite lookup_take_lt by lia.
  - split; [|done]. intros ->. exfalso.
    apply (proj1 (Forall_lookup _ _) Hd (j - N.to_nat c) 0%Z); [|done].
    rewrite lookup_drop. by replace (N.to_nat c + (j - N.to_nat c)) with j by lia.
Qed.

Lemma pool_room_new c : pool_room (pool_new c) = c.
Proof. unfold pool_room, pool_new; cbn. rewrite size_empty. lia. Qed.

(** C25: of [k] calls of [tf_tcam_alloc] in a row for a direction and
    type whose pool has room for [c] more indices, call number [j],
    counted from 0, returns 0 exactly when [j < c]: the first [c] succeed
    and every later one fails. *)
Theorem tf_tcam_alloc_capacity tfp q p n pl k w :
  tcam_ready tfp q w -> q (alloc_type p) (alloc_key_size p) = (0%Z, n) ->
  tcam_pool w (alloc_dir p) (alloc_type p) = Some pl ->
  wp (alloc_n tfp p k)
    (fun rcs _ =>
       length rcs = k /\
       forall j rc, rcs !! j = Some rc ->
                    (rc = 0%Z <-> (N.of_nat j < pool_room pl)%N))
    w.
Proof.
  intros Hr Hn Hpl. eapply wp_mono; [by eapply alloc_n_spec|].
  intros rcs w' [Hlen Hc]. split; [done|]. intros j rc. by apply codes_for_lookup.
Qed.

(** C10: after a [tf_tcam_bind] that returned 0 with a capacity of [c]
    for a direction and type, exactly [c] calls of [tf_tcam_alloc] for
    them succeed: of [k] calls in a row, call number [j] returns 0 exactly
    when [j < c]. *)
Theorem tf_tcam_bind_capacity tfp q cfg p n c k w w1 :
  length (tcam_db w) = TF_DIR_MAX -> init w = 0%N ->
  tf_tcam_bind (Some tfp) (Some cfg) w = Some (0%Z, w1) ->
  tf_slice_query tfp = Some q ->
  q (alloc_type p) (alloc_key_size p) = (0%Z, n) ->
  (alloc_type p < cfg_num_elements cfg)%N ->
  cfg_tcam_cnt cfg (alloc_dir p) !! N.to_nat (alloc_type p) = Some c ->
  wp (alloc_n tfp p k)
    (fun rcs _ =>
       length rcs = k /\
       forall j rc, rcs !! j = Some rc -> (rc = 0%Z <-> (N.of_nat j < c)%N))
    w1.
Proof.
  intros Hl Hi Hrun Hq Hn Ht Hc.
  destruct (tf_tcam_bind_run _ _ _ _ Hl Hi Hrun) as [Hi1 Hdb].
  assert (tcam_pool w1 (alloc_dir p) (alloc_type p) = Some (pool_new c)) as Hpl.
  { unfold tcam_pool, view_pool. rewrite Hdb. cbn. unfold bind_db.
    rewrite db_new_lookup, decide_True by done. by rewrite Hc. }
  assert (tcam_ready tfp q w1) as Hr by (split; [by rewrite Hi1|done]).
  eapply wp_mono; [by eapply alloc_n_spec|].
  intros rcs w' [Hlen Hcodes]. split; [done|]. intros j rc.
  rewrite pool_room_new in Hcodes. by apply codes_for_lookup.
Qed.

(** ** No index is handed out twice *)

(** The logical indices a run of allocations reserves: each was free
    and below the capacity, no two are the same, the pool grows by them
    and by nothing else, and the caller sees each scaled by the slice
    count. *)
Lemma alloc_idxs_spec tfp q p n k : forall pl w,
  tcam_ready tfp q w -> q (alloc_type p) (alloc_key_size p) = (0%Z, n) ->
  tcam_pool w (alloc_dir p) (alloc_type p) = Some pl ->
  wp (alloc_idxs tfp p k)
    (fun idxs w' =>
       exists ls,
         idxs = (fun l => hw_index l n) <$> ls /\ NoDup ls /\
         Forall (fun l => (l < pool_size pl)%N /\ l ∉ pool_used pl) ls /\
         tcam_pool w' (alloc_dir p) (alloc_type p) =
           Some {| pool_size := pool_size pl;
                   pool_used := list_to_set ls ∪ pool_used pl |})
    w.
Proof.
  induction k as [|k IH]; intros pl w Hr Hn Hpl; cbn [alloc_idxs].
  { wp_go. exists []. split_and!; [done|constructor|constructor|].
    rewrite Hpl. f_equal. destruct pl; cbn. f_equal. set_solver. }
  wp_go. eapply wp_mono; [by eapply tf_tcam_alloc_next|].
  intros [rc p'] w1 [Hr1 H]. wp_go. case_decide as Hrc.
  - destruct H as (i & Hlt & Hfree & _ & Hpl1 & ->). subst rc.
    eapply wp_mono; [by apply (IH (pool_alloc i pl) w1)|].
    intros idxs w2 (ls & -> & Hnd & Hall & Hpl2). wp_go.
    exists (i :: ls). cbn in Hall, Hpl2 |- *. split_and!; [done| | |].
    + constructor; [|done]. intros Hin.
      apply (proj1 (Forall_forall _ _) Hall) in Hin. set_solver.
    + constructor; [done|]. eapply Forall_impl; [done|]. set_solver.
    + rewrite Hpl2. do 2 f_equal. set_solver.
  - eapply wp_mono; [by apply (IH pl w1)|].
    intros idxs w2 Hpost. wp_go. by destruct (Z.eqb_spec rc 0).
Qed.

(** Scaling by a slice count that is not 0 keeps distinct indices
    distinct, when the scaled indices fit the field. *)
Lemma hw_index_inj n c l1 l2 :
  n <> 0%N -> fits SLICE_BITS n -> fits idx_bits (c * n) ->
  (l1 < c)%N -> (l2 < c)%N -> hw_index l1 n = hw_index l2 n -> l1 = l2.
Proof.
  intros Hn Hs Hc H1 H2 Heq.
  assert (forall l, (l < c)%N -> hw_index l n = (l * n)%N) as Hx.
  { intros l Hl. apply hw_index_exact; [done..|].
    apply (fits_mono _ (c * n)); [nia|done]. }
  rewrite !Hx in Heq by done. nia.
Qed.

(** C18: when the capacity of the pool times the slice count fits the
    index field, the indices that [k] calls of [tf_tcam_alloc] in a row
    return are pairwise distinct; each is a logical index that was free
    before the run, below the capacity, times the slice count; and after
    the run the pool holds, besides what it held, exactly those logical
    indices. *)
Theorem tf_tcam_alloc_distinct tfp q p n pl k w :
  tcam_ready tfp q w -> slices_ok q ->
  q (alloc_type p) (alloc_key_size p) = (0%Z, n) ->
  tcam_pool w (alloc_dir p) (alloc_type p) = Some pl ->
  fits idx_bits (pool_size pl * n) ->
  wp (alloc_idxs tfp p k)
    (fun idxs w' =>
       NoDup idxs /\
       exists ls,
         idxs = (fun l => (l * n)%N) <$> ls /\
         Forall (fun l => (l < pool_size pl)%N /\ l ∉ pool_used pl) ls /\
         tcam_pool w' (alloc_dir p) (alloc_type p) =
           Some {| pool_size := pool_size pl;
                   pool_used := list_to_set ls ∪ pool_used pl |})
    w.
Proof.
  intros Hr Hok Hn Hpl Hfit. destruct (Hok _ _ _ Hn) as [Hnz Hs].
  eapply wp_mono; [by eapply alloc_idxs_spec|].
  intros idxs w' (ls & -> & Hnd & Hall & Hpl'). split.
  - apply NoDup_fmap_2_strong; [|done]. intros l1 l2 Hl1 Hl2.
    apply (hw_index_inj n (pool_size pl)); try done;
      by apply (proj1 (Forall_forall _ _) Hall).
  - exists ls. split_and!; [|done..]. apply Forall_fmap_ext_1.
    eapply Forall_impl; [done|]. intros l [Hl _]. apply hw_index_exact; [done..|].
    apply (fits_mono _ (pool_size pl * n)); [nia|done].
Qed.

(** A sequence of calls, and what each returns. *)
Fixpoint run_calls (cs : list tcam_call)
  : M tcam_world (list (Z * option tf_tcam_alloc_parms)) :=
  match cs with
  | [] => ret []
  | c :: cs' =>
      let* r := tcam_call_run c in
      let* rs := run_calls cs' in
      ret (r :: rs)
  end.

(** The code of each call and, for an allocation, the index in the
    parameters when it returns. *)
Definition outcomes (cs : list tcam_call) (w : tcam_world)
  : option (list (Z * option N)) :=
  match run_calls cs w with
  | Some (rs, _) =>
      Some (map (fun r : Z * option tf_tcam_alloc_parms =>
                   (r.1, option_map alloc_idx r.2)) rs)
  | None => None
  end.
End Capacity.

Import RmPool MsgTable Fixtures.

Lemma tf_tcam_alloc_capacity_witness :
  wp (alloc_n tf_by_type (alloc_of TF_DIR_RX 2 16) 5)
    (fun rcs _ =>
       length rcs = 5 /\
       forall j rc, rcs !! j = Some rc ->
                    (rc = 0%Z <-> (N.of_nat j < pool_room pool_1of4)%N))
    w_alloc1.
Proof.
  exact (tf_tcam_alloc_capacity tf_by_type q_by_type (alloc_of TF_DIR_RX 2 16) 2
           pool_1of4 5 w_alloc1 (ready_by_type w_alloc1 ltac:(discriminate))
           eq_refl w_alloc1_pool).
Defined.

Lemma w_bound_run :
  tf_tcam_bind (Some tf_by_type) (Some cfg4) w_start = Some (0%Z, w_bound).
Proof. run_eq. Qed.

Lemma tf_tcam_bind_capacity_witness :
  wp (alloc_n tf_by_type (alloc_of TF_DIR_TX 1 16) 6)
    (fun rcs _ =>
       length rcs = 6 /\
       forall j rc, rcs !! j = Some rc -> (rc = 0%Z <-> (N.of_nat j < 4)%N))
    w_bound.
Proof.
  exact (tf_tcam_bind_capacity tf_by_type q_by_type cfg4 (alloc_of TF_DIR_TX 1 16)
           1 4 6 w_start w_bound eq_refl eq_refl w_bound_run eq_refl eq_refl
           ltac:(done) eq_refl).
Defined.

Lemma tf_tcam_alloc_distinct_witness :
  wp (alloc_idxs tf_by_type (alloc_of TF_DIR_RX 2 16) 5)
    (fun idxs w' =>
       NoDup idxs /\
       exists ls,
         idxs = (fun l => (l * 2)%N) <$> ls /\
         Forall (fun l => (l < pool_size pool_1of4)%N /\ l ∉ pool_used pool_1of4) ls /\
         tcam_pool w' TF_DIR_RX 2 =
           Some {| pool_size := pool_size pool_1of4;
                   pool_used := list_to_set ls ∪ pool_used pool_1of4 |})
    w_alloc1.
Proof.
  exact (tf_tcam_alloc_distinct tf_by_type q_by_type (alloc_of TF_DIR_RX 2 16) 2
           pool_1of4 5 w_alloc1 (ready_by_type w_alloc1 ltac:(discriminate))
           q_by_type_ok eq_refl w_alloc1_pool eq_refl).
Defined.

(** The scenario of a capacity of four, run on the reference resource
    manager, whose first-fit search gives the indices their order: after
    a bind with four entries per type, four allocations of type 2 (two
    slices per row) on the receive side return hardware indices 0, 2, 4
    and 6 and a fifth fails with [-ENOMEM]; freeing index 2 lets exactly
    one more allocation succeed, which returns index 2 again; and after
    an unbind the module can be bound again. *)
Example tcam_scenario :
  let t := Some tf_by_type in
  let alloc := CallAlloc t (Some (alloc_of TF_DIR_RX 2 16)) in
  outcomes
    [CallBind t (Some cfg4); alloc; alloc; alloc; alloc; alloc;
     CallFree t (Some (free_of TF_DIR_RX 2 2)); alloc; alloc;
     CallUnbind t; CallBind t (Some cfg4)]
    w_start =
  Some [(0%Z, None); (0%Z, Some 0%N); (0%Z, Some 2%N); (0%Z, Some 4%N);
        (0%Z, Some 6%N); ((- ENOMEM)%Z, Some 0%N); (0%Z, None);
        (0%Z, Some 2%N); ((- ENOMEM)%Z, Some 0%N); (0%Z, None); (0%Z, None)].
Proof. reflexivity. Qed.
