(* ===== verification/TcamSpec.v ===== *)
(** * TcamSpec: what the TCAM manager promises, as an abstract machine

    The state a caller can reason with: whether the manager is bound and,
    per direction, the database of pools, with no handles, no heap, no
    firmware and no log.  [abs_step] gives, for each entry point, the
    codes it may return and the state it may leave: a code of 0 means the
    operation took effect as the data model of the specification describes
    it, an error leaves the state alone, and the two exceptions are a bind
    that failed after it created the database of the receive side and an
    unbind that failed after it destroyed it.  Two invariants of the
    machine: every allocated index is below the capacity of its pool, and
    the database of the transmit side exists exactly when the manager is
    bound.  [TcamRefine] shows that the code implements this machine.

    The machine has the data model of the specification and the
    behaviour of the code.  Where the two differ it follows the code: the
    release of an entry that is free returns 0, a set returns 0 whether
    the entry is allocated or not, the two entry points with an empty
    body return 0, a bind and an unbind may stop half way, and any call
    may fail with any code other than 0 and the state unchanged.  What it
    fixes is what a success does: the index an allocation returns and the
    pool it leaves, the index a release works on, the databases a bind
    creates and an unbind destroys. *)

From S2P Require Import Prelude Types Device Rm Msg Tcam TcamLife TcamEntry.

(** ** The abstract state *)

(** Whether the manager is bound, and the database of each direction, if
    it has one. *)
Record tcam_abs := {
  abs_bound : bool;
  abs_rx : option rm_db;
  abs_tx : option rm_db;
}.

Definition abs_db (a : tcam_abs) (d : tf_dir) : option rm_db :=
  match d with
  | TF_DIR_RX => abs_rx a
  | TF_DIR_TX => abs_tx a
  end.

Definition abs_set (d : tf_dir) (v : option rm_db) (a : tcam_abs) : tcam_abs :=
  match d with
  | TF_DIR_RX => {| abs_bound := abs_bound a; abs_rx := v; abs_tx := abs_tx a |}
  | TF_DIR_TX => {| abs_bound := abs_bound a; abs_rx := abs_rx a; abs_tx := v |}
  end.

(** Before the first bind. *)
Definition abs_init : tcam_abs :=
  {| abs_bound := false; abs_rx := None; abs_tx := None |}.

(** After a bind with configuration [cfg]. *)
Definition abs_bind (cfg : tf_tcam_cfg_parms) : tcam_abs :=
  {| abs_bound := true;
     abs_rx := Some (bind_db cfg TF_DIR_RX);
     abs_tx := Some (bind_db cfg TF_DIR_TX) |}.

(** The pool of a direction and type. *)
Definition abs_pool (a : tcam_abs) (d : tf_dir) (type : N) : option rm_pool :=
  abs_db a d ≫= fun db => db !! type.

(** The pool of a direction and type replaced. *)
Definition abs_set_pool (d : tf_dir) (type : N) (pl : rm_pool) (a : tcam_abs)
  : tcam_abs :=
  abs_set d ((fun db => <[type := pl]> db) <$> abs_db a d) a.

(** ** The abstract steps *)

Section Spec.
Context {A : TcamAbi}.

(** What a call may return and do to the abstract state.  A call that
    returns an error leaves the state as it is, but for a bind or an
    unbind that stopped half way. *)
Inductive abs_step :
  tcam_abs -> tcam_call -> Z -> option tf_tcam_alloc_parms -> tcam_abs -> Prop :=
  | abs_error a c rc p :
      rc <> 0%Z -> abs_step a c rc p a
  | abs_bind_ok a t cfg :
      abs_bound a = false ->
      abs_step a (CallBind (Some t) (Some cfg)) 0 None (abs_bind cfg)
  | abs_bind_half a t cfg rc :
      abs_bound a = false -> rc <> 0%Z ->
      abs_step a (CallBind (Some t) (Some cfg)) rc None
        (abs_set TF_DIR_RX (Some (bind_db cfg TF_DIR_RX)) a)
  | abs_unbind_ok a t :
      abs_bound a = true -> is_Some (abs_rx a) -> is_Some (abs_tx a) ->
      abs_step a (CallUnbind (Some t)) 0 None abs_init
  | abs_unbind_half a t rc :
      abs_bound a = true -> rc <> 0%Z -> is_Some (abs_rx a) ->
      abs_step a (CallUnbind (Some t)) rc None (abs_set TF_DIR_RX None a)
  | abs_alloc_ok a t q p n pl i :
      abs_bound a = true -> tf_slice_query t = Some q ->
      q (alloc_type p) (alloc_key_size p) = (0%Z, n) ->
      abs_pool a (alloc_dir p) (alloc_type p) = Some pl ->
      (i < pool_size pl)%N -> i ∉ pool_used pl ->
      abs_step a (CallAlloc (Some t) (Some p)) 0
        (Some (set_alloc_idx (hw_index i n) p))
        (abs_set_pool (alloc_dir p) (alloc_type p) (pool_alloc i pl) a)
  | abs_free_ok a t q p n pl :
      abs_bound a = true -> tf_slice_query t = Some q ->
      q (free_type p) 0%N = (0%Z, n) ->
      abs_pool a (free_dir p) (free_type p) = Some pl ->
      (free_idx p / wrap SLICE_BITS n)%N ∈ pool_used pl ->
      abs_step a (CallFree (Some t) (Some p)) 0 None
        (abs_set_pool (free_dir p) (free_type p)
           (pool_free (free_idx p / wrap SLICE_BITS n) pl) a)
  | abs_free_noop a t q p n pl :
      abs_bound a = true -> tf_slice_query t = Some q ->
      q (free_type p) 0%N = (0%Z, n) ->
      abs_pool a (free_dir p) (free_type p) = Some pl ->
      (free_idx p / wrap SLICE_BITS n)%N ∉ pool_used pl ->
      abs_step a (CallFree (Some t) (Some p)) 0 None a
  | abs_set_ok a t q p n pl :
      abs_bound a = true -> tf_slice_query t = Some q ->
      q (set_type p) (set_key_size p) = (0%Z, n) ->
      abs_pool a (set_dir p) (set_type p) = Some pl ->
      abs_step a (CallSet (Some t) (Some p)) 0 None a
  | abs_alloc_search a t :
      abs_step a (CallAllocSearch t) 0 None a
  | abs_get a t :
      abs_step a (CallGet t) 0 None a.

(** A sequence of calls with what each returned. *)
Inductive abs_run : tcam_abs -> list (tcam_call * Z) -> tcam_abs -> Prop :=
  | abs_run_nil a : abs_run a [] a
  | abs_run_snoc a tr a' c rc p a'' :
      abs_run a tr a' -> abs_step a' c rc p a'' ->
      abs_run a (tr ++ [(c, rc)]) a''.

(** ** Invariants of the abstract machine *)

(** Every allocated index is below the capacity of its pool. *)
Definition pool_ok (pl : rm_pool) : Prop :=
  forall i, i ∈ pool_used pl -> (i < pool_size pl)%N.

Definition abs_wf (a : tcam_abs) : Prop :=
  forall d type pl, abs_pool a d type = Some pl -> pool_ok pl.

(** The database of the transmit side exists exactly when the manager is
    bound. *)
Definition abs_shape (a : tcam_abs) : Prop :=
  is_Some (abs_tx a) <-> abs_bound a = true.

(** ** Lemmas *)

Lemma abs_db_set d v a d' :
  abs_db (abs_set d v a) d' = if decide (d' = d) then v else abs_db a d'.
Proof. by destruct d, d'. Qed.

Lemma abs_bound_set d v a : abs_bound (abs_set d v a) = abs_bound a.
Proof. by destruct d. Qed.

Lemma abs_pool_set_pool d type pl a d' type' :
  abs_pool (abs_set_pool d type pl a) d' type' =
  if decide ((d', type') = (d, type))
  then (fun _ => pl) <$> abs_db a d
  else abs_pool a d' type'.
Proof.
  unfold abs_pool, abs_set_pool. rewrite abs_db_set.
  destruct (decide (d' = d)) as [->|Hd]; [|by rewrite decide_False by congruence].
  destruct (abs_db a d) as [db|]; cbn; [|by case_decide].
  destruct (decide (type' = type)) as [->|Ht].
  - by rewrite decide_True, lookup_insert_eq.
  - by rewrite decide_False, lookup_insert_ne by congruence.
Qed.

Lemma abs_pool_bind cfg d type pl :
  abs_pool (abs_bind cfg) d type = Some pl -> pool_used pl = ∅.
Proof.
  assert (abs_pool (abs_bind cfg) d type = bind_db cfg d !! type) as ->
    by (by destruct d).
  unfold bind_db. rewrite db_new_lookup. case_decide; [|done].
  by intros [c [_ ->]]%fmap_Some.
Qed.

Lemma pool_ok_alloc i pl :
  (i < pool_size pl)%N -> pool_ok pl -> pool_ok (pool_alloc i pl).
Proof. intros Hi Hok j. cbn. intros [->%elem_of_singleton|?]%elem_of_union; auto. Qed.

Lemma pool_ok_free i pl : pool_ok pl -> pool_ok (pool_free i pl).
Proof. intros Hok j. cbn. intros [? _]%elem_of_difference. auto. Qed.

(** Replacing a pool by one that is in order keeps the pools in order. *)
Lemma abs_wf_set_pool d type pl a :
  abs_wf a -> pool_ok pl -> abs_wf (abs_set_pool d type pl a).
Proof.
  intros Hwf Hok d' type' pl'. rewrite abs_pool_set_pool. case_decide.
  - by intros [? [_ ->]]%fmap_Some.
  - apply Hwf.
Qed.

Lemma abs_wf_set d v a :
  abs_wf a -> (forall db type pl, v = Some db -> db !! type = Some pl -> pool_ok pl) ->
  abs_wf (abs_set d v a).
Proof.
  intros Hwf Hv d' type pl. unfold abs_pool. rewrite abs_db_set. case_decide.
  - destruct v as [db|]; cbn; [|done]. by apply Hv.
  - apply Hwf.
Qed.

Lemma pool_ok_empty pl : pool_used pl = ∅ -> pool_ok pl.
Proof. intros He i. rewrite He. set_solver. Qed.

Lemma abs_wf_init : abs_wf abs_init.
Proof. by intros [|] type pl. Qed.

Lemma abs_step_wf a c rc p a' : abs_wf a -> abs_step a c rc p a' -> abs_wf a'.
Proof.
  intros Hwf Hstep. destruct Hstep; try done.
  - intros d type pl ?%abs_pool_bind. by apply pool_ok_empty.
  - apply abs_wf_set; [done|]. intros db type pl [= <-] Hpl.
    apply pool_ok_empty, (abs_pool_bind cfg TF_DIR_RX type). exact Hpl.
  - apply abs_wf_init.
  - apply abs_wf_set; [done|]. by intros.
  - apply abs_wf_set_pool; [done|]. apply pool_ok_alloc; [done|]. by eapply Hwf.
  - apply abs_wf_set_pool; [done|]. apply pool_ok_free. by eapply Hwf.
Qed.

Lemma abs_shape_set_pool d type pl a :
  abs_shape a -> abs_shape (abs_set_pool d type pl a).
Proof.
  unfold abs_shape, abs_set_pool. intros Hs. rewrite abs_bound_set.
  rewrite <- Hs. destruct d; cbn; [done|]. by rewrite fmap_is_Some.
Qed.

Lemma abs_step_shape a c rc p a' :
  abs_shape a -> abs_step a c rc p a' -> abs_shape a'.
Proof.
  unfold abs_shape. intros Hs Hstep.
  destruct Hstep; rewrite ?abs_bound_set; try done.
  - split; [by intros ?%is_Some_None|done].
  - by apply abs_shape_set_pool.
  - by apply abs_shape_set_pool.
Qed.

(** The invariants hold along a run. *)
Lemma abs_run_wf a tr a' : abs_wf a -> abs_run a tr a' -> abs_wf a'.
Proof.
  intros Hwf Hrun. induction Hrun as [|a tr a' c rc p a'' _ IH Hstep]; [done|].
  apply (abs_step_wf a' c rc p); [by apply IH|done].
Qed.

Lemma abs_run_shape a tr a' : abs_shape a -> abs_run a tr a' -> abs_shape a'.
Proof.
  intros Hs Hrun. induction Hrun as [|a tr a' c rc p a'' _ IH Hstep]; [done|].
  apply (abs_step_shape a' c rc p); [by apply IH|done].
Qed.

Lemma abs_shape_init : abs_shape abs_init.
Proof. split; [by intros ?%is_Some_None|done]. Qed.

(** A pool in order holds no more indices than its capacity: its room
    and the number of indices in use add up to the capacity. *)
Lemma pool_ok_size pl :
  pool_ok pl -> (N.of_nat (size (pool_used pl)) <= pool_size pl)%N.
Proof.
  intros Hok.
  set (all := N.of_nat <$> seq 0 (N.to_nat (pool_size pl))).
  assert (pool_used pl ⊆ list_to_set all) as Hsub.
  { intros i Hi. apply elem_of_list_to_set, list_elem_of_fmap.
    exists (N.to_nat i). split; [lia|]. apply elem_of_seq.
    specialize (Hok i Hi). lia. }
  apply subseteq_size in Hsub. rewrite size_list_to_set in Hsub.
  - unfold all in Hsub. rewrite length_fmap, length_seq in Hsub. lia.
  - apply NoDup_fmap; [intros ? ? ?; lia|apply NoDup_seq].
Qed.

Lemma pool_ok_room pl :
  pool_ok pl -> (pool_room pl + N.of_nat (size (pool_used pl)) = pool_size pl)%N.
Proof. intros ?%pool_ok_size. unfold pool_room. lia. Qed.
End Spec.
