(* ===== verification/TcamRefine.v ===== *)
(** * TcamRefine: the code implements the abstract machine

    [abs_of] reads the abstract state off a state of the module: bound
    when [init] is set, and for each direction the database its slot
    refers to.  Each entry point, on each of its paths, makes a step of
    [abs_step] between the abstractions of the states before and after
    (a forward simulation with a function for the relation); it needs the
    invariant of the handles, because the abstract machine has one
    database per direction and the code two slots that must not share
    one.  Runs of calls follow, and with them the invariants of the
    abstract machine hold of every state the module reaches. *)

From S2P Require Import Prelude Types Device Rm Msg Tcam TcamRules TcamInv TcamLife TcamEntry TcamSpec.
From S2P Require RmPool MsgTable Fixtures.

Section Refine.
Context {R : RmOps} {L : RmLaws R} {F : MsgOps} {A : TcamAbi}.
Implicit Types (w : tcam_world) (d : tf_dir) (a : tcam_abs).

(** ** The abstraction *)

(** The abstract state of a state of the module: bound when [init] is
    set; the database of a direction is the one its slot refers to, if
    the handle is live. *)
Definition abs_of w : tcam_abs :=
  {| abs_bound := negb (init w =? 0)%N;
     abs_rx := rm_view (rm w) !! db_of w TF_DIR_RX;
     abs_tx := rm_view (rm w) !! db_of w TF_DIR_TX |}.

Lemma abs_db_of w d : abs_db (abs_of w) d = rm_view (rm w) !! db_of w d.
Proof. by destruct d. Qed.

Lemma abs_pool_of w d type : abs_pool (abs_of w) d type = tcam_pool w d type.
Proof. unfold abs_pool. by rewrite abs_db_of. Qed.

Lemma abs_bound_of w : abs_bound (abs_of w) = true <-> init w <> 0%N.
Proof. cbn. by destruct (N.eqb_spec (init w) 0). Qed.

(** Two abstract states are equal when they agree on the flag and on
    each direction. *)
Lemma abs_eq a a' :
  abs_bound a = abs_bound a' -> (forall d, abs_db a d = abs_db a' d) -> a = a'.
Proof.
  destruct a, a'; cbn. intros -> Hd.
  pose proof (Hd TF_DIR_RX) as Hrx. pose proof (Hd TF_DIR_TX) as Htx.
  cbn in Hrx, Htx. by subst.
Qed.

Lemma abs_of_eq w a :
  abs_bound a = negb (init w =? 0)%N ->
  (forall d, abs_db a d = rm_view (rm w) !! db_of w d) ->
  abs_of w = a.
Proof. intros Hb Hd. apply abs_eq; [done|]. intros d. by rewrite abs_db_of. Qed.

(** The abstraction reads the slots, the flag and the live databases. *)
Lemma abs_of_slots w w' :
  (forall d, db_of w' d = db_of w d) -> init w' = init w ->
  rm_view (rm w') = rm_view (rm w) -> abs_of w' = abs_of w.
Proof.
  intros Hdb Hi Hv. apply abs_of_eq; [by cbn; rewrite Hi|].
  intros d. by rewrite abs_db_of, Hv, Hdb.
Qed.

Lemma abs_of_frame w w' :
  tcam_db w' = tcam_db w -> init w' = init w ->
  rm_view (rm w') = rm_view (rm w) -> abs_of w' = abs_of w.
Proof. intros Hdb. apply abs_of_slots. intros d. by apply db_of_frame. Qed.

Lemma abs_of_init hp f : abs_of (tcam_world_init hp f) = abs_init.
Proof.
  apply abs_of_eq; [done|]. intros d.
  replace (db_of (tcam_world_init hp f) d) with NULL by (by destruct d).
  destruct d; cbn; by rewrite rm_null_dead.
Qed.

(** A slot of a well-formed state does not hold a handle that creation
    returns next. *)
Lemma wf_slot_not_fresh w d h :
  tcam_wf w -> rm_view (rm w) !! h = None -> h <> NULL -> db_of w d <> h.
Proof.
  intros Hwf Hf Hn <-. destruct (decide (db_of w d = NULL)); [done|].
  destruct (wf_live w Hwf d) as [db Hdb]; [done|]. congruence.
Qed.

(** The pool of [(d, type)] replaced, in a well-formed state. *)
Lemma abs_of_set_pool w w' d type pl pl' :
  tcam_wf w -> tcam_db w' = tcam_db w -> init w' = init w ->
  tcam_pool w d type = Some pl ->
  rm_view (rm w') = view_set_pool (rm_view (rm w)) (db_of w d) type pl' ->
  abs_of w' = abs_set_pool d type pl' (abs_of w).
Proof.
  intros Hwf Hdb Hi Hpl Hv. apply abs_of_eq.
  { unfold abs_set_pool. rewrite abs_bound_set. cbn. by rewrite Hi. }
  intros d'. unfold abs_set_pool. rewrite abs_db_set, !abs_db_of.
  rewrite (db_of_frame w w') by done. rewrite Hv. unfold view_set_pool.
  apply view_pool_Some in Hpl as (db & Hlive & _).
  destruct (decide (d' = d)) as [->|Hd].
  - by rewrite lookup_alter_eq.
  - rewrite lookup_alter_ne; [done|]. intros Heq. apply Hd.
    apply (wf_distinct w Hwf); [|done]. rewrite <- Heq.
    apply (live_not_null (rm w)). eauto.
Qed.

(** ** Each entry point implements its abstract steps *)

Lemma tf_tcam_bind_refines E tfp parms w :
  tcam_wf w ->
  wpx E (tf_tcam_bind tfp parms)
    (fun rc w' => abs_step (abs_of w) (CallBind tfp parms) rc None (abs_of w')) w.
Proof.
  intros Hwf. destruct tfp as [tfp|], parms as [parms|];
    try (unfold tf_tcam_bind; wp_go; by apply abs_error).
  destruct (decide (init w = 0%N)) as [Hi|Hi].
  2:{ unfold tf_tcam_bind. wp_go. rc_case; [done|]. by apply abs_error. }
  assert (abs_bound (abs_of w) = false) as Hb by (cbn; by rewrite Hi).
  eapply wp_mono; [apply tf_tcam_bind_spec; [apply Hwf|done]|].
  intros rc w' (_ & _ & H). case_decide as Hrc.
  - destruct H as (Hi' & _ & Hrx & Htx & Hne & Hv). subst rc.
    replace (abs_of w') with (abs_bind parms); [by apply abs_bind_ok|].
    symmetry. apply abs_of_eq; [by cbn; rewrite Hi'|].
    intros [|]; cbn; rewrite Hv; [|by rewrite lookup_insert_eq].
    by rewrite lookup_insert_ne, lookup_insert_eq.
  - destruct H as (Hi' & [(_ & Hv & Hs)|(_ & Hf & Hv & Htx)]).
    + rewrite (abs_of_slots w w'); [by apply abs_error|done|congruence|done].
    + replace (abs_of w') with
        (abs_set TF_DIR_RX (Some (bind_db parms TF_DIR_RX)) (abs_of w));
        [by apply abs_bind_half|].
      symmetry. apply abs_of_eq; [by cbn; rewrite Hi', Hi|].
      intros d. rewrite abs_db_set, abs_db_of, Hv.
      destruct d; cbn [decide_rel]; [by rewrite decide_True, lookup_insert_eq|].
      rewrite decide_False by done. rewrite Htx, lookup_insert_ne; [done|].
      apply not_eq_sym, wf_slot_not_fresh; [done..|].
      apply (live_not_null (rm w')). by rewrite Hv, lookup_insert_eq.
Qed.

Lemma tf_tcam_unbind_refines E tfp w :
  tcam_wf w ->
  wpx E (tf_tcam_unbind tfp)
    (fun rc w' => abs_step (abs_of w) (CallUnbind tfp) rc None (abs_of w')) w.
Proof.
  intros Hwf. destruct tfp as [tfp|];
    [|unfold tf_tcam_unbind; wp_go; by apply abs_error].
  destruct (decide (init w = 0%N)) as [Hi|Hi].
  { unfold tf_tcam_unbind. wp_go. rc_case; [|done]. by apply abs_error. }
  pose proof (proj2 (abs_bound_of w) Hi) as Hb.
  eapply wp_mono; [apply tf_tcam_unbind_spec; [apply Hwf|done]|].
  intros rc w' (_ & _ & _ & H). case_decide as Hrc.
  - destruct H as (Hi' & Hn & Hrx & Htx & _). subst rc.
    replace (abs_of w') with abs_init; [by apply abs_unbind_ok|].
    symmetry. apply abs_of_eq; [by cbn; rewrite Hi'|].
    intros d. rewrite Hn, rm_null_dead. by destruct d.
  - destruct H as (Hi' & [(Hv & Hs)|(Hrx & Hv & Hn & Htx)]).
    + rewrite (abs_of_slots w w'); [by apply abs_error|done..].
    + replace (abs_of w') with (abs_set TF_DIR_RX None (abs_of w));
        [by apply abs_unbind_half|].
      symmetry. apply abs_of_eq; [by cbn; rewrite Hi'|].
      intros d. rewrite abs_db_set, abs_db_of.
      destruct d; [by rewrite decide_True, Hn, rm_null_dead by done|].
      rewrite decide_False, Hv, Htx by done.
      destruct (decide (db_of w TF_DIR_RX = db_of w TF_DIR_TX)) as [Heq|Hne];
        [|by rewrite lookup_delete_ne].
      apply (wf_distinct w Hwf) in Heq; [done|].
      by apply (live_not_null (rm w)).
Qed.

(** The three entry points that work on entries: on an error the
    abstract state is as it was. *)
Lemma abs_step_frame w w' c rc p :
  rc <> 0%Z -> tcam_db w' = tcam_db w -> init w' = init w ->
  rm_view (rm w') = rm_view (rm w) ->
  abs_step (abs_of w) c rc p (abs_of w').
Proof. intros Hrc Hdb Hi Hv. rewrite (abs_of_frame w w') by done. by apply abs_error. Qed.

Lemma tf_tcam_alloc_refines E tfp parms w :
  tcam_wf w ->
  wpx E (tf_tcam_alloc tfp parms)
    (fun '(rc, p') w' => abs_step (abs_of w) (CallAlloc tfp parms) rc p' (abs_of w'))
    w.
Proof.
  intros Hwf. unfold tf_tcam_alloc.
  destruct tfp as [tfp|], parms as [p|]; try (wp_go; by apply abs_error).
  wp_go. rc_case; [by apply abs_error|]. wp_slice.
  rc_case; [|apply abs_step_frame; congruence].
  rewrite decide_True in Hq by done. destruct Hq as [-> (q & n0 & Hq & Hn0 & ->)].
  wp_call. rc_case; rm_spec Ealloc.
  - destruct Ealloc as (pl & Hpl & Hlt & Hfree & _ & Hv).
    lazymatch goal with
    | |- abs_step _ _ _ _ (abs_of ?w') =>
        rewrite (abs_of_set_pool w w' _ _ pl _ Hwf eq_refl eq_refl Hpl Hv)
    end.
    rewrite set_alloc_idx_twice.
    apply (abs_alloc_ok _ tfp q p n0 pl); rewrite ?abs_pool_of; try done.
    by apply abs_bound_of.
  - destruct Ealloc as [_ Hv]. by apply abs_step_frame.
Qed.

Lemma tf_tcam_free_refines tfp parms w :
  tcam_wf w ->
  wlp (tf_tcam_free tfp parms)
    (fun rc w' => abs_step (abs_of w) (CallFree tfp parms) rc None (abs_of w')) w.
Proof.
  intros Hwf. unfold tf_tcam_free.
  destruct tfp as [tfp|], parms as [p|]; try (wp_go; by apply abs_error).
  wp_go. rc_case; [by apply abs_error|]. wp_slice.
  rc_case; [|apply abs_step_frame; congruence].
  rewrite decide_True in Hq by done. destruct Hq as [-> (q & n0 & Hq & Hn0 & ->)].
  rc_case; [done|]. wp_call. rm_spec Eisalloc.
  pose proof (proj2 (abs_bound_of w) Hn) as Hb.
  destruct (view_pool _ _ _) as [pl|] eqn:Hpl; destruct Eisalloc as [Hrc ->];
    [subst|]; rc_case; try done; [|by apply abs_error].
  case_decide as Hin; wp_go.
  2:{ apply (abs_free_noop _ tfp q p n0 pl); by rewrite ?abs_pool_of. }
  change (1 =? 0)%Z with false. cbn iota. wp_go. wp_call. rc_case; rm_spec Efree.
  - destruct Efree as (pl' & Hpl' & _ & Hv). simplify_eq. wp_call.
    assert (abs_step (abs_of w) (CallFree (Some tfp) (Some p)) 0 None
              (abs_of (set_fw f (set_rm r w))))
      as Hstep; [|rc_case; exact Hstep].
    rewrite (abs_of_set_pool w (set_fw f (set_rm r w)) _ _ pl _
               Hwf eq_refl eq_refl Hpl Hv).
    apply (abs_free_ok _ tfp q p n0 pl); by rewrite ?abs_pool_of.
  - by apply abs_step_frame.
Qed.

Lemma tf_tcam_set_refines tfp parms w :
  tcam_wf w ->
  wlp (tf_tcam_set tfp parms)
    (fun rc w' => abs_step (abs_of w) (CallSet tfp parms) rc None (abs_of w')) w.
Proof.
  intros Hwf. unfold tf_tcam_set.
  destruct tfp as [tfp|], parms as [p|]; try (wp_go; by apply abs_error).
  wp_go. rc_case; [by apply abs_error|]. wp_slice.
  rc_case; [|apply abs_step_frame; congruence].
  rewrite decide_True in Hq by done. destruct Hq as [-> (q & n0 & Hq & Hn0 & ->)].
  rc_case; [done|]. wp_call. rm_spec Eisalloc.
  pose proof (proj2 (abs_bound_of w) Hn) as Hb.
  destruct (view_pool _ _ _) as [pl|] eqn:Hpl; destruct Eisalloc as [Hrc ->];
    [subst|]; rc_case; try done; [|by apply abs_error].
  assert (abs_step (abs_of w) (CallSet (Some tfp) (Some p)) 0 None (abs_of w))
    as Hstep by (apply (abs_set_ok _ tfp q p n0 pl); by rewrite ?abs_pool_of).
  case_decide as Hin; wp_go; [|done].
  change (1 =? 0)%Z with false. cbn iota. wp_go. wp_call. rc_case; exact Hstep.
Qed.

(** Every call implements an abstract step. *)
Lemma tcam_call_run_refines c w :
  tcam_wf w ->
  wlp (tcam_call_run c)
    (fun '(rc, p) w' => abs_step (abs_of w) c rc p (abs_of w')) w.
Proof.
  intros Hwf. destruct c; cbn [tcam_call_run]; try wp_step.
  - eapply wp_mono; [by apply tf_tcam_bind_refines|done].
  - eapply wp_mono; [by apply tf_tcam_unbind_refines|done].
  - by apply tf_tcam_alloc_refines.
  - eapply wp_mono; [by apply tf_tcam_free_refines|done].
  - wp_go. apply abs_alloc_search.
  - eapply wp_mono; [by apply tf_tcam_set_refines|done].
  - wp_go. apply abs_get.
Qed.

(** ** Runs *)

(** A sequence of calls of the module with the code each returned. *)
Inductive tcam_run : tcam_world -> list (tcam_call * Z) -> tcam_world -> Prop :=
  | tcam_run_nil w : tcam_run w [] w
  | tcam_run_snoc w tr w' c rc w'' :
      tcam_run w tr w' -> tcam_step w' c rc w'' ->
      tcam_run w (tr ++ [(c, rc)]) w''.

(** Along a run the invariant of the handles holds, and the abstract
    machine makes the same calls with the same codes. *)
Lemma tcam_run_abs w0 tr w :
  tcam_wf w0 -> tcam_run w0 tr w ->
  tcam_wf w /\ abs_run (abs_of w0) tr (abs_of w).
Proof.
  intros Hwf0 Hrun. induction Hrun as [|w0 tr w c rc w' _ IH Hstep].
  { split; [done|constructor]. }
  destruct (IH Hwf0) as [Hwf Habs]. destruct Hstep as [c w rc p w' Hrun]. split.
  - by apply (wp_run_inv _ _ _ _ _ _ (tcam_call_run_wf c w Hwf) Hrun).
  - apply (abs_run_snoc _ _ (abs_of w) _ _ p); [done|].
    by apply (wp_run_inv _ _ _ _ _ _ (tcam_call_run_refines c w Hwf) Hrun).
Qed.

(** C5: the code implements the abstract machine, call by call: from a
    state that keeps the invariant of the handles, a call that returns
    code [rc], with [p] written to the parameters, is a step of the
    abstract machine, with the same code and parameters, from the
    abstraction of the state before to the abstraction of the state
    after. *)
Theorem tcam_refines c w rc p w' :
  tcam_wf w -> tcam_call_run c w = Some ((rc, p), w') ->
  abs_step (abs_of w) c rc p (abs_of w').
Proof.
  intros Hwf Hrun.
  by apply (wp_run_inv _ _ _ _ _ _ (tcam_call_run_refines c w Hwf) Hrun).
Qed.

(** C23: every sequence of calls of the entry points from the initial
    state, with the codes they return, is a run of the abstract machine
    from its initial state, which ends in the abstraction of the state
    the module is left in. *)
Theorem tcam_run_refines hp f tr w :
  tcam_run (tcam_world_init hp f) tr w -> abs_run abs_init tr (abs_of w).
Proof.
  intros Hrun. rewrite <- (abs_of_init hp f).
  by apply tcam_run_abs; [apply tcam_wf_init|].
Qed.

(** The contract of the resource manager along the runs of the module:
    in every state the module reaches from the initial one, every
    allocated index of every pool is below the capacity of the pool, and
    the room of the pool and the number of indices in use add up to the
    capacity.  It says nothing of the index arithmetic of [tf_tcam.c]:
    it is an invariant of the abstract machine, carried to the code by
    the refinement. *)
Lemma tcam_pools_in_range hp f tr w d type pl :
  tcam_run (tcam_world_init hp f) tr w ->
  tcam_pool w d type = Some pl ->
  (forall i, i ∈ pool_used pl -> (i < pool_size pl)%N) /\
  (pool_room pl + N.of_nat (size (pool_used pl)) = pool_size pl)%N.
Proof.
  intros Hrun Hpl.
  destruct (tcam_run_abs _ _ _ (tcam_wf_init hp f) Hrun) as [_ Habs].
  rewrite abs_of_init in Habs. apply (abs_run_wf _ _ _ abs_wf_init) in Habs.
  rewrite <- abs_pool_of in Hpl. specialize (Habs d type pl Hpl).
  split; [done|by apply pool_ok_room].
Qed.

(** C35: in every state the module reaches from the initial one, the
    slot of the transmit side refers to a live database exactly when
    [init] is set.  The same does not hold of the receive side, whose
    database outlives a bind that failed and is gone after an unbind that
    failed. *)
Theorem tcam_tx_iff_bound hp f tr w :
  tcam_run (tcam_world_init hp f) tr w ->
  is_Some (rm_view (rm w) !! db_of w TF_DIR_TX) <-> init w <> 0%N.
Proof.
  intros Hrun.
  destruct (tcam_run_abs _ _ _ (tcam_wf_init hp f) Hrun) as [_ Habs].
  rewrite abs_of_init in Habs. apply (abs_run_shape _ _ _ abs_shape_init) in Habs.
  unfold abs_shape in Habs. by rewrite abs_bound_of in Habs.
Qed.
End Refine.

Import RmPool MsgTable Fixtures.

Lemma w_alloc1_step :
  tcam_step w_bound (CallAlloc (Some tf_by_type) (Some (alloc_of TF_DIR_RX 2 16)))
    0 w_alloc1.
Proof.
  apply (tcam_step_call _ _ _ (Some (set_alloc_idx 0 (alloc_of TF_DIR_RX 2 16)))).
  run_eq.
Qed.

(** The run that binds and allocates one entry. *)
Lemma w_alloc1_tcam_run :
  tcam_run w_start
    [(CallBind (Some tf_by_type) (Some cfg4), 0%Z);
     (CallAlloc (Some tf_by_type) (Some (alloc_of TF_DIR_RX 2 16)), 0%Z)]
    w_alloc1.
Proof.
  apply (tcam_run_snoc _ [_] w_bound); [|apply w_alloc1_step].
  apply (tcam_run_snoc _ [] w_start); [constructor|].
  apply (tcam_step_call _ _ _ None). run_eq.
Qed.

Lemma tcam_refines_witness :
  abs_step (abs_of w_bound)
    (CallAlloc (Some tf_by_type) (Some (alloc_of TF_DIR_RX 2 16))) 0
    (Some (set_alloc_idx 0 (alloc_of TF_DIR_RX 2 16))) (abs_of w_alloc1).
Proof.
  apply (tcam_refines _ w_bound); [apply w_bound_wf|run_eq].
Defined.

Lemma tcam_run_refines_witness :
  abs_run abs_init
    [(CallBind (Some tf_by_type) (Some cfg4), 0%Z);
     (CallAlloc (Some tf_by_type) (Some (alloc_of TF_DIR_RX 2 16)), 0%Z)]
    (abs_of w_alloc1).
Proof. exact (tcam_run_refines _ _ _ _ w_alloc1_tcam_run). Defined.

Lemma tcam_pools_in_range_witness :
  (forall i, i ∈ pool_used pool_1of4 -> (i < pool_size pool_1of4)%N) /\
  (pool_room pool_1of4 + N.of_nat (size (pool_used pool_1of4)) =
     pool_size pool_1of4)%N.
Proof.
  exact (tcam_pools_in_range _ _ _ _ TF_DIR_RX 2 pool_1of4 w_alloc1_tcam_run
           w_alloc1_pool).
Defined.

Lemma tcam_tx_iff_bound_witness :
  is_Some (rm_view (rm w_alloc1) !! db_of w_alloc1 TF_DIR_TX) <->
  init w_alloc1 <> 0%N.
Proof. exact (tcam_tx_iff_bound _ _ _ _ w_alloc1_tcam_run). Defined.
