(* ===== verification/TcamRecover.v ===== *)
(** * TcamRecover: the way back to the unbound state

    With a resource manager that destroys a live database when asked to
    ([RmReliable]: the reference implementation in the heaps in which the
    firmware answers), [tf_tcam_unbind] cannot fail half way.  So the
    state with the flag set over a NULL slot ([tcam_stuck]) is never
    reached, and from every state the module reaches one call of
    [tf_tcam_unbind] leaves it unbound, with both slots NULL and both
    databases gone when it was bound.  [TcamLife] has the other half:
    when a destruction does fail, nothing brings the module back. *)

From S2P Require Import Prelude Types Device Rm Msg Tcam TcamRules TcamInv.
From S2P Require Import TcamLife TcamSpec TcamRefine.
From S2P Require RmPool MsgTable Fixtures.

Section Defs.
Context {R : RmOps} {V : RmReliable R} {F : MsgOps}.

(** The states in which [tf_tcam_unbind] is bound to succeed. *)
Definition tcam_sound (w : tcam_world) : Prop :=
  tcam_wf w /\ rm_reliable (rm w) /\ ~ tcam_stuck w.
End Defs.

Section Recover.
Context {R : RmOps} {L : RmLaws R} {V : RmReliable R} {F : MsgOps} {A : TcamAbi}.
Implicit Types (w : tcam_world) (d : tf_dir).

(** ** No entry point leaves the reliable heaps *)

Lemma tcam_bind_dir_reliable E tfp parms d w :
  rm_reliable (rm w) ->
  wpx E (tcam_bind_dir tfp parms d) (fun _ w' => rm_reliable (rm w')) w.
Proof.
  intros Hr. unfold tcam_bind_dir. wp_go. wp_call.
  apply rm_reliable_create_db in Ecreate; [|done]. by rc_case.
Qed.

(** One turn of the loop of [tf_tcam_unbind]: it succeeds on a live
    database. *)
Lemma tcam_unbind_dir_reliable E tfp d w :
  rm_reliable (rm w) ->
  wpx E (tcam_unbind_dir tfp d)
    (fun rc w' =>
       rm_reliable (rm w') /\
       (is_Some (rm_view (rm w) !! db_of w d) -> rc = 0%Z))
    w.
Proof.
  intros Hr. unfold tcam_unbind_dir. wp_go. wp_call.
  pose proof (rm_free_db_live tfp {| fdb_dir := d; fdb_rm_db := db_of w d |}
                _ Hr) as Hlive.
  rewrite Efreedb in Hlive.
  apply rm_reliable_free_db in Efreedb; [|done]. by rc_case.
Qed.

Lemma tf_tcam_bind_reliable E tfp parms w :
  rm_reliable (rm w) ->
  wpx E (tf_tcam_bind tfp parms) (fun _ w' => rm_reliable (rm w')) w.
Proof.
  intros Hr. unfold tf_tcam_bind.
  destruct tfp as [tfp|], parms as [parms|]; try by wp_go.
  wp_go. rc_case; [|done]. eapply wp_mono.
  { apply (wp_for_each_rc_inv _ (fun w' => rm_reliable (rm w'))); [|done].
    intros d w' _. apply tcam_bind_dir_reliable. }
  intros rc w' Hr'. cbn beta. by rc_case.
Qed.

Lemma tf_tcam_unbind_reliable E tfp w :
  rm_reliable (rm w) ->
  wpx E (tf_tcam_unbind tfp) (fun _ w' => rm_reliable (rm w')) w.
Proof.
  intros Hr. unfold tf_tcam_unbind. destruct tfp as [tfp|]; [|by wp_go].
  wp_go. rc_case; [done|]. eapply wp_mono.
  { apply (wp_for_each_rc_inv _ (fun w' => rm_reliable (rm w'))); [|done].
    intros d w' _ Hr'. eapply wp_mono; [by apply tcam_unbind_dir_reliable|].
    by intros ? ? [? _]. }
  intros rc w' Hr'. cbn beta. by rc_case.
Qed.

Lemma tf_tcam_alloc_reliable tfp parms w :
  rm_reliable (rm w) ->
  wlp (tf_tcam_alloc tfp parms) (fun _ w' => rm_reliable (rm w')) w.
Proof.
  intros Hr. unfold tf_tcam_alloc.
  destruct tfp as [tfp|], parms as [p|]; try by wp_go.
  wp_go. rc_case; [done|]. wp_slice. rewrite <- Hrm in Hr.
  rc_case; [|done]. wp_call.
  apply rm_reliable_allocate in Ealloc; [|done]. by rc_case.
Qed.

Lemma tf_tcam_free_reliable tfp parms w :
  rm_reliable (rm w) ->
  wlp (tf_tcam_free tfp parms) (fun _ w' => rm_reliable (rm w')) w.
Proof.
  intros Hr. unfold tf_tcam_free.
  destruct tfp as [tfp|], parms as [p|]; try by wp_go.
  wp_go. rc_case; [done|]. wp_slice. rewrite <- Hrm in Hr.
  rc_case; [|done]. rc_case; [done|].
  wp_call. rc_case; [|done]. rc_case; [done|].
  wp_call. apply rm_reliable_free in Efree; [|done].
  rc_case; [|done]. wp_call. by rc_case.
Qed.

Lemma tf_tcam_set_reliable tfp parms w :
  rm_reliable (rm w) ->
  wlp (tf_tcam_set tfp parms) (fun _ w' => rm_reliable (rm w')) w.
Proof.
  intros Hr.
  eapply wp_mono; [by apply (tf_tcam_set_frame True tfp parms w)|].
  intros rc w' [_ Hrm]. by rewrite Hrm.
Qed.

Lemma tcam_call_run_reliable c w :
  rm_reliable (rm w) ->
  wlp (tcam_call_run c) (fun _ w' => rm_reliable (rm w')) w.
Proof.
  intros Hr. destruct c; cbn [tcam_call_run]; try wp_step.
  - eapply wp_mono; [by apply tf_tcam_bind_reliable|done].
  - eapply wp_mono; [by apply tf_tcam_unbind_reliable|done].
  - eapply wp_mono; [by apply tf_tcam_alloc_reliable|]. by intros [? ?] ?.
  - eapply wp_mono; [by apply tf_tcam_free_reliable|done].
  - by wp_go.
  - eapply wp_mono; [by apply tf_tcam_set_reliable|done].
  - by wp_go.
Qed.

(** ** Unbind succeeds *)

(** In a bound module with two live databases, [tf_tcam_unbind] returns
    0. *)
Lemma tf_tcam_unbind_succeeds tfp w :
  tcam_wf w -> rm_reliable (rm w) -> (forall d, db_of w d <> NULL) ->
  wp (tf_tcam_unbind (Some tfp)) (fun rc _ => init w <> 0%N -> rc = 0%Z) w.
Proof.
  intros Hwf Hr Hnn. pose proof (wf_slots _ Hwf) as Hl.
  unfold tf_tcam_unbind, tf_dirs. wp_go. rc_case; [done|].
  eapply wp_mono;
    [apply wp_conj; [by apply tcam_unbind_dir_spec|by apply tcam_unbind_dir_reliable]|].
  intros rc1 w1 [(_ & _ & _ & Hl1 & Hd1 & H1) [Hr1 Hrc1]]. cbn beta.
  rewrite Hrc1 in * by (by apply Hwf). wp_go.
  rewrite decide_True in H1 by done. destruct H1 as (_ & _ & Hv1).
  eapply wp_mono; [by apply tcam_unbind_dir_reliable|].
  intros rc2 w2 [_ Hrc2]. cbn beta. rewrite Hrc2; [by wp_go|].
  rewrite Hv1, (Hd1 TF_DIR_TX) by done. rewrite lookup_delete_ne.
  - by apply Hwf.
  - intros Heq. by apply (wf_distinct _ Hwf) in Heq.
Qed.

(** ** No call leads to the stuck state *)

Lemma tf_tcam_bind_unstuck tfp parms w :
  tcam_wf w -> ~ tcam_stuck w ->
  wlp (tf_tcam_bind tfp parms) (fun _ w' => ~ tcam_stuck w') w.
Proof.
  intros Hwf Hs. destruct (decide (init w = 0%N)) as [Hi|Hi].
  - destruct tfp as [tfp|], parms as [parms|];
      try by (unfold tf_tcam_bind; wp_go).
    eapply wp_mono; [apply tf_tcam_bind_spec; [apply Hwf|done]|].
    intros rc w' (_ & _ & H) [Hi' [d Hd]]. case_decide.
    + destruct H as (_ & _ & _ & _ & Hne & Hv).
      assert (is_Some (rm_view (rm w') !! db_of w' d)) as Hlive%live_not_null;
        [|done].
      rewrite Hv. destruct d.
      * rewrite lookup_insert_ne, lookup_insert_eq by done. by eexists.
      * rewrite lookup_insert_eq. by eexists.
    + by destruct H as [? _].
  - unfold tf_tcam_bind. destruct tfp as [tfp|], parms as [parms|]; try by wp_go.
    wp_go. rc_case; [done|]. intros Hs'. apply Hs.
    by apply (tcam_stuck_frame (add_log LogAlreadyInitialized w)).
Qed.

Lemma tf_tcam_unbind_unstuck tfp w :
  tcam_wf w -> rm_reliable (rm w) -> ~ tcam_stuck w ->
  wlp (tf_tcam_unbind tfp) (fun _ w' => ~ tcam_stuck w') w.
Proof.
  intros Hwf Hr Hs. destruct tfp as [tfp|]; [|by unfold tf_tcam_unbind; wp_go].
  destruct (decide (init w = 0%N)) as [Hi|Hi].
  { unfold tf_tcam_unbind. wp_go. by rewrite Hi. }
  assert (forall d, db_of w d <> NULL) as Hnn.
  { intros d Hd. apply Hs. split; [done|]. by exists d. }
  eapply wp_mono.
  { apply wp_conj;
      [apply (tf_tcam_unbind_spec True); [apply Hwf|done]
      |apply wp_wlp, tf_tcam_unbind_succeeds; done]. }
  intros rc w' [(_ & _ & _ & H) Hrc] [Hi' _].
  rewrite Hrc, decide_True in H by done. by destruct H.
Qed.

Lemma tcam_call_run_unstuck c w :
  tcam_sound w -> wlp (tcam_call_run c) (fun _ w' => ~ tcam_stuck w') w.
Proof.
  intros (Hwf & Hr & Hs).
  assert (forall w', tcam_frame w w' -> ~ tcam_stuck w') as Hframe.
  { intros w' (Hdb & Hi & _) Hs'. apply Hs. by apply (tcam_stuck_frame w'). }
  destruct c; cbn [tcam_call_run]; try wp_step.
  - eapply wp_mono; [by apply tf_tcam_bind_unstuck|done].
  - eapply wp_mono; [by apply tf_tcam_unbind_unstuck|done].
  - eapply wp_mono; [apply tf_tcam_alloc_frame|]. intros [? ?] w'. apply Hframe.
  - eapply wp_mono; [by apply (tf_tcam_free_frame True)|]. intros ? w'. apply Hframe.
  - by wp_go.
  - eapply wp_mono; [by apply (tf_tcam_set_frame True)|].
    intros ? w' [? _]. by apply Hframe.
  - by wp_go.
Qed.

Lemma tcam_call_run_sound c w :
  tcam_sound w -> wlp (tcam_call_run c) (fun _ => tcam_sound) w.
Proof.
  intros Hs. pose proof Hs as (Hwf & Hr & _).
  eapply wp_mono.
  { apply wp_conj; [by apply tcam_call_run_wf|].
    apply wp_conj; [by apply tcam_call_run_reliable|by apply tcam_call_run_unstuck]. }
  by intros ? w' (? & ? & ?).
Qed.

Lemma tcam_sound_init hp f :
  rm_reliable hp -> tcam_sound (tcam_world_init hp f).
Proof.
  intros Hr. split_and!; [apply tcam_wf_init|done|]. by intros [? _].
Qed.

(** Every state of a run from a sound state is sound. *)
Lemma tcam_run_sound w0 tr w : tcam_sound w0 -> tcam_run w0 tr w -> tcam_sound w.
Proof.
  intros Hs0 Hrun. induction Hrun as [|w0 tr w c rc w' _ IH Hstep]; [done|].
  destruct Hstep as [c w rc p w' Hrun].
  by apply (wp_run_inv _ _ _ _ _ _ (tcam_call_run_sound c w (IH Hs0)) Hrun).
Qed.

(** ** The way back *)

(** The state a [tf_tcam_bind] starts from: the flag clear and both
    slots NULL. *)
Definition tcam_unbound (w : tcam_world) : Prop :=
  init w = 0%N /\ forall d, db_of w d = NULL.

(** C12: with a resource manager that destroys a live database when asked
    to, from every state that a sequence of calls reaches from the initial
    one, a call of [tf_tcam_unbind] returns and leaves the module unbound;
    when the module was bound it returns 0, both slots are NULL and the
    two databases are gone.  So whatever calls were made and whatever
    they returned, one more call brings the module back to the state a
    [tf_tcam_bind] starts from. *)
Theorem tcam_recoverable hp f tr w tfp :
  rm_reliable hp -> tcam_run (tcam_world_init hp f) tr w ->
  exists rc w',
    tcam_step w (CallUnbind (Some tfp)) rc w' /\ init w' = 0%N /\
    (init w <> 0%N ->
     rc = 0%Z /\ tcam_unbound w' /\
     rm_view (rm w') =
       delete (db_of w TF_DIR_TX) (delete (db_of w TF_DIR_RX) (rm_view (rm w)))).
Proof.
  intros Hr Hrun.
  destruct (tcam_run_sound _ _ _ (tcam_sound_init hp f Hr) Hrun) as (Hwf & Hr' & Hs).
  destruct (decide (init w = 0%N)) as [Hi|Hi].
  { exists (- EINVAL)%Z, w. split_and!; [|done..].
    apply (tcam_step_call _ _ _ None). unfold tcam_call_run, tf_tcam_unbind.
    m_simpl. by rewrite Hi. }
  assert (forall d, db_of w d <> NULL) as Hnn.
  { intros d Hd. apply Hs. split; [done|]. by exists d. }
  pose proof (wp_conj _ _ _ _ _
                (tf_tcam_unbind_spec False tfp w (wf_slots _ Hwf) Hi)
                (tf_tcam_unbind_succeeds tfp w Hwf Hr' Hnn)) as Hwp.
  apply wp_run in Hwp as (rc & w' & Hu & (_ & _ & _ & H) & Hrc).
  rewrite Hrc, decide_True in H by done. destruct H as (Hi' & Hn & _ & _ & Hv).
  exists 0%Z, w'. rewrite Hrc in Hu by done. unfold tcam_unbound.
  split_and!; [|done..].
  apply (tcam_step_call _ _ _ None). unfold tcam_call_run. m_simpl. by rewrite Hu.
Qed.
End Recover.

Import RmPool MsgTable Fixtures.

Lemma tcam_recoverable_witness :
  exists rc w',
    tcam_step w_alloc1 (CallUnbind (Some tf_by_type)) rc w' /\ init w' = 0%N /\
    (init w_alloc1 <> 0%N ->
     rc = 0%Z /\ tcam_unbound w' /\
     rm_view (rm w') =
       delete (db_of w_alloc1 TF_DIR_TX)
         (delete (db_of w_alloc1 TF_DIR_RX) (rm_view (rm w_alloc1)))).
Proof.
  exact (tcam_recoverable (pool_heap_empty 100) ∅ _ w_alloc1 tf_by_type eq_refl
           w_alloc1_tcam_run).
Defined.
