(* ===== verification/TcamProg.v ===== *)
(** * TcamProg: the entry points as sequences of steps

    [Tcam] gives each function of [tf_tcam.c] as one state transformer.
    Here each is a program: a tree of the steps at which the function
    reads or writes what it shares with the rest of the driver (the
    statics [init] and [tcam_db], the resource manager, the firmware, the
    log), with the code between two steps as the function from the result
    of one to the program that follows.  [run] executes a program step
    after step with nothing in between; run that way the programs are the
    state transformers of [Tcam].  The steps are what [TcamConc]
    interleaves. *)

From S2P Require Import Prelude Types Device Rm Msg Tcam TcamRules.

Declare Scope prog_scope.
Delimit Scope prog_scope with P.

(** ** Steps *)

(** The steps, indexed by the type of what they yield: the reads and
    writes of the two statics, a log line, and the calls of the resource
    manager and of the firmware messages, each with its arguments. *)
Inductive act : Type -> Type :=
  | ReadInit : act N
  | WriteInit (v : N) : act unit
  | ReadDb (d : tf_dir) : act N
  | WriteDb (d : tf_dir) (h : N) : act unit
  | Log (e : tcam_log) : act unit
  | RmCreateDb (tfp : tf) (p : tf_rm_create_db_parms) : act (Z * N)
  | RmFreeDb (tfp : tf) (p : tf_rm_free_db_parms) : act Z
  | RmAllocate (p : tf_rm_allocate_parms) : act (Z * N)
  | RmIsAllocated (p : tf_rm_is_allocated_parms) : act (Z * Z)
  | RmFree (p : tf_rm_free_parms) : act Z
  | MsgSet (tfp : tf) (p : tf_tcam_set_parms) : act Z
  | MsgFree (tfp : tf) (p : tf_tcam_free_parms) : act Z.

(** A program: it has returned, it has divided by zero, or it is at a
    step, with what it does with the result. *)
Inductive prog (X : Type) : Type :=
  | Ret (x : X)
  | Fault
  | Act {T : Type} (a : act T) (k : T -> prog X).

Arguments Ret {X} x.
Arguments Fault {X}.
Arguments Act {X T} a k.

Fixpoint pbind {X Y} (m : prog X) (f : X -> prog Y) : prog Y :=
  match m with
  | Ret x => f x
  | Fault => Fault
  | Act a k => Act a (fun r => pbind (k r) f)
  end.

(** The program of one step. *)
Definition step {T} (a : act T) : prog T := Act a Ret.

(** The loop [for (x in l) { rc = body(x); if (rc) return rc; }]. *)
Fixpoint pfor_each_rc {X} (body : X -> prog Z) (l : list X) : prog Z :=
  match l with
  | [] => Ret 0%Z
  | x :: l' =>
      pbind (body x) (fun rc => if (rc =? 0)%Z then pfor_each_rc body l' else Ret rc)
  end.

Section Prog.
Context {R : RmOps} {F : MsgOps}.

(** What a step does to the state, and what it yields.  No step faults:
    the only fault of the file is a division, which is no step. *)
Definition act_run {T} (a : act T) (w : tcam_world) : T * tcam_world :=
  match a with
  | ReadInit => (init w, w)
  | WriteInit v => (tt, set_init v w)
  | ReadDb d => (db_of w d, w)
  | WriteDb d h => (tt, set_tcam_db (dir_index d) h w)
  | Log e => (tt, add_log e w)
  | RmCreateDb tfp p =>
      let '(r, hp) := tf_rm_create_db tfp p (rm w) in (r, set_rm hp w)
  | RmFreeDb tfp p =>
      let '(r, hp) := tf_rm_free_db tfp p (rm w) in (r, set_rm hp w)
  | RmAllocate p =>
      let '(r, hp) := tf_rm_allocate p (rm w) in (r, set_rm hp w)
  | RmIsAllocated p => (tf_rm_is_allocated p (rm w), w)
  | RmFree p => let '(r, hp) := tf_rm_free p (rm w) in (r, set_rm hp w)
  | MsgSet tfp p =>
      let '(r, s) := tf_msg_tcam_entry_set tfp p (fw w) in (r, set_fw s w)
  | MsgFree tfp p =>
      let '(r, s) := tf_msg_tcam_entry_free tfp p (fw w) in (r, set_fw s w)
  end.

(** The program run to its end, step after step. *)
Fixpoint run {X} (p : prog X) : M tcam_world X :=
  match p with
  | Ret x => ret x
  | Fault => fault
  | Act a k => fun w => let '(r, w') := act_run a w in run (k r) w'
  end.
End Prog.

Bind Scope prog_scope with prog.

Notation "'let*' x ':=' m 'in' k" := (pbind m (fun x => k))
  (at level 10, x pattern, m at level 100, k at level 200) : prog_scope.

Notation "'do*' m 'in' k" := (pbind m (fun _ => k))
  (at level 10, m at level 100, k at level 200) : prog_scope.

Section Entry.
Context {R : RmOps} {F : MsgOps} {A : TcamAbi}.
Local Open Scope prog_scope.

(** ** The functions of [tf_tcam.c] *)

(** The body of the loop of [tf_tcam_bind] for direction [d]: the
    resource manager is given the address of the slot, reads what the
    slot holds and writes the new handle to it. *)
Definition tcam_bind_dir_prog (tfp : tf) (parms : tf_tcam_cfg_parms) (d : tf_dir)
  : prog Z :=
  let* h := step (ReadDb d) in
  let db_cfg :=
    {| cdb_dir := d;
       cdb_num_elements := cfg_num_elements parms;
       cdb_cfg := cfg_cfg parms;
       cdb_alloc_cnt := cfg_tcam_cnt parms d;
       cdb_rm_db := h |} in
  let* (rc, h') := step (RmCreateDb tfp db_cfg) in
  do* step (WriteDb d h') in
  if (rc =? 0)%Z then Ret rc
  else do* step (Log (LogDbCreationFailed d)) in Ret rc.

Definition tf_tcam_bind_prog (tfp : option tf) (parms : option tf_tcam_cfg_parms)
  : prog Z :=
  match tfp, parms with
  | Some tfp, Some parms =>
      let* i := step ReadInit in
      if negb (i =? 0)%N then
        do* step (Log LogAlreadyInitialized) in Ret (- EINVAL)%Z
      else
        let* rc := pfor_each_rc (tcam_bind_dir_prog tfp parms) tf_dirs in
        if negb (rc =? 0)%Z then Ret rc
        else
          do* step (WriteInit 1) in
          do* step (Log LogInitialized) in
          Ret 0%Z
  | _, _ => Ret (- EINVAL)%Z
  end.

(** The body of the loop of [tf_tcam_unbind] for direction [d]. *)
Definition tcam_unbind_dir_prog (tfp : tf) (d : tf_dir) : prog Z :=
  let* h := step (ReadDb d) in
  let fparms := {| fdb_dir := d; fdb_rm_db := h |} in
  let* rc := step (RmFreeDb tfp fparms) in
  if negb (rc =? 0)%Z then Ret rc
  else do* step (WriteDb d NULL) in Ret rc.

Definition tf_tcam_unbind_prog (tfp : option tf) : prog Z :=
  match tfp with
  | Some tfp =>
      let* i := step ReadInit in
      if (i =? 0)%N then Ret (- EINVAL)%Z
      else
        let* rc := pfor_each_rc (tcam_unbind_dir_prog tfp) tf_dirs in
        if negb (rc =? 0)%Z then Ret rc
        else do* step (WriteInit 0) in Ret 0%Z
  | None => Ret (- EINVAL)%Z
  end.

(** Session, device, operation table, query: the one step is the log
    line of a device with no slice query. *)
Definition tcam_slice_info_prog (tfp : tf) (d : tf_dir) (type key_size : N)
  : prog (Z * N) :=
  match tf_session_get_session tfp with
  | inl rc => Ret (rc, 1%N)
  | inr tfs =>
      match tf_session_get_device tfs with
      | inl rc => Ret (rc, 1%N)
      | inr dev =>
          match tf_dev_get_tcam_slice_info (dev_ops dev) with
          | None =>
              let rc := (- EOPNOTSUPP)%Z in
              do* step (Log (LogNotSupported d rc)) in Ret (rc, 1%N)
          | Some query =>
              let '(rc, n) := query type key_size in
              Ret (rc, wrap SLICE_BITS n)
          end
      end
  end.

Definition tf_tcam_alloc_prog (tfp : option tf) (parms : option tf_tcam_alloc_parms)
  : prog (Z * option tf_tcam_alloc_parms) :=
  match tfp, parms with
  | Some tfp, Some p =>
      let* i := step ReadInit in
      if (i =? 0)%N then
        do* step (Log (LogNoDbs (alloc_dir p))) in Ret ((- EINVAL)%Z, Some p)
      else
        let* (rc, num_slice_per_row) :=
          tcam_slice_info_prog tfp (alloc_dir p) (alloc_type p) (alloc_key_size p) in
        if negb (rc =? 0)%Z then Ret (rc, Some p)
        else
          let* h := step (ReadDb (alloc_dir p)) in
          let aparms :=
            {| al_rm_db := h; al_db_index := alloc_type p;
               al_index := alloc_idx p |} in
          let* (rc, index) := step (RmAllocate aparms) in
          let p := set_alloc_idx (wrap idx_bits index) p in
          if negb (rc =? 0)%Z then
            do* step (Log (LogAllocFailed (alloc_dir p) (alloc_type p))) in
            Ret (rc, Some p)
          else
            Ret (0%Z,
                 Some (set_alloc_idx
                         (wrap idx_bits (alloc_idx p * num_slice_per_row)) p))
  | _, _ => Ret ((- EINVAL)%Z, parms)
  end.

Definition tf_tcam_free_prog (tfp : option tf) (parms : option tf_tcam_free_parms)
  : prog Z :=
  match tfp, parms with
  | Some tfp, Some p =>
      let* i := step ReadInit in
      if (i =? 0)%N then
        do* step (Log (LogNoDbs (free_dir p))) in Ret (- EINVAL)%Z
      else
        let* (rc, num_slice_per_row) :=
          tcam_slice_info_prog tfp (free_dir p) (free_type p) 0 in
        if negb (rc =? 0)%Z then Ret rc
        else if (num_slice_per_row =? 0)%N then Fault
        else
          let* h := step (ReadDb (free_dir p)) in
          let aparms :=
            {| ia_rm_db := h; ia_db_index := free_type p;
               ia_index := (free_idx p / num_slice_per_row)%N;
               ia_allocated := 0 |} in
          let* (rc, allocated) := step (RmIsAllocated aparms) in
          if negb (rc =? 0)%Z then Ret rc
          else if (allocated =? 0)%Z then
            do* step (Log (LogAlreadyFree (free_dir p) (free_type p) (free_idx p))) in
            Ret rc
          else
            let* h := step (ReadDb (free_dir p)) in
            let fparms :=
              {| fr_rm_db := h; fr_db_index := free_type p;
                 fr_index := (free_idx p / num_slice_per_row)%N |} in
            let* rc := step (RmFree fparms) in
            if negb (rc =? 0)%Z then
              do* step (Log (LogFreeFailed (free_dir p) (free_type p) (free_idx p))) in
              Ret rc
            else
              let* rc := step (MsgFree tfp p) in
              do* (if negb (rc =? 0)%Z
                   then step (Log (LogMsgFreeFailed (free_dir p) (free_type p)
                                                    (free_idx p) rc))
                   else Ret tt) in
              Ret 0%Z
  | _, _ => Ret (- EINVAL)%Z
  end.

Definition tf_tcam_set_prog (tfp : option tf) (parms : option tf_tcam_set_parms)
  : prog Z :=
  match tfp, parms with
  | Some tfp, Some p =>
      let* i := step ReadInit in
      if (i =? 0)%N then
        do* step (Log (LogNoDbs (set_dir p))) in Ret (- EINVAL)%Z
      else
        let* (rc, num_slice_per_row) :=
          tcam_slice_info_prog tfp (set_dir p) (set_type p) (set_key_size p) in
        if negb (rc =? 0)%Z then Ret rc
        else if (num_slice_per_row =? 0)%N then Fault
        else
          let* h := step (ReadDb (set_dir p)) in
          let aparms :=
            {| ia_rm_db := h; ia_db_index := set_type p;
               ia_index := (set_idx p / num_slice_per_row)%N;
               ia_allocated := 0 |} in
          let* (rc, allocated) := step (RmIsAllocated aparms) in
          if negb (rc =? 0)%Z then Ret rc
          else if (allocated =? 0)%Z then
            do* step (Log (LogNotAllocated (set_dir p) (set_type p) (set_idx p))) in
            Ret rc
          else
            let* rc := step (MsgSet tfp p) in
            do* (if negb (rc =? 0)%Z
                 then step (Log (LogMsgSetFailed (set_dir p) (set_type p)
                                                 (set_idx p) rc))
                 else Ret tt) in
            Ret 0%Z
  | _, _ => Ret (- EINVAL)%Z
  end.

(** The program of a call, with what it returns. *)
Definition call_prog (c : tcam_call) : prog (Z * option tf_tcam_alloc_parms) :=
  match c with
  | CallBind tfp parms => let* rc := tf_tcam_bind_prog tfp parms in Ret (rc, None)
  | CallUnbind tfp => let* rc := tf_tcam_unbind_prog tfp in Ret (rc, None)
  | CallAlloc tfp parms => tf_tcam_alloc_prog tfp parms
  | CallFree tfp parms => let* rc := tf_tcam_free_prog tfp parms in Ret (rc, None)
  | CallAllocSearch _ => Ret (0%Z, None)
  | CallSet tfp parms => let* rc := tf_tcam_set_prog tfp parms in Ret (rc, None)
  | CallGet _ => Ret (0%Z, None)
  end.

(** ** Programs and state transformers *)

Lemma run_step {T} (a : act T) w : run (step a) w = Some (act_run a w).
Proof. unfold step; cbn. by destruct (act_run a w). Qed.

Lemma run_pbind {X Y} (m : prog X) (f : X -> prog Y) w :
  run (pbind m f) w = bind (run m) (fun x => run (f x)) w.
Proof.
  revert w. induction m as [x| |T a k IH]; intros w; cbn; [done..|].
  unfold bind. destruct (act_run a w) as [r w']. apply IH.
Qed.

Lemma bind_ext {S X Y} (m : M S X) (k1 k2 : X -> M S Y) s :
  (forall x s', k1 x s' = k2 x s') -> bind m k1 s = bind m k2 s.
Proof. intros Hk. unfold bind. by destruct (m s) as [[x s']|]. Qed.

Lemma bind_ext_l {S X Y} (m1 m2 : M S X) (k : X -> M S Y) s :
  m1 s = m2 s -> bind m1 k s = bind m2 k s.
Proof. unfold bind. by intros ->. Qed.

Lemma run_pfor_each_rc {X} (body : X -> prog Z) (body' : X -> M tcam_world Z) l w :
  (forall x w', run (body x) w' = body' x w') ->
  run (pfor_each_rc body l) w = for_each_rc body' l w.
Proof.
  intros Hb. revert w. induction l as [|x l IH]; intros w; [done|].
  cbn [pfor_each_rc for_each_rc]. rewrite run_pbind. unfold bind.
  rewrite Hb. destruct (body' x w) as [[rc w']|]; [|done].
  by destruct (rc =? 0)%Z.
Qed.

(** The lookup of the slice count through a handle whose session,
    device and query resolve is a program of no step. *)
Lemma tcam_slice_info_prog_query tfp q d type key_size :
  tf_slice_query tfp = Some q ->
  tcam_slice_info_prog tfp d type key_size =
    Ret ((q type key_size).1, wrap SLICE_BITS (q type key_size).2).
Proof.
  unfold tf_slice_query, tcam_slice_info_prog.
  destruct (tf_session_get_session tfp) as [|tfs]; [done|].
  destruct (tf_session_get_device tfs) as [|dev]; [done|].
  intros ->. by destruct (q type key_size).
Qed.

(** Both sides of an equation between a program run and a state
    transformer, unfolded to the calls of the collaborators and split on
    their results. *)
Ltac run_cases :=
  cbn [run pbind step act_run]; unfold get_db, log, rm_call, fw_call; m_simpl;
  try done;
  repeat (case_match; simplify_eq; m_simpl;
          cbn [run pbind step act_run negb] in *; try done).

Lemma run_tcam_bind_dir tfp parms d w :
  run (tcam_bind_dir_prog tfp parms d) w = tcam_bind_dir tfp parms d w.
Proof. unfold tcam_bind_dir_prog, tcam_bind_dir. run_cases. Qed.

Lemma run_tcam_unbind_dir tfp d w :
  run (tcam_unbind_dir_prog tfp d) w = tcam_unbind_dir tfp d w.
Proof. unfold tcam_unbind_dir_prog, tcam_unbind_dir. run_cases. Qed.

Lemma run_tcam_slice_info tfp d type key_size w :
  run (tcam_slice_info_prog tfp d type key_size) w =
  tcam_slice_info tfp d type key_size w.
Proof. unfold tcam_slice_info_prog, tcam_slice_info. run_cases. Qed.

Lemma run_tf_tcam_bind tfp parms w :
  run (tf_tcam_bind_prog tfp parms) w = tf_tcam_bind tfp parms w.
Proof.
  unfold tf_tcam_bind_prog, tf_tcam_bind.
  destruct tfp as [tfp|], parms as [parms|]; try done.
  rewrite run_pbind. apply bind_ext. intros i w1.
  destruct (negb (i =? 0)%N); [done|]. rewrite run_pbind. unfold bind.
  rewrite (run_pfor_each_rc _ (tcam_bind_dir tfp parms))
    by apply run_tcam_bind_dir.
  destruct (for_each_rc _ _ _) as [[rc w2]|]; [|done]. by destruct (negb _).
Qed.

Lemma run_tf_tcam_unbind tfp w :
  run (tf_tcam_unbind_prog tfp) w = tf_tcam_unbind tfp w.
Proof.
  unfold tf_tcam_unbind_prog, tf_tcam_unbind. destruct tfp as [tfp|]; [|done].
  rewrite run_pbind. apply bind_ext. intros i w1.
  destruct (i =? 0)%N; [done|]. rewrite run_pbind. unfold bind.
  rewrite (run_pfor_each_rc _ (tcam_unbind_dir tfp))
    by apply run_tcam_unbind_dir.
  destruct (for_each_rc _ _ _) as [[rc w2]|]; [|done]. by destruct (negb _).
Qed.

(** The head of an entry operation: the test of [init], then the lookup
    of the slice count. *)
Ltac run_entry :=
  rewrite run_pbind; apply bind_ext; intros ? ?;
  case_match; [done|];
  rewrite run_pbind; unfold bind at 1 2; rewrite run_tcam_slice_info;
  case_match; [|done]; repeat case_match; simplify_eq.

Lemma run_tf_tcam_alloc tfp parms w :
  run (tf_tcam_alloc_prog tfp parms) w = tf_tcam_alloc tfp parms w.
Proof.
  unfold tf_tcam_alloc_prog, tf_tcam_alloc.
  destruct tfp as [tfp|], parms as [p|]; try done. run_entry; run_cases.
Qed.

Lemma run_tf_tcam_free tfp parms w :
  run (tf_tcam_free_prog tfp parms) w = tf_tcam_free tfp parms w.
Proof.
  unfold tf_tcam_free_prog, tf_tcam_free.
  destruct tfp as [tfp|], parms as [p|]; try done. run_entry; run_cases.
Qed.

Lemma run_tf_tcam_set tfp parms w :
  run (tf_tcam_set_prog tfp parms) w = tf_tcam_set tfp parms w.
Proof.
  unfold tf_tcam_set_prog, tf_tcam_set.
  destruct tfp as [tfp|], parms as [p|]; try done. run_entry; run_cases.
Qed.

(** Run step after step with nothing in between, the program of a call
    is the call: from every state the program of each entry point faults
    exactly when the entry point does, and otherwise returns the same
    code and the same parameters in the same state.  It is what lets the
    theorems on the entry points speak of a program that runs alone. *)
Lemma call_prog_run c w : run (call_prog c) w = tcam_call_run c w.
Proof.
  destruct c; cbn [call_prog tcam_call_run]; rewrite ?run_pbind;
    first [ apply run_tf_tcam_alloc | done | apply bind_ext_l ].
  - apply run_tf_tcam_bind.
  - apply run_tf_tcam_unbind.
  - apply run_tf_tcam_free.
  - apply run_tf_tcam_set.
Qed.
End Entry.
