(* ===== verification/TcamConc.v ===== *)
(** * TcamConc: calls in progress at the same time

    [tf_tcam.c] has no lock; it leaves to its callers that no two calls
    run at once.  This file says what that rule protects.  A
    configuration is a pool of calls in progress over one state, and a
    step of the pool is a step of one of its programs ([TcamProg]), so
    that the steps of different calls come in any order.  A step that
    works on a database is safe when the handle it passes to the resource
    manager is NULL, which the resource manager refuses, or the handle of
    a live database.  Calls of [tf_tcam_alloc], [tf_tcam_free] and
    [tf_tcam_set], in any number and any order of their steps, leave the
    slots, the flag and the set of live databases alone and take only
    safe steps.  With a [tf_tcam_unbind] among them this fails, in every
    state: whenever the unbind succeeds, some order of the steps leaves a
    [tf_tcam_alloc] about to allocate from a database that is gone
    ([conc_unbind_dangling]).  And what the entry operations keep among
    themselves is the handles, not the order of their effects on the
    firmware: a [tf_tcam_set] that has found its entry allocated writes
    it to the firmware after a [tf_tcam_free] has released it in between,
    which no order of the two calls one after the other does
    ([conc_set_free_stale]).  The examples at the end run these on the
    reference resource manager and firmware; in the last one two calls of
    [tf_tcam_bind] both pass the test of [init] and both succeed, and the
    databases of the first are lost. *)

From stdpp Require Import relations.
From S2P Require Import Prelude Types Device Rm Msg Tcam TcamRules TcamInv TcamLife.
From S2P Require Import TcamEntry TcamProg.
From S2P Require RmPool MsgTable Fixtures.

Section Defs.
Context {R : RmOps} {F : MsgOps}.

(** A call in progress, and a pool of them over the state they share. *)
Definition thread : Type := prog (Z * option tf_tcam_alloc_parms).
Definition conf : Type := list thread * tcam_world.

(** One step of the pool: a program that is at a step takes it. *)
Inductive conc_step : conf -> conf -> Prop :=
  | conc_step_act ts w i T (a : act T) k :
      ts !! i = Some (Act a k) ->
      conc_step (ts, w) (<[i := k (act_run a w).1]> ts, (act_run a w).2).

(** The step of program [i], when it is at one. *)
Definition sched_step (i : nat) (cf : conf) : option conf :=
  match cf.1 !! i with
  | Some (Act a k) =>
      Some (<[i := k (act_run a cf.2).1]> cf.1, (act_run a cf.2).2)
  | _ => None
  end.

(** The steps of a schedule, the list of the programs that step, in
    order. *)
Fixpoint sched_run (sched : list nat) (cf : conf) : option conf :=
  match sched with
  | [] => Some cf
  | i :: sched' =>
      match sched_step i cf with
      | Some cf' => sched_run sched' cf'
      | None => None
      end
  end.

(** The handle a step passes to the resource manager to work on a
    database.  [tf_rm_create_db] is passed the address of a slot and does
    not look at the database the slot refers to. *)
Definition act_handle {T} (a : act T) : option N :=
  match a with
  | RmFreeDb _ p => Some (fdb_rm_db p)
  | RmAllocate p => Some (al_rm_db p)
  | RmIsAllocated p => Some (ia_rm_db p)
  | RmFree p => Some (fr_rm_db p)
  | _ => None
  end.

(** The handle a step reads from a slot. *)
Definition act_reads {T} (a : act T) : T -> option N :=
  match a in act T return T -> option N with
  | ReadDb _ => Some
  | _ => fun _ => None
  end.

(** A step that writes a slot or the flag, or creates or destroys a
    database. *)
Definition act_lifecycle {T} (a : act T) : bool :=
  match a with
  | WriteInit _ | WriteDb _ _ | RmCreateDb _ _ | RmFreeDb _ _ => true
  | _ => false
  end.

(** NULL, or the handle of a live database. *)
Definition handle_ok (w : tcam_world) (h : N) : Prop :=
  h = NULL \/ is_Some (rm_view (rm w) !! h).

Definition act_safe {T} (a : act T) (w : tcam_world) : Prop :=
  forall h, act_handle a = Some h -> handle_ok w h.

(** No program of the pool is about to pass the handle of a database
    that is gone. *)
Definition conf_safe (cf : conf) : Prop :=
  forall i T (a : act T) k, cf.1 !! i = Some (Act a k) -> act_safe a cf.2.

(** A program that takes no step of the life cycle, and passes to the
    resource manager only handles of [H] or handles it has read from a
    slot. *)
Fixpoint entry_prog {X} (H : N -> Prop) (p : prog X) : Prop :=
  match p with
  | Ret _ | Fault => True
  | Act a k =>
      act_lifecycle a = false /\
      (forall h, act_handle a = Some h -> H h) /\
      forall r, entry_prog (fun h => H h \/ act_reads a r = Some h) (k r)
  end.

(** The handles a pool of entry operations works with: those the slots
    hold. *)
Definition slot_handle (w : tcam_world) (h : N) : Prop :=
  exists d, h = db_of w d.

(** The calls other than [tf_tcam_bind] and [tf_tcam_unbind]. *)
Definition entry_call (c : tcam_call) : Prop :=
  match c with
  | CallBind _ _ | CallUnbind _ => False
  | _ => True
  end.
End Defs.

Section Conc.
Context {R : RmOps} {L : RmLaws R} {F : MsgOps} {A : TcamAbi}.
Implicit Types (w : tcam_world) (d : tf_dir) (ts : list thread) (cf : conf).

(** ** Schedules and steps *)

Lemma sched_step_conc i cf cf' : sched_step i cf = Some cf' -> conc_step cf cf'.
Proof.
  destruct cf as [ts w]. unfold sched_step; cbn.
  destruct (ts !! i) as [[| |T a k]|] eqn:Hi; try done.
  intros [= <-]. by constructor.
Qed.

Lemma sched_run_conc sched : forall cf cf',
  sched_run sched cf = Some cf' -> rtc conc_step cf cf'.
Proof.
  induction sched as [|i sched IH]; intros cf cf'; cbn.
  { by intros [= <-]. }
  destruct (sched_step i cf) as [cf1|] eqn:Hi; [|done]. intros Hrun.
  eapply rtc_l; [by eapply sched_step_conc|by apply IH].
Qed.

(** The configuration a schedule leads to, or the one it starts from
    when a program it names is at no step. *)
Lemma sched_run_default sched cf :
  let cf' := default cf (sched_run sched cf) in
  rtc conc_step cf (cf'.1, cf'.2).
Proof.
  cbn. destruct (sched_run sched cf) as [[ts' w']|] eqn:Hrun; cbn.
  - by apply (sched_run_conc sched).
  - by destruct cf.
Qed.

(** A program run to its end with no other in between is a run of the
    pool: the calls one after the other are among the interleavings. *)
Lemma run_conc (p : thread) : forall ts i w x w',
  ts !! i = Some p -> run p w = Some (x, w') ->
  rtc conc_step (ts, w) (<[i := Ret x]> ts, w').
Proof.
  induction p as [x| |T a k IH]; intros ts i w y w' Hi; cbn.
  - intros [= <- <-]. by rewrite list_insert_id.
  - done.
  - destruct (act_run a w) as [r w1] eqn:Ha. intros Hrun.
    eapply rtc_l; [by apply (conc_step_act ts w i T a k)|].
    rewrite Ha; cbn.
    replace (<[i := Ret y]> ts) with (<[i := Ret y]> (<[i := k r]> ts))
      by apply list_insert_insert_eq.
    apply (IH r); [|done]. apply list_lookup_insert_eq. by eapply lookup_lt_Some.
Qed.

(** Conversely, a pool of one call goes through the states of its run:
    from whatever configuration it has reached, the run ends as the run
    from the start does. *)
Lemma conc_single (p : thread) w cf :
  rtc conc_step ([p], w) cf -> exists p', cf.1 = [p'] /\ run p' cf.2 = run p w.
Proof.
  intros Hsteps. remember ([p], w) as cf0 eqn:E. revert p w E.
  induction Hsteps as [cf|cf1 cf2 cf3 Hstep _ IH]; intros p w ->; [by exists p|].
  inversion Hstep as [ts w0 i T a k Hi]; subst.
  apply list_lookup_singleton_Some in Hi as [-> ->].
  destruct (IH (k (act_run a w).1) (act_run a w).2 eq_refl) as (p' & Hp' & Hrun).
  exists p'. split; [done|]. rewrite Hrun. cbn. by destruct (act_run a w).
Qed.

(** ** Programs of the entry operations *)

Lemma entry_prog_mono {X} (p : prog X) : forall (H H' : N -> Prop),
  (forall h, H h -> H' h) -> entry_prog H p -> entry_prog H' p.
Proof.
  induction p as [x| |T a k IH]; intros H H' HH; cbn; [done..|].
  intros (Hl & Hh & Hk). split_and!; [done|naive_solver|].
  intros r. eapply (IH r); [|apply Hk]. naive_solver.
Qed.

Lemma entry_prog_pbind {X Y} (m : prog X) (f : X -> prog Y) : forall H,
  entry_prog H m -> (forall x H', (forall h, H h -> H' h) -> entry_prog H' (f x)) ->
  entry_prog H (pbind m f).
Proof.
  induction m as [x| |T a k IH]; intros H; cbn; [by auto|done|].
  intros (Hl & Hh & Hk) Hf. split_and!; [done..|].
  intros r. apply IH; [done|]. intros x H' HH. apply Hf. naive_solver.
Qed.

(** The programs of the entry operations use the handles they read and
    no other. *)
Ltac entry_tac :=
  repeat first
    [ progress (cbn [entry_prog pbind step act_lifecycle act_handle act_reads])
    | progress intros
    | case_match
    | split
    | done
    | naive_solver ].

Lemma tcam_slice_info_entry H tfp d type key_size :
  entry_prog H (tcam_slice_info_prog tfp d type key_size).
Proof. unfold tcam_slice_info_prog. entry_tac. Qed.

Lemma tf_tcam_alloc_entry H tfp parms : entry_prog H (tf_tcam_alloc_prog tfp parms).
Proof.
  unfold tf_tcam_alloc_prog. destruct tfp as [tfp|], parms as [p|]; try done.
  cbn. split_and!; [done..|]. intros i. case_match; [by entry_tac|].
  apply entry_prog_pbind; [apply tcam_slice_info_entry|]. entry_tac.
Qed.

Lemma tf_tcam_free_entry H tfp parms : entry_prog H (tf_tcam_free_prog tfp parms).
Proof.
  unfold tf_tcam_free_prog. destruct tfp as [tfp|], parms as [p|]; try done.
  cbn. split_and!; [done..|]. intros i. case_match; [by entry_tac|].
  apply entry_prog_pbind; [apply tcam_slice_info_entry|]. entry_tac.
Qed.

Lemma tf_tcam_set_entry H tfp parms : entry_prog H (tf_tcam_set_prog tfp parms).
Proof.
  unfold tf_tcam_set_prog. destruct tfp as [tfp|], parms as [p|]; try done.
  cbn. split_and!; [done..|]. intros i. case_match; [by entry_tac|].
  apply entry_prog_pbind; [apply tcam_slice_info_entry|]. entry_tac.
Qed.

Lemma call_prog_entry H c : entry_call c -> entry_prog H (call_prog c).
Proof.
  destruct c; cbn [entry_call call_prog]; try done; intros _.
  - apply tf_tcam_alloc_entry.
  - apply entry_prog_pbind; [apply tf_tcam_free_entry|done].
  - apply entry_prog_pbind; [apply tf_tcam_set_entry|done].
Qed.

(** ** Steps that are no step of the life cycle *)

(** They leave the slots, the flag and the set of live databases as they
    are. *)
Lemma act_run_frame {T} (a : act T) w :
  act_lifecycle a = false -> tcam_frame w (act_run a w).2.
Proof.
  destruct a; cbn [act_lifecycle act_run]; try done; intros _.
  - destruct (tf_rm_allocate p (rm w)) as [[rc i] hp] eqn:E.
    apply rm_allocate_spec in E. case_decide; [|destruct E as [_ Hv]; frame_tac].
    destruct E as (pl & _ & _ & _ & _ & Hv). frame_tac.
  - destruct (tf_rm_free p (rm w)) as [rc hp] eqn:E.
    apply rm_free_spec in E. case_decide; [|frame_tac].
    destruct E as (pl & _ & _ & Hv). frame_tac.
  - by destruct (tf_msg_tcam_entry_set tfp p (fw w)).
  - by destruct (tf_msg_tcam_entry_free tfp p (fw w)).
Qed.

(** What a step reads from a slot is what the slot holds. *)
Lemma act_reads_run {T} (a : act T) w h :
  act_reads a (act_run a w).1 = Some h -> exists d, h = db_of w d.
Proof. destruct a; cbn; try done. intros [= <-]. by eexists. Qed.

Lemma tcam_frame_trans w1 w2 w3 :
  tcam_frame w1 w2 -> tcam_frame w2 w3 -> tcam_frame w1 w3.
Proof. intros (? & ? & ?) (? & ? & ?). split_and!; congruence. Qed.

Lemma slot_handle_ok w w' h :
  tcam_wf w -> tcam_frame w w' -> slot_handle w h -> handle_ok w' h.
Proof.
  intros Hwf (_ & _ & Hdom) [d ->].
  destruct (decide (db_of w d = NULL)) as [|Hn]; [by left|right].
  apply elem_of_dom. rewrite Hdom. apply elem_of_dom. by apply Hwf.
Qed.

(** One step of a pool of entry operations. *)
Lemma conc_step_entry w0 cf cf' :
  Forall (entry_prog (slot_handle w0)) cf.1 -> tcam_frame w0 cf.2 ->
  conc_step cf cf' ->
  Forall (entry_prog (slot_handle w0)) cf'.1 /\ tcam_frame w0 cf'.2.
Proof.
  intros Hts Hf Hstep. destruct Hstep as [ts w i T a k Hi]; cbn in *.
  destruct (proj1 (Forall_lookup _ _) Hts _ _ Hi) as (Hl & _ & Hk). split.
  - apply Forall_insert; [done|]. eapply entry_prog_mono; [|apply Hk].
    intros h [Hh|Hr]; [done|]. apply act_reads_run in Hr as [d ->].
    exists d. apply db_of_frame. by destruct Hf.
  - eapply tcam_frame_trans; [done|]. by apply act_run_frame.
Qed.

Lemma conc_steps_entry w0 cf cf' :
  Forall (entry_prog (slot_handle w0)) cf.1 -> tcam_frame w0 cf.2 ->
  rtc conc_step cf cf' ->
  Forall (entry_prog (slot_handle w0)) cf'.1 /\ tcam_frame w0 cf'.2.
Proof.
  intros Hts Hf Hsteps. induction Hsteps as [|cf1 cf2 cf3 Hstep _ IH]; [done|].
  destruct (conc_step_entry w0 _ _ Hts Hf Hstep). by apply IH.
Qed.

(** C13: calls of [tf_tcam_alloc], [tf_tcam_free], [tf_tcam_set] and of
    the two entry points with an empty body, started together in a state
    that keeps the invariant of the handles and run with their steps in
    any order, leave the slots, the flag and the set of live databases as
    they were, keep the invariant, and at no point is one of them about
    to pass to the resource manager a handle other than NULL or the
    handle of a live database. *)
Theorem conc_entry_safe cs w ts' w' :
  tcam_wf w -> Forall entry_call cs ->
  rtc conc_step (call_prog <$> cs, w) (ts', w') ->
  tcam_frame w w' /\ tcam_wf w' /\ conf_safe (ts', w').
Proof.
  intros Hwf Hcs Hsteps.
  assert (Forall (entry_prog (slot_handle w)) (call_prog <$> cs)) as Hps.
  { apply Forall_fmap. eapply Forall_impl; [done|]. apply call_prog_entry. }
  destruct (conc_steps_entry w (call_prog <$> cs, w) (ts', w') Hps
              (tcam_frame_refl w) Hsteps) as [Hts Hf].
  split_and!; [done|by apply (tcam_frame_wf w)|].
  intros i T a k Hi h Hh. cbn in *.
  destruct (proj1 (Forall_lookup _ _) Hts _ _ Hi) as (_ & Ha & _).
  by apply (slot_handle_ok w), Ha.
Qed.

(** ** An unbind among the entry operations *)

(** A [tf_tcam_alloc] on a bound module takes two steps, the test of
    [init] and the read of its slot, and is then about to call
    [tf_rm_allocate] with the handle it read. *)
Lemma tf_tcam_alloc_prog_reads tfp q p n ts w :
  tcam_ready tfp q w -> q (alloc_type p) (alloc_key_size p) = (0%Z, n) ->
  exists k,
    rtc conc_step (tf_tcam_alloc_prog (Some tfp) (Some p) :: ts, w)
      (Act (RmAllocate {| al_rm_db := db_of w (alloc_dir p);
                          al_db_index := alloc_type p;
                          al_index := alloc_idx p |}) k :: ts, w).
Proof.
  intros [Hi Hq] Hn. eexists.
  eapply rtc_l. { by apply (conc_step_act _ w 0 _ ReadInit). }
  cbn. rewrite (proj2 (N.eqb_neq _ _) Hi).
  rewrite (tcam_slice_info_prog_query _ q), Hn by done. cbn.
  eapply rtc_l. { by apply (conc_step_act _ w 0 _ (ReadDb (alloc_dir p))). }
  cbn. apply rtc_refl.
Qed.

(** A handle of a database that is gone is not safe to pass. *)
Lemma conf_unsafe_dead ts w i ap k :
  ts !! i = Some (Act (RmAllocate ap) k) ->
  al_rm_db ap <> NULL -> rm_view (rm w) !! al_rm_db ap = None ->
  ~ conf_safe (ts, w).
Proof.
  intros Hi Hn Hdead Hsafe.
  destruct (Hsafe i _ _ _ Hi _ eq_refl) as [|[db Hdb]]; [done|].
  cbn in Hdb. congruence.
Qed.

(** C16: the safety of the entry operations among themselves does not
    extend to [tf_tcam_unbind], in any state and with any resource
    manager and device: whenever a [tf_tcam_unbind] returns 0 when run
    alone from a state, a [tf_tcam_alloc] started with it from that state
    can be left, by the steps of the two taken in some order, about to
    call [tf_rm_allocate] with the handle it read from its slot, which was
    the handle of a live database when it read it and is the handle of
    none when the unbind has returned. *)
Theorem conc_unbind_dangling tfp tfu q p n w wu :
  tcam_slots w -> tcam_ready tfp q w ->
  q (alloc_type p) (alloc_key_size p) = (0%Z, n) ->
  tf_tcam_unbind (Some tfu) w = Some (0%Z, wu) ->
  exists ap k,
    let ts := [Act (RmAllocate ap) k; Ret (0%Z, None)] in
    rtc conc_step
      (call_prog <$> [CallAlloc (Some tfp) (Some p); CallUnbind (Some tfu)], w)
      (ts, wu) /\
    al_rm_db ap = db_of w (alloc_dir p) /\ al_db_index ap = alloc_type p /\
    is_Some (rm_view (rm w) !! al_rm_db ap) /\
    rm_view (rm wu) !! al_rm_db ap = None /\
    ~ conf_safe (ts, wu).
Proof.
  intros Hl Hr Hn Hrun. pose proof Hr as [Hi _].
  destruct (tf_tcam_alloc_prog_reads tfp q p n
              [call_prog (CallUnbind (Some tfu))] w Hr Hn) as [k Hsteps].
  pose proof (wp_run_inv _ _ _ _ _ _ (tf_tcam_unbind_spec False tfu w Hl Hi) Hrun)
    as (_ & _ & _ & H).
  rewrite decide_True in H by done. destruct H as (_ & _ & Hrx & Htx & Hv).
  assert (is_Some (rm_view (rm w) !! db_of w (alloc_dir p))) as Hlive
    by (by destruct (alloc_dir p)).
  assert (rm_view (rm wu) !! db_of w (alloc_dir p) = None) as Hdead.
  { rewrite Hv. destruct (alloc_dir p); [|by rewrite lookup_delete_eq].
    apply lookup_delete_None. right. apply lookup_delete_eq. }
  exists {| al_rm_db := db_of w (alloc_dir p); al_db_index := alloc_type p;
            al_index := alloc_idx p |}, k.
  cbn zeta. split_and!; [|done..|].
  - etrans; [apply Hsteps|].
    apply (run_conc (call_prog (CallUnbind (Some tfu))) [_; _] 1 w (0%Z, None) wu);
      [done|].
    rewrite call_prog_run. cbn [tcam_call_run]. unfold bind. by rewrite Hrun.
  - eapply (conf_unsafe_dead _ _ 0); [done| |done].
    by apply (live_not_null (rm w)).
Qed.

(** ** A release between the steps of a write *)

Section SetFree.
Context (tfp : tf) (q : N -> N -> Z * N) (ps : tf_tcam_set_parms)
  (pf : tf_tcam_free_parms) (n n0 : N).
Context (Hps : q (set_type ps) (set_key_size ps) = (0%Z, n))
  (Hn : wrap SLICE_BITS n <> 0%N)
  (Hpf : q (free_type pf) 0%N = (0%Z, n0)) (Hn0 : wrap SLICE_BITS n0 <> 0%N).

Let cs : tcam_call := CallSet (Some tfp) (Some ps).
Let cf : tcam_call := CallFree (Some tfp) (Some pf).
Let i : N := (free_idx pf / wrap SLICE_BITS n0)%N.
Let fw_set (s : fw_state) : fw_state := (tf_msg_tcam_entry_set tfp ps s).2.
Let fw_free (s : fw_state) : fw_state := (tf_msg_tcam_entry_free tfp pf s).2.

(** [tf_tcam_set] run alone on an entry that is allocated. *)
Lemma tf_tcam_set_run pl w :
  tcam_ready tfp q w -> tcam_pool w (set_dir ps) (set_type ps) = Some pl ->
  (set_idx ps / wrap SLICE_BITS n)%N ∈ pool_used pl ->
  exists w1, tcam_call_run cs w = Some ((0%Z, None), w1) /\
    tcam_db w1 = tcam_db w /\ init w1 = init w /\ rm w1 = rm w /\
    fw w1 = fw_set (fw w).
Proof.
  intros Hr Hpl Hin. apply wp_returns. cbn [cs tcam_call_run]. wp_step.
  eapply wp_mono; [by apply (tf_tcam_set_spec False tfp q ps n w)|].
  intros rc w1 (Hdb & Hi & Hrm & H). cbn zeta in H.
  rewrite Hpl, decide_True in H by done. destruct H as (-> & Hfw & _).
  by wp_step.
Qed.

(** [tf_tcam_set] run alone on an entry that is free. *)
Lemma tf_tcam_set_run_free pl w :
  tcam_ready tfp q w -> tcam_pool w (set_dir ps) (set_type ps) = Some pl ->
  (set_idx ps / wrap SLICE_BITS n)%N ∉ pool_used pl ->
  exists w1, tcam_call_run cs w = Some ((0%Z, None), w1) /\ fw w1 = fw w.
Proof.
  intros Hr Hpl Hin. apply wp_returns. cbn [cs tcam_call_run]. wp_step.
  eapply wp_mono; [by apply (tf_tcam_set_spec False tfp q ps n w)|].
  intros rc w1 (Hdb & Hi & Hrm & H). cbn zeta in H.
  rewrite Hpl, decide_False in H by done. destruct H as (-> & ->).
  by wp_step.
Qed.

(** [tf_tcam_free] run alone on an entry that is allocated. *)
Lemma tf_tcam_free_run pl w :
  tcam_wf w -> tcam_ready tfp q w ->
  tcam_pool w (free_dir pf) (free_type pf) = Some pl -> i ∈ pool_used pl ->
  exists w1, tcam_call_run cf w = Some ((0%Z, None), w1) /\
    tcam_ready tfp q w1 /\
    tcam_pool w1 (free_dir pf) (free_type pf) = Some (pool_free i pl) /\
    fw w1 = fw_free (fw w).
Proof.
  intros Hwf Hr Hpl Hin. apply wp_returns. cbn [cf tcam_call_run]. wp_step.
  eapply wp_mono; [by apply (tf_tcam_free_spec False tfp q pf n0 w)|].
  intros rc w1 (Hdb & Hi & H). cbn zeta in H.
  rewrite Hpl, decide_True in H by done. destruct H as (-> & Hv & Hfw & _).
  destruct (tcam_pool_set w w1 _ _ pl _ Hwf Hdb Hpl Hv) as [Hp _].
  wp_step. split_and!; [done| |done..]. destruct Hr. split; congruence.
Qed.

(** A [tf_tcam_set] of an entry that is allocated takes three steps,
    the test of [init], the read of its slot and the query of the
    resource manager, and is then about to write the entry to the
    firmware, which it does whatever the state has become. *)
Lemma tf_tcam_set_prog_checked pl ts w :
  tcam_ready tfp q w -> tcam_pool w (set_dir ps) (set_type ps) = Some pl ->
  (set_idx ps / wrap SLICE_BITS n)%N ∈ pool_used pl ->
  exists k,
    rtc conc_step (call_prog cs :: ts, w) (Act (MsgSet tfp ps) k :: ts, w) /\
    forall w2, exists w3,
      run (Act (MsgSet tfp ps) k) w2 = Some ((0%Z, None), w3) /\
      fw w3 = fw_set (fw w2) /\ rm w3 = rm w2 /\ tcam_db w3 = tcam_db w2.
Proof.
  intros [Hi Hq] Hpl Hin.
  pose (ap := {| ia_rm_db := db_of w (set_dir ps); ia_db_index := set_type ps;
                 ia_index := (set_idx ps / wrap SLICE_BITS n)%N;
                 ia_allocated := 0 |}).
  assert (tf_rm_is_allocated ap (rm w) = (0%Z, 1%Z)) as Hia.
  { destruct (tf_rm_is_allocated ap (rm w)) as [rc a] eqn:E.
    apply rm_is_allocated_spec in E. cbn [ap ia_rm_db ia_db_index ia_index] in E.
    unfold tcam_pool in Hpl. rewrite Hpl, decide_True in E by done.
    by destruct E as [-> ->]. }
  eexists. split.
  - eapply rtc_l. { by apply (conc_step_act _ w 0 _ ReadInit). }
    cbn. rewrite (proj2 (N.eqb_neq _ _) Hi).
    rewrite (tcam_slice_info_prog_query _ q), Hps by done. cbn.
    rewrite (proj2 (N.eqb_neq _ _) Hn).
    eapply rtc_l. { by apply (conc_step_act _ w 0 _ (ReadDb (set_dir ps))). }
    cbn.
    eapply rtc_l. { by apply (conc_step_act _ w 0 _ (RmIsAllocated ap)). }
    cbn. fold ap. rewrite Hia. cbn. apply rtc_refl.
  - intros w2. cbn. destruct (tf_msg_tcam_entry_set tfp ps (fw w2)) as [rc s] eqn:E.
    unfold fw_set. rewrite E. destruct (rc =? 0)%Z; cbn; by eexists.
Qed.

(** C17: the effects of calls in progress together on the firmware are
    not those of the calls in some order.  A [tf_tcam_set] and a
    [tf_tcam_free] of one allocated entry, started together: in some
    order of their steps both return 0, the entry is released, and the
    firmware is sent the release and then the write, so that the last it
    is told of an entry that is free is to program it.  With the two
    calls one after the other, in either order, both return 0 as well and
    the last the firmware is told is the release: after the write when
    the set comes first, and alone when the free does, since the set then
    finds the entry free and sends nothing. *)
Theorem conc_set_free_stale pl w :
  tcam_wf w -> tcam_ready tfp q w ->
  set_dir ps = free_dir pf -> set_type ps = free_type pf ->
  (set_idx ps / wrap SLICE_BITS n)%N = i ->
  tcam_pool w (free_dir pf) (free_type pf) = Some pl -> i ∈ pool_used pl ->
  (exists w',
     rtc conc_step (call_prog <$> [cs; cf], w)
       ([Ret (0%Z, None); Ret (0%Z, None)], w') /\
     tcam_pool w' (free_dir pf) (free_type pf) = Some (pool_free i pl) /\
     fw w' = fw_set (fw_free (fw w))) /\
  (exists w1 w2,
     tcam_call_run cs w = Some ((0%Z, None), w1) /\
     tcam_call_run cf w1 = Some ((0%Z, None), w2) /\
     tcam_pool w2 (free_dir pf) (free_type pf) = Some (pool_free i pl) /\
     fw w2 = fw_free (fw_set (fw w))) /\
  (exists w1 w2,
     tcam_call_run cf w = Some ((0%Z, None), w1) /\
     tcam_call_run cs w1 = Some ((0%Z, None), w2) /\
     fw w2 = fw_free (fw w)).
Proof.
  intros Hwf Hr Hd Ht Hi Hpl Hin.
  assert (tcam_pool w (set_dir ps) (set_type ps) = Some pl) as Hpls by congruence.
  assert ((set_idx ps / wrap SLICE_BITS n)%N ∈ pool_used pl) as Hins by congruence.
  destruct (tf_tcam_free_run pl w Hwf Hr Hpl Hin) as (wf1 & Hf & Hrf & Hpf1 & Hfwf).
  split_and!.
  - destruct (tf_tcam_set_prog_checked pl [call_prog cf] w Hr Hpls Hins)
      as (k & Hsteps & Htail).
    destruct (Htail wf1) as (w3 & Hrun3 & Hfw3 & Hrm3 & Hdb3).
    exists w3. split_and!.
    + etrans; [apply Hsteps|]. etrans.
      * apply (run_conc (call_prog cf) [_; _] 1 w (0%Z, None) wf1); [done|].
        by rewrite call_prog_run.
      * by apply (run_conc (Act (MsgSet tfp ps) k)
                    [Act (MsgSet tfp ps) k; Ret (0%Z, None)] 0 wf1 (0%Z, None) w3).
    + unfold tcam_pool in *. by rewrite Hrm3, (db_of_frame wf1 w3).
    + by rewrite Hfw3, Hfwf.
  - destruct (tf_tcam_set_run pl w Hr Hpls Hins) as (w1 & Hs & Hdb1 & Hi1 & Hrm1 & Hfw1).
    assert (tcam_pool w1 (free_dir pf) (free_type pf) = Some pl) as Hpl1.
    { unfold tcam_pool in *. by rewrite Hrm1, (db_of_frame w w1). }
    assert (tcam_wf w1) as Hwf1 by (apply (tcam_frame_wf w); [frame_tac|done]).
    assert (tcam_ready tfp q w1) as Hr1 by (destruct Hr; split; congruence).
    destruct (tf_tcam_free_run pl w1 Hwf1 Hr1 Hpl1 Hin) as (w2 & Hf2 & _ & Hp2 & Hfw2).
    exists w1, w2. split_and!; [done..|]. by rewrite Hfw2, Hfw1.
  - assert (tcam_pool wf1 (set_dir ps) (set_type ps) = Some (pool_free i pl))
      as Hpl1 by congruence.
    destruct (tf_tcam_set_run_free _ wf1 Hrf Hpl1) as (w2 & Hs2 & Hfw2).
    { rewrite Hi. cbn. set_solver. }
    exists wf1, w2. split_and!; [done..|]. by rewrite Hfw2.
Qed.
End SetFree.
End Conc.

Import RmPool MsgTable Fixtures.

(** ** Pools of calls on the reference resource manager *)

Definition alloc_rx2 : tcam_call :=
  CallAlloc (Some tf_by_type) (Some (alloc_of TF_DIR_RX 2 16)).

Definition free_rx2 : tcam_call :=
  CallFree (Some tf_by_type) (Some (free_of TF_DIR_RX 2 0)).

Definition set_rx2 : tcam_call :=
  CallSet (Some tf_by_type) (Some (set_of TF_DIR_RX 2 0 16)).

Definition unbind_all : tcam_call := CallUnbind (Some tf_by_type).

(** After the [tf_tcam_unbind] of the bound module. *)
Definition w_unbound : tcam_world := exec (tf_tcam_unbind (Some tf_by_type)) w_bound.

Lemma w_unbound_run : tf_tcam_unbind (Some tf_by_type) w_bound = Some (0%Z, w_unbound).
Proof. run_eq. Qed.

Definition bind_cfg4 : tcam_call := CallBind (Some tf_by_type) (Some cfg4).

(** An allocation and a release in progress together, the release
    between the steps of the allocation. *)
Definition cf_alloc_free : conf :=
  let cf := (call_prog <$> [alloc_rx2; free_rx2], w_alloc1) in
  default cf (sched_run [0; 1; 1; 0; 1; 1; 0] cf).

Lemma conc_entry_safe_witness :
  tcam_frame w_alloc1 cf_alloc_free.2 /\ tcam_wf cf_alloc_free.2 /\
  conf_safe (cf_alloc_free.1, cf_alloc_free.2).
Proof.
  apply (conc_entry_safe [alloc_rx2; free_rx2] w_alloc1).
  - apply w_alloc1_wf.
  - by repeat constructor.
  - apply sched_run_default.
Defined.

Lemma conc_unbind_dangling_witness :
  exists ap k,
    let ts := [Act (RmAllocate ap) k; Ret (0%Z, None)] in
    rtc conc_step (call_prog <$> [alloc_rx2; unbind_all], w_bound) (ts, w_unbound) /\
    al_rm_db ap = db_of w_bound TF_DIR_RX /\ al_db_index ap = 2%N /\
    is_Some (rm_view (rm w_bound) !! al_rm_db ap) /\
    rm_view (rm w_unbound) !! al_rm_db ap = None /\
    ~ conf_safe (ts, w_unbound).
Proof.
  exact (conc_unbind_dangling tf_by_type tf_by_type q_by_type
           (alloc_of TF_DIR_RX 2 16) 2 w_bound w_unbound eq_refl
           (ready_by_type w_bound ltac:(discriminate)) eq_refl w_unbound_run).
Defined.

(** A [tf_tcam_alloc] and a [tf_tcam_unbind] in progress together:
    the allocation has tested [init] and read its slot when the unbind
    destroys the database of the receive side; the allocation is then
    about to call [tf_rm_allocate] with the handle it read, which was
    live when it read it, is not NULL, and is the handle of no database
    any more.  What holds of the entry operations among themselves does
    not hold with a [tf_tcam_unbind] among them. *)
Example conc_unbind_race :
  exists ts w p k,
    sched_run [0; 0; 1; 1; 1] (call_prog <$> [alloc_rx2; unbind_all], w_bound)
      = Some (ts, w) /\
    ts !! 0 = Some (Act (RmAllocate p) k) /\
    al_rm_db p = db_of w_bound TF_DIR_RX /\
    is_Some (rm_view (rm w_bound) !! al_rm_db p) /\
    al_rm_db p <> NULL /\ rm_view (rm w) !! al_rm_db p = None /\
    ~ conf_safe (ts, w).
Proof.
  eexists _, _, _, _. split; [reflexivity|]. split; [reflexivity|].
  split_and!; [reflexivity|by eexists|done|reflexivity|].
  intros Hsafe. by destruct (Hsafe 0 _ _ _ eq_refl _ eq_refl) as [|[? ?]].
Qed.

Lemma conc_set_free_stale_witness :
  let fw_set s := (tf_msg_tcam_entry_set tf_by_type (set_of TF_DIR_RX 2 0 16) s).2 in
  let fw_free s := (tf_msg_tcam_entry_free tf_by_type (free_of TF_DIR_RX 2 0) s).2 in
  (exists w',
     rtc conc_step (call_prog <$> [set_rx2; free_rx2], w_alloc1)
       ([Ret (0%Z, None); Ret (0%Z, None)], w') /\
     tcam_pool w' TF_DIR_RX 2 = Some (pool_free 0 pool_1of4) /\
     fw w' = fw_set (fw_free (fw w_alloc1))) /\
  (exists w1 w2,
     tcam_call_run set_rx2 w_alloc1 = Some ((0%Z, None), w1) /\
     tcam_call_run free_rx2 w1 = Some ((0%Z, None), w2) /\
     tcam_pool w2 TF_DIR_RX 2 = Some (pool_free 0 pool_1of4) /\
     fw w2 = fw_free (fw_set (fw w_alloc1))) /\
  (exists w1 w2,
     tcam_call_run free_rx2 w_alloc1 = Some ((0%Z, None), w1) /\
     tcam_call_run set_rx2 w1 = Some ((0%Z, None), w2) /\
     fw w2 = fw_free (fw w_alloc1)).
Proof.
  exact (conc_set_free_stale tf_by_type q_by_type (set_of TF_DIR_RX 2 0 16)
           (free_of TF_DIR_RX 2 0) 2 2 eq_refl ltac:(done) eq_refl ltac:(done)
           pool_1of4 w_alloc1 w_alloc1_wf (ready_by_type w_alloc1 ltac:(discriminate))
           eq_refl eq_refl eq_refl w_alloc1_pool eq_refl).
Defined.

(** The same on the reference firmware, a table of entries.  A
    [tf_tcam_set] and a [tf_tcam_free] of one entry in progress
    together: the set has found the entry allocated when the free
    releases it; the set then writes it to the firmware. *)
Definition cf_set_free : conf :=
  let cf := (call_prog <$> [set_rx2; free_rx2], w_alloc1) in
  default cf (sched_run [0; 0; 0; 1; 1; 1; 1; 1; 1; 1; 0] cf).

(** Both calls return 0, the index is free, and the firmware holds an
    entry at it.  With the two calls one after the other, in either
    order, it holds none. *)
Example conc_set_free_race :
  let key := fw_key TF_DIR_RX 2 0 in
  cf_set_free.1 = [Ret (0%Z, None); Ret (0%Z, None)] /\
  tcam_pool cf_set_free.2 TF_DIR_RX 2 = Some (pool_new 4) /\
  fw cf_set_free.2 !! key = Some ([1; 2]%N, [255; 255]%N, [7]%N) /\
  fw (exec (tcam_call_run free_rx2) (exec (tcam_call_run set_rx2) w_alloc1))
    !! key = None /\
  fw (exec (tcam_call_run set_rx2) (exec (tcam_call_run free_rx2) w_alloc1))
    !! key = None.
Proof. split_and!; reflexivity. Qed.

(** Two calls of [tf_tcam_bind] in progress together: both read [init]
    before either has set it, then each runs to its end. *)
Definition cf_bind_bind : conf :=
  let cf := (call_prog <$> [bind_cfg4; bind_cfg4], w_start) in
  default cf (sched_run ([0; 1] ++ replicate 8 0 ++ replicate 8 1) cf).

(** Both return 0.  Four databases are live and the two slots hold the
    handles of the second call: no [tf_tcam_unbind] will destroy the two
    of the first.  One after the other, the second call is refused. *)
Example conc_bind_race :
  let w := cf_bind_bind.2 in
  cf_bind_bind.1 = [Ret (0%Z, None); Ret (0%Z, None)] /\
  size (dom (rm_view (rm w))) = 4 /\
  size (dom (rm_view (rm w)) ∖ {[db_of w TF_DIR_RX; db_of w TF_DIR_TX]}) = 2 /\
  fst <$> tcam_call_run bind_cfg4 w_bound = Some ((- EINVAL)%Z, None).
Proof. split_and!; reflexivity. Qed.
