(* ===== verification/TcamConcAlloc.v ===== *)
(** * TcamConcAlloc: allocations in progress at the same time

    Calls of [tf_tcam_alloc] for one pool, started together and run with
    their steps in any order ([TcamConc]).  The only step of the call
    that changes what the calls share is [tf_rm_allocate], and the index
    it returns is free at that step; so whatever the order of the steps,
    no two calls are given the same index.  The invariant is an ownership
    map: which call in progress holds which logical index.  A call holds
    an index exactly when it has returned 0, with that index scaled by
    the slice count; the map is injective; and the pool holds, besides
    what it held at the start, the indices of the map and nothing else. *)

From stdpp Require Import relations.
From S2P Require Import Prelude Types Device Rm Msg Tcam TcamRules TcamInv TcamEntry.
From S2P Require Import TcamCapacity TcamProg TcamConc.
From S2P Require RmPool MsgTable Fixtures.

Section Defs.
Context {R : RmOps} {F : MsgOps} {A : TcamAbi}.

(** A pool of calls of [tf_tcam_alloc] through one handle. *)
Definition alloc_calls (tfp : tf) (ps : list tf_tcam_alloc_parms) : list thread :=
  (fun p => call_prog (CallAlloc (Some tfp) (Some p))) <$> ps.

(** A [tf_tcam_alloc] in progress on the pool of type [type] of the
    database [h] of direction [d], with a slice count of [n]; [o] is the
    logical index the call holds.  A call that has not returned holds
    none, reads no slot but that of [d], and allocates from no pool but
    that one; a call that has returned holds an index exactly when it
    returned 0, and then it returned that index, scaled. *)
Fixpoint alloc_thread (d : tf_dir) (type n h : N) (o : option N) (th : thread)
  : Prop :=
  match th with
  | Ret (rc, po) =>
      if decide (rc = 0%Z)
      then exists l, o = Some l /\ alloc_idx <$> po = Some (hw_index l n)
      else o = None
  | Fault => o = None
  | Act a k =>
      o = None /\
      match a in act T return (T -> thread) -> Prop with
      | ReadInit => fun k => forall i, alloc_thread d type n h None (k i)
      | Log _ => fun k => alloc_thread d type n h None (k tt)
      | ReadDb d' => fun k => d' = d /\ alloc_thread d type n h None (k h)
      | RmAllocate p => fun k =>
          al_rm_db p = h /\ al_db_index p = type /\
          forall rc i,
            alloc_thread d type n h (if decide (rc = 0%Z) then Some i else None)
                         (k (rc, i))
      | _ => fun _ => False
      end k
  end.

(** The invariant of the pool of calls started in state [w0] with the
    pool [pl]: the map [own] from the calls to the indices they hold. *)
Record alloc_inv (d : tf_dir) (type n : N) (w0 : tcam_world) (pl : rm_pool)
    (own : gmap nat N) (cf : conf) : Prop := {
  inv_wf : tcam_wf cf.2;
  inv_frame : tcam_db cf.2 = tcam_db w0 /\ init cf.2 = init w0 /\ fw cf.2 = fw w0;
  inv_others d' type' :
    (d', type') <> (d, type) -> tcam_pool cf.2 d' type' = tcam_pool w0 d' type';
  inv_thread j th :
    cf.1 !! j = Some th -> alloc_thread d type n (db_of cf.2 d) (own !! j) th;
  inv_dom j l : own !! j = Some l -> is_Some (cf.1 !! j);
  inv_inj j1 j2 l : own !! j1 = Some l -> own !! j2 = Some l -> j1 = j2;
  inv_free j l : own !! j = Some l -> (l < pool_size pl)%N /\ l ∉ pool_used pl;
  inv_pool :
    tcam_pool cf.2 d type =
      Some {| pool_size := pool_size pl;
              pool_used := map_img own ∪ pool_used pl |};
}.
End Defs.

Section Conc.
Context {R : RmOps} {L : RmLaws R} {F : MsgOps} {A : TcamAbi}.
Implicit Types (w : tcam_world) (d : tf_dir) (ts : list thread) (cf : conf).
Implicit Types (own : gmap nat N) (pl : rm_pool).

(** ** The program of an allocation *)

Lemma tf_tcam_alloc_thread tfp q p n h :
  tf_slice_query tfp = Some q ->
  q (alloc_type p) (alloc_key_size p) = (0%Z, n) ->
  alloc_thread (alloc_dir p) (alloc_type p) n h None
    (tf_tcam_alloc_prog (Some tfp) (Some p)).
Proof.
  unfold tf_slice_query, tf_tcam_alloc_prog, tcam_slice_info_prog.
  destruct (tf_session_get_session tfp) as [|tfs]; [done|].
  destruct (tf_session_get_device tfs) as [|dev]; [done|].
  intros -> Hn. rewrite Hn. cbn. split; [done|]. intros i.
  destruct (i =? 0)%N; cbn; [done|]. split_and!; try done.
  intros rc l. destruct (Z.eqb_spec rc 0) as [->|Hrc]; cbn.
  - by exists l.
  - by rewrite !decide_False.
Qed.

(** ** Steps of a pool of allocations *)

Section Step.
Context (d : tf_dir) (type n : N) (w0 : tcam_world) (pl : rm_pool).

(** A step that takes no index. *)
Lemma alloc_inv_quiet own ts w w' i th th' :
  alloc_inv d type n w0 pl own (ts, w) ->
  ts !! i = Some th -> own !! i = None ->
  tcam_frame w w' -> rm_view (rm w') = rm_view (rm w) -> fw w' = fw w ->
  alloc_thread d type n (db_of w d) None th' ->
  alloc_inv d type n w0 pl own (<[i := th']> ts, w').
Proof.
  intros [Hwf Hfr Hoth Hth Hdom Hinj Hfree Hpool] Hi Ho Hf Hv Hfw Hth'; cbn in *.
  assert (forall d', db_of w' d' = db_of w d') as Hdb.
  { intros d'. apply db_of_frame. by destruct Hf. }
  assert (forall d' t', tcam_pool w' d' t' = tcam_pool w d' t') as Hpl.
  { intros d' t'. unfold tcam_pool. by rewrite Hdb, Hv. }
  split; cbn; try done.
  - by apply (tcam_frame_wf w).
  - destruct Hf as (-> & -> & _). by rewrite Hfw.
  - intros d' t' Hne. rewrite Hpl. by apply Hoth.
  - intros j thj [(<- & <- & _)|[Hne Hj]]%list_lookup_insert_Some; rewrite Hdb.
    + by rewrite Ho.
    + by apply Hth.
  - intros j l Hj. apply lookup_lt_is_Some. rewrite length_insert.
    apply lookup_lt_is_Some. by eapply Hdom.
  - by rewrite Hpl.
Qed.

(** The step that takes index [l]. *)
Lemma alloc_inv_take own ts w w' i th th' plc l :
  alloc_inv d type n w0 pl own (ts, w) ->
  ts !! i = Some th -> own !! i = None ->
  view_pool (rm_view (rm w)) (db_of w d) type = Some plc ->
  (l < pool_size plc)%N -> l ∉ pool_used plc ->
  tcam_db w' = tcam_db w -> init w' = init w -> fw w' = fw w ->
  rm_view (rm w') =
    view_set_pool (rm_view (rm w)) (db_of w d) type (pool_alloc l plc) ->
  alloc_thread d type n (db_of w d) (Some l) th' ->
  alloc_inv d type n w0 pl (<[i := l]> own) (<[i := th']> ts, w').
Proof.
  intros [Hwf Hfr Hoth Hth Hdom Hinj Hfree Hpool] Hi Ho Hplc Hlt Hl Hdb Hin Hfw
    Hv Hth'.
  cbn in *. unfold tcam_pool in Hpool. rewrite Hplc in Hpool.
  injection Hpool as ->. cbn in Hlt, Hl.
  assert (tcam_frame w w') as Hf by frame_tac.
  destruct (tcam_pool_set w w' d type _ (pool_alloc l _) Hwf Hdb Hplc Hv)
    as [Hpl' Hoth'].
  split; cbn.
  - by apply (tcam_frame_wf w).
  - by rewrite Hdb, Hin, Hfw.
  - intros d' t' Hne. rewrite Hoth' by done. by apply Hoth.
  - intros j thj [(<- & <- & _)|[Hne Hj]]%list_lookup_insert_Some;
      rewrite (db_of_frame w w') by done.
    + by rewrite lookup_insert_eq.
    + rewrite lookup_insert_ne by done. by apply Hth.
  - intros j l' Hj. apply lookup_lt_is_Some. rewrite length_insert.
    apply lookup_lt_is_Some.
    destruct (decide (i = j)) as [<-|Hne]; [by eexists|].
    rewrite lookup_insert_ne in Hj by done. by eapply Hdom.
  - intros j1 j2 l' [[<- <-]|[Hn1 H1]]%lookup_insert_Some
      [[<- Hl2]|[Hn2 H2]]%lookup_insert_Some; try done.
    + destruct Hl. apply elem_of_union_l, elem_of_map_img. by exists j2.
    + destruct Hl. subst l'. apply elem_of_union_l, elem_of_map_img. by exists j1.
    + by eapply Hinj.
  - intros j l' [[<- <-]|[Hne Hj]]%lookup_insert_Some; [|by eapply Hfree].
    set_solver.
  - rewrite Hpl'. unfold pool_alloc; cbn. do 2 f_equal.
    rewrite map_img_insert_notin_L by done. set_solver.
Qed.

(** One step of the pool. *)
Lemma conc_step_alloc own cf cf' :
  alloc_inv d type n w0 pl own cf -> conc_step cf cf' ->
  exists own', alloc_inv d type n w0 pl own' cf'.
Proof.
  intros Hinv Hstep. destruct Hstep as [ts w i T a k Hi].
  destruct (inv_thread _ _ _ _ _ _ _ Hinv _ _ Hi) as [Ho Ha]; cbn in Ho, Ha.
  destruct a; try done; cbn [act_run fst snd].
  - exists own. eapply alloc_inv_quiet; [done..|apply Ha].
  - destruct Ha as [-> Ha]. exists own. by eapply alloc_inv_quiet.
  - exists own. eapply alloc_inv_quiet; [done..|frame_tac|done|done|done].
  - destruct Ha as (Hh & Ht & Ha).
    destruct (tf_rm_allocate p (rm w)) as [[rc l] hp] eqn:E; cbn [fst snd].
    specialize (Ha rc l). apply rm_allocate_spec in E. rewrite Hh, Ht in E.
    case_decide.
    + destruct E as (plc & Hplc & Hlt & Hl & _ & Hv).
      exists (<[i := l]> own). by eapply alloc_inv_take.
    + destruct E as [_ Hv]. exists own.
      eapply alloc_inv_quiet; [done..|frame_tac|done|done|done].
Qed.

Lemma conc_steps_alloc own cf cf' :
  alloc_inv d type n w0 pl own cf -> rtc conc_step cf cf' ->
  exists own', alloc_inv d type n w0 pl own' cf'.
Proof.
  intros Hinv Hsteps. revert own Hinv.
  induction Hsteps as [|cf1 cf2 cf3 Hstep _ IH]; intros own Hinv; [by exists own|].
  destruct (conc_step_alloc own _ _ Hinv Hstep) as [own' Hinv']. by eapply IH.
Qed.

(** The calls before their first step hold no index. *)
Lemma alloc_inv_start tfp q ps :
  tcam_wf w0 -> tf_slice_query tfp = Some q ->
  Forall (fun p => alloc_dir p = d /\ alloc_type p = type /\
                   q type (alloc_key_size p) = (0%Z, n)) ps ->
  tcam_pool w0 d type = Some pl ->
  alloc_inv d type n w0 pl ∅ (alloc_calls tfp ps, w0).
Proof.
  intros Hwf Hq Hps Hpl. split; cbn; try done.
  - intros j th (p & -> & Hp)%list_lookup_fmap_Some.
    destruct (proj1 (Forall_lookup _ _) Hps _ _ Hp) as (<- & <- & Hn).
    by apply (tf_tcam_alloc_thread tfp q).
  - rewrite Hpl, map_img_empty_L, (left_id_L ∅ (∪)). by destruct pl.
Qed.

(** The invariant holds as far as the pool runs. *)
Lemma conc_alloc_inv tfp q ps cf :
  tcam_wf w0 -> tf_slice_query tfp = Some q ->
  Forall (fun p => alloc_dir p = d /\ alloc_type p = type /\
                   q type (alloc_key_size p) = (0%Z, n)) ps ->
  tcam_pool w0 d type = Some pl ->
  rtc conc_step (alloc_calls tfp ps, w0) cf ->
  exists own, alloc_inv d type n w0 pl own cf.
Proof.
  intros Hwf Hq Hps Hpl. apply (conc_steps_alloc ∅).
  by apply (alloc_inv_start tfp q).
Qed.

(** What the invariant says of the calls that have returned. *)
Lemma alloc_inv_returned own ts w j l :
  n <> 0%N -> fits SLICE_BITS n -> fits idx_bits (pool_size pl * n) ->
  alloc_inv d type n w0 pl own (ts, w) ->
  own !! j = Some l <->
  exists po, ts !! j = Some (Ret (0%Z, po)) /\ alloc_idx <$> po = Some (l * n)%N.
Proof.
  intros Hn Hs Hfit Hinv.
  assert (forall l', own !! j = Some l' -> hw_index l' n = (l' * n)%N) as Hx.
  { intros l' [Hlt _]%(inv_free _ _ _ _ _ _ _ Hinv). apply hw_index_exact; [done..|].
    apply (fits_mono _ (pool_size pl * n)); [nia|done]. }
  split.
  - intros Hj. destruct (inv_dom _ _ _ _ _ _ _ Hinv _ _ Hj) as [th Hth].
    pose proof (inv_thread _ _ _ _ _ _ _ Hinv _ _ Hth) as Ht. rewrite Hj in Ht.
    destruct th as [[rc po]| |T a k]; cbn in Ht, Hth; [|done|by destruct Ht].
    case_decide; [|done]. destruct Ht as (l' & [= <-] & Hpo). subst rc.
    exists po. by rewrite <- (Hx l).
  - intros (po & Hth & Hpo).
    pose proof (inv_thread _ _ _ _ _ _ _ Hinv _ _ Hth) as Ht; cbn in Ht.
    rewrite decide_True in Ht by done. destruct Ht as (l' & Hj & Hpo').
    rewrite (Hx l' Hj), Hpo in Hpo'. rewrite Hj. f_equal.
    injection Hpo' as Heq. nia.
Qed.
End Step.

(** The calls of a pool of allocations that have returned 0, one in each
    of two places of the pool, did not return the same index. *)
Lemma alloc_inv_distinct d type n w0 pl own ts w j1 j2 p1 p2 :
  n <> 0%N -> fits SLICE_BITS n -> fits idx_bits (pool_size pl * n) ->
  alloc_inv d type n w0 pl own (ts, w) ->
  ts !! j1 = Some (Ret (0%Z, Some p1)) -> ts !! j2 = Some (Ret (0%Z, Some p2)) ->
  alloc_idx p1 = alloc_idx p2 -> j1 = j2.
Proof.
  intros Hn Hs Hfit Hinv H1 H2 Heq.
  pose proof (inv_thread _ _ _ _ _ _ _ Hinv _ _ H1) as (l1 & Ho1 & [= Hl1]).
  pose proof (inv_thread _ _ _ _ _ _ _ Hinv _ _ H2) as (l2 & Ho2 & [= Hl2]).
  destruct (inv_free _ _ _ _ _ _ _ Hinv _ _ Ho1) as [Hlt1 _].
  destruct (inv_free _ _ _ _ _ _ _ Hinv _ _ Ho2) as [Hlt2 _].
  rewrite Heq, Hl2 in Hl1.
  apply (hw_index_inj n (pool_size pl)) in Hl1; try done. subst l2.
  by eapply (inv_inj _ _ _ _ _ _ _ Hinv).
Qed.

(** C15: calls of [tf_tcam_alloc] through one handle for the pool of one
    direction and type, with one slice count, started together on a bound
    module and run with their steps in any order, as far as any number of
    steps: when the slice count is not 0 and the capacity of the pool
    times the slice count fits the index field there is a map from the calls to logical indices such
    that a call is in the map exactly when it has returned 0, and then
    the index it returned is its index of the map times the slice count;
    no two calls have the same index; each index was free at the start
    and is below the capacity; the pool holds, besides what it held at
    the start, exactly the indices of the map; and every other pool, the
    slots, [init] and the firmware are as they were. *)
Theorem conc_alloc_distinct tfp q d type n pl ps w ts' w' :
  tcam_wf w -> tcam_ready tfp q w ->
  Forall (fun p => alloc_dir p = d /\ alloc_type p = type /\
                   q type (alloc_key_size p) = (0%Z, n)) ps ->
  n <> 0%N -> fits SLICE_BITS n ->
  tcam_pool w d type = Some pl ->
  fits idx_bits (pool_size pl * n) ->
  rtc conc_step (alloc_calls tfp ps, w) (ts', w') ->
  exists own : gmap nat N,
    (forall j l,
       own !! j = Some l <->
       exists po, ts' !! j = Some (Ret (0%Z, po)) /\
                  alloc_idx <$> po = Some (l * n)%N) /\
    (forall j1 j2 l, own !! j1 = Some l -> own !! j2 = Some l -> j1 = j2) /\
    (forall j l, own !! j = Some l -> (l < pool_size pl)%N /\ l ∉ pool_used pl) /\
    tcam_pool w' d type =
      Some {| pool_size := pool_size pl;
              pool_used := map_img own ∪ pool_used pl |} /\
    (forall d' type', (d', type') <> (d, type) ->
       tcam_pool w' d' type' = tcam_pool w d' type') /\
    tcam_db w' = tcam_db w /\ init w' = init w /\ fw w' = fw w.
Proof.
  intros Hwf [_ Hq] Hps Hn Hs Hpl Hfit Hsteps.
  destruct (conc_alloc_inv d type n w pl tfp q ps _ Hwf Hq Hps Hpl Hsteps)
    as [own Hinv].
  exists own. split_and!; [| | | |apply (inv_others _ _ _ _ _ _ _ Hinv)
                          |apply (inv_frame _ _ _ _ _ _ _ Hinv)..].
  - intros j l. by apply (alloc_inv_returned d type n w pl own ts' w').
  - apply (inv_inj _ _ _ _ _ _ _ Hinv).
  - apply (inv_free _ _ _ _ _ _ _ Hinv).
  - apply (inv_pool _ _ _ _ _ _ _ Hinv).
Qed.

(** In particular no two of the calls return the same index. *)
Corollary conc_alloc_no_duplicate tfp q d type n pl ps w ts' w' j1 j2 p1 p2 :
  tcam_wf w -> tcam_ready tfp q w ->
  Forall (fun p => alloc_dir p = d /\ alloc_type p = type /\
                   q type (alloc_key_size p) = (0%Z, n)) ps ->
  n <> 0%N -> fits SLICE_BITS n ->
  tcam_pool w d type = Some pl ->
  fits idx_bits (pool_size pl * n) ->
  rtc conc_step (alloc_calls tfp ps, w) (ts', w') ->
  ts' !! j1 = Some (Ret (0%Z, Some p1)) -> ts' !! j2 = Some (Ret (0%Z, Some p2)) ->
  j1 <> j2 -> alloc_idx p1 <> alloc_idx p2.
Proof.
  intros Hwf [_ Hq] Hps Hn Hs Hpl Hfit Hsteps H1 H2 Hne Heq.
  destruct (conc_alloc_inv d type n w pl tfp q ps _ Hwf Hq Hps Hpl Hsteps)
    as [own Hinv].
  by apply Hne, (alloc_inv_distinct d type n w pl own ts' w' j1 j2 p1 p2).
Qed.
End Conc.

Import RmPool MsgTable Fixtures.

(** ** Two allocations on the reference resource manager *)

(** Two allocations of type 2 on the receive side, the second at its
    [tf_rm_allocate] before the first. *)
Definition cf_alloc2 : conf :=
  let cf := (alloc_calls tf_by_type
               [alloc_of TF_DIR_RX 2 16; alloc_of TF_DIR_RX 2 32], w_bound) in
  default cf (sched_run [0; 1; 0; 1; 1; 0] cf).

(** The second call is given logical index 0 and the first logical
    index 1, which are hardware indices 0 and 2. *)
Lemma cf_alloc2_returned :
  cf_alloc2.1 =
    [Ret (0%Z, Some (set_alloc_idx 2 (alloc_of TF_DIR_RX 2 16)));
     Ret (0%Z, Some (set_alloc_idx 0 (alloc_of TF_DIR_RX 2 32)))].
Proof. reflexivity. Qed.

Lemma conc_alloc_distinct_witness :
  exists own : gmap nat N,
    (forall j l,
       own !! j = Some l <->
       exists po, cf_alloc2.1 !! j = Some (Ret (0%Z, po)) /\
                  alloc_idx <$> po = Some (l * 2)%N) /\
    (forall j1 j2 l, own !! j1 = Some l -> own !! j2 = Some l -> j1 = j2) /\
    (forall j l, own !! j = Some l -> (l < 4)%N /\ l ∉ (∅ : gset N)) /\
    tcam_pool cf_alloc2.2 TF_DIR_RX 2 =
      Some {| pool_size := 4; pool_used := map_img own ∪ ∅ |} /\
    (forall d' type', (d', type') <> (TF_DIR_RX, 2%N) ->
       tcam_pool cf_alloc2.2 d' type' = tcam_pool w_bound d' type') /\
    tcam_db cf_alloc2.2 = tcam_db w_bound /\ init cf_alloc2.2 = init w_bound /\
    fw cf_alloc2.2 = fw w_bound.
Proof.
  apply (conc_alloc_distinct tf_by_type q_by_type TF_DIR_RX 2 2 (pool_new 4)
           [alloc_of TF_DIR_RX 2 16; alloc_of TF_DIR_RX 2 32] w_bound).
  - apply w_bound_wf.
  - by split.
  - by repeat constructor.
  - done.
  - by vm_compute.
  - reflexivity.
  - by vm_compute.
  - apply sched_run_default.
Defined.
