(* ===== verification/TcamConcRefine.v ===== *)
(** * TcamConcRefine: calls in progress together implement the abstract machine

    A call of [tf_tcam_alloc], [tf_tcam_free] or [tf_tcam_set] that
    returns 0 has one step at which it takes effect: the [tf_rm_allocate]
    or the [tf_rm_free] that returns 0, which are the only steps that
    change a database; for a [tf_tcam_free] that finds the entry free and
    for a [tf_tcam_set], the [tf_rm_is_allocated] that returns 0.  At
    that step the abstract machine ([TcamSpec]) can make the call with
    code 0, from the abstraction of the state before the step to that of
    the state after.  So, run with their steps in any order ([TcamConc]),
    the calls take effect one at a time: the state a pool of calls
    reaches is the state that its calls that return 0, made one after
    the other in the order of their effects, reach in the abstract
    machine. *)

From stdpp Require Import relations.
From S2P Require Import Prelude Types Device Rm Msg Tcam TcamRules TcamInv TcamLife.
From S2P Require Import TcamEntry TcamSpec TcamRefine TcamProg TcamConc.
From S2P Require RmPool MsgTable Fixtures.

Section Defs.
Context {R : RmOps} {F : MsgOps} {A : TcamAbi}.

(** A step that leaves the slots, the flag and the databases as they
    are. *)
Definition act_quiet {T} (a : act T) : bool :=
  match a with
  | ReadInit | ReadDb _ | Log _ | RmIsAllocated _ | MsgSet _ _ | MsgFree _ _ => true
  | _ => false
  end.

(** The code of a call of the resource manager that changes a pool. *)
Definition act_rc {T} (a : act T) : T -> Z :=
  match a in act T return T -> Z with
  | RmAllocate _ => fun r => r.1
  | RmFree _ => fun r => r
  | _ => fun _ => 0%Z
  end.

(** The three entry operations. *)
Definition is_op (c : tcam_call) : bool :=
  match c with
  | CallAlloc _ _ | CallFree _ _ | CallSet _ _ => true
  | _ => false
  end.

Section Thread.
Context (w0 : tcam_world).

(** What a read of the flag or of a slot yields while they are as in
    [w0]. *)
Definition act_yields {T} (a : act T) : T -> Prop :=
  match a in act T return T -> Prop with
  | ReadInit => fun r => r = init w0
  | ReadDb d => fun r => r = db_of w0 d
  | _ => fun _ => True
  end.

(** The step at which call [c] takes effect: the module is bound, the
    handle of the call resolves to a slice query that succeeds, and the
    resource manager is passed the slot of the direction, the type and,
    for a release, the index divided by the slice count. *)
Definition act_effect (c : tcam_call) {T} (a : act T) : Prop :=
  match a with
  | RmAllocate ap =>
      exists tfp p q n,
        c = CallAlloc (Some tfp) (Some p) /\ tcam_ready tfp q w0 /\
        q (alloc_type p) (alloc_key_size p) = (0%Z, n) /\
        al_rm_db ap = db_of w0 (alloc_dir p) /\ al_db_index ap = alloc_type p
  | RmFree fp =>
      exists tfp p q n,
        c = CallFree (Some tfp) (Some p) /\ tcam_ready tfp q w0 /\
        q (free_type p) 0%N = (0%Z, n) /\
        fr_rm_db fp = db_of w0 (free_dir p) /\ fr_db_index fp = free_type p /\
        fr_index fp = (free_idx p / wrap SLICE_BITS n)%N
  | _ => False
  end.

(** The query at which call [c] takes effect without changing a
    database: the module is bound, the handle resolves to a slice query
    that succeeds, the resource manager is asked about the slot of the
    direction and the type, its code is 0, and for a release the index
    is the one of the call divided by the slice count and is reported
    free. *)
Definition act_check (c : tcam_call) {T} (a : act T) : T -> Prop :=
  match a in act T return T -> Prop with
  | RmIsAllocated ap => fun r =>
      r.1 = 0%Z /\
      ((exists tfp p q n,
          c = CallFree (Some tfp) (Some p) /\ tcam_ready tfp q w0 /\
          q (free_type p) 0%N = (0%Z, n) /\
          ia_rm_db ap = db_of w0 (free_dir p) /\ ia_db_index ap = free_type p /\
          ia_index ap = (free_idx p / wrap SLICE_BITS n)%N /\ r.2 = 0%Z) \/
       (exists tfp p q n,
          c = CallSet (Some tfp) (Some p) /\ tcam_ready tfp q w0 /\
          q (set_type p) (set_key_size p) = (0%Z, n) /\
          ia_rm_db ap = db_of w0 (set_dir p) /\ ia_db_index ap = set_type p))
  | _ => fun _ => False
  end.

(** A call that has taken effect: it changes no database any more, and
    returns 0. *)
Fixpoint after_effect (th : thread) : Prop :=
  match th with
  | Ret (rc, _) => rc = 0%Z
  | Fault => True
  | Act a k => act_quiet a = true /\ forall r, after_effect (k r)
  end.

(** A call [c] that has not: a step that changes no database leaves it
    so or is its effect; its next step that may change one is its effect
    when it returns 0; and of the three entry operations none returns 0
    before its effect. *)
Fixpoint before_effect (c : tcam_call) (th : thread) : Prop :=
  match th with
  | Ret (rc, _) => is_op c = true -> rc <> 0%Z
  | Fault => True
  | Act a k =>
      if act_quiet a
      then forall r, act_yields a r ->
                     before_effect c (k r) \/ act_check c a r /\ after_effect (k r)
      else act_effect c a /\
           forall r, if decide (act_rc a r = 0%Z) then after_effect (k r)
                     else before_effect c (k r)
  end.
End Thread.

(** The call at place [j] of a pool of the calls [cs], [lin] being the
    calls that have taken effect, each with its place. *)
Definition thread_inv (cs : list tcam_call) (w0 : tcam_world)
    (lin : list (nat * tcam_call)) (j : nat) (th : thread) : Prop :=
  if decide (j ∈ lin.*1) then after_effect th
  else exists c, cs !! j = Some c /\ before_effect w0 c th.

(** The invariant of a pool of the calls [cs] started in [w0]: [lin]
    lists the calls that have taken effect in the order of their
    effects, and the abstract machine has made them in that order. *)
Record serial_inv (cs : list tcam_call) (w0 : tcam_world)
    (lin : list (nat * tcam_call)) (cf : conf) : Prop := {
  ser_wf : tcam_wf cf.2;
  ser_frame : tcam_frame w0 cf.2;
  ser_nodup : NoDup lin.*1;
  ser_calls j c : (j, c) ∈ lin -> cs !! j = Some c;
  ser_run : abs_run (abs_of w0) ((fun jc => (jc.2, 0%Z)) <$> lin) (abs_of cf.2);
  ser_thread j th : cf.1 !! j = Some th -> thread_inv cs w0 lin j th;
}.
End Defs.

Section Conc.
Context {R : RmOps} {L : RmLaws R} {F : MsgOps} {A : TcamAbi}.
Implicit Types (w : tcam_world) (d : tf_dir) (ts : list thread) (cf : conf).
Implicit Types (c : tcam_call) (lin : list (nat * tcam_call)).

(** ** The programs of the entry operations *)

(** The lookup of the slice count is a program of no step that returns
    the count of a query that succeeded, or one that fails, after at most
    a log line. *)
Lemma slice_info_prog_cases tfp d type ks :
  (exists q n, tf_slice_query tfp = Some q /\ q type ks = (0%Z, n) /\
     tcam_slice_info_prog tfp d type ks = Ret (0%Z, wrap SLICE_BITS n)) \/
  (exists rc n, rc <> 0%Z /\
     (tcam_slice_info_prog tfp d type ks = Ret (rc, n) \/
      tcam_slice_info_prog tfp d type ks =
        Act (Log (LogNotSupported d rc)) (fun _ => Ret (rc, n)))).
Proof.
  unfold tcam_slice_info_prog, tf_slice_query, tf_session_get_session,
    tf_session_get_device.
  destruct tfp as [[[[[[[q|]]]|]]|]]; cbn; [|right; eexists _, _; split; eauto; done..].
  destruct (q type ks) as [rc n] eqn:Hq.
  destruct (decide (rc = 0%Z)) as [->|Hrc]; [left|right]; eauto 10.
Qed.

(** Unfold [before_effect] and [after_effect] along a program and split
    on the codes it tests. *)
Ltac before_tac :=
  repeat first
    [ progress cbn [before_effect after_effect pbind step act_quiet act_yields
                    act_rc act_effect act_check is_op fst snd negb]
    | progress intros
    | progress subst
    | case_decide
    | done
    | match goal with |- _ \/ False /\ _ => left end
    | split
    | match goal with
      | |- context [(?rc =? 0)%Z] => destruct (Z.eqb_spec rc 0)
      end ].

(** The cases of the lookup of the slice count; the failures are closed. *)
Ltac slice_cases tfp d type ks :=
  let q := fresh "q" in let n := fresh "n" in let rc := fresh "rc" in
  let Hq := fresh "Hq" in let Hn := fresh "Hn" in let Hrc := fresh "Hrc" in
  destruct (slice_info_prog_cases tfp d type ks)
    as [(q & n & Hq & Hn & ->)|(rc & n & Hrc & [->| ->])];
  [|cbn; before_tac..].

Lemma tf_tcam_alloc_before w0 tfp parms :
  before_effect w0 (CallAlloc tfp parms) (tf_tcam_alloc_prog tfp parms).
Proof.
  unfold tf_tcam_alloc_prog. destruct tfp as [tfp|], parms as [p|]; try done.
  cbn. intros i ->. left. destruct (N.eqb_spec (init w0) 0) as [|Hb]; [before_tac|].
  slice_cases tfp (alloc_dir p) (alloc_type p) (alloc_key_size p).
  cbn. intros h ->. left. split; [by exists tfp, p, q, n|].
  intros [rc l]. before_tac.
Qed.

Lemma tf_tcam_free_before w0 tfp parms :
  before_effect w0 (CallFree tfp parms)
    (pbind (tf_tcam_free_prog tfp parms) (fun rc => Ret (rc, None))).
Proof.
  unfold tf_tcam_free_prog. destruct tfp as [tfp|], parms as [p|]; try done.
  cbn. intros i ->. left. destruct (N.eqb_spec (init w0) 0) as [|Hb]; [before_tac|].
  slice_cases tfp (free_dir p) (free_type p) 0%N.
  cbn. destruct (wrap SLICE_BITS n =? 0)%N; [done|]. cbn.
  intros h ->. left. intros [rc a] _. cbn.
  destruct (Z.eqb_spec rc 0) as [->|]; cbn; [|by left].
  destruct (Z.eqb_spec a 0) as [->|]; cbn.
  { right. split; [|done]. split; [done|left]. by exists tfp, p, q, n. }
  left. intros h ->. left. split; [by exists tfp, p, q, n|]. before_tac.
Qed.

Lemma tf_tcam_set_before w0 tfp parms :
  before_effect w0 (CallSet tfp parms)
    (pbind (tf_tcam_set_prog tfp parms) (fun rc => Ret (rc, None))).
Proof.
  unfold tf_tcam_set_prog. destruct tfp as [tfp|], parms as [p|]; try done.
  cbn. intros i ->. left. destruct (N.eqb_spec (init w0) 0) as [|Hb]; [before_tac|].
  slice_cases tfp (set_dir p) (set_type p) (set_key_size p).
  cbn. destruct (wrap SLICE_BITS n =? 0)%N; [done|]. cbn.
  intros h ->. left. intros [rc a] _. cbn.
  destruct (Z.eqb_spec rc 0) as [->|]; cbn; [|by left].
  right. split; [split; [done|right; by exists tfp, p, q, n]|].
  destruct (a =? 0)%Z; before_tac.
Qed.

(** No call of an entry operation has taken effect before its first
    step. *)
Lemma call_prog_before w0 c : entry_call c -> before_effect w0 c (call_prog c).
Proof.
  destruct c; cbn [entry_call call_prog]; try done; intros _.
  - apply tf_tcam_alloc_before.
  - apply tf_tcam_free_before.
  - apply tf_tcam_set_before.
Qed.
(** ** Steps *)

Lemma act_quiet_run {T} (a : act T) w :
  act_quiet a = true ->
  tcam_db (act_run a w).2 = tcam_db w /\ init (act_run a w).2 = init w /\
  rm_view (rm (act_run a w).2) = rm_view (rm w).
Proof.
  destruct a; try done; intros _; cbn.
  - by destruct (tf_msg_tcam_entry_set tfp p (fw w)).
  - by destruct (tf_msg_tcam_entry_free tfp p (fw w)).
Qed.

Lemma act_yields_run {T} (a : act T) w0 w :
  tcam_frame w0 w -> act_yields w0 a (act_run a w).1.
Proof.
  intros (Hdb & Hi & _). destruct a; cbn; try done. by apply db_of_frame.
Qed.

Section Step.
Context (cs : list tcam_call) (w0 : tcam_world).

(** A step that changes no database. *)
Lemma serial_inv_quiet lin ts w w' i th th' :
  serial_inv cs w0 lin (ts, w) -> ts !! i = Some th ->
  tcam_db w' = tcam_db w -> init w' = init w ->
  rm_view (rm w') = rm_view (rm w) ->
  thread_inv cs w0 lin i th' ->
  serial_inv cs w0 lin (<[i := th']> ts, w').
Proof.
  intros [Hwf Hfr Hnd Hcs Hrun Hth] Hi Hdb Hin Hv Hth'; cbn in *.
  assert (tcam_frame w w') as Hf by frame_tac.
  split; cbn; try done.
  - by apply (tcam_frame_wf w).
  - by apply (tcam_frame_trans w0 w).
  - by rewrite (abs_of_frame w w').
  - intros j thj [(<- & <- & _)|[Hne Hj]]%list_lookup_insert_Some; [done|].
    by apply Hth.
Qed.

(** The step at which the call at [i] takes effect. *)
Lemma serial_inv_effect lin ts w w' i th th' c p :
  serial_inv cs w0 lin (ts, w) -> ts !! i = Some th ->
  i ∉ lin.*1 -> cs !! i = Some c -> tcam_frame w w' ->
  abs_step (abs_of w) c 0 p (abs_of w') -> after_effect th' ->
  serial_inv cs w0 (lin ++ [(i, c)]) (<[i := th']> ts, w').
Proof.
  intros [Hwf Hfr Hnd Hcs Hrun Hth] Hi Hni Hc Hf Hstep Hth'; cbn in *.
  split; cbn.
  - by apply (tcam_frame_wf w).
  - by apply (tcam_frame_trans w0 w).
  - rewrite fmap_app. apply NoDup_app. split_and!; [done|set_solver|].
    by apply NoDup_singleton.
  - intros j c' [Hin|[= -> ->]%list_elem_of_singleton]%elem_of_app; [|done].
    by apply Hcs.
  - rewrite fmap_app. by apply (abs_run_snoc _ _ (abs_of w) _ _ p).
  - intros j thj [(<- & <- & _)|[Hne Hj]]%list_lookup_insert_Some.
    + unfold thread_inv. rewrite decide_True; [done|]. rewrite fmap_app.
      set_solver.
    + specialize (Hth j thj Hj). unfold thread_inv in *. rewrite fmap_app.
      destruct (decide (j ∈ lin.*1)).
      * rewrite decide_True; [done|set_solver].
      * rewrite decide_False; [done|set_solver].
Qed.

(** The effect of an allocation. *)
Lemma serial_inv_allocate lin ts w i c (ap : tf_rm_allocate_parms) k :
  serial_inv cs w0 lin (ts, w) -> ts !! i = Some (Act (RmAllocate ap) k) ->
  i ∉ lin.*1 -> cs !! i = Some c -> act_effect w0 c (RmAllocate ap) ->
  (forall r, if decide (r.1 = 0%Z) then after_effect (k r)
             else before_effect w0 c (k r)) ->
  exists lin',
    serial_inv cs w0 lin'
      (<[i := k (act_run (RmAllocate ap) w).1]> ts, (act_run (RmAllocate ap) w).2).
Proof.
  intros Hinv Hi Hni Hc (tfp & p & q & n & -> & [Hb Hq] & Hn & Hh & Ht) Hk.
  pose proof (ser_wf _ _ _ _ Hinv) as Hwf.
  destruct (ser_frame _ _ _ _ Hinv) as (Hdb & Hin & _); cbn in Hwf, Hdb, Hin.
  cbn [act_run]. destruct (tf_rm_allocate ap (rm w)) as [[rc l] hp] eqn:E.
  cbn [fst snd]. specialize (Hk (rc, l)). cbn [fst] in Hk.
  apply rm_allocate_spec in E.
  rewrite Hh, Ht, <- (db_of_frame w0 w) in E by done. case_decide.
  - destruct E as (pl & Hpl & Hlt & Hl & _ & Hv).
    exists (lin ++ [(i, CallAlloc (Some tfp) (Some p))]).
    eapply (serial_inv_effect _ _ _ (set_rm hp w)); [done..|frame_tac| |done].
    rewrite (abs_of_set_pool w (set_rm hp w) _ _ pl _ Hwf eq_refl eq_refl Hpl Hv).
    apply (abs_alloc_ok _ tfp q p n pl l); rewrite ?abs_pool_of; try done.
    apply abs_bound_of. by rewrite Hin.
  - destruct E as [_ Hv]. exists lin.
    eapply serial_inv_quiet; [done..|]. unfold thread_inv.
    rewrite decide_False by done. by exists (CallAlloc (Some tfp) (Some p)).
Qed.

(** The effect of a release. *)
Lemma serial_inv_free lin ts w i c (fp : tf_rm_free_parms) k :
  serial_inv cs w0 lin (ts, w) -> ts !! i = Some (Act (RmFree fp) k) ->
  i ∉ lin.*1 -> cs !! i = Some c -> act_effect w0 c (RmFree fp) ->
  (forall r, if decide (r = 0%Z) then after_effect (k r)
             else before_effect w0 c (k r)) ->
  exists lin',
    serial_inv cs w0 lin'
      (<[i := k (act_run (RmFree fp) w).1]> ts, (act_run (RmFree fp) w).2).
Proof.
  intros Hinv Hi Hni Hc (tfp & p & q & n & -> & [Hb Hq] & Hn & Hh & Ht & Hx) Hk.
  pose proof (ser_wf _ _ _ _ Hinv) as Hwf.
  destruct (ser_frame _ _ _ _ Hinv) as (Hdb & Hin & _); cbn in Hwf, Hdb, Hin.
  cbn [act_run]. destruct (tf_rm_free fp (rm w)) as [rc hp] eqn:E.
  cbn [fst snd]. specialize (Hk rc). apply rm_free_spec in E.
  rewrite Hh, Ht, Hx, <- (db_of_frame w0 w) in E by done. case_decide.
  - destruct E as (pl & Hpl & Hl & Hv).
    exists (lin ++ [(i, CallFree (Some tfp) (Some p))]).
    eapply (serial_inv_effect _ _ _ (set_rm hp w)); [done..|frame_tac| |done].
    rewrite (abs_of_set_pool w (set_rm hp w) _ _ pl _ Hwf eq_refl eq_refl Hpl Hv).
    apply (abs_free_ok _ tfp q p n pl); rewrite ?abs_pool_of; try done.
    apply abs_bound_of. by rewrite Hin.
  - exists lin. eapply serial_inv_quiet; [done..|]. unfold thread_inv.
    rewrite decide_False by done. by exists (CallFree (Some tfp) (Some p)).
Qed.

(** The effect of a release that finds the entry free, and of a write. *)
Lemma serial_inv_check lin ts w i c {T} (a : act T) k :
  serial_inv cs w0 lin (ts, w) -> ts !! i = Some (Act a k) ->
  i ∉ lin.*1 -> cs !! i = Some c ->
  act_check w0 c a (act_run a w).1 -> after_effect (k (act_run a w).1) ->
  exists lin', serial_inv cs w0 lin' (<[i := k (act_run a w).1]> ts, (act_run a w).2).
Proof.
  intros Hinv Hi Hni Hc Hchk Hk. destruct a; try done. cbn in *.
  pose proof (ser_wf _ _ _ _ Hinv) as Hwf.
  destruct (ser_frame _ _ _ _ Hinv) as (Hdb & Hin & _); cbn in Hwf, Hdb, Hin.
  destruct (tf_rm_is_allocated p (rm w)) as [rc al] eqn:E.
  apply rm_is_allocated_spec in E. cbn [fst snd] in *.
  destruct Hchk as [-> Hchk].
  destruct (view_pool _ _ _) as [pl|] eqn:Hpl; [|by destruct E].
  destruct E as [_ ->]. exists (lin ++ [(i, c)]).
  eapply (serial_inv_effect _ _ _ w); [done..|apply tcam_frame_refl| |done].
  destruct Hchk as [(tfp & p' & q & n & -> & [Hb Hq] & Hn & Hh & Ht & Hx & Hal)
                   |(tfp & p' & q & n & -> & [Hb Hq] & Hn & Hh & Ht)];
    rewrite Hh, Ht, <- (db_of_frame w0 w) in Hpl by done.
  - rewrite Hx in Hal. case_decide; [done|].
    apply (abs_free_noop _ tfp q p' n pl); rewrite ?abs_pool_of; try done.
    apply abs_bound_of. by rewrite Hin.
  - apply (abs_set_ok _ tfp q p' n pl); rewrite ?abs_pool_of; try done.
    apply abs_bound_of. by rewrite Hin.
Qed.

(** One step of the pool. *)
Lemma conc_step_serial lin cf cf' :
  serial_inv cs w0 lin cf -> conc_step cf cf' ->
  exists lin', serial_inv cs w0 lin' cf'.
Proof.
  intros Hinv Hstep. destruct Hstep as [ts w i T a k Hi].
  pose proof (ser_thread _ _ _ _ Hinv _ _ Hi) as Hth. unfold thread_inv in Hth.
  pose proof (act_yields_run a w0 w (ser_frame _ _ _ _ Hinv)) as Hy.
  destruct (decide (i ∈ lin.*1)) as [Hin|Hni].
  - destruct Hth as [Hq Hk]. destruct (act_quiet_run a w Hq) as (? & ? & ?).
    exists lin. eapply serial_inv_quiet; [done..|]. unfold thread_inv.
    by rewrite decide_True.
  - destruct Hth as (c & Hc & Hth). cbn in Hth.
    destruct (act_quiet a) eqn:Hq.
    + destruct (Hth _ Hy) as [Hk|[Hchk Hk]]; [|by eapply serial_inv_check].
      destruct (act_quiet_run a w Hq) as (? & ? & ?).
      exists lin. eapply serial_inv_quiet; [done..|]. unfold thread_inv.
      rewrite decide_False by done. by exists c.
    + destruct Hth as [He Hk]. destruct a; try done.
      * by eapply serial_inv_allocate.
      * by eapply serial_inv_free.
Qed.

Lemma conc_steps_serial lin cf cf' :
  serial_inv cs w0 lin cf -> rtc conc_step cf cf' ->
  exists lin', serial_inv cs w0 lin' cf'.
Proof.
  intros Hinv Hsteps. revert lin Hinv.
  induction Hsteps as [|cf1 cf2 cf3 Hstep _ IH]; intros lin Hinv; [by exists lin|].
  destruct (conc_step_serial lin _ _ Hinv Hstep) as [lin' Hinv']. by eapply IH.
Qed.
End Step.

(** The invariant holds as far as a pool of entry operations runs. *)
Lemma conc_serial_inv cs w cf :
  tcam_wf w -> Forall entry_call cs ->
  rtc conc_step (call_prog <$> cs, w) cf ->
  exists lin, serial_inv cs w lin cf.
Proof.
  intros Hwf Hcs. apply (conc_steps_serial cs w []).
  split; cbn; [done|done|constructor|set_solver|constructor|].
  intros j th (c & -> & Hc)%list_lookup_fmap_Some. unfold thread_inv; cbn.
  rewrite decide_False by set_solver. exists c. split; [done|].
  apply call_prog_before. by apply (proj1 (Forall_lookup _ _) Hcs j).
Qed.

(** C14: calls of [tf_tcam_alloc], [tf_tcam_free], [tf_tcam_set] and of
    the two entry points with an empty body, started together in a state
    that keeps the invariant of the handles and run with their steps in
    any order, as far as any number of steps.  Some of the calls, each
    at most once, made one after the other in some order, each returning
    0, take the abstract machine from the abstraction of the state at the
    start to the abstraction of the state reached: the order of the steps
    produces no state of the databases that the calls could not produce
    one at a time.  Each of those calls returns 0 when it returns, and
    every call of [tf_tcam_alloc], [tf_tcam_free] or [tf_tcam_set] that
    has returned 0 is among them. *)
Theorem conc_entry_serial cs w ts' w' :
  tcam_wf w -> Forall entry_call cs ->
  rtc conc_step (call_prog <$> cs, w) (ts', w') ->
  exists lin : list (nat * tcam_call),
    NoDup lin.*1 /\
    (forall j c, (j, c) ∈ lin -> cs !! j = Some c) /\
    abs_run (abs_of w) ((fun jc => (jc.2, 0%Z)) <$> lin) (abs_of w') /\
    (forall j rc po,
       j ∈ lin.*1 -> ts' !! j = Some (Ret (rc, po)) -> rc = 0%Z) /\
    (forall j c po,
       cs !! j = Some c -> is_op c = true ->
       ts' !! j = Some (Ret (0%Z, po)) -> j ∈ lin.*1).
Proof.
  intros Hwf Hcs Hsteps.
  destruct (conc_serial_inv cs w _ Hwf Hcs Hsteps) as [lin Hinv]. exists lin.
  split_and!; [apply (ser_nodup _ _ _ _ Hinv)|apply (ser_calls _ _ _ _ Hinv)
              |apply (ser_run _ _ _ _ Hinv)| |].
  - intros j rc po Hj Hth. apply (ser_thread _ _ _ _ Hinv) in Hth.
    unfold thread_inv in Hth. by rewrite decide_True in Hth.
  - intros j c po Hc Ha Hth. apply (ser_thread _ _ _ _ Hinv) in Hth.
    unfold thread_inv in Hth. destruct (decide (j ∈ lin.*1)); [done|].
    destruct Hth as (c' & Hc' & Hth). simplify_eq. by destruct (Hth Ha).
Qed.
End Conc.

Import RmPool MsgTable Fixtures.

(** ** An allocation and a release on the reference resource manager *)

(** The allocation and the release of [cf_alloc_free], run to their
    ends: the allocation takes effect first. *)
Definition cf_alloc_free_end : conf :=
  let cf := (call_prog <$> [alloc_rx2; free_rx2], w_alloc1) in
  default cf (sched_run [0; 1; 1; 0; 1; 1; 0; 1; 1; 1] cf).

Lemma conc_entry_serial_witness :
  exists lin : list (nat * tcam_call),
    NoDup lin.*1 /\
    (forall j c, (j, c) ∈ lin -> [alloc_rx2; free_rx2] !! j = Some c) /\
    abs_run (abs_of w_alloc1) ((fun jc => (jc.2, 0%Z)) <$> lin)
      (abs_of cf_alloc_free_end.2) /\
    (forall j rc po,
       j ∈ lin.*1 -> cf_alloc_free_end.1 !! j = Some (Ret (rc, po)) -> rc = 0%Z) /\
    (forall j c po,
       [alloc_rx2; free_rx2] !! j = Some c -> is_op c = true ->
       cf_alloc_free_end.1 !! j = Some (Ret (0%Z, po)) -> j ∈ lin.*1).
Proof.
  apply (conc_entry_serial [alloc_rx2; free_rx2] w_alloc1).
  - apply w_alloc1_wf.
  - by repeat constructor.
  - apply sched_run_default.
Defined.

(** Both calls have returned 0: index 1 is allocated and index 0 is
    free. *)
Lemma cf_alloc_free_end_returned :
  cf_alloc_free_end.1 =
    [Ret (0%Z, Some (set_alloc_idx 2 (alloc_of TF_DIR_RX 2 16))); Ret (0%Z, None)] /\
  tcam_pool cf_alloc_free_end.2 TF_DIR_RX 2 =
    Some {| pool_size := 4; pool_used := {[1%N]} |}.
Proof. split; reflexivity. Qed.
